(** * MZGF: a blocked, seekable gzip container (slagelwa/mzgzip)

    Shallow embedding of [src/MZGFile.h], [src/MZGFile.cpp] and of the
    decompression loop of the command-line front end, followed by the
    theorems that settle the statements of the specification.

    Conventions of the embedding.
    - A byte ([uint8_t], [byte_t]) is a [Z] in [0, 256); a C array is a
      [list Z]; a pointer into an array is the array together with an
      index.  Fixed-width integers are [Z] with the wrap-around written
      out where the code converts ([uint8_t], [uint16_t], [uint32_t],
      [uint64_t], [int32_t] below).  [off_t], [ssize_t] and [time_t] are
      64-bit ([-D_FILE_OFFSET_BITS=64]); they are unbounded [Z] here, file
      sizes being far below 2^63.
    - [FILE *] streams are records holding the file contents, the position
      and the end-of-file and error indicators.
    - zlib is an external library: its entry points are the fields of the
      class [zlib], and every function of the embedding is parametric in
      an instance.
    - Every expression [errno || -1] and [ret || -1] of the source is a
      logical or with a non-zero right operand: its value is [1]. *)

From stdpp Require Import base numbers list strings.
Open Scope Z_scope.

(** ** Machine integers and buffers *)

Definition uint8_t (v : Z) : Z := v `mod` 2 ^ 8.
Definition uint16_t (v : Z) : Z := v `mod` 2 ^ 16.
Definition uint32_t (v : Z) : Z := v `mod` 2 ^ 32.
Definition uint64_t (v : Z) : Z := v `mod` 2 ^ 64.
Definition int32_t (v : Z) : Z := (v + 2 ^ 31) `mod` 2 ^ 32 - 2 ^ 31.

(** Length of an array as a C integer. *)
Definition len (l : list Z) : Z := Z.of_nat (length l).

(** [memcpy(buf, bs, |bs|)] and [fread(buf, 1, n, fp)]: the bytes [bs] land
    at the start of [buf], the rest of [buf] is untouched. *)
Definition store (bs buf : list Z) : list Z := bs ++ drop (length bs) buf.

(** The first [n] bytes of an array, and the array from index [p] on. *)
Definition prefix (n : Z) (buf : list Z) : list Z := take (Z.to_nat n) buf.
Definition from (p : Z) (buf : list Z) : list Z := drop (Z.to_nat p) buf.

(** ** Constants of MZGFile.h and MZGFile.cpp *)

Definition MZGF_VERSION : Z := 1.
Definition MZGF_BLOCK_SIZE : Z := 0xff00.
Definition MZGF_MAX_BLOCK_SIZE : Z := 0x10000.

Definition MZGF_FERROR : Z := 0x1.
Definition MZGF_NOT_GZIP : Z := 0x3.
Definition MZGF_NOT_MZGZIP : Z := 0x4.
Definition MZGF_ERR_HEADER : Z := 0x5.
Definition MZGF_BAD_FORMAT : Z := 0x6.
Definition MZGF_BAD_VERSION : Z := 0x7.

Definition GZIP_MAGIC_ID1 : Z := 0x1f.
Definition GZIP_MAGIC_ID2 : Z := 0x8b.
Definition GZIP_CM_DEFLATED : Z := 8.
Definition GZIP_FEXTRA_FLG : Z := 0x04.
Definition GZIP_FEXTRA_MAX : Z := 0xFFFF.
(** [GZIP_OS] is chosen by the preprocessor; the makefile builds with g++
    on Linux, where it is 3. *)
Definition GZIP_OS : Z := 3.

(** zlib.h *)
Definition Z_OK : Z := 0.
Definition Z_STREAM_END : Z := 1.
Definition Z_STREAM_ERROR : Z := -2.
Definition Z_BUF_ERROR : Z := -5.
Definition Z_FULL_FLUSH : Z := 3.
Definition Z_FINISH : Z := 4.
Definition Z_BLOCK : Z := 5.

(** Character codes of the subfield identifiers. *)
Definition chr_B : Z := 66.
Definition chr_I : Z := 73.
Definition chr_M : Z := 77.
Definition chr_O : Z := 79.
Definition chr_Z : Z := 90.

(** [sizeof(gzheader)], [sizeof(extra_mzgf)], [sizeof(extra_eof)],
    [sizeof(bindex_t)], [sizeof(uint64_t)]. *)
Definition sizeof_gzheader : Z := 12.
Definition sizeof_extra_mzgf : Z := 5.
Definition sizeof_extra_eof : Z := 20.
Definition sizeof_extra_bindex : Z := GZIP_FEXTRA_MAX.
Definition sizeof_bindex_t : Z := 16.

(** ** The byte packer (MZGFile.cpp, lines 148--200)

    A pointer argument [&a[p]] is the pair of the array [a] and the index
    [p].  A store outside the array is undefined in C; stdpp's insert
    leaves the list unchanged there.  A load outside the array is [None]. *)

Definition packInt16 (buffer : list Z) (p : nat) (value : Z) : list Z :=
  let value := uint16_t value in
  let buffer := <[p := uint8_t value]> buffer in
  <[(p + 1)%nat := uint8_t (value ≫ 8)]> buffer.

Definition packInt32 (buffer : list Z) (p : nat) (value : Z) : list Z :=
  let value := uint32_t value in
  let buffer := <[p := uint8_t value]> buffer in
  let buffer := <[(p + 1)%nat := uint8_t (value ≫ 8)]> buffer in
  let buffer := <[(p + 2)%nat := uint8_t (value ≫ 16)]> buffer in
  <[(p + 3)%nat := uint8_t (value ≫ 24)]> buffer.

Definition packInt64 (buffer : list Z) (p : nat) (value : Z) : list Z :=
  let value := uint64_t value in
  let buffer := <[p := uint8_t value]> buffer in
  let buffer := <[(p + 1)%nat := uint8_t (value ≫ 8)]> buffer in
  let buffer := <[(p + 2)%nat := uint8_t (value ≫ 16)]> buffer in
  let buffer := <[(p + 3)%nat := uint8_t (value ≫ 24)]> buffer in
  let buffer := <[(p + 4)%nat := uint8_t (value ≫ 32)]> buffer in
  let buffer := <[(p + 5)%nat := uint8_t (value ≫ 40)]> buffer in
  let buffer := <[(p + 6)%nat := uint8_t (value ≫ 48)]> buffer in
  <[(p + 7)%nat := uint8_t (value ≫ 56)]> buffer.

(** [buffer[0] | buffer[1] << 8], computed in [int]. *)
Definition unpackInt16 (buffer : list Z) (p : nat) : option Z :=
  b0 ← buffer !! p;
  b1 ← buffer !! (p + 1)%nat;
  Some (Z.lor b0 (b1 ≪ 8)).

(** The accumulator [r] is a [uint32_t]: every [r |= ...] truncates to 32
    bits.  The source reads a fifth byte, [buffer[4] << 32], which the
    truncation discards. *)
Definition unpackInt32 (buffer : list Z) (p : nat) : option Z :=
  b0 ← buffer !! p;
  b1 ← buffer !! (p + 1)%nat;
  b2 ← buffer !! (p + 2)%nat;
  b3 ← buffer !! (p + 3)%nat;
  b4 ← buffer !! (p + 4)%nat;
  let r := uint32_t b0 in
  let r := uint32_t (Z.lor r (uint64_t (b1 ≪ 8))) in
  let r := uint32_t (Z.lor r (uint64_t (b2 ≪ 16))) in
  let r := uint32_t (Z.lor r (uint64_t (b3 ≪ 24))) in
  let r := uint32_t (Z.lor r (uint64_t (b4 ≪ 32))) in
  Some r.

Definition unpackInt64 (buffer : list Z) (p : nat) : option Z :=
  b0 ← buffer !! p;
  b1 ← buffer !! (p + 1)%nat;
  b2 ← buffer !! (p + 2)%nat;
  b3 ← buffer !! (p + 3)%nat;
  b4 ← buffer !! (p + 4)%nat;
  b5 ← buffer !! (p + 5)%nat;
  b6 ← buffer !! (p + 6)%nat;
  b7 ← buffer !! (p + 7)%nat;
  let r := uint64_t b0 in
  let r := Z.lor r (uint64_t (b1 ≪ 8)) in
  let r := Z.lor r (uint64_t (b2 ≪ 16)) in
  let r := Z.lor r (uint64_t (b3 ≪ 24)) in
  let r := Z.lor r (uint64_t (b4 ≪ 32)) in
  let r := Z.lor r (uint64_t (b5 ≪ 40)) in
  let r := Z.lor r (uint64_t (b6 ≪ 48)) in
  let r := Z.lor r (uint64_t (b7 ≪ 56)) in
  Some r.

(** ** The C standard streams used by the code

    A stream is a regular file: its bytes, the file position, and the
    end-of-file and error indicators.  A stream opened for writing holds in
    [f_script] what the device will accept: the head of the list bounds the
    number of bytes the next [fwrite] transfers; an empty script means that
    every later write is complete.  As in C, a short write sets the error
    indicator, and the indicator stays set (the code never calls
    [clearerr]). *)

Record FILE := mkFILE {
  f_data : list Z;
  f_pos : Z;
  f_eof : bool;
  f_err : bool;
  f_script : list Z
}.

Definition feof (fp : FILE) : bool := f_eof fp.
Definition ferror (fp : FILE) : bool := f_err fp.
Definition ftell (fp : FILE) : Z := f_pos fp.

(** [fread(buf, 1, n, fp)]: the bytes obtained and the stream afterwards.
    The end-of-file indicator is set when fewer than [n] bytes are left. *)
Definition fread (n : Z) (fp : FILE) : list Z * FILE :=
  let got := prefix n (from (f_pos fp) (f_data fp)) in
  (got, mkFILE (f_data fp) (f_pos fp + len got)
               (f_eof fp || (len got <? n)) (f_err fp) (f_script fp)).

(** [fwrite(bs, 1, |bs|, fp)] on a stream opened with ["wb"] and never
    repositioned: the bytes accepted are appended. *)
Definition fwrite (bs : list Z) (fp : FILE) : Z * FILE :=
  match f_script fp with
  | [] =>
      (len bs, mkFILE (f_data fp ++ bs) (f_pos fp + len bs)
                      (f_eof fp) (f_err fp) [])
  | k :: script =>
      let done := prefix k bs in
      (len done, mkFILE (f_data fp ++ done) (f_pos fp + len done)
                        (f_eof fp) (f_err fp || (len done <? len bs)) script)
  end.

(** [fseek(fp, off, SEEK_SET)] and [fseek(fp, off, SEEK_END)]: a negative
    resulting position is refused ([EINVAL]); a successful seek clears the
    end-of-file indicator. *)
Definition fseek_set (off : Z) (fp : FILE) : Z * FILE :=
  if off <? 0 then (-1, fp)
  else (0, mkFILE (f_data fp) off false (f_err fp) (f_script fp)).

Definition fseek_end (off : Z) (fp : FILE) : Z * FILE :=
  fseek_set (len (f_data fp) + off) fp.

(** A freshly opened stream over the bytes [data] ([fopen(path, "rb")]),
    and a freshly created empty one ([fopen(path, "wb")]). *)
Definition fopen_rb (data : list Z) : FILE := mkFILE data 0 false false [].
Definition fopen_wb (script : list Z) : FILE := mkFILE [] 0 false false script.

(** What [fopen] and [stat] see: the files that exist, by path. *)
Definition filesystem := string → option (list Z).

(** ** zlib

    The DEFLATE engine and the checksum are external.  A call
    [::deflate(&m_zs, flush)] or [::inflate(&m_zs, flush)] receives the
    engine state, the [avail_in] bytes at [next_in], the flush mode and
    [avail_out]; it answers with the return code, the new state, the number
    of input bytes consumed and the bytes produced. *)

Record zresult (S : Type) := mkZresult {
  z_ret : Z;
  z_state : S;
  z_used : Z;
  z_out : list Z
}.
Arguments mkZresult {S} _ _ _ _.
Arguments z_ret {S} _.
Arguments z_state {S} _.
Arguments z_used {S} _.
Arguments z_out {S} _.

Class zlib := {
  dstate : Type;
  istate : Type;
  (** [deflateInit2(&m_zs, Z_DEFAULT_COMPRESSION, Z_DEFLATED, -15, 8,
      Z_DEFAULT_STRATEGY)]: return code and initial state. *)
  deflateInit2 : Z * dstate;
  zdeflate : dstate → list Z → Z → Z → zresult dstate;
  (** [inflateInit2(&m_zs, -15)] *)
  inflateInit2 : Z * istate;
  zinflate : istate → list Z → Z → Z → zresult istate;
  (** [::crc32(crc, buf, len)], and [::crc32(0L, NULL, 0L)] *)
  crc32 : Z → list Z → Z;
  crc32_init : Z
}.

(** The part of a [z_stream] the code touches.  [next_in] is an index into
    the input array of the object ([m_ublock] for the writer, [m_zblock]
    for the reader); [next_out] is reset to the start of the output array
    before every call and is not kept. *)
Record z_stream (S : Type) := mkZstream {
  zs_state : S;
  next_in : Z;
  avail_in : Z;
  avail_out : Z
}.
Arguments mkZstream {S} _ _ _ _.
Arguments zs_state {S} _.
Arguments next_in {S} _.
Arguments avail_in {S} _.
Arguments avail_out {S} _.

(** One engine call on a stream whose input array is [inbuf].  zlib never
    consumes more than [avail_in] bytes nor produces more than [avail_out]:
    the counts an instance reports are clamped accordingly.  The result is
    the return code, the stream afterwards, and the bytes written at
    [next_out]. *)
Definition zcall {S : Type} (engine : S → list Z → Z → Z → zresult S)
    (inbuf : list Z) (flush : Z) (zs : z_stream S) : Z * z_stream S * list Z :=
  let input := prefix (avail_in zs) (from (next_in zs) inbuf) in
  let r := engine (zs_state zs) input flush (avail_out zs) in
  let used := Z.max 0 (Z.min (z_used r) (len input)) in
  let out := prefix (avail_out zs) (z_out r) in
  (z_ret r,
   mkZstream (z_state r) (next_in zs + used) (avail_in zs - used)
             (avail_out zs - len out),
   out).

(** The stream and engine operations are kept folded by [simpl] and [cbn];
    proofs unfold them where they reason about them. *)
Arguments len : simpl never.
Arguments store : simpl never.
Arguments prefix : simpl never.
Arguments from : simpl never.
Arguments fread : simpl never.
Arguments fwrite : simpl never.
Arguments fseek_set : simpl never.
Arguments fseek_end : simpl never.
Arguments zcall : simpl never.

(** The value of [m_error]. *)
Inductive errmsg :=
| no_error                         (* the empty string *)
| strerror_errno                   (* std::strerror(errno) *)
| zError (ret : Z)                 (* zError(ret) *)
| message (s : string).

(** ** File-scope arrays of MZGFile.cpp (lines 114--146)

    [extra_mzgf], [extra_eof] and [extra_bindex] are shared by every writer
    and reader of the process; both classes read and overwrite them. *)

Definition gzheader : list Z :=
  [GZIP_MAGIC_ID1; GZIP_MAGIC_ID2; 8; GZIP_FEXTRA_FLG; 0; 0; 0; 0; 0; GZIP_OS; 0; 0].

Record statics := mkStatics {
  extra_mzgf : list Z;
  extra_eof : list Z;
  extra_bindex : list Z
}.

Definition statics_init : statics :=
  mkStatics
    [chr_M; chr_Z; 1; 0; MZGF_VERSION]
    ([chr_B; chr_O; 16; 0] ++ replicate 16 0)
    ([chr_B; chr_I] ++ replicate (Z.to_nat (GZIP_FEXTRA_MAX - 2)) 0).

(** Block indices. *)
Record bindex_t := mkBindex {
  zoffset : Z;          (* offset of block in compressed stream *)
  uoffset : Z           (* offset of block in uncompressed stream *)
}.

(** [m_bindex.size()] *)
Definition len_bindex (ix : list bindex_t) : Z := Z.of_nat (length ix).

(** ** class MZGFileWriter *)

Module MZGFileWriter.
Section with_zlib.
Context `{Zl : zlib}.

(** The members of the class, and [globals] for the file-scope arrays the
    member functions read and overwrite.  [m_fp] is the destination stream
    the caller hands to [deflate]. *)
Record t := mk {
  m_version : Z;
  m_mtime : Z;
  m_fp : FILE;
  m_zs : z_stream dstate;
  m_ublock : list Z;
  m_uoffset : Z;
  m_ucrc32 : Z;
  m_usize : Z;
  m_zblock : list Z;
  m_zoffset : Z;
  m_bindex : list bindex_t;
  m_bindex_offset : Z;
  m_error : errmsg;
  globals : statics
}.

Definition set_fp (v : FILE) (w : t) : t :=
  mk (m_version w) (m_mtime w) v (m_zs w) (m_ublock w) (m_uoffset w)
     (m_ucrc32 w) (m_usize w) (m_zblock w) (m_zoffset w) (m_bindex w)
     (m_bindex_offset w) (m_error w) (globals w).
Definition set_zs (v : z_stream dstate) (w : t) : t :=
  mk (m_version w) (m_mtime w) (m_fp w) v (m_ublock w) (m_uoffset w)
     (m_ucrc32 w) (m_usize w) (m_zblock w) (m_zoffset w) (m_bindex w)
     (m_bindex_offset w) (m_error w) (globals w).
Definition set_ublock (v : list Z) (w : t) : t :=
  mk (m_version w) (m_mtime w) (m_fp w) (m_zs w) v (m_uoffset w)
     (m_ucrc32 w) (m_usize w) (m_zblock w) (m_zoffset w) (m_bindex w)
     (m_bindex_offset w) (m_error w) (globals w).
Definition set_uoffset (v : Z) (w : t) : t :=
  mk (m_version w) (m_mtime w) (m_fp w) (m_zs w) (m_ublock w) v
     (m_ucrc32 w) (m_usize w) (m_zblock w) (m_zoffset w) (m_bindex w)
     (m_bindex_offset w) (m_error w) (globals w).
Definition set_ucrc32 (v : Z) (w : t) : t :=
  mk (m_version w) (m_mtime w) (m_fp w) (m_zs w) (m_ublock w) (m_uoffset w)
     v (m_usize w) (m_zblock w) (m_zoffset w) (m_bindex w)
     (m_bindex_offset w) (m_error w) (globals w).
Definition set_usize (v : Z) (w : t) : t :=
  mk (m_version w) (m_mtime w) (m_fp w) (m_zs w) (m_ublock w) (m_uoffset w)
     (m_ucrc32 w) v (m_zblock w) (m_zoffset w) (m_bindex w)
     (m_bindex_offset w) (m_error w) (globals w).
Definition set_zblock (v : list Z) (w : t) : t :=
  mk (m_version w) (m_mtime w) (m_fp w) (m_zs w) (m_ublock w) (m_uoffset w)
     (m_ucrc32 w) (m_usize w) v (m_zoffset w) (m_bindex w)
     (m_bindex_offset w) (m_error w) (globals w).
Definition set_zoffset (v : Z) (w : t) : t :=
  mk (m_version w) (m_mtime w) (m_fp w) (m_zs w) (m_ublock w) (m_uoffset w)
     (m_ucrc32 w) (m_usize w) (m_zblock w) v (m_bindex w)
     (m_bindex_offset w) (m_error w) (globals w).
Definition set_bindex (v : list bindex_t) (w : t) : t :=
  mk (m_version w) (m_mtime w) (m_fp w) (m_zs w) (m_ublock w) (m_uoffset w)
     (m_ucrc32 w) (m_usize w) (m_zblock w) (m_zoffset w) v
     (m_bindex_offset w) (m_error w) (globals w).
Definition set_bindex_offset (v : Z) (w : t) : t :=
  mk (m_version w) (m_mtime w) (m_fp w) (m_zs w) (m_ublock w) (m_uoffset w)
     (m_ucrc32 w) (m_usize w) (m_zblock w) (m_zoffset w) (m_bindex w)
     v (m_error w) (globals w).
Definition set_error (v : errmsg) (w : t) : t :=
  mk (m_version w) (m_mtime w) (m_fp w) (m_zs w) (m_ublock w) (m_uoffset w)
     (m_ucrc32 w) (m_usize w) (m_zblock w) (m_zoffset w) (m_bindex w)
     (m_bindex_offset w) v (globals w).
Definition set_globals (v : statics) (w : t) : t :=
  mk (m_version w) (m_mtime w) (m_fp w) (m_zs w) (m_ublock w) (m_uoffset w)
     (m_ucrc32 w) (m_usize w) (m_zblock w) (m_zoffset w) (m_bindex w)
     (m_bindex_offset w) (m_error w) v.

(** [MZGFileWriter::MZGFileWriter()] (lines 202--205) sets [m_mtime] to the
    current time [now] and [m_bindex_offset] to 0; [m_bindex] and [m_error]
    are default-constructed.  The other members are left uninitialised:
    they keep whatever [junk] holds.  [g] is the contents of the file-scope
    arrays at that moment. *)
Definition MZGFileWriter (now : Z) (g : statics) (junk : t) : t :=
  mk (m_version junk) now (m_fp junk) (m_zs junk) (m_ublock junk)
     (m_uoffset junk) (m_ucrc32 junk) (m_usize junk) (m_zblock junk)
     (m_zoffset junk) [] 0 no_error g.

(** [_write_header] (lines 271--291).  The header is assembled in
    [m_zblock].  A failed [fwrite] sets [m_error] and nothing else: the
    function goes on and returns 0.  ([assert(extralen < GZIP_FEXTRA_MAX)]
    holds at the three call sites; see [index_members_split].) *)
Definition _write_header (extra : list Z) (extralen : Z) (w : t) : Z * t :=
  let zb := store gzheader (m_zblock w) in
  let zb := packInt32 zb 4 (m_mtime w) in
  let zb := packInt16 zb 10 extralen in
  let w := set_zblock zb w in
  let '(n, fp) := fwrite (prefix sizeof_gzheader zb) (m_fp w) in
  let w := set_fp fp w in
  let w := if negb (n =? sizeof_gzheader) || ferror fp
           then set_error strerror_errno w else w in
  let w := set_zoffset (m_zoffset w + sizeof_gzheader) w in
  if negb (extralen =? 0) then
    let '(n, fp) := fwrite (prefix extralen extra) (m_fp w) in
    let w := set_fp fp w in
    let w := if negb (n =? extralen) || ferror fp
             then set_error strerror_errno w else w in
    let w := set_zoffset (m_zoffset w + extralen) w in
    (0, w)
  else (0, w).

(** [_flush] (lines 296--341).  The inner [do ... while (0 == avail_out)]
    runs as long as the engine fills the whole output array; [fuel] bounds
    the number of engine calls, [None] meaning that the bound was hit. *)
Fixpoint _flush_loop (fuel : nat) (flush : Z) (w : t) : option (Z * t) :=
  match fuel with
  | O => None
  | S fuel =>
      let zs := m_zs w in
      let zs := mkZstream (zs_state zs) (next_in zs) (avail_in zs) MZGF_BLOCK_SIZE in
      let '(ret, zs, out) := zcall zdeflate (m_ublock w) flush zs in
      let w := set_zs zs (set_zblock (store out (m_zblock w)) w) in
      if (ret =? Z_OK) || (ret =? Z_STREAM_END) then
        let have := MZGF_BLOCK_SIZE - avail_out zs in
        let '(n, fp) := fwrite (prefix have (m_zblock w)) (m_fp w) in
        let w := set_fp fp w in
        if negb (n =? have) || ferror fp then
          Some (1, set_error strerror_errno w)
        else
          let w := set_zoffset (m_zoffset w + have) w in
          if avail_out zs =? 0 then _flush_loop fuel flush w else Some (0, w)
      else
        Some (1, set_error (zError ret) w)
  end.

Definition _flush (fuel : nat) (w : t) : option (Z * t) :=
  let w := set_usize (m_usize w + avail_in (m_zs w)) w in
  let w := set_ucrc32
             (crc32 (m_ucrc32 w) (prefix (avail_in (m_zs w)) (m_ublock w))) w in
  let flush := if avail_in (m_zs w) <? MZGF_BLOCK_SIZE
               then Z_FINISH else Z_FULL_FLUSH in
  _flush_loop fuel flush w.

(** [_write_empty] (lines 346--361) *)
Definition _write_empty (w : t) : Z * t :=
  let empty := [0x03; 0x00] in
  let have := 2 in
  let '(n, fp) := fwrite empty (m_fp w) in
  let w := set_fp fp w in
  if negb (n =? have) || ferror fp then
    (1, set_error strerror_errno w)
  else
    let w := set_zoffset (m_zoffset w + have) w in
    let w := set_usize 0 w in
    let w := set_ucrc32 crc32_init w in
    (0, w).

(** [_write_trailer] (lines 367--381) *)
Definition _write_trailer (w : t) : Z * t :=
  let footer := replicate 8 0 in
  let have := 8 in
  let footer := packInt32 footer 0 (m_ucrc32 w) in
  let footer := packInt32 footer 4 (m_usize w) in
  let '(n, fp) := fwrite footer (m_fp w) in
  let w := set_fp fp w in
  if negb (n =? have) || ferror fp then
    (1, set_error strerror_errno w)
  else
    (0, set_zoffset (m_zoffset w + 8) w).

(** The three calls that write one metadata member. *)
Definition write_member (extra : list Z) (extralen : Z) (w : t) : Z * t :=
  let '(ret, w) := _write_header extra extralen w in
  if negb (ret =? 0) then (ret, w) else
  let '(ret, w) := _write_empty w in
  if negb (ret =? 0) then (ret, w) else
  _write_trailer w.

(** [_write_bindex] (lines 388--420).  [rest] holds the entries
    [m_bindex[i ..]] still to be packed, [offset] is the local of that
    name. *)
Fixpoint _write_bindex_loop (rest : list bindex_t) (offset : Z) (w : t) : Z * t :=
  match rest with
  | [] => (0, w)
  | bi :: rest =>
      let eb := extra_bindex (globals w) in
      let eb := packInt64 eb (Z.to_nat offset) (zoffset bi) in
      let offset := offset + 8 in
      let eb := packInt64 eb (Z.to_nat offset) (uoffset bi) in
      let offset := offset + 8 in
      let last := match rest with [] => true | _ => false end in
      if (sizeof_extra_bindex <=? offset + sizeof_bindex_t) || last then
        let next := if last then 0
                    else m_zoffset w + sizeof_gzheader + offset + 2 + 8 in
        let eb := packInt16 eb 2 (offset - 4) in
        let eb := packInt64 eb 4 next in
        let g := globals w in
        let w := set_globals (mkStatics (extra_mzgf g) (extra_eof g) eb) w in
        let '(ret, w) := write_member eb offset w in
        if negb (ret =? 0) then (ret, w)
        else _write_bindex_loop rest 12 w
      else
        let g := globals w in
        let w := set_globals (mkStatics (extra_mzgf g) (extra_eof g) eb) w in
        _write_bindex_loop rest offset w
  end.

Definition _write_bindex (w : t) : Z * t :=
  let w := set_bindex_offset (m_zoffset w) w in
  _write_bindex_loop (m_bindex w) 12 w.

(** [_write_eof] (lines 426--440) *)
Definition _write_eof (w : t) : Z * t :=
  let g := globals w in
  let ee := packInt64 (extra_eof g) 4 (m_uoffset w) in
  let ee := packInt64 ee 12 (m_bindex_offset w) in
  let w := set_globals (mkStatics (extra_mzgf g) ee (extra_bindex g)) w in
  write_member ee sizeof_extra_eof w.

(** The [do ... while (!feof(src))] loop of [deflate] (lines 240--258).
    One pass reads up to [MZGF_BLOCK_SIZE] bytes, records an index entry
    and flushes the block.  The number of passes is bounded by the size of
    the source; [fuel] is also handed to [_flush]. *)
Fixpoint deflate_loop (fuel : nat) (src : FILE) (w : t) : option (Z * t * FILE) :=
  match fuel with
  | O => None
  | S fuel' =>
      let '(got, src) := fread MZGF_BLOCK_SIZE src in
      let w := set_ublock (store got (m_ublock w)) w in
      let zs := m_zs w in
      let w := set_zs (mkZstream (zs_state zs) 0 (len got) (avail_out zs)) w in
      if ferror src then Some (1, set_error strerror_errno w, src)
      else
        let bi := mkBindex (m_zoffset w) (m_uoffset w) in
        let w := set_bindex (m_bindex w ++ [bi]) w in
        let w := set_uoffset (m_uoffset w + avail_in (m_zs w)) w in
        match _flush fuel w with
        | None => None
        | Some (ret, w) =>
            if negb (ret =? 0) then Some (ret, w, src)
            else if negb (feof src) then deflate_loop fuel' src w
            else Some (0, w, src)
        end
  end.

(** [deflate] (lines 211--266).  The result is the return code, the
    writer, the source stream and the destination stream as the call
    leaves them ([m_fp] points to the caller's [dst]; it is not yet
    assigned when [deflateInit2] fails).
    [assert(compressBound(MZGF_BLOCK_SIZE) < MZGF_MAX_BLOCK_SIZE)] is a
    fact about zlib (65311 < 65536). *)
Definition deflate (fuel : nat) (src dst : FILE) (w : t)
    : option (Z * t * FILE * FILE) :=
  let '(ret, st) := deflateInit2 in
  let zs := m_zs w in
  let w := set_zs (mkZstream st (next_in zs) (avail_in zs) (avail_out zs)) w in
  if negb (ret =? 0) then Some (ret, set_error (zError ret) w, src, dst)
  else
    let w := set_fp dst w in
    let w := set_uoffset 0 w in
    let w := set_usize 0 w in
    let w := set_ucrc32 crc32_init w in
    let w := set_zoffset 0 w in
    let '(ret, w) := _write_header (extra_mzgf (globals w)) sizeof_extra_mzgf w in
    if negb (ret =? 0) then Some (ret, w, src, m_fp w)
    else
      match deflate_loop fuel src w with
      | None => None
      | Some (ret, w, src) =>
          if negb (ret =? 0) then Some (ret, w, src, m_fp w) else
          let '(ret, w) := _write_trailer w in
          if negb (ret =? 0) then Some (ret, w, src, m_fp w) else
          let '(ret, w) := _write_bindex w in
          if negb (ret =? 0) then Some (ret, w, src, m_fp w) else
          let '(ret, w) := _write_eof w in
          if negb (ret =? 0) then Some (ret, w, src, m_fp w) else
          Some (ret, w, src, m_fp w)
      end.

End with_zlib.
Arguments t {Zl}.
End MZGFileWriter.

(** ** Results of the reader's member functions

    Besides returning, the reader can leave through [exit] (on an inflate
    error), run into behaviour that C leaves undefined (a load outside an
    array, a stream that was never opened), or exhaust the bound a loop of
    the embedding carries. *)

Inductive outcome (A : Type) :=
| Returns (a : A)
| Exits (code : Z)
| Undefined
| OutOfFuel.
Arguments Returns {A} _.
Arguments Exits {A} _.
Arguments Undefined {A}.
Arguments OutOfFuel {A}.

Definition obind {A B : Type} (m : outcome A) (k : A → outcome B) : outcome B :=
  match m with
  | Returns a => k a
  | Exits c => Exits c
  | Undefined => Undefined
  | OutOfFuel => OutOfFuel
  end.

(** A load that must stay inside its array. *)
Definition defined {A : Type} (o : option A) : outcome A :=
  match o with Some a => Returns a | None => Undefined end.

Notation "x ←! m ; k" := (obind m (λ x, k))
  (at level 20, m at level 100, k at level 200, only parsing, right associativity).
Notation "' p ←! m ; k" := (obind m (λ x, match x with p => k end))
  (at level 20, p pattern, m at level 100, k at level 200, only parsing,
   right associativity).

Definition int64_t (v : Z) : Z := (v + 2 ^ 63) `mod` 2 ^ 64 - 2 ^ 63.

(** ** class MZGFileReader *)

Module MZGFileReader.
Section with_zlib.
Context `{Zl : zlib}.

(** The members of the class; [m_fp] is [None] for the null pointer;
    [globals] are the file-scope arrays.  [m_zblock] is the input array of
    [m_zs]: the engine reads [avail_in] bytes of it from [next_in] on. *)
Record t := mk {
  m_fp : option FILE;
  m_zs : z_stream istate;
  m_version : Z;
  m_mtime : Z;
  m_isEOF : bool;
  m_zfilesize : Z;
  m_ufilesize : Z;
  m_zblock : list Z;
  m_zoffset : Z;
  m_ublock : list Z;
  m_uoffset : Z;
  m_blen : Z;
  m_boffset : Z;
  m_bindex : list bindex_t;
  m_bindex_offset : Z;
  m_error : errmsg;
  globals : statics
}.

Definition set_fp (v : option FILE) (r : t) : t :=
  mk v (m_zs r) (m_version r) (m_mtime r) (m_isEOF r) (m_zfilesize r)
     (m_ufilesize r) (m_zblock r) (m_zoffset r) (m_ublock r) (m_uoffset r)
     (m_blen r) (m_boffset r) (m_bindex r) (m_bindex_offset r) (m_error r)
     (globals r).
Definition set_zs (v : z_stream istate) (r : t) : t :=
  mk (m_fp r) v (m_version r) (m_mtime r) (m_isEOF r) (m_zfilesize r)
     (m_ufilesize r) (m_zblock r) (m_zoffset r) (m_ublock r) (m_uoffset r)
     (m_blen r) (m_boffset r) (m_bindex r) (m_bindex_offset r) (m_error r)
     (globals r).
Definition set_version (v : Z) (r : t) : t :=
  mk (m_fp r) (m_zs r) v (m_mtime r) (m_isEOF r) (m_zfilesize r)
     (m_ufilesize r) (m_zblock r) (m_zoffset r) (m_ublock r) (m_uoffset r)
     (m_blen r) (m_boffset r) (m_bindex r) (m_bindex_offset r) (m_error r)
     (globals r).
Definition set_mtime (v : Z) (r : t) : t :=
  mk (m_fp r) (m_zs r) (m_version r) v (m_isEOF r) (m_zfilesize r)
     (m_ufilesize r) (m_zblock r) (m_zoffset r) (m_ublock r) (m_uoffset r)
     (m_blen r) (m_boffset r) (m_bindex r) (m_bindex_offset r) (m_error r)
     (globals r).
Definition set_isEOF (v : bool) (r : t) : t :=
  mk (m_fp r) (m_zs r) (m_version r) (m_mtime r) v (m_zfilesize r)
     (m_ufilesize r) (m_zblock r) (m_zoffset r) (m_ublock r) (m_uoffset r)
     (m_blen r) (m_boffset r) (m_bindex r) (m_bindex_offset r) (m_error r)
     (globals r).
Definition set_zfilesize (v : Z) (r : t) : t :=
  mk (m_fp r) (m_zs r) (m_version r) (m_mtime r) (m_isEOF r) v
     (m_ufilesize r) (m_zblock r) (m_zoffset r) (m_ublock r) (m_uoffset r)
     (m_blen r) (m_boffset r) (m_bindex r) (m_bindex_offset r) (m_error r)
     (globals r).
Definition set_ufilesize (v : Z) (r : t) : t :=
  mk (m_fp r) (m_zs r) (m_version r) (m_mtime r) (m_isEOF r) (m_zfilesize r)
     v (m_zblock r) (m_zoffset r) (m_ublock r) (m_uoffset r)
     (m_blen r) (m_boffset r) (m_bindex r) (m_bindex_offset r) (m_error r)
     (globals r).
Definition set_zblock (v : list Z) (r : t) : t :=
  mk (m_fp r) (m_zs r) (m_version r) (m_mtime r) (m_isEOF r) (m_zfilesize r)
     (m_ufilesize r) v (m_zoffset r) (m_ublock r) (m_uoffset r)
     (m_blen r) (m_boffset r) (m_bindex r) (m_bindex_offset r) (m_error r)
     (globals r).
Definition set_zoffset (v : Z) (r : t) : t :=
  mk (m_fp r) (m_zs r) (m_version r) (m_mtime r) (m_isEOF r) (m_zfilesize r)
     (m_ufilesize r) (m_zblock r) v (m_ublock r) (m_uoffset r)
     (m_blen r) (m_boffset r) (m_bindex r) (m_bindex_offset r) (m_error r)
     (globals r).
Definition set_ublock (v : list Z) (r : t) : t :=
  mk (m_fp r) (m_zs r) (m_version r) (m_mtime r) (m_isEOF r) (m_zfilesize r)
     (m_ufilesize r) (m_zblock r) (m_zoffset r) v (m_uoffset r)
     (m_blen r) (m_boffset r) (m_bindex r) (m_bindex_offset r) (m_error r)
     (globals r).
Definition set_uoffset (v : Z) (r : t) : t :=
  mk (m_fp r) (m_zs r) (m_version r) (m_mtime r) (m_isEOF r) (m_zfilesize r)
     (m_ufilesize r) (m_zblock r) (m_zoffset r) (m_ublock r) v
     (m_blen r) (m_boffset r) (m_bindex r) (m_bindex_offset r) (m_error r)
     (globals r).
Definition set_blen (v : Z) (r : t) : t :=
  mk (m_fp r) (m_zs r) (m_version r) (m_mtime r) (m_isEOF r) (m_zfilesize r)
     (m_ufilesize r) (m_zblock r) (m_zoffset r) (m_ublock r) (m_uoffset r)
     v (m_boffset r) (m_bindex r) (m_bindex_offset r) (m_error r)
     (globals r).
Definition set_boffset (v : Z) (r : t) : t :=
  mk (m_fp r) (m_zs r) (m_version r) (m_mtime r) (m_isEOF r) (m_zfilesize r)
     (m_ufilesize r) (m_zblock r) (m_zoffset r) (m_ublock r) (m_uoffset r)
     (m_blen r) v (m_bindex r) (m_bindex_offset r) (m_error r)
     (globals r).
Definition set_bindex (v : list bindex_t) (r : t) : t :=
  mk (m_fp r) (m_zs r) (m_version r) (m_mtime r) (m_isEOF r) (m_zfilesize r)
     (m_ufilesize r) (m_zblock r) (m_zoffset r) (m_ublock r) (m_uoffset r)
     (m_blen r) (m_boffset r) v (m_bindex_offset r) (m_error r)
     (globals r).
Definition set_bindex_offset (v : Z) (r : t) : t :=
  mk (m_fp r) (m_zs r) (m_version r) (m_mtime r) (m_isEOF r) (m_zfilesize r)
     (m_ufilesize r) (m_zblock r) (m_zoffset r) (m_ublock r) (m_uoffset r)
     (m_blen r) (m_boffset r) (m_bindex r) v (m_error r)
     (globals r).
Definition set_error (v : errmsg) (r : t) : t :=
  mk (m_fp r) (m_zs r) (m_version r) (m_mtime r) (m_isEOF r) (m_zfilesize r)
     (m_ufilesize r) (m_zblock r) (m_zoffset r) (m_ublock r) (m_uoffset r)
     (m_blen r) (m_boffset r) (m_bindex r) (m_bindex_offset r) v
     (globals r).
Definition set_globals (v : statics) (r : t) : t :=
  mk (m_fp r) (m_zs r) (m_version r) (m_mtime r) (m_isEOF r) (m_zfilesize r)
     (m_ufilesize r) (m_zblock r) (m_zoffset r) (m_ublock r) (m_uoffset r)
     (m_blen r) (m_boffset r) (m_bindex r) (m_bindex_offset r) (m_error r)
     v.

(** [MZGFileReader::MZGFileReader()] (lines 446--461).  [m_version = -1]
    is stored in a [uint8_t].  [m_zs], the two block arrays and [m_error]
    (empty) are not assigned; the arrays keep what [junk] holds.  [g] is
    the contents of the file-scope arrays at that moment. *)
Definition MZGFileReader (g : statics) (junk : t) : t :=
  mk None (m_zs junk) (uint8_t (-1)) 0 false (-1) (-1) (m_zblock junk) 0
     (m_ublock junk) 0 0 0 [] 0 no_error g.

(** The stream behind [m_fp]; using a null [FILE *] is undefined. *)
Definition stream (r : t) : outcome FILE := defined (m_fp r).

(** The four assignments and the [inflateInit2] call that [open], [vseek]
    and [useek] repeat. *)
Definition reset_inflate (r : t) : Z * t :=
  let '(ret, st) := inflateInit2 in
  (ret, set_zs (mkZstream st 0 0 MZGF_BLOCK_SIZE) r).

Definition eof (r : t) : bool := m_isEOF r.
Definition version (r : t) : Z := m_version r.
Definition mtime (r : t) : Z := m_mtime r.
Definition bindex (r : t) : list bindex_t := m_bindex r.
Definition zfilesize (r : t) : Z := m_zfilesize r.
Definition ufilesize (r : t) : Z := m_ufilesize r.

(** [_read_header] (lines 668--715).  [extra] is the array the caller
    passes; the array as the call leaves it is part of the result. *)
Definition _read_header (extra : list Z) (extralen : Z) (r : t)
    : outcome (Z * list Z * t) :=
  fp ←! stream r;
  let '(got, fp) := fread sizeof_gzheader fp in
  let r := set_fp (Some fp) (set_zblock (store got (m_zblock r)) r) in
  let count := len got in
  if ferror fp then Returns (1, extra, set_error strerror_errno r)
  else if negb (count =? sizeof_gzheader) then
    Returns (MZGF_ERR_HEADER, extra,
             set_error (message "read incomplete gzip header") r)
  else
    let r := set_zoffset (m_zoffset r + sizeof_gzheader) r in
    id1 ←! defined (m_zblock r !! 0%nat);
    id2 ←! defined (m_zblock r !! 1%nat);
    cm ←! defined (m_zblock r !! 2%nat);
    if negb (id1 =? GZIP_MAGIC_ID1) || negb (id2 =? GZIP_MAGIC_ID2)
       || negb (cm =? GZIP_CM_DEFLATED) then
      Returns (MZGF_NOT_GZIP, extra, set_error (message "not in gzip format") r)
    else
      mt ←! defined (unpackInt32 (m_zblock r) 4);
      let r := set_mtime mt r in
      flag ←! defined (m_zblock r !! 3%nat);
      x ←! defined (unpackInt16 (m_zblock r) 10);
      let xlen := uint16_t x in
      if (Z.land flag GZIP_FEXTRA_FLG =? 0) && (xlen =? 0) then
        Returns (MZGF_BAD_FORMAT, extra,
                 set_error (message "missing extra field(s) in gzip header") r)
      else if extralen <? xlen then
        Returns (MZGF_BAD_FORMAT, extra,
                 set_error (message "length extra fields exceeded expectation") r)
      else
        let '(got, fp) := fread xlen fp in
        let extra := store got extra in
        let r := set_fp (Some fp) r in
        let count := len got in
        if ferror fp then Returns (1, extra, set_error strerror_errno r)
        else if negb (count =? xlen) then
          Returns (MZGF_ERR_HEADER, extra,
                   set_error (message "read incomplete gzip extras") r)
        else
          Returns (0, extra, set_zoffset (m_zoffset r + xlen) r).

Definition set_extra_mzgf (v : list Z) (r : t) : t :=
  let g := globals r in set_globals (mkStatics v (extra_eof g) (extra_bindex g)) r.
Definition set_extra_eof (v : list Z) (r : t) : t :=
  let g := globals r in set_globals (mkStatics (extra_mzgf g) v (extra_bindex g)) r.
Definition set_extra_bindex (v : list Z) (r : t) : t :=
  let g := globals r in set_globals (mkStatics (extra_mzgf g) (extra_eof g) v) r.

(** The [for ( int i = 12; i < count; )] loop of [_read_bindex]: each pass
    advances [i] by 16, so [count] passes are never needed. *)
Fixpoint _read_bindex_entries (fuel : nat) (i count : Z) (eb : list Z)
    (ix : list bindex_t) : outcome (list bindex_t) :=
  if i <? count then
    match fuel with
    | O => OutOfFuel
    | S fuel =>
        z ←! defined (unpackInt64 eb (Z.to_nat i));
        u ←! defined (unpackInt64 eb (Z.to_nat (i + 8)));
        _read_bindex_entries fuel (i + 16) count eb (ix ++ [mkBindex z u])
    end
  else Returns ix.

(** The [while ( offset )] loop of [_read_bindex] (lines 728--761); a file
    can chain index members in a cycle, so the loop carries a bound. *)
Fixpoint _read_bindex_loop (fuel : nat) (offset : Z) (r : t) : outcome (Z * t) :=
  if offset =? 0 then Returns (0, r)
  else
    match fuel with
    | O => OutOfFuel
    | S fuel =>
        fp ←! stream r;
        let '(rc, fp) := fseek_set offset fp in
        let r := set_fp (Some fp) r in
        if negb (rc =? 0) then Returns (1, set_error strerror_errno r)
        else
          '(ret, eb, r) ←! _read_header (extra_bindex (globals r)) sizeof_extra_bindex r;
          let r := set_extra_bindex eb r in
          if negb (ret =? 0) then Returns (ret, r)
          else
            b0 ←! defined (eb !! 0%nat);
            b1 ←! defined (eb !! 1%nat);
            if (b0 =? chr_B) || (b1 =? chr_I) then
              count ←! defined (unpackInt16 eb 2);
              next ←! defined (unpackInt64 eb 4);
              ix ←! _read_bindex_entries (Z.to_nat count) 12 count eb (m_bindex r);
              _read_bindex_loop fuel (int64_t next) (set_bindex ix r)
            else
              Returns (MZGF_BAD_FORMAT,
                       set_error (message "missing MZGF block index") r)
    end.

(** [_read_bindex] (lines 721--769) *)
Definition _read_bindex (fuel : nat) (r : t) : outcome (Z * t) :=
  fp ←! stream r;
  let pos := ftell fp in
  '(ret, r) ←! _read_bindex_loop fuel (m_bindex_offset r) r;
  if negb (ret =? 0) then Returns (ret, r)
  else
    fp ←! stream r;
    let '(rc, fp) := fseek_set pos fp in
    let r := set_fp (Some fp) r in
    if negb (rc =? 0) then Returns (1, set_error strerror_errno r)
    else Returns (0, r).

(** [_read_eof] (lines 776--812).  The member is accepted when the first
    identifier byte is ['B'] or the second is ['O']. *)
Definition _read_eof (r : t) : outcome (Z * t) :=
  fp ←! stream r;
  let pos := ftell fp in
  let bsize := sizeof_gzheader + sizeof_extra_eof + 2 + 4 + 4 in
  let '(rc, fp) := fseek_end (- bsize) fp in
  let r := set_fp (Some fp) r in
  if negb (rc =? 0) then Returns (1, set_error strerror_errno r)
  else
    '(ret, ee, r) ←! _read_header (extra_eof (globals r)) sizeof_extra_eof r;
    let r := set_extra_eof ee r in
    if negb (ret =? 0) then Returns (ret, r)
    else
      b0 ←! defined (ee !! 0%nat);
      b1 ←! defined (ee !! 1%nat);
      if (b0 =? chr_B) || (b1 =? chr_O) then
        usize ←! defined (unpackInt64 ee 4);
        bo ←! defined (unpackInt64 ee 12);
        let r := set_ufilesize (int64_t usize) r in
        let r := set_bindex_offset (int64_t bo) r in
        fp ←! stream r;
        let '(rc, fp) := fseek_set pos fp in
        let r := set_fp (Some fp) r in
        if negb (rc =? 0) then Returns (1, set_error strerror_errno r)
        else Returns (0, r)
      else
        Returns (MZGF_BAD_FORMAT,
                 set_error (message "missing MZGF block index offset") r).

(** [open] (lines 463--510).  [fs path] is what [fopen] finds; its result
    is assigned to [m_fp] before it is tested. *)
Definition open (fuel : nat) (fs : filesystem) (path : string) (r : t)
    : outcome (Z * t) :=
  match fs path with
  | None => Returns (1, set_error strerror_errno (set_fp None r))
  | Some data =>
      let r := set_fp (Some (fopen_rb data)) r in
      let r := set_isEOF false r in
      let r := set_zoffset 0 r in
      let r := set_uoffset 0 r in
      let '(ret, r) := reset_inflate r in
      if negb (ret =? Z_OK) then Returns (1, set_error (zError ret) r)
      else
        '(ret, em, r) ←! _read_header (extra_mzgf (globals r)) sizeof_extra_mzgf r;
        let r := set_extra_mzgf em r in
        if negb (ret =? 0) then Returns (ret, r)
        else
          b0 ←! defined (em !! 0%nat);
          b1 ←! defined (em !! 1%nat);
          if negb (b0 =? chr_M) || negb (b1 =? chr_Z) then
            Returns (MZGF_NOT_MZGZIP, set_error (message "not in MZGF format") r)
          else
            v ←! defined (em !! 4%nat);
            let r := set_version v r in
            if negb (MZGF_VERSION =? v) then
              Returns (MZGF_BAD_VERSION,
                       set_error (message "incompatible MZGF version") r)
            else
              '(ret, r) ←! _read_eof r;
              if negb (ret =? 0) then Returns (ret, r)
              else
                '(ret, r) ←! _read_bindex fuel r;
                if negb (ret =? 0) then Returns (ret, r)
                else
                  let r := set_zfilesize (len data) r in
                  Returns (ret, r)
  end.

(** [close] (lines 512--518) *)
Definition close (r : t) : t := set_fp None r.

(** [_read_block] (lines 817--867).  The array [m_zblock] is refilled only
    when the engine has used up its input.  An inflate error ends the
    process through [exit]. *)
Definition _read_block (r : t) : outcome (Z * t) :=
  let zs := m_zs r in
  let r := set_zs (mkZstream (zs_state zs) (next_in zs) (avail_in zs) MZGF_BLOCK_SIZE) r in
  refill ←!
    (if avail_in (m_zs r) =? 0 then
       fp ←! stream r;
       let '(got, fp) := fread MZGF_BLOCK_SIZE fp in
       let r := set_fp (Some fp) (set_zblock (store got (m_zblock r)) r) in
       let zs := m_zs r in
       let r := set_zs (mkZstream (zs_state zs) 0 (len got) (avail_out zs)) r in
       if negb (avail_in (m_zs r) =? MZGF_BLOCK_SIZE) && ferror fp then
         Returns (false, set_error strerror_errno r)
       else if avail_in (m_zs r) =? 0 then
         Returns (false, set_error (message "read past end of file") r)
       else
         Returns (true, set_zoffset (m_zoffset r + avail_in (m_zs r)) r)
     else Returns (true, r));
  let '(ok, r) := refill in
  if negb ok then Returns (-1, r)
  else
    let zs := m_zs r in
    let zs := mkZstream (zs_state zs) (next_in zs) (avail_in zs) MZGF_BLOCK_SIZE in
    let '(ret, zs, out) := zcall zinflate (m_zblock r) Z_BLOCK zs in
    let r := set_zs zs (set_ublock (store out (m_ublock r)) r) in
    if ret =? Z_OK then
      fp ←! stream r;
      let r := set_blen (MZGF_BLOCK_SIZE - avail_out (m_zs r)) r in
      let r := set_uoffset (m_uoffset r + m_blen r) r in
      let r := set_isEOF (m_isEOF r || (feof fp && (avail_in (m_zs r) <=? 8))) r in
      Returns (m_blen r, r)
    else if ret =? Z_STREAM_END then
      let r := set_isEOF true r in
      fp ←! stream r;
      let r := set_blen (MZGF_BLOCK_SIZE - avail_out (m_zs r)) r in
      let r := set_uoffset (m_uoffset r + m_blen r) r in
      let r := set_isEOF (m_isEOF r || (feof fp && (avail_in (m_zs r) <=? 8))) r in
      Returns (m_blen r, r)
    else if ret =? Z_STREAM_ERROR then Exits 2
    else Exits 1.

(** The body of the [while ( copied < size )] loop of [read] after the
    block array is known to hold data: copy [have] bytes out of it. *)
Definition read_copy (size copied : Z) (data : list Z) (avail : Z) (r : t)
    : Z * list Z * t :=
  let have := if size - copied <? avail then size - copied else avail in
  let data := data ++ prefix have (from (m_boffset r) (m_ublock r)) in
  let copied := copied + have in
  let r := set_boffset (m_boffset r + have) r in
  let r := if m_blen r <=? m_boffset r
           then set_boffset 0 (set_blen 0 r) else r in
  (copied, data, r).

(** The loop of [read] (lines 532--556).  [data] collects the bytes copied
    to the caller's array. *)
Fixpoint read_loop (fuel : nat) (size copied : Z) (data : list Z) (r : t)
    : outcome (Z * list Z * t) :=
  if copied <? size then
    match fuel with
    | O => OutOfFuel
    | S fuel =>
        let avail := m_blen r - m_boffset r in
        if avail <=? 0 then
          '(avail, r) ←! _read_block r;
          if avail =? -1 then Returns (-1, data, r)
          else if m_blen r =? 0 then Returns (copied, data, r)
          else
            let avail := m_blen r - m_boffset r in
            if m_blen r <? m_boffset r then
              let r := set_boffset (m_boffset r - m_blen r) r in
              let r := set_blen 0 r in
              read_loop fuel size copied data r
            else
              let '(copied, data, r) := read_copy size copied data avail r in
              read_loop fuel size copied data r
        else
          let '(copied, data, r) := read_copy size copied data avail r in
          read_loop fuel size copied data r
    end
  else Returns (copied, data, r).

(** Every pass of the loop copies a byte or lowers [m_boffset]; this many
    passes are therefore enough (see [read_spec]). *)
Definition read_fuel (size : Z) (r : t) : nat :=
  Z.to_nat (2 * size + Z.max 0 (m_boffset r)).

(** [read] (lines 520--559): the value returned, the bytes stored in
    [data], and the reader afterwards. *)
Definition read (size : Z) (r : t) : outcome (Z * list Z * t) :=
  if eof r then
    Returns (-1, [], set_error (message "read past end of file") r)
  else read_loop (read_fuel size r) size 0 [] r.

(** [vtell] and [tell] (lines 561--562) *)
Definition vtell (r : t) : Z := m_zoffset r.

(** [vseek] (lines 564--595) *)
Definition vseek (voffset : Z) (r : t) : outcome (Z * t) :=
  let r := set_boffset (int32_t (Z.land voffset 0xFFFF)) r in
  let zoffset := voffset ≫ 16 in
  if zoffset =? m_zoffset r then Returns (0, r)
  else
    fp ←! stream r;
    let '(rc, fp) := fseek_set zoffset fp in
    let r := set_fp (Some fp) r in
    if negb (rc =? 0) then Returns (1, set_error strerror_errno r)
    else
      let r := set_zoffset zoffset r in
      let r := set_blen 0 r in
      let r := set_isEOF false r in
      let '(ret, r) := reset_inflate r in
      if negb (ret =? Z_OK) then Returns (1, set_error (zError ret) r)
      else Returns (0, r).

(** The binary search of [useek] (lines 608--620) over [ix = m_bindex];
    [uoffset] has been converted to [uint64_t] for the comparison.  The
    interval [lower, upper] shrinks at every pass.  ([assert(mid < upper)]
    holds whenever [lower < upper].) *)
Fixpoint useek_search (fuel : nat) (ix : list bindex_t) (uoffset lower upper : Z)
    : outcome Z :=
  if lower <? upper then
    match fuel with
    | O => OutOfFuel
    | S fuel =>
        let mid := (lower + upper) `quot` 2 in
        '(mkBindex _ mid_uoffset) ←! defined (ix !! Z.to_nat mid);
        if uoffset <? mid_uoffset
        then useek_search fuel ix uoffset lower mid
        else useek_search fuel ix uoffset (mid + 1) upper
    end
  else Returns lower.

(** [m_bindex[lower]]; a negative index is outside the vector. *)
Definition at_index (ix : list bindex_t) (lower : Z) : outcome bindex_t :=
  if lower <? 0 then Undefined else defined (ix !! Z.to_nat lower).

(** [useek] (lines 597--654).  [m_boffset] is an [int]: the difference of
    the two 64-bit offsets is truncated to 32 bits. *)
Definition useek (fuel : nat) (uoffset : Z) (r : t) : outcome (Z * t) :=
  '(ret, r) ←!
    (if len_bindex (m_bindex r) =? 0 then _read_bindex fuel r
     else Returns (0, r));
  if negb (ret =? 0) then Returns (ret, r)
  else
    let ix := m_bindex r in
    let upper := len_bindex ix - 1 in
    lower ←! useek_search (length ix) ix (uint64_t uoffset) 0 upper;
    '(mkBindex _ lower_uoffset) ←! at_index ix lower;
    let lower := if uint64_t uoffset <? lower_uoffset then lower - 1 else lower in
    '(mkBindex lower_zoffset lower_uoffset) ←! at_index ix lower;
    let r := set_boffset (int32_t (uint64_t uoffset - lower_uoffset)) r in
    if uint64_t (m_zoffset r) =? lower_zoffset then Returns (0, r)
    else
      let r := set_zoffset (int64_t lower_zoffset) r in
      let r := set_uoffset uoffset r in
      let r := set_blen 0 r in
      let r := set_isEOF false r in
      let '(ret, r) := reset_inflate r in
      if negb (ret =? Z_OK) then Returns (1, set_error (zError ret) r)
      else
        fp ←! stream r;
        let '(rc, fp) := fseek_set (int64_t lower_zoffset) fp in
        let r := set_fp (Some fp) r in
        if negb (rc =? 0) then Returns (1, set_error strerror_errno r)
        else Returns (0, r).

End with_zlib.
Arguments t {Zl}.
End MZGFileReader.

(** ** The decompression loop of the front end

    [decompress] of the command-line program positions the reader with
    [vseek] or [useek] when asked to, and then reads until [eof()], at most
    [MZGF_BLOCK_SIZE] bytes per call, writing what each call returns. *)

Module mzgzip.
Section with_zlib.
Context `{Zl : zlib}.

(** [while ( opt_size > 0 && !r.eof() ) ...]: the last value of [ret],
    everything written to the destination, and the reader. *)
Fixpoint decompress_loop (fuel : nat) (opt_size ret : Z) (written : list Z)
    (r : MZGFileReader.t) : outcome (Z * list Z * MZGFileReader.t) :=
  if (0 <? opt_size) && negb (MZGFileReader.eof r) then
    match fuel with
    | O => OutOfFuel
    | S fuel =>
        let have := if opt_size <? MZGF_BLOCK_SIZE then opt_size else MZGF_BLOCK_SIZE in
        '(have, buffer, r) ←! MZGFileReader.read have r;
        if have =? -1 then Returns (-1, written, r)
        else decompress_loop fuel (opt_size - have) have (written ++ buffer) r
    end
  else Returns (ret, written, r).

(** The part of [decompress] between opening the two files and closing
    them.  [opt_voffset] and [opt_uoffset] are [-1] when the option is
    absent; [opt_size] is [SSIZE_MAX] by default. *)
Definition decompress (fuel : nat) (opt_voffset opt_uoffset opt_size : Z)
    (r : MZGFileReader.t) : outcome (Z * list Z * MZGFileReader.t) :=
  '(ret, r) ←!
    (if negb (opt_voffset =? -1) then MZGFileReader.vseek opt_voffset r
     else if negb (opt_uoffset =? -1) then MZGFileReader.useek fuel opt_uoffset r
     else Returns (0, r));
  if negb (ret =? -1) then decompress_loop fuel opt_size ret [] r
  else Returns (ret, [], r).

Definition SSIZE_MAX : Z := 2 ^ 63 - 1.

End with_zlib.
End mzgzip.

(** ** Vocabulary of the theorems *)

(** The index is ordered by [uoffset]. *)
Definition sorted_index (ix : list bindex_t) : Prop :=
  ∀ (i j : nat) ei ej,
    (i ≤ j)%nat → ix !! i = Some ei → ix !! j = Some ej →
    uoffset ei ≤ uoffset ej.

(** Entry [k] is the last one whose [uoffset] is at most [u]. *)
Definition selected (ix : list bindex_t) (u : Z) (k : nat) (e : bindex_t) : Prop :=
  ix !! k = Some e
  ∧ uoffset e ≤ u
  ∧ ∀ (j : nat) e', (k < j)%nat → ix !! j = Some e' → u < uoffset e'.

(** The bytes [packInt16], [packInt32] and [packInt64] store. *)
Definition le_bytes2 (v : Z) : list Z :=
  let v := uint16_t v in [uint8_t v; uint8_t (v ≫ 8)].
Definition le_bytes4 (v : Z) : list Z :=
  let v := uint32_t v in
  [uint8_t v; uint8_t (v ≫ 8); uint8_t (v ≫ 16); uint8_t (v ≫ 24)].
Definition le_bytes8 (v : Z) : list Z :=
  let v := uint64_t v in
  [uint8_t v; uint8_t (v ≫ 8); uint8_t (v ≫ 16); uint8_t (v ≫ 24);
   uint8_t (v ≫ 32); uint8_t (v ≫ 40); uint8_t (v ≫ 48); uint8_t (v ≫ 56)].

(** The layout of a file.  A member header with [XLEN = xlen]; the
    trailer; a member without data, whose payload is the empty stored
    block [03 00] and whose trailer holds the initial checksum and size
    0. *)
Definition gz_header (mtime xlen : Z) : list Z :=
  [GZIP_MAGIC_ID1; GZIP_MAGIC_ID2; 8; GZIP_FEXTRA_FLG] ++ le_bytes4 mtime
  ++ [0; GZIP_OS] ++ le_bytes2 xlen.

Definition gz_trailer (crc usize : Z) : list Z :=
  le_bytes4 crc ++ le_bytes4 usize.

Definition gz_member (mtime : Z) (extra : list Z) (crc : Z) : list Z :=
  gz_header mtime (len extra) ++ extra ++ [0x03; 0x00] ++ gz_trailer crc 0.

(** The ["BI"] subfield carrying the entries [entries] and the offset
    [next] of the following index member; [id] stands for its first two
    bytes. *)
Definition bi_extra (id : list Z) (next : Z) (entries : list bindex_t) : list Z :=
  id ++ le_bytes2 (8 + 16 * len_bindex entries) ++ le_bytes8 next
  ++ flat_map (λ e, le_bytes8 (zoffset e) ++ le_bytes8 (uoffset e)) entries.

(** The ["BO"] subfield; [id] stands for its first four bytes. *)
Definition bo_extra (id : list Z) (usize first_bindex_offset : Z) : list Z :=
  id ++ le_bytes8 usize ++ le_bytes8 first_bindex_offset.

(** The chain of index members for the entries [rest], the first of them
    at offset [pos] of the file; [cur] holds the entries already gathered
    for the member being filled.  A member is closed when it cannot take
    another entry or when the entries are exhausted. *)
Fixpoint index_members (mtime crc : Z) (id : list Z) (pos : Z)
    (cur rest : list bindex_t) : list Z :=
  match rest with
  | [] => []
  | e :: rest =>
      let cur := cur ++ [e] in
      let offset := 12 + 16 * len_bindex cur in
      let last := match rest with [] => true | _ => false end in
      if (sizeof_extra_bindex <=? offset + sizeof_bindex_t) || last then
        let after := pos + sizeof_gzheader + offset + 2 + 8 in
        gz_member mtime (bi_extra id (if last then 0 else after) cur) crc
        ++ index_members mtime crc id after [] rest
      else index_members mtime crc id pos cur rest
  end.

Arguments le_bytes2 : simpl never.
Arguments le_bytes4 : simpl never.
Arguments le_bytes8 : simpl never.
Arguments gz_header : simpl never.
Arguments gz_trailer : simpl never.
Arguments gz_member : simpl never.
Arguments bi_extra : simpl never.
Arguments bo_extra : simpl never.

(** A whole file: the opening header with the ["MZ"] subfield, the
    deflate stream [payload], its trailer, the index members and the EOF
    member. *)
Definition mzgf_file (mtime : Z) (g : statics) (crc0 : Z) (payload : list Z)
    (crc usize : Z) (ix : list bindex_t) : list Z :=
  let first_bindex_offset := 17 + len payload + 8 in
  gz_header mtime sizeof_extra_mzgf ++ extra_mzgf g
  ++ payload ++ gz_trailer crc usize
  ++ index_members mtime crc0 (prefix 2 (extra_bindex g)) first_bindex_offset [] ix
  ++ gz_member mtime
       (bo_extra (prefix 4 (extra_eof g)) usize first_bindex_offset) crc0.

(** The file-scope arrays have their declared sizes and still hold the
    identifiers they were initialised with. *)
Definition statics_intact (g : statics) : Prop :=
  extra_mzgf g = [chr_M; chr_Z; 1; 0; MZGF_VERSION]
  ∧ prefix 4 (extra_eof g) = [chr_B; chr_O; 16; 0]
  ∧ len (extra_eof g) = sizeof_extra_eof
  ∧ prefix 2 (extra_bindex g) = [chr_B; chr_I]
  ∧ len (extra_bindex g) = sizeof_extra_bindex.

(** *** What the writer asks of the engine

    The calls of one [_flush], and of the whole [deflate], with the files
    left out: the engine state and the bytes it hands back.  [None] means
    that the bound was hit or that the engine reported an error. *)

Section rounds.
Context `{Zl : zlib}.

Fixpoint flush_round (fuel : nat) (flush : Z) (ublock : list Z)
    (zs : z_stream dstate) : option (z_stream dstate * list Z) :=
  match fuel with
  | O => None
  | S fuel =>
      let zs := mkZstream (zs_state zs) (next_in zs) (avail_in zs) MZGF_BLOCK_SIZE in
      let '(ret, zs, out) := zcall zdeflate ublock flush zs in
      if (ret =? Z_OK) || (ret =? Z_STREAM_END) then
        if avail_out zs =? 0 then
          match flush_round fuel flush ublock zs with
          | Some (zs, more) => Some (zs, out ++ more)
          | None => None
          end
        else Some (zs, out)
      else None
  end.

(** The blocks of [input], 65280 bytes each but the last, with the
    engine's output for each. *)
Fixpoint deflate_rounds (fuel : nat) (st : dstate) (input : list Z)
    : option (list (list Z * list Z)) :=
  match fuel with
  | O => None
  | S fuel' =>
      let block := prefix MZGF_BLOCK_SIZE input in
      let flush := if len block <? MZGF_BLOCK_SIZE then Z_FINISH else Z_FULL_FLUSH in
      match flush_round fuel flush block (mkZstream st 0 (len block) 0) with
      | None => None
      | Some (zs, out) =>
          if len block <? MZGF_BLOCK_SIZE then Some [(block, out)]
          else
            match deflate_rounds fuel' (zs_state zs) (from MZGF_BLOCK_SIZE input) with
            | Some rounds => Some ((block, out) :: rounds)
            | None => None
            end
      end
  end.

(** The deflate stream: the outputs of the rounds, one after another. *)
Definition payload_of (rounds : list (list Z * list Z)) : list Z :=
  concat (snd <$> rounds).

(** The index entries of the rounds: where each block starts in the file
    ([z]) and in the input ([u]). *)
Fixpoint index_of (z u : Z) (rounds : list (list Z * list Z)) : list bindex_t :=
  match rounds with
  | [] => []
  | (block, out) :: rounds =>
      mkBindex z u :: index_of (z + len out) (u + len block) rounds
  end.

(** The checksum the writer accumulates over the blocks. *)
Definition crc_of (rounds : list (list Z * list Z)) : Z :=
  foldl (λ crc round, crc32 crc round.1) crc32_init rounds.

(** *** What the round trip asks of the engine

    [inflating s pz pu]: the inflate state [s] is in the middle of a
    stream of which the compressed bytes [pz] are still to be read and the
    uncompressed bytes [pu] still to be produced. *)
Class zlib_codec := {
  inflating : istate → list Z → list Z → Prop;
  deflateInit2_ok : deflateInit2.1 = Z_OK;
  inflateInit2_ok : inflateInit2.1 = Z_OK;
  (** Driven as the writer drives it, the deflater takes any input to the
      end without an error, and a fresh inflater can read back what it
      wrote. *)
  deflate_inflating input :
    ∃ fuel rounds,
      deflate_rounds fuel deflateInit2.2 input = Some rounds
      ∧ inflating inflateInit2.2 (payload_of rounds) input;
  (** One call [inflate(&m_zs, Z_BLOCK)] with some input and a whole
      output block: it does not fail, it stays inside the stream, what it
      produces is what comes next, and it makes progress.  The end of the
      stream is reported by a call of its own, once all data has been
      handed out. *)
  inflating_step s pz pu input rest tail :
    inflating s pz pu → input ≠ [] → input ++ rest = pz ++ tail →
    let r := zinflate s input Z_BLOCK MZGF_BLOCK_SIZE in
    (z_ret r = Z_OK ∨ z_ret r = Z_STREAM_END)
    ∧ 0 ≤ z_used r ≤ len input
    ∧ z_used r ≤ len pz
    ∧ len (z_out r) ≤ MZGF_BLOCK_SIZE
    ∧ z_out r = prefix (len (z_out r)) pu
    ∧ inflating (z_state r) (from (z_used r) pz) (from (len (z_out r)) pu)
    ∧ (z_ret r = Z_STREAM_END → pu = [])
    ∧ (z_ret r = Z_OK → 0 < z_used r ∨ z_out r ≠ [])
}.

End rounds.

(** ** A small instance of [zlib]

    An engine simple enough to run inside the proof assistant.  It encodes
    every input byte [b] as the pair [1, b] and ends the stream with a
    single [0].  The deflate state is the output not yet handed out and
    whether the end marker has been queued; the inflate state records
    whether a [1] has been read whose byte is still to come, and whether
    the end marker has been read.  As zlib under [Z_BLOCK], it reports
    [Z_STREAM_END] in a call of its own, after all the data. *)

Module toy.

Definition encode (input : list Z) : list Z :=
  flat_map (λ b, [1; b]) input.

Definition deflate (st : list Z * bool) (input : list Z) (flush avail_out : Z)
    : zresult (list Z * bool) :=
  let '(pending, finished) := st in
  let finish := (flush =? Z_FINISH) && negb finished in
  let pending := pending ++ encode input ++ (if finish then [0] else []) in
  let finished := finished || finish in
  let out := prefix avail_out pending in
  let pending := from avail_out pending in
  mkZresult (if finished && (len pending =? 0) then Z_STREAM_END else Z_OK)
            (pending, finished) (len input) out.

Record inflating := mkInflating { got_tag : bool; ended : bool }.

Fixpoint inflate_run (input : list Z) (tag : bool) (room : nat)
    (used : Z) (out : list Z) : zresult inflating :=
  match input with
  | [] => mkZresult Z_OK (mkInflating tag false) used out
  | b :: input =>
      if tag then
        match room with
        | O => mkZresult Z_OK (mkInflating true false) used out
        | S room => inflate_run input false room (used + 1) (out ++ [b])
        end
      else if b =? 1 then inflate_run input true room (used + 1) out
      else if b =? 0 then
        match out with
        | [] => mkZresult Z_STREAM_END (mkInflating false true) (used + 1) out
        | _ => mkZresult Z_OK (mkInflating false false) used out
        end
      else mkZresult (-3) (mkInflating false false) used out
  end.

Definition inflate (st : inflating) (input : list Z) (flush avail_out : Z)
    : zresult inflating :=
  if ended st then mkZresult Z_STREAM_END st 0 []
  else inflate_run input (got_tag st) (Z.to_nat avail_out) 0 [].

(** A checksum that only has to be a function: the sum of the bytes. *)
Definition checksum (crc : Z) (buf : list Z) : Z := foldl Z.add crc buf.

#[export] Instance engine : zlib := {|
  dstate := list Z * bool;
  istate := inflating;
  deflateInit2 := (Z_OK, ([], false));
  zdeflate := deflate;
  inflateInit2 := (Z_OK, mkInflating false false);
  zinflate := inflate;
  crc32 := checksum;
  crc32_init := 0
|}.

(** Objects whose unassigned members hold nothing. *)
Definition writer_junk : MZGFileWriter.t :=
  MZGFileWriter.mk 0 0 (fopen_wb []) (mkZstream ([], false) 0 0 0) [] 0 0 0 []
    0 [] 0 no_error statics_init.

Definition reader_junk : MZGFileReader.t :=
  MZGFileReader.mk None (mkZstream (mkInflating false false) 0 0 0) 0 0 false
    0 0 [] 0 [] 0 0 0 [] 0 no_error statics_init.

(** Compress [input] with a writer constructed at time [now] into an empty
    file: the return code and the bytes of the file. *)
Definition compress (now : Z) (input : list Z) : option (Z * list Z) :=
  match MZGFileWriter.deflate 8 (fopen_rb input) (fopen_wb [])
          (MZGFileWriter.MZGFileWriter now statics_init writer_junk) with
  | Some (ret, _, _, dst) => Some (ret, f_data dst)
  | None => None
  end.

(** A file system holding one file. *)
Definition single (path : string) (data : list Z) : filesystem :=
  λ p, if String.eqb p path then Some data else None.

(** The bytes of the compressed file for [input], written at time 1000. *)
Definition mgz (input : list Z) : list Z :=
  match compress 1000 input with
  | Some (_, file) => file
  | None => []
  end.

(** [open] on a file holding [file], by a freshly constructed reader: the
    return code and the reader. *)
Definition open (file : list Z) : outcome (Z * MZGFileReader.t) :=
  MZGFileReader.open 4 (single "in.mgz" file) "in.mgz"
    (MZGFileReader.MZGFileReader statics_init reader_junk).

(** The reader after [open]; the constructed reader if [open] did not
    return. *)
Definition opened (file : list Z) : MZGFileReader.t :=
  match open file with
  | Returns (_, r) => r
  | _ => MZGFileReader.MZGFileReader statics_init reader_junk
  end.

(** The return code of a member function, [None] if it did not return. *)
Definition code {A : Type} (o : outcome (Z * A)) : option Z :=
  match o with Returns (ret, _) => Some ret | _ => None end.

(** The value [read] returns, [None] if it did not return. *)
Definition count {A B : Type} (o : outcome (Z * A * B)) : option Z :=
  match o with Returns (ret, _, _) => Some ret | _ => None end.

(** The reader a member function leaves behind. *)
Definition after {A : Type} (dflt : A) (o : outcome (Z * A)) : A :=
  match o with Returns (_, r) => r | _ => dflt end.

(** The file for the empty input whose EOF member has its subfield
    identifier ["BO"] overwritten with ["BX"]: the ['O'] is the 29th byte
    from the end of the file. *)
Definition mgz_BX : list Z :=
  let file := mgz [] in
  <[(length file - 29)%nat := 88]> file.


End toy.

(** ** Vocabulary of the proofs

    What the lemmas about the writer and the reader are stated with: the
    parts of an object a step depends on or leaves alone, the bytes a
    stream has gained, and the state of a reader in the middle of a
    stream. *)

(** *** Streams *)

(** [fp'] is [fp] with [bytes] appended by writes none of which was short. *)
Definition appended (fp : FILE) (bytes : list Z) (fp' : FILE) : Prop :=
  f_data fp' = f_data fp ++ bytes
  ∧ ferror fp = false ∧ ferror fp' = false
  ∧ (f_script fp = [] → f_script fp' = []).

(** A device that takes everything and a stream without error. *)
Definition fault_free (fp : FILE) : Prop := f_script fp = [] ∧ ferror fp = false.

(** A stream open for reading at [pos], neither indicator set. *)
Definition rd (data : list Z) (pos : Z) : FILE := mkFILE data pos false false [].

(** *** Index entries *)

(** The bytes of the entries gathered in [extra_bindex]. *)
Definition entry_bytes (cur : list bindex_t) : list Z :=
  flat_map (λ e, le_bytes8 (zoffset e) ++ le_bytes8 (uoffset e)) cur.

(** [extra_bindex] while a member is being filled: the identifier, ten
    bytes that are overwritten when the member is closed, the entries
    gathered so far, and the rest of the array. *)
Definition bi_buffer (id : list Z) (cur : list bindex_t) (eb : list Z) : Prop :=
  ∃ hdr T, eb = id ++ hdr ++ entry_bytes cur ++ T
           ∧ length id = 2%nat ∧ length hdr = 10%nat
           ∧ len eb = sizeof_extra_bindex.

(** The offsets of an entry fit the eight bytes they are stored in. *)
Definition in_range (e : bindex_t) : Prop :=
  0 ≤ zoffset e < 2 ^ 64 ∧ 0 ≤ uoffset e < 2 ^ 64.

(** The file-scope arrays have their declared sizes. *)
Definition statics_sized (g : statics) : Prop :=
  len (extra_mzgf g) = sizeof_extra_mzgf
  ∧ len (extra_eof g) = sizeof_extra_eof
  ∧ len (extra_bindex g) = sizeof_extra_bindex.



(** *** The writer *)

Section writer_vocabulary.
Context `{Zl : zlib}.
Import MZGFileWriter.

Implicit Types (w : MZGFileWriter.t).



(** How a step of the writer can end: it returns 0 and the stream has no
    error, or it returns 1 and has set [m_error]. *)
Definition checked (res : Z * MZGFileWriter.t) : Prop :=
  (res.1 = 0 ∧ ferror (m_fp res.2) = false)
  ∨ (res.1 = MZGF_FERROR ∧ m_error res.2 ≠ no_error).

(** The members a step that only writes leaves alone. *)
Definition kept w :=
  (m_mtime w, zs_state (m_zs w), m_uoffset w, m_bindex w, m_bindex_offset w).

(** The members [_flush_loop] leaves alone. *)
Definition kept_flush w :=
  (m_mtime w, m_uoffset w, m_bindex w, m_bindex_offset w, m_usize w,
   m_ucrc32 w, globals w, m_ublock w).

(** The checksum the writer holds after the rounds, when it held [crc]
    before them. *)
Definition crc_from (crc : Z) (rounds : list (list Z * list Z)) : Z :=
  foldl (λ crc round, crc32 crc round.1) crc rounds.

(** The engine ends every flush of a block: driven as [_flush] drives it,
    it stops filling the output array after finitely many calls, without
    an error. *)
Definition flushes_complete : Prop :=
  ∀ flush block st,
    ∃ fuel, is_Some (flush_round fuel flush block
                       (mkZstream st 0 (len block) 0)).

End writer_vocabulary.

(** *** The small engine *)

(** What is left of a stream for the small inflater: after the end
    marker nothing, after a tag the byte it announces, and otherwise the
    encoded rest with the end marker. *)
Definition toy_inflating (s : toy.inflating) (pz pu : list Z) : Prop :=
  if toy.ended s then pz = [] ∧ pu = []
  else if toy.got_tag s
       then ∃ b pu', pu = b :: pu' ∧ pz = b :: toy.encode pu' ++ [0]
       else pz = toy.encode pu ++ [0].

(** *** The reader *)

Section reader_vocabulary.
Context `{Zl : zlib} {codec : zlib_codec}.
Import MZGFileReader.

Implicit Types (r : MZGFileReader.t) (pz pu : list Z).

(** What the header readers leave alone. *)
Definition rkept r :=
  (m_zs r, m_isEOF r, m_ufilesize r, m_blen r, m_boffset r, m_bindex r,
   m_bindex_offset r).

(** What reading the index leaves alone. *)
Definition rstate r :=
  (m_zs r, m_isEOF r, m_ufilesize r, m_blen r, m_boffset r, m_bindex_offset r).

(** The file being read, and what follows its deflate stream. *)
Variables (F tail : list Z).

(** The input the engine has been given and has not used yet, and the
    bytes of the block array that [read] has not copied yet. *)
Definition window r : list Z :=
  prefix (avail_in (m_zs r)) (from (next_in (m_zs r)) (m_zblock r)).
Definition buffered r : list Z :=
  prefix (m_blen r - m_boffset r) (from (m_boffset r) (m_ublock r)).

(** The reader is in the middle of the stream: [pz] of it is still to be
    inflated (some of it sits in the window), to give [pu]. *)
Definition reading r pz pu : Prop :=
  ∃ pos eof,
    m_fp r = Some (mkFILE F pos eof false [])
    ∧ 0 ≤ pos
    ∧ window r ++ from pos F = pz ++ tail
    ∧ len (window r) = avail_in (m_zs r)
    ∧ 0 ≤ next_in (m_zs r)
    ∧ (eof = true → from pos F = [])
    ∧ inflating (zs_state (m_zs r)) pz pu
    ∧ 0 ≤ m_boffset r
    ∧ (m_boffset r < m_blen r ∨ (m_boffset r = 0 ∧ m_blen r = 0))
    ∧ len (buffered r) = m_blen r - m_boffset r
    ∧ (m_isEOF r = true → buffered r = [] ∧ pu = []).

End reader_vocabulary.

(** *** Random access *)

Section seek_vocabulary.
Context `{Zl : zlib} {codec : zlib_codec}.
Import MZGFileReader.

Implicit Types (r : MZGFileReader.t) (pz pu : list Z).

(** The blocks the writer closes with [Z_FULL_FLUSH] do not depend on what
    precedes them: a fresh inflater started at the first byte of the
    output of a block reads back that block and all that follow. *)
Definition restartable : Prop :=
  ∀ fuel input pre post,
    deflate_rounds fuel deflateInit2.2 input = Some (pre ++ post) →
    post ≠ [] →
    inflating inflateInit2.2 (payload_of post) (concat (fst <$> post)).

(** The file being read, and what follows its deflate stream. *)
Variables (F tail : list Z).

(** The reader has been positioned in front of [pz] and has not inflated
    anything since: the block array holds nothing, and [m_boffset] bytes of
    [pu] are to be passed over. *)
Definition seeking r pz pu : Prop :=
  ∃ pos eof,
    m_fp r = Some (mkFILE F pos eof false [])
    ∧ 0 ≤ pos
    ∧ window r ++ from pos F = pz ++ tail
    ∧ len (window r) = avail_in (m_zs r)
    ∧ 0 ≤ next_in (m_zs r)
    ∧ (eof = true → from pos F = [])
    ∧ inflating (zs_state (m_zs r)) pz pu
    ∧ m_blen r = 0
    ∧ 0 ≤ m_boffset r < len pu
    ∧ m_isEOF r = false.

Definition positioned r pz pu : Prop :=
  reading F tail r pz pu ∨ seeking r pz pu.

(** The bytes [read] has still to hand out: what is left in the block
    array, and what the stream gives once [m_boffset] bytes of it have
    been passed over. *)
Definition pending r pu : list Z :=
  buffered r ++ from (if m_blen r =? 0 then m_boffset r else 0) pu.

(** What bounds the calls of [read] that are still to come: each one that
    is asked for a byte uses up compressed input, hands out or passes over
    data, or sets the latch. *)
Definition remaining r pz pu : Z :=
  len pz + len pu + len (buffered r) + (if m_isEOF r then 0 else 1).

End seek_vocabulary.

(** *** The arrays of the reader *)

Section bounds_vocabulary.
Context `{Zl : zlib}.
Import MZGFileReader.

(** The block arrays have their declared size, the input of [m_zs] lies
    inside [m_zblock], and the block held in [m_ublock] and the offset into
    it lie inside [m_ublock]. *)
Definition in_bounds (r : MZGFileReader.t) : Prop :=
  len (m_zblock r) = MZGF_BLOCK_SIZE
  ∧ len (m_ublock r) = MZGF_BLOCK_SIZE
  ∧ 0 ≤ next_in (m_zs r) ∧ 0 ≤ avail_in (m_zs r)
  ∧ next_in (m_zs r) + avail_in (m_zs r) ≤ MZGF_BLOCK_SIZE
  ∧ 0 ≤ m_blen r ≤ MZGF_BLOCK_SIZE
  ∧ 0 ≤ m_boffset r.

End bounds_vocabulary.
(** * Theorems *)

(** ** The byte packer *)

(** Equality of two integers bit by bit, for expressions made of [lor],
    shifts by constants and [mod 2 ^ k]. *)
Ltac testbits :=
  apply Z.bits_inj'; intros i Hi;
  repeat first
    [ rewrite Z.lor_spec
    | rewrite Z.testbit_mod_pow2 by lia
    | rewrite Z.shiftl_spec by lia ];
  repeat match goal with
  | |- context [ ?a <? ?b ] => destruct (Z.ltb_spec a b); try lia
  end;
  cbn [andb orb];
  repeat match goal with
  | |- context [ Z.testbit ?a ?j ] => rewrite (Z.testbit_neg_r a j) by lia
  | |- context [ Z.testbit (?a ≫ ?n) ?j ] => rewrite (Z.shiftr_spec a n j) by lia
  end;
  repeat match goal with
  | |- context [ Z.testbit ?a ?j ] => progress replace j with i by lia
  end;
  repeat match goal with
  | |- context [ Z.testbit ?a i ] => destruct (Z.testbit a i)
  end;
  reflexivity.

Ltac lookup_insert :=
  repeat first
    [ rewrite list_lookup_insert_eq by (rewrite ?length_insert; lia)
    | rewrite list_lookup_insert_ne by lia ].

Section packer.

Implicit Types (buffer : list Z) (p : nat) (v : Z).

Lemma packInt16_length buffer p v : length (packInt16 buffer p v) = length buffer.
Proof. unfold packInt16. by rewrite !length_insert. Qed.

Lemma packInt32_length buffer p v : length (packInt32 buffer p v) = length buffer.
Proof. unfold packInt32. by rewrite !length_insert. Qed.

Lemma packInt64_length buffer p v : length (packInt64 buffer p v) = length buffer.
Proof. unfold packInt64. by rewrite !length_insert. Qed.

Lemma unpack_packInt16 buffer p v :
  (p + 2 ≤ length buffer)%nat →
  unpackInt16 (packInt16 buffer p v) p = Some (uint16_t v).
Proof.
  intros Hlen. unfold unpackInt16, packInt16. cbn zeta.
  lookup_insert. cbn. f_equal.
  transitivity (uint16_t (uint16_t v)).
  - generalize (uint16_t v). intros w. unfold uint8_t, uint16_t. testbits.
  - unfold uint16_t. by rewrite Z.mod_mod.
Qed.

Lemma unpack_packInt32 buffer p v :
  (p + 5 ≤ length buffer)%nat →
  unpackInt32 (packInt32 buffer p v) p = Some (uint32_t v).
Proof.
  intros Hlen. unfold unpackInt32, packInt32. cbn zeta.
  destruct (lookup_lt_is_Some_2 buffer (p + 4)%nat) as [b4 Hb4]; [lia|].
  lookup_insert. rewrite Hb4. cbn. f_equal.
  transitivity (uint32_t (uint32_t v)).
  - generalize (uint32_t v). intros w.
    unfold uint8_t, uint32_t, uint64_t. testbits.
  - unfold uint32_t. by rewrite Z.mod_mod.
Qed.

Lemma unpack_packInt64 buffer p v :
  (p + 8 ≤ length buffer)%nat →
  unpackInt64 (packInt64 buffer p v) p = Some (uint64_t v).
Proof.
  intros Hlen. unfold unpackInt64, packInt64. cbn zeta.
  lookup_insert. cbn. f_equal.
  transitivity (uint64_t (uint64_t v)).
  - generalize (uint64_t v). intros w. unfold uint8_t, uint64_t. testbits.
  - unfold uint64_t. by rewrite Z.mod_mod.
Qed.

(** C10.  The little-endian packer round-trips: decoding with
    [unpackInt16], [unpackInt32], [unpackInt64] what [packInt16],
    [packInt32], [packInt64] stored for an unsigned 16-, 32-, 64-bit value
    gives the value back, as long as every byte the two functions touch
    lies inside the buffer.  [unpackInt32] loads five bytes. *)
Theorem pack_unpack_roundtrip buffer p (v16 v32 v64 : Z) :
  0 ≤ v16 < 2 ^ 16 → 0 ≤ v32 < 2 ^ 32 → 0 ≤ v64 < 2 ^ 64 →
  ((p + 2 ≤ length buffer)%nat →
   unpackInt16 (packInt16 buffer p v16) p = Some v16)
  ∧ ((p + 5 ≤ length buffer)%nat →
     unpackInt32 (packInt32 buffer p v32) p = Some v32)
  ∧ ((p + 8 ≤ length buffer)%nat →
     unpackInt64 (packInt64 buffer p v64) p = Some v64).
Proof.
  intros H16 H32 H64. split_and!; intros Hlen.
  - rewrite unpack_packInt16 by done. unfold uint16_t. by rewrite Z.mod_small.
  - rewrite unpack_packInt32 by done. unfold uint32_t. by rewrite Z.mod_small.
  - rewrite unpack_packInt64 by done. unfold uint64_t. by rewrite Z.mod_small.
Qed.

Lemma pack_unpack_roundtrip_witness :
  unpackInt16 (packInt16 (replicate 8 0) 3 0xBEEF) 3 = Some 0xBEEF
  ∧ unpackInt32 (packInt32 (replicate 8 0) 3 0xDEADBEEF) 3 = Some 0xDEADBEEF
  ∧ unpackInt64 (packInt64 (replicate 8 0) 0 0x0123456789ABCDEF) 0
    = Some 0x0123456789ABCDEF.
Proof.
  split_and!.
  - apply (pack_unpack_roundtrip (replicate 8 0) 3 0xBEEF 0 0); simpl; lia.
  - apply (pack_unpack_roundtrip (replicate 8 0) 3 0 0xDEADBEEF 0); simpl; lia.
  - apply (pack_unpack_roundtrip (replicate 8 0) 0 0 0 0x0123456789ABCDEF);
      simpl; lia.
Defined.

End packer.


(** ** The reader: what [read] returns *)

Section reader_read.
Context `{Zl : zlib}.
Import MZGFileReader.

Implicit Types (r : MZGFileReader.t) (size copied : Z).

(** The counts of an engine call: the output fits in [avail_out], and the
    input consumed is taken off [avail_in]. *)
Lemma zcall_counts {S : Type} (engine : S → list Z → Z → Z → zresult S)
    inbuf flush (zs zs' : z_stream S) ret out :
  zcall engine inbuf flush zs = (ret, zs', out) →
  avail_out zs' = avail_out zs - len out
  ∧ 0 ≤ len out
  ∧ (0 ≤ avail_out zs → len out ≤ avail_out zs)
  ∧ next_in zs' + avail_in zs' = next_in zs + avail_in zs
  ∧ next_in zs ≤ next_in zs'
  ∧ (0 ≤ avail_in zs → 0 ≤ avail_in zs').
Proof.
  unfold zcall. intros ?; simplify_eq. cbn.
  unfold prefix, len. rewrite !length_take. lia.
Qed.





Lemma _read_block_boffset r ret r' :
  _read_block r = Returns (ret, r') → m_boffset r' = m_boffset r.
Proof.
  unfold _read_block, stream. cbn zeta.
  destruct (avail_in _ =? 0); cbn [obind defined m_fp set_zs set_fp set_zblock
    set_ublock set_isEOF].
  - destruct (m_fp r) as [fp|]; cbn [obind defined]; [|done].
    destruct (fread _ _) as [got fp']. cbn [obind].
    repeat case_match; cbn [obind defined negb m_fp set_zs set_fp set_zblock
      set_ublock set_isEOF set_error set_zoffset];
      repeat case_match; intros ?; simplify_eq; done.
  - repeat case_match; cbn [obind defined negb m_fp set_zs set_fp set_zblock
      set_ublock set_isEOF set_error set_zoffset];
      destruct (m_fp r); cbn [obind defined];
      intros ?; simplify_eq; done.
Qed.




End reader_read.



(** ** The reader: [open] and the identifier of the EOF member *)

(** C4 (the code departs from it).  In the file written for an empty
    input, overwrite the ['O'] of the EOF member's ["BO"] with ['X'] (88):
    the first identifier byte is still ['B'], and [open] returns 0 instead
    of [MZGF_BAD_FORMAT]. *)
Theorem open_accepts_BX :
  toy.code (toy.open (toy.mgz [])) = Some 0
  ∧ toy.mgz_BX !! (length toy.mgz_BX - 30)%nat = Some chr_B
  ∧ toy.mgz_BX !! (length toy.mgz_BX - 29)%nat = Some 88
  ∧ toy.code (toy.open toy.mgz_BX) = Some 0
  ∧ toy.code (toy.open toy.mgz_BX) ≠ Some MZGF_BAD_FORMAT.
Proof. vm_compute. split_and!; try done. Qed.

(** ** The reader: [vtell] and [useek] *)

(** C2 (the code departs from it).  Open the file for the input 7, 8, 9;
    its index is the single entry (17, 0).  After [useek(0)] has returned
    0, [vtell()] is 17, the compressed offset itself, and not
    [17 << 16 = 1114112]. *)
Theorem vtell_after_useek_unshifted :
  let r := toy.opened (toy.mgz [7; 8; 9]) in
  let r' := toy.after r (MZGFileReader.useek 4 0 r) in
  MZGFileReader.bindex r = [mkBindex 17 0]
  ∧ toy.code (MZGFileReader.useek 4 0 r) = Some 0
  ∧ MZGFileReader.vtell r' = 17
  ∧ MZGFileReader.vtell r' ≠ 17 ≪ 16.
Proof. vm_compute. split_and!; try done. Qed.

Section reader_useek.
Context `{Zl : zlib}.
Import MZGFileReader.

Implicit Types (r : MZGFileReader.t) (ix : list bindex_t) (u : Z).

Lemma useek_search_spec fuel ix u lower upper :
  sorted_index ix →
  0 ≤ lower ≤ upper → upper < len_bindex ix →
  upper - lower ≤ Z.of_nat fuel →
  (∀ (j : nat) e, Z.of_nat j < lower → ix !! j = Some e → uoffset e ≤ u) →
  (upper = len_bindex ix - 1
   ∨ ∃ e, ix !! Z.to_nat upper = Some e ∧ u < uoffset e) →
  ∃ k, useek_search fuel ix u lower upper = Returns k
       ∧ 0 ≤ k < len_bindex ix
       ∧ (∀ (j : nat) e, Z.of_nat j < k → ix !! j = Some e → uoffset e ≤ u)
       ∧ (k = len_bindex ix - 1
          ∨ ∃ e, ix !! Z.to_nat k = Some e ∧ u < uoffset e).
Proof.
  intros Hs. revert lower upper.
  induction fuel as [|fuel IH]; intros lower upper Hlu Hup Hfuel Hlow Hupp.
  { cbn. destruct (Z.ltb_spec lower upper); [lia|].
    exists lower. split_and!; try done; try lia.
    replace lower with upper by lia. done. }
  cbn. destruct (Z.ltb_spec lower upper) as [Hlt|Hge].
  2: { exists lower. split_and!; try done; try lia.
       replace lower with upper by lia. done. }
  set (mid := (lower + upper) `quot` 2).
  assert (lower ≤ mid < upper) as Hmid.
  { unfold mid. rewrite Z.quot_div_nonneg by lia.
    split; [apply Z.div_le_lower_bound | apply Z.div_lt_upper_bound]; lia. }
  destruct (lookup_lt_is_Some_2 ix (Z.to_nat mid)) as [[mz mu] Hm].
  { unfold len_bindex in Hup. lia. }
  rewrite Hm. cbn.
  destruct (Z.ltb_spec u mu) as [Hu|Hu].
  - apply IH; try lia; try done.
    right. exists (mkBindex mz mu). done.
  - apply IH; try lia; try done.
    intros j e Hj He.
    apply (Hs j (Z.to_nat mid) e (mkBindex mz mu)) in He; [|lia|done].
    cbn in He. lia.
Qed.

Lemma uint64_int64 z : uint64_t (int64_t z) = uint64_t z.
Proof.
  unfold uint64_t, int64_t.
  rewrite <- Zminus_mod_idemp_l, Z.mod_mod by lia.
  rewrite Zminus_mod_idemp_l. f_equal. lia.
Qed.

Lemma int32_small z : 0 ≤ z < 2 ^ 31 → int32_t z = z.
Proof. intros. unfold int32_t. rewrite Z.mod_small; lia. Qed.


Lemma selected_unique ix u (k k' : nat) e e' :
  selected ix u k e → selected ix u k' e' → k = k' ∧ e = e'.
Proof.
  intros (Hk & Hle & Hgt) (Hk' & Hle' & Hgt').
  assert (k = k') as ->.
  { destruct (Nat.lt_total k k') as [Hlt|[?|Hlt]]; [|done|].
    - specialize (Hgt _ _ Hlt Hk'). lia.
    - specialize (Hgt' _ _ Hlt Hk). lia. }
  split; [done|congruence].
Qed.

(** What [useek] does once its search has ended: with an ordered index
    that starts at or below [u], the entry it works with is the selected
    one. *)
Lemma useek_at_selected fuel u r e0 :
  m_bindex r !! 0%nat = Some e0 → uoffset e0 ≤ u →
  sorted_index (m_bindex r) →
  0 ≤ u < 2 ^ 63 →
  ∃ (n : nat) e,
    selected (m_bindex r) u n e
    ∧ useek fuel u r
      = let r := set_boffset (int32_t (u - uoffset e)) r in
        if uint64_t (m_zoffset r) =? zoffset e then Returns (0, r)
        else
          let r := set_zoffset (int64_t (zoffset e)) r in
          let r := set_uoffset u r in
          let r := set_blen 0 r in
          let r := set_isEOF false r in
          let '(ret, r) := reset_inflate r in
          if negb (ret =? Z_OK) then Returns (1, set_error (zError ret) r)
          else
            fp ←! stream r;
            let '(rc, fp) := fseek_set (int64_t (zoffset e)) fp in
            let r := set_fp (Some fp) r in
            if negb (rc =? 0) then Returns (1, set_error strerror_errno r)
            else Returns (0, r).
Proof.
  intros H0 Hu0 Hs Hu.
  assert (0 < len_bindex (m_bindex r)) as Hlen.
  { apply lookup_lt_Some in H0. unfold len_bindex. lia. }
  assert (uint64_t u = u) as Huu.
  { unfold uint64_t. apply Z.mod_small. lia. }
  unfold useek.
  destruct (Z.eqb_spec (len_bindex (m_bindex r)) 0) as [?|_]; [lia|].
  cbn. rewrite Huu.
  destruct (useek_search_spec (length (m_bindex r)) (m_bindex r) u 0
              (len_bindex (m_bindex r) - 1))
    as (k & -> & Hk & Hlow & Hupp);
    [done | lia | lia | unfold len_bindex; lia | intros; lia | by left |].
  cbn. unfold at_index.
  destruct (Z.ltb_spec k 0); [lia|].
  destruct (lookup_lt_is_Some_2 (m_bindex r) (Z.to_nat k)) as [[kz ku] Hek].
  { unfold len_bindex in Hk. lia. }
  rewrite Hek. cbn.
  (* the entry chosen, as a natural index *)
  assert (∃ (n : nat) e, selected (m_bindex r) u n e
            ∧ (if u <? ku then k - 1 else k) = Z.of_nat n) as (n & [ez eu] & Hsel & Hn).
  { destruct (Z.ltb_spec u ku) as [Hlt|Hge].
    - assert (k ≠ 0) as Hk0.
      { intros ->. change (Z.to_nat 0) with 0%nat in Hek.
        rewrite H0 in Hek. simplify_eq. cbn in Hu0. lia. }
      destruct (lookup_lt_is_Some_2 (m_bindex r) (Z.to_nat (k - 1))) as [e' He'].
      { unfold len_bindex in Hk. lia. }
      exists (Z.to_nat (k - 1)), e'. split; [|lia].
      split_and!; [done| |].
      + apply (Hlow (Z.to_nat (k - 1))); [lia|done].
      + intros j e'' Hj He''.
        apply (Hs (Z.to_nat k) j (mkBindex kz ku) e'') in He''; [|lia|done].
        cbn in He''. lia.
    - exists (Z.to_nat k), (mkBindex kz ku). split; [|lia].
      split_and!; [done|done|].
      intros j e' Hj He'. apply lookup_lt_Some in He'.
      destruct Hupp as [->|(e'' & He'' & Hlt)].
      + unfold len_bindex in Hj. lia.
      + rewrite Hek in He''. simplify_eq. cbn in Hlt. lia. }
  rewrite Hn. destruct (Z.ltb_spec (Z.of_nat n) 0); [lia|].
  rewrite Nat2Z.id. pose proof Hsel as (Hen & _ & _).
  rewrite Hen. cbn.
  exists n, (mkBindex ez eu). split; [done|]. reflexivity.
Qed.


(** [useek] compares the counter [m_zoffset] with the [zoffset] of the
    entry it has selected and returns 0 at once when the two are equal
    (line 626).  Only [m_boffset] has been assigned by then: the stream
    keeps its position, the inflater its state, the block array what it
    holds and the end-of-file latch its value.  [m_zoffset] is not the
    offset of the block being read: [open] leaves in it the number of
    header bytes it has read, and [_read_block] adds every [fread] to
    it. *)
Theorem useek_skips_seek fuel u r (k : nat) e :
  sorted_index (m_bindex r) → 0 ≤ u < 2 ^ 63 →
  selected (m_bindex r) u k e →
  uint64_t (m_zoffset r) = zoffset e →
  useek fuel u r = Returns (0, set_boffset (int32_t (u - uoffset e)) r).
Proof.
  intros Hs Hu Hsel Hz.
  pose proof Hsel as (Hk & Hle & _).
  destruct (lookup_lt_is_Some_2 (m_bindex r) 0) as [e0 H0].
  { apply lookup_lt_Some in Hk. lia. }
  assert (uoffset e0 ≤ u) as Hu0.
  { pose proof (Hs 0%nat k e0 e ltac:(lia) H0 Hk). lia. }
  destruct (useek_at_selected fuel u r e0 H0 Hu0 Hs Hu)
    as (n & e' & Hsel' & ->).
  destruct (selected_unique _ _ _ _ _ _ Hsel' Hsel) as [-> ->].
  cbn zeta. cbn [set_boffset m_zoffset]. by rewrite Hz, Z.eqb_refl.
Qed.

End reader_useek.


(** The same index, a reader whose counter holds the [zoffset] of the
    second entry, and an offset inside the second block. *)
Lemma useek_skips_seek_witness :
  let ix := [mkBindex 17 0; mkBindex 100 65280; mkBindex 200 130560;
             mkBindex 300 195840] in
  let r := MZGFileReader.set_zoffset 100
             (MZGFileReader.set_bindex ix
                (MZGFileReader.set_fp (Some (fopen_rb [31; 139; 8; 4]))
                   toy.reader_junk)) in
  MZGFileReader.useek 4 70000 r
  = Returns (0, MZGFileReader.set_boffset (int32_t (70000 - 65280)) r).
Proof.
  intros ix r.
  apply (@useek_skips_seek toy.engine 4 70000 r 1 (mkBindex 100 65280)).
  - change (sorted_index ix). unfold ix.
    intros [|[|[|[|i]]]] [|[|[|[|j]]]] ei ej Hij Hi Hj; simpl in *;
      simplify_eq; simpl; try lia; try done.
  - lia.
  - change (selected ix 70000 1 (mkBindex 100 65280)). unfold ix.
    split_and!; [reflexivity|simpl; lia|].
    intros [|[|[|[|j]]]] e' Hj He'; simpl in *; simplify_eq; simpl;
      try lia; try done.
  - reflexivity.
Defined.


(** ** The writer: what the output depends on *)

Section writer_determinism.
Context `{Zl : zlib}.
Import MZGFileWriter.

Implicit Types (w : MZGFileWriter.t).


Lemma prefix_from n a (l : list Z) :
  0 ≤ n → 0 ≤ a → prefix a (from n l) = from n (prefix (n + a) l).
Proof.
  intros. unfold prefix, from. rewrite take_drop_commute. do 2 f_equal. lia.
Qed.

Lemma prefix_prefix a b (l : list Z) :
  0 ≤ a ≤ b → prefix a (prefix b l) = prefix a l.
Proof. intros. unfold prefix. rewrite take_take. f_equal. lia. Qed.

Lemma prefix_store (bs buf : list Z) : prefix (len bs) (store bs buf) = bs.
Proof.
  unfold prefix, store, len. rewrite Nat2Z.id. by rewrite take_app_length.
Qed.

(** The twelve header bytes [_write_header] assembles in [m_zblock]. *)
Lemma header_bytes zblock mtime extralen :
  prefix sizeof_gzheader
    (packInt16 (packInt32 (store gzheader zblock) 4 mtime) 10 extralen)
  = gz_header mtime extralen.
Proof. reflexivity. Qed.













(** *** The file-scope arrays *)



































End writer_determinism.



(** ** The writer: failed writes *)

Section writer_failures.
Context `{Zl : zlib}.
Import MZGFileWriter.

Implicit Types (w : MZGFileWriter.t) (fp : FILE).

(** A short write sets the error indicator of the stream, and the
    indicator, once set, stays set. *)
Lemma fwrite_short_sets_error bs fp :
  (fwrite bs fp).1 ≠ len bs → ferror (fwrite bs fp).2 = true.
Proof.
  unfold fwrite, ferror. destruct (f_script fp) as [|k script]; cbn; [done|].
  intros Hn. destruct (Z.ltb_spec (len (prefix k bs)) (len bs)).
  - apply orb_true_r.
  - unfold prefix, len in *. rewrite length_take in *. lia.
Qed.

Lemma fwrite_error_sticky bs fp :
  ferror fp = true → ferror (fwrite bs fp).2 = true.
Proof.
  unfold fwrite, ferror. intros Hfp.
  destruct (f_script fp); cbn; by rewrite Hfp.
Qed.

Lemma _write_header_unchecked extra extralen w :
  (_write_header extra extralen w).1 = 0.
Proof.
  unfold _write_header. cbn zeta.
  destruct (fwrite _ _) as [n fp]. destruct (negb (extralen =? 0)); [|done].
  by destruct (fwrite _ _).
Qed.

Lemma _write_empty_checked w : checked (_write_empty w).
Proof.
  unfold _write_empty, checked. cbn zeta.
  destruct (fwrite _ _) as [n fp]. cbn.
  destruct (negb (n =? 2)); cbn; [by right|].
  destruct (ferror fp) eqn:Hfp; cbn; [by right|by left].
Qed.

Lemma _write_trailer_checked w : checked (_write_trailer w).
Proof.
  unfold _write_trailer, checked. cbn zeta.
  destruct (fwrite _ _) as [n fp]. cbn.
  destruct (negb (n =? 8)); cbn; [by right|].
  destruct (ferror fp) eqn:Hfp; cbn; [by right|by left].
Qed.

Lemma write_member_checked extra extralen w :
  checked (write_member extra extralen w).
Proof.
  unfold write_member.
  pose proof (_write_header_unchecked extra extralen w) as Hh.
  destruct (_write_header extra extralen w) as [ret w1]. cbn in Hh. subst ret.
  cbn. pose proof (_write_empty_checked w1) as He.
  destruct (_write_empty w1) as [ret w2].
  destruct (negb (ret =? 0)); [done|]. apply _write_trailer_checked.
Qed.

Lemma _write_bindex_loop_checked rest offset w :
  ferror (m_fp w) = false → checked (_write_bindex_loop rest offset w).
Proof.
  revert offset w. induction rest as [|bi rest IH]; intros offset w Hfp.
  { by left. }
  cbn [_write_bindex_loop]. cbn zeta.
  destruct (_ || _).
  - match goal with |- context [ write_member ?a ?b ?c ] =>
      pose proof (write_member_checked a b c) as Hm;
      destruct (write_member a b c) as [ret w1] end.
    destruct (Z.eqb_spec ret 0) as [->|Hne]; cbn.
    + destruct Hm as [[_ ?]|[? _]]; [by apply IH|done].
    + done.
  - by apply IH.
Qed.

Lemma _write_bindex_checked w :
  ferror (m_fp w) = false → checked (_write_bindex w).
Proof. intros Hfp. by apply _write_bindex_loop_checked. Qed.

Lemma _flush_loop_checked fuel flush w res :
  _flush_loop fuel flush w = Some res → checked res.
Proof.
  revert w. induction fuel as [|fuel IH]; intros w; [done|].
  cbn [_flush_loop]. cbn zeta.
  destruct (zcall _ _ _ _) as [[ret zs] out].
  destruct ((ret =? Z_OK) || (ret =? Z_STREAM_END)).
  2: { intros ?; simplify_eq. by right. }
  destruct (fwrite _ _) as [n fp].
  destruct (negb (n =? _)); cbn.
  { intros ?; simplify_eq. by right. }
  destruct (ferror fp) eqn:Hfp; cbn.
  { intros ?; simplify_eq. by right. }
  destruct (avail_out zs =? 0); [apply IH|].
  intros ?; simplify_eq. by left.
Qed.

Lemma deflate_loop_checked fuel src w ret w' src' :
  deflate_loop fuel src w = Some (ret, w', src') → checked (ret, w').
Proof.
  revert src w. induction fuel as [|fuel IH]; intros src w; [done|].
  cbn [deflate_loop]. cbn zeta.
  destruct (fread _ _) as [got src1].
  destruct (ferror src1).
  { intros ?; simplify_eq. by right. }
  destruct (_flush _ _) as [[ret1 w1]|] eqn:Hfl; [|done].
  apply _flush_loop_checked in Hfl.
  destruct (Z.eqb_spec ret1 0) as [->|Hne]; cbn.
  - destruct (negb (feof src1)); [apply IH|].
    intros ?; simplify_eq. done.
  - intros ?; simplify_eq. done.
Qed.

(** Whenever the destination stream has its error indicator set when
    [deflate] returns, which is the case as soon as one [fwrite] on it was
    short ([fwrite_short_sets_error], [fwrite_error_sticky]), the write of
    a member header included, [deflate] returns a non-zero status and
    [m_error] holds a message; the status is [MZGF_FERROR] unless
    [deflateInit2] itself failed. *)
Lemma deflate_write_failure_reported fuel src dst w res :
  deflate fuel src dst w = Some res →
  ferror res.2 = true →
  res.1.1.1 ≠ 0
  ∧ m_error res.1.1.2 ≠ no_error
  ∧ (deflateInit2.1 = 0 → res.1.1.1 = MZGF_FERROR).
Proof.
  unfold deflate. destruct deflateInit2 as [iret st]. cbn zeta.
  destruct (Z.eqb_spec iret 0) as [->|Hne]; cbn [negb].
  2: { intros ?; simplify_eq. cbn. done. }
  match goal with |- context [ _write_header ?a ?b ?c ] =>
    pose proof (_write_header_unchecked a b c) as Hh;
    destruct (_write_header a b c) as [ret0 w1] end.
  cbn in Hh. subst ret0. cbn [negb Z.eqb].
  destruct (deflate_loop fuel src w1) as [[[ret1 w2] src1]|] eqn:Hl; [|done].
  apply deflate_loop_checked in Hl.
  assert (∀ ret w', checked (ret, w') → ret ≠ 0 →
            ferror (m_fp w') = true →
            ret ≠ 0 ∧ m_error w' ≠ no_error ∧ (0 = 0 → ret = MZGF_FERROR))
    as Hfail.
  { intros ret w' [[? _]|[? ?]] ? _; cbn in *; done. }
  destruct (Z.eqb_spec ret1 0) as [->|Hne1]; cbn [negb].
  2: { intros ?; simplify_eq. cbn. by apply Hfail. }
  destruct Hl as [[_ Hfp2]|[? _]]; [|done]. cbn in Hfp2.
  pose proof (_write_trailer_checked w2) as Ht.
  destruct (_write_trailer w2) as [ret3 w3].
  destruct (Z.eqb_spec ret3 0) as [->|Hne3]; cbn [negb].
  2: { intros ?; simplify_eq. cbn. by apply Hfail. }
  destruct Ht as [[_ Hfp3]|[? _]]; [|done]. cbn in Hfp3.
  pose proof (_write_bindex_checked w3 Hfp3) as Hb.
  destruct (_write_bindex w3) as [ret4 w4].
  destruct (Z.eqb_spec ret4 0) as [->|Hne4]; cbn [negb].
  2: { intros ?; simplify_eq. cbn. by apply Hfail. }
  destruct Hb as [[_ Hfp4]|[? _]]; [|done]. cbn in Hfp4.
  assert (checked (_write_eof w4)) as Hc by apply write_member_checked.
  destruct (_write_eof w4) as [ret5 w5].
  destruct (Z.eqb_spec ret5 0) as [->|Hne5]; cbn [negb].
  2: { intros ?; simplify_eq. cbn. by apply Hfail. }
  destruct Hc as [[_ Hfp5]|[? _]]; [|done]. cbn in Hfp5.
  intros ?; simplify_eq. cbn. congruence.
Qed.

End writer_failures.


(** ** The writer: the layout of the file *)

Section bytes.

Implicit Types (A T buf : list Z) (p : nat) (v : Z).

Lemma len_app A T : len (A ++ T) = len A + len T.
Proof. unfold len. rewrite length_app. lia. Qed.

Lemma len_nonneg A : 0 ≤ len A.
Proof. unfold len. lia. Qed.

Lemma len_nil : len [] = 0.
Proof. done. Qed.

Lemma prefix_all n A : len A ≤ Z.max 0 n → prefix n A = A.
Proof. unfold prefix, len. intros. apply take_ge. lia. Qed.

Lemma prefix_app_len A T : prefix (len A) (A ++ T) = A.
Proof. unfold prefix, len. rewrite Nat2Z.id. apply take_app_length. Qed.

Lemma prefix_app_le n A T : 0 ≤ n ≤ len A → prefix n (A ++ T) = prefix n A.
Proof. unfold prefix, len. intros. apply take_app_le. lia. Qed.

Lemma from_app_len A T : from (len A) (A ++ T) = T.
Proof. unfold from, len. rewrite Nat2Z.id. apply drop_app_length. Qed.

Lemma from_from a b A : 0 ≤ a → 0 ≤ b → from b (from a A) = from (a + b) A.
Proof. intros. unfold from. rewrite drop_drop. f_equal. lia. Qed.

Lemma from_0 A : from 0 A = A.
Proof. done. Qed.

Lemma prefix_from_split n A : prefix n A ++ from n A = A.
Proof. unfold prefix, from. apply take_drop. Qed.

Lemma len_prefix n A : len (prefix n A) = Z.min (Z.max 0 n) (len A).
Proof. unfold prefix, len. rewrite length_take. lia. Qed.

Lemma len_from n A : len (from n A) = Z.max 0 (len A - Z.max 0 n).
Proof. unfold from, len. rewrite length_drop. lia. Qed.

Lemma len_le_bytes2 v : len (le_bytes2 v) = 2.
Proof. done. Qed.
Lemma len_le_bytes4 v : len (le_bytes4 v) = 4.
Proof. done. Qed.
Lemma len_le_bytes8 v : len (le_bytes8 v) = 8.
Proof. done. Qed.

Lemma split_at_8 T :
  (8 ≤ length T)%nat →
  ∃ t0 t1 t2 t3 t4 t5 t6 t7 T', T = t0 :: t1 :: t2 :: t3 :: t4 :: t5 :: t6 :: t7 :: T'.
Proof.
  intros H. do 8 (destruct T as [|? T]; [simpl in H; lia|]). eauto 12.
Qed.

Lemma packInt64_app A T p v :
  length A = p → (8 ≤ length T)%nat →
  packInt64 (A ++ T) p v = A ++ le_bytes8 v ++ drop 8 T.
Proof.
  intros <- HT.
  destruct (split_at_8 T HT) as (t0&t1&t2&t3&t4&t5&t6&t7&T'&->).
  unfold packInt64. cbn zeta.
  rewrite !insert_app_r_alt by lia.
  replace (length A - length A)%nat with 0%nat by lia.
  replace (length A + 1 - length A)%nat with 1%nat by lia.
  replace (length A + 2 - length A)%nat with 2%nat by lia.
  replace (length A + 3 - length A)%nat with 3%nat by lia.
  replace (length A + 4 - length A)%nat with 4%nat by lia.
  replace (length A + 5 - length A)%nat with 5%nat by lia.
  replace (length A + 6 - length A)%nat with 6%nat by lia.
  replace (length A + 7 - length A)%nat with 7%nat by lia.
  reflexivity.
Qed.

Lemma packInt16_app A T p v :
  length A = p → (2 ≤ length T)%nat →
  packInt16 (A ++ T) p v = A ++ le_bytes2 v ++ drop 2 T.
Proof.
  intros <- HT.
  do 2 (destruct T as [|? T]; [simpl in HT; lia|]).
  unfold packInt16. cbn zeta.
  rewrite !insert_app_r_alt by lia.
  replace (length A - length A)%nat with 0%nat by lia.
  replace (length A + 1 - length A)%nat with 1%nat by lia.
  reflexivity.
Qed.

(** The trailer [_write_trailer] assembles. *)
Lemma trailer_bytes crc usize :
  packInt32 (packInt32 (replicate 8 0) 0 crc) 4 usize = gz_trailer crc usize.
Proof. reflexivity. Qed.

End bytes.

(** *** The stream the writer appends to *)

Lemma appended_nil fp : ferror fp = false → appended fp [] fp.
Proof. intros. unfold appended. by rewrite app_nil_r. Qed.

Lemma appended_trans fp1 fp2 fp3 a b :
  appended fp1 a fp2 → appended fp2 b fp3 → appended fp1 (a ++ b) fp3.
Proof.
  intros (Ha & ? & ? & ?) (Hb & ? & ? & ?). unfold appended.
  rewrite Hb, Ha, app_assoc. split_and!; auto.
Qed.

(** A write after which the stream has no error was complete. *)
Lemma fwrite_complete bs fp :
  ferror (fwrite bs fp).2 = false →
  (fwrite bs fp).1 = len bs ∧ appended fp bs (fwrite bs fp).2.
Proof.
  unfold fwrite, appended, ferror.
  destruct (f_script fp) as [|k script] eqn:Hs; cbn; [done|].
  intros [He Hk]%orb_false_iff. apply Z.ltb_ge in Hk.
  assert (prefix k bs = bs) as ->.
  { rewrite len_prefix in Hk. apply prefix_all. lia. }
  rewrite He, Z.ltb_irrefl. done.
Qed.

(** On a device that takes everything, a write is complete. *)
Lemma fwrite_fault_free bs fp :
  f_script fp = [] → ferror fp = false →
  ferror (fwrite bs fp).2 = false ∧ f_script (fwrite bs fp).2 = [].
Proof. unfold fwrite, ferror. intros -> ?. done. Qed.

Section writer_layout.
Context `{Zl : zlib}.
Import MZGFileWriter.

Implicit Types (w : MZGFileWriter.t) (fp : FILE).

Lemma appended_fault_free fp bytes fp' :
  appended fp bytes fp' → fault_free fp → fault_free fp'.
Proof. intros (_ & _ & ? & Hs) [? _]. split; auto. Qed.

Ltac step_fwrite n fp' Hw Hc :=
  match goal with |- context [ fwrite ?bs ?fp ] =>
    pose proof (fwrite_complete bs fp) as Hc;
    pose proof (fwrite_fault_free bs fp) as Hw;
    destruct (fwrite bs fp) as [n fp']; cbn [fst snd] in Hc, Hw
  end.

Lemma _write_header_spec extra extralen w :
  let w' := (_write_header extra extralen w).2 in
  kept w' = kept w ∧ m_usize w' = m_usize w ∧ m_ucrc32 w' = m_ucrc32 w
  ∧ globals w' = globals w
  ∧ m_zoffset w' = m_zoffset w + sizeof_gzheader + extralen
  ∧ (ferror (m_fp w') = false →
     appended (m_fp w)
       (gz_header (m_mtime w) extralen ++ prefix extralen extra) (m_fp w'))
  ∧ (fault_free (m_fp w) → fault_free (m_fp w')).
Proof.
  unfold _write_header. cbn zeta. rewrite header_bytes.
  cbn [m_fp m_mtime set_zblock].
  step_fwrite n1 fp1 Hw1 Hc1.
  set (w1 := set_zoffset _ _).
  assert (kept w1 = kept w ∧ m_usize w1 = m_usize w ∧ m_ucrc32 w1 = m_ucrc32 w
          ∧ globals w1 = globals w ∧ m_fp w1 = fp1
          ∧ m_zoffset w1 = m_zoffset w + sizeof_gzheader) as (?&?&?&?&Hfp1&?).
  { subst w1. by destruct (negb _ || _). }
  clearbody w1.
  destruct (Z.eqb_spec extralen 0) as [->|Hne]; cbn [negb].
  - cbn [snd]. rewrite Hfp1. split_and!; try done; try lia.
    + intros Hf. change (prefix 0 extra) with (@nil Z). rewrite app_nil_r.
      by apply Hc1.
    + intros [? ?]. split; by apply Hw1.
  - rewrite Hfp1. step_fwrite n2 fp2 Hw2 Hc2. cbn [snd].
    set (w2 := set_zoffset _ _).
    assert (kept w2 = kept w1 ∧ m_usize w2 = m_usize w1
            ∧ m_ucrc32 w2 = m_ucrc32 w1
            ∧ globals w2 = globals w1 ∧ m_fp w2 = fp2
            ∧ m_zoffset w2 = m_zoffset w1 + extralen) as (?&?&?&?&Hfp2&?).
    { subst w2. by destruct (negb _ || _). }
    clearbody w2. rewrite Hfp2. split_and!; try congruence; try lia.
    + intros Hf. destruct (Hc2 Hf) as [_ Ha2].
      assert (ferror fp1 = false) as Hf1 by apply Ha2.
      destruct (Hc1 Hf1) as [_ Ha1].
      by apply (appended_trans _ _ _ _ _ Ha1).
    + intros [? ?]. destruct Hw1 as [? ?]; try done. split; by apply Hw2.
Qed.

Lemma _write_empty_spec w :
  let '(ret, w') := _write_empty w in
  (ret = 0 →
   kept w' = kept w ∧ globals w' = globals w
   ∧ m_usize w' = 0 ∧ m_ucrc32 w' = crc32_init
   ∧ m_zoffset w' = m_zoffset w + 2
   ∧ appended (m_fp w) [0x03; 0x00] (m_fp w'))
  ∧ (fault_free (m_fp w) → ret = 0).
Proof.
  unfold _write_empty. cbn zeta. step_fwrite z f Hw Hc.
  destruct (Z.eqb_spec z 2) as [->|Hne]; cbn [negb orb].
  - destruct (ferror f) eqn:Hf; cbn.
    + split; [done|]. intros [? ?]. destruct Hw; congruence.
    + split; [|done]. intros _. split_and!; try done. by apply Hc.
  - split; [done|]. intros [? ?]. destruct Hw as [Hf _]; try done.
    destruct (Hc Hf) as [? _]. done.
Qed.

Lemma _write_trailer_spec w :
  let '(ret, w') := _write_trailer w in
  (ret = 0 →
   kept w' = kept w ∧ globals w' = globals w
   ∧ m_usize w' = m_usize w ∧ m_ucrc32 w' = m_ucrc32 w
   ∧ m_zoffset w' = m_zoffset w + 8
   ∧ appended (m_fp w) (gz_trailer (m_ucrc32 w) (m_usize w)) (m_fp w'))
  ∧ (fault_free (m_fp w) → ret = 0).
Proof.
  unfold _write_trailer. cbn zeta. rewrite trailer_bytes. step_fwrite z f Hw Hc.
  destruct (Z.eqb_spec z 8) as [->|Hne]; cbn [negb orb].
  - destruct (ferror f) eqn:Hf; cbn.
    + split; [done|]. intros [? ?]. destruct Hw; congruence.
    + split; [|done]. intros _. split_and!; try done. by apply Hc.
  - split; [done|]. intros [? ?]. destruct Hw as [Hf _]; try done.
    destruct (Hc Hf) as [? _]. done.
Qed.

Lemma write_member_spec extra extralen w :
  let '(ret, w') := write_member extra extralen w in
  (ret = 0 →
   kept w' = kept w ∧ globals w' = globals w
   ∧ m_usize w' = 0 ∧ m_ucrc32 w' = crc32_init
   ∧ m_zoffset w' = m_zoffset w + sizeof_gzheader + extralen + 2 + 8
   ∧ appended (m_fp w)
       (gz_header (m_mtime w) extralen ++ prefix extralen extra
        ++ [0x03; 0x00] ++ gz_trailer crc32_init 0)
       (m_fp w'))
  ∧ (fault_free (m_fp w) → ret = 0).
Proof.
  unfold write_member.
  pose proof (_write_header_spec extra extralen w) as Hh.
  pose proof (_write_header_unchecked extra extralen w) as Hr.
  destruct (_write_header extra extralen w) as [ret w1].
  cbn in Hr. subst ret. cbn [negb Z.eqb].
  cbn zeta in Hh. cbn [snd] in Hh.
  destruct Hh as (Hk1 & Hu1 & Hc1 & Hg1 & Hz1 & Ha1 & Hf1).
  pose proof (_write_empty_spec w1) as He.
  destruct (_write_empty w1) as [ret w2].
  destruct He as [He Hfe].
  destruct (Z.eqb_spec ret 0) as [->|Hne]; cbn [negb].
  2: { split; [done|]. intros Hff. by apply Hfe, Hf1. }
  destruct (He eq_refl) as (Hk2 & Hg2 & Hu2 & Hc2 & Hz2 & Ha2).
  pose proof (_write_trailer_spec w2) as Ht.
  destruct (_write_trailer w2) as [ret w3].
  destruct Ht as [Ht Hft]. split.
  - intros ->. destruct (Ht eq_refl) as (Hk3 & Hg3 & Hu3 & Hc3 & Hz3 & Ha3).
    split_and!; try congruence; try lia.
    rewrite Hu2, Hc2 in Ha3.
    assert (ferror (m_fp w1) = false) as Hf by apply Ha2.
    pose proof (appended_trans _ _ _ _ _ (Ha1 Hf)
                  (appended_trans _ _ _ _ _ Ha2 Ha3)) as Ha.
    by rewrite <- !app_assoc in Ha.
  - intros Hff. apply Hft. eapply appended_fault_free; [apply Ha2|by apply Hf1].
Qed.

(** *** The index members *)

Lemma entry_bytes_snoc cur e :
  entry_bytes (cur ++ [e])
  = entry_bytes cur ++ le_bytes8 (zoffset e) ++ le_bytes8 (uoffset e).
Proof.
  unfold entry_bytes. rewrite flat_map_app. cbn. by rewrite app_nil_r.
Qed.

Lemma length_entry_bytes cur : length (entry_bytes cur) = (16 * length cur)%nat.
Proof.
  induction cur as [|e cur IH]; [done|].
  unfold entry_bytes in *. cbn [flat_map]. rewrite length_app, IH.
  rewrite length_app. unfold le_bytes8. cbn [length]. lia.
Qed.

Lemma len_bindex_snoc cur e : len_bindex (cur ++ [e]) = len_bindex cur + 1.
Proof. unfold len_bindex. rewrite length_app. cbn. lia. Qed.

Lemma pack_entry id hdr cur T e :
  length id = 2%nat → length hdr = 10%nat → (16 ≤ length T)%nat →
  packInt64
    (packInt64 (id ++ hdr ++ entry_bytes cur ++ T)
       (Z.to_nat (12 + 16 * len_bindex cur)) (zoffset e))
    (Z.to_nat (12 + 16 * len_bindex cur + 8)) (uoffset e)
  = id ++ hdr ++ entry_bytes (cur ++ [e]) ++ drop 16 T.
Proof.
  intros Hid Hhdr HT.
  rewrite (app_assoc id), (app_assoc (id ++ hdr)).
  rewrite packInt64_app; [| |lia].
  2: { rewrite !length_app, length_entry_bytes, Hid, Hhdr.
       unfold len_bindex. lia. }
  rewrite (app_assoc _ (le_bytes8 _)).
  rewrite packInt64_app.
  2: { rewrite !length_app, length_entry_bytes, Hid, Hhdr.
       unfold len_bindex, le_bytes8. cbn [length]. lia. }
  2: { rewrite length_drop. lia. }
  rewrite entry_bytes_snoc, drop_drop. by rewrite <- !app_assoc.
Qed.

Lemma pack_head id hdr X v next :
  length id = 2%nat → length hdr = 10%nat →
  packInt64 (packInt16 (id ++ hdr ++ X) 2 v) 4 next
  = id ++ le_bytes2 v ++ le_bytes8 next ++ X.
Proof.
  intros Hid Hhdr.
  rewrite packInt16_app; [|done|rewrite length_app; lia].
  rewrite app_assoc.
  rewrite packInt64_app; [|by rewrite length_app, Hid
                          |rewrite length_drop, length_app; lia].
  rewrite drop_drop, <- app_assoc. do 3 f_equal.
  replace (2 + 8)%nat with (length hdr) by lia. apply drop_app_length.
Qed.

Lemma len_bi_extra id next cur :
  length id = 2%nat → len (bi_extra id next cur) = 12 + 16 * len_bindex cur.
Proof.
  intros Hid. unfold bi_extra, len, len_bindex.
  rewrite !length_app. fold (entry_bytes cur).
  rewrite length_entry_bytes, Hid. unfold le_bytes2, le_bytes8.
  cbn [length]. lia.
Qed.

Lemma _write_bindex_loop_spec rest cur w id :
  bi_buffer id cur (extra_bindex (globals w)) →
  12 + 16 * len_bindex cur + 16 < sizeof_extra_bindex →
  ferror (m_fp w) = false →
  let members :=
    index_members (m_mtime w) crc32_init id (m_zoffset w) cur rest in
  let '(ret, w') := _write_bindex_loop rest (12 + 16 * len_bindex cur) w in
  (ret = 0 →
   kept w' = kept w
   ∧ extra_mzgf (globals w') = extra_mzgf (globals w)
   ∧ extra_eof (globals w') = extra_eof (globals w)
   ∧ m_zoffset w' = m_zoffset w + len members
   ∧ appended (m_fp w) members (m_fp w'))
  ∧ (fault_free (m_fp w) → ret = 0).
Proof.
  revert cur w. induction rest as [|e rest IH]; intros cur w Hbuf Hroom Hferr.
  { cbn. split; [|done]. intros _. split_and!; try done.
    - rewrite len_nil. lia.
    - by apply appended_nil. }
  cbn [_write_bindex_loop index_members]. cbn zeta.
  destruct Hbuf as (hdr & T & Heb & Hid & Hhdr & Hlen).
  assert (16 ≤ length T)%nat as HT.
  { rewrite Heb in Hlen. rewrite !len_app in Hlen. unfold len in Hlen.
    rewrite length_entry_bytes, Hid, Hhdr in Hlen.
    unfold sizeof_extra_bindex, GZIP_FEXTRA_MAX, len_bindex in *. lia. }
  rewrite Heb, pack_entry by done.
  rewrite len_bindex_snoc.
  replace (12 + 16 * len_bindex cur + 8 + 8)
    with (12 + 16 * (len_bindex cur + 1)) by lia.
  set (offset := 12 + 16 * (len_bindex cur + 1)).
  set (last := match rest with [] => true | _ => false end).
  destruct ((sizeof_extra_bindex <=? offset + sizeof_bindex_t) || last) eqn:Hemit.
  - (* the member is closed *)
    rewrite pack_head by done.
    set (next := if last then 0 else _).
    set (eb := id ++ le_bytes2 (offset - 4) ++ le_bytes8 next
               ++ entry_bytes (cur ++ [e]) ++ drop 16 T).
    assert (prefix offset eb = bi_extra id next (cur ++ [e])) as Hpre.
    { subst eb. unfold bi_extra. fold (entry_bytes (cur ++ [e])).
      rewrite len_bindex_snoc.
      replace (8 + 16 * (len_bindex cur + 1)) with (offset - 4)
        by (subst offset; lia).
      set (A := id ++ le_bytes2 (offset - 4) ++ le_bytes8 next
                ++ entry_bytes (cur ++ [e])).
      assert (len A = offset) as HA.
      { subst A. unfold len. rewrite !length_app, length_entry_bytes, Hid.
        rewrite length_app. subst offset.
        unfold len_bindex, le_bytes2, le_bytes8. cbn [length]. lia. }
      replace (id ++ le_bytes2 (offset - 4) ++ le_bytes8 next
               ++ entry_bytes (cur ++ [e]) ++ drop 16 T)
        with (A ++ drop 16 T) by (subst A; by rewrite <- !app_assoc).
      rewrite <- HA at 1. apply prefix_app_len. }
    match goal with |- context [ write_member eb offset ?w0 ] =>
      pose proof (write_member_spec eb offset w0) as Hm;
      destruct (write_member eb offset w0) as [ret w1] end.
    cbn [m_mtime m_zoffset m_fp set_globals globals extra_bindex extra_mzgf
         extra_eof] in Hm.
    destruct Hm as [Hm Hfm].
    destruct (Z.eqb_spec ret 0) as [->|Hne]; cbn [negb].
    2: { split; [done|]. intros Hff. by apply Hfm. }
    destruct (Hm eq_refl) as (Hk & Hg & _ & _ & Hz & Ha).
    rewrite Hpre in Ha.
    assert (bi_buffer id [] (extra_bindex (globals w1))) as Hbuf1.
    { rewrite Hg. cbn. exists (le_bytes2 (offset - 4) ++ le_bytes8 next),
        (entry_bytes (cur ++ [e]) ++ drop 16 T).
      split_and!; try done.
      subst eb. rewrite Heb in Hlen. rewrite !len_app in *.
      unfold len in *. rewrite !length_entry_bytes, ?length_drop in *.
      rewrite length_app. unfold le_bytes2, le_bytes8. cbn [length].
      rewrite Hid, Hhdr in *. lia. }
    assert (ferror (m_fp w1) = false) as Hf1 by apply Ha.
    specialize (IH [] w1 Hbuf1).
    change (12 + 16 * len_bindex []) with 12 in IH.
    assert (m_mtime w1 = m_mtime w) as Hmt.
    { unfold kept in Hk. cbn in Hk. by simplify_eq. }
    specialize (IH ltac:(done) Hf1). cbn zeta in IH.
    rewrite Hmt, Hz in IH.
    replace (m_zoffset w + sizeof_gzheader + offset + 2 + 8)
      with (m_zoffset w + sizeof_gzheader + offset + 2 + 8) in IH by done.
    destruct (_write_bindex_loop rest 12 w1) as [ret' w'].
    destruct IH as [IH IHf]. split.
    + intros ->. destruct (IH eq_refl) as (Hk' & Hm' & He' & Hz' & Ha').
      split_and!.
      * rewrite Hk', Hk. done.
      * rewrite Hm', Hg. done.
      * rewrite He', Hg. done.
      * rewrite Hz', len_app. unfold gz_member.
        rewrite !len_app, len_bi_extra by done.
        rewrite len_bindex_snoc. subst offset.
        unfold gz_header, gz_trailer. rewrite !len_app.
        rewrite !len_le_bytes4, !len_le_bytes2.
        unfold len, sizeof_gzheader. cbn [length]. lia.
      * unfold gz_member at 1. rewrite len_bi_extra by done.
        rewrite len_bindex_snoc. fold offset.
        eapply appended_trans in Ha'; [|exact Ha]. done.
    + intros Hff. apply IHf. eapply appended_fault_free; [exact Ha|done].
  - (* the member takes more entries *)
    apply orb_false_iff in Hemit as [Hfull _]. apply Z.leb_gt in Hfull.
    match goal with |- context [ _write_bindex_loop rest offset ?w0 ] =>
      set (w1 := w0) end.
    assert (bi_buffer id (cur ++ [e]) (extra_bindex (globals w1))) as Hbuf1.
    { subst w1. cbn. exists hdr, (drop 16 T). split_and!; try done.
      rewrite Heb in Hlen. rewrite !len_app in *. unfold len in *.
      rewrite !length_entry_bytes, ?length_drop, length_app in *.
      cbn [length] in *. lia. }
    specialize (IH (cur ++ [e]) w1 Hbuf1).
    rewrite len_bindex_snoc in IH. fold offset in IH.
    specialize (IH ltac:(unfold sizeof_bindex_t in *; lia) Hferr).
    cbn zeta in IH. exact IH.
Qed.

Lemma bi_buffer_intro g :
  len (extra_bindex g) = sizeof_extra_bindex →
  bi_buffer (prefix 2 (extra_bindex g)) [] (extra_bindex g).
Proof.
  intros Hlen. exists (prefix 10 (from 2 (extra_bindex g))), (from 12 (extra_bindex g)).
  assert (Z.of_nat (length (extra_bindex g)) = 65535) as Hn.
  { unfold len, sizeof_extra_bindex, GZIP_FEXTRA_MAX in Hlen. lia. }
  split_and!; try done.
  - cbn [entry_bytes flat_map app].
    rewrite <- (from_from 2 10) by lia.
    by rewrite !prefix_from_split.
  - unfold prefix. rewrite length_take. lia.
  - unfold prefix, from. rewrite length_take, length_drop. lia.
Qed.

Lemma _write_bindex_spec w :
  len (extra_bindex (globals w)) = sizeof_extra_bindex →
  ferror (m_fp w) = false →
  let members :=
    index_members (m_mtime w) crc32_init (prefix 2 (extra_bindex (globals w)))
      (m_zoffset w) [] (m_bindex w) in
  let '(ret, w') := _write_bindex w in
  (ret = 0 →
   m_mtime w' = m_mtime w ∧ m_uoffset w' = m_uoffset w
   ∧ m_bindex w' = m_bindex w ∧ m_bindex_offset w' = m_zoffset w
   ∧ extra_mzgf (globals w') = extra_mzgf (globals w)
   ∧ extra_eof (globals w') = extra_eof (globals w)
   ∧ m_zoffset w' = m_zoffset w + len members
   ∧ appended (m_fp w) members (m_fp w'))
  ∧ (fault_free (m_fp w) → ret = 0).
Proof.
  intros Hlen Hf. unfold _write_bindex.
  pose proof (_write_bindex_loop_spec (m_bindex w) []
                (set_bindex_offset (m_zoffset w) w)
                (prefix 2 (extra_bindex (globals w)))
                (bi_buffer_intro _ Hlen) ltac:(done) Hf) as H.
  cbn zeta in *. cbn [m_bindex set_bindex_offset] in *.
  change (12 + 16 * len_bindex []) with 12 in H.
  destruct (_write_bindex_loop _ _ _) as [ret w'].
  destruct H as [H Hff]. split; [|done].
  intros ->. destruct (H eq_refl) as (Hk & ? & ? & ? & ?).
  unfold kept in Hk. cbn in Hk. simplify_eq. done.
Qed.

Lemma eof_bytes ee usize bo :
  len ee = sizeof_extra_eof →
  packInt64 (packInt64 ee 4 usize) 12 bo = bo_extra (prefix 4 ee) usize bo.
Proof.
  intros Hlen.
  assert (length ee = 20%nat) as Hn by (unfold len, sizeof_extra_eof in Hlen; lia).
  rewrite <- (prefix_from_split 4 ee) at 1.
  rewrite packInt64_app.
  2: { unfold prefix. rewrite length_take. lia. }
  2: { unfold from. rewrite length_drop. lia. }
  rewrite app_assoc, packInt64_app.
  2: { unfold prefix. rewrite length_app, length_take.
       unfold le_bytes8. cbn [length]. lia. }
  2: { unfold from. rewrite !length_drop. lia. }
  unfold bo_extra. rewrite <- app_assoc. do 2 f_equal.
  rewrite drop_ge; [by rewrite app_nil_r|].
  unfold from. rewrite !length_drop. lia.
Qed.

Lemma len_bo_extra id usize bo :
  length id = 4%nat → len (bo_extra id usize bo) = sizeof_extra_eof.
Proof.
  intros Hid. unfold bo_extra, len. rewrite !length_app, Hid.
  unfold le_bytes8. cbn [length]. done.
Qed.

Lemma _write_eof_spec w :
  len (extra_eof (globals w)) = sizeof_extra_eof →
  let '(ret, w') := _write_eof w in
  (ret = 0 →
   m_mtime w' = m_mtime w ∧ m_uoffset w' = m_uoffset w
   ∧ m_bindex w' = m_bindex w ∧ m_bindex_offset w' = m_bindex_offset w
   ∧ extra_eof (globals w')
     = bo_extra (prefix 4 (extra_eof (globals w))) (m_uoffset w)
         (m_bindex_offset w)
   ∧ m_zoffset w' = m_zoffset w + 42
   ∧ appended (m_fp w)
       (gz_member (m_mtime w)
          (bo_extra (prefix 4 (extra_eof (globals w))) (m_uoffset w)
             (m_bindex_offset w)) crc32_init)
       (m_fp w'))
  ∧ (fault_free (m_fp w) → ret = 0).
Proof.
  intros Hlen. unfold _write_eof. cbn zeta. rewrite eof_bytes by done.
  set (ee := bo_extra _ _ _).
  assert (len ee = sizeof_extra_eof) as Hee.
  { apply len_bo_extra. unfold prefix. rewrite length_take.
    unfold len, sizeof_extra_eof in Hlen. lia. }
  match goal with |- context [ write_member ee _ ?w0 ] =>
    pose proof (write_member_spec ee sizeof_extra_eof w0) as Hm;
    destruct (write_member ee sizeof_extra_eof w0) as [ret w'] end.
  cbn [m_mtime m_zoffset m_fp set_globals globals] in Hm.
  destruct Hm as [Hm Hff]. split; [|done].
  intros ->. destruct (Hm eq_refl) as (Hk & Hg & _ & _ & Hz & Ha).
  unfold kept in Hk. cbn in Hk. simplify_eq.
  rewrite Hg. cbn. split_and!; try done.
  - unfold sizeof_gzheader, sizeof_extra_eof in Hz. lia.
  - unfold gz_member. rewrite Hee.
    rewrite (prefix_all sizeof_extra_eof ee) in Ha by lia. done.
Qed.

(** *** The deflate stream *)

(** The rounds depend on the input array only up to the end of the block
    being compressed. *)
Lemma flush_round_ext fuel flush ub1 ub2 (zs : z_stream dstate) :
  0 ≤ next_in zs → 0 ≤ avail_in zs →
  prefix (next_in zs + avail_in zs) ub1 = prefix (next_in zs + avail_in zs) ub2 →
  flush_round fuel flush ub1 zs = flush_round fuel flush ub2 zs.
Proof.
  revert zs. induction fuel as [|fuel IH]; intros zs Hn Ha Hub; [done|].
  cbn [flush_round]. cbn zeta.
  assert (zcall zdeflate ub1 flush
            (mkZstream (zs_state zs) (next_in zs) (avail_in zs) MZGF_BLOCK_SIZE)
          = zcall zdeflate ub2 flush
              (mkZstream (zs_state zs) (next_in zs) (avail_in zs) MZGF_BLOCK_SIZE))
    as ->.
  { unfold zcall. cbn. rewrite !prefix_from by done. by rewrite Hub. }
  destruct (zcall _ _ _ _) as [[ret zs'] out] eqn:Hcall.
  apply zcall_counts in Hcall as (_ & _ & _ & Hsum & Hmono & Hav).
  cbn in Hsum, Hmono, Hav.
  destruct (_ || _); [|done]. destruct (avail_out zs' =? 0); [|done].
  rewrite (IH zs'); [done|lia|by apply Hav|by rewrite Hsum].
Qed.

Lemma _flush_loop_spec fuel flush w :
  match _flush_loop fuel flush w with
  | Some (ret, w') =>
      ret = 0 →
      ∃ out, flush_round fuel flush (m_ublock w) (m_zs w) = Some (m_zs w', out)
             ∧ kept_flush w' = kept_flush w
             ∧ m_zoffset w' = m_zoffset w + len out
             ∧ appended (m_fp w) out (m_fp w')
  | None => True
  end
  ∧ (fault_free (m_fp w) →
     ∀ zs out, flush_round fuel flush (m_ublock w) (m_zs w) = Some (zs, out) →
       ∃ w', _flush_loop fuel flush w = Some (0, w')).
Proof.
  revert w. induction fuel as [|fuel IH]; intros w; [done|].
  cbn [_flush_loop flush_round]. cbn zeta.
  destruct (zcall _ _ _ _) as [[ret zs] out] eqn:Hcall.
  apply zcall_counts in Hcall as (Ho & Hlo & Hle & _).
  cbn in Ho, Hle.
  cbn [m_zs set_zs set_zblock m_zblock m_fp m_zoffset].
  destruct ((ret =? Z_OK) || (ret =? Z_STREAM_END)); [|done].
  replace (MZGF_BLOCK_SIZE - avail_out zs) with (len out) by lia.
  rewrite prefix_store.
  pose proof (fwrite_complete out (m_fp w)) as Hc.
  pose proof (fwrite_fault_free out (m_fp w)) as Hw.
  destruct (fwrite out (m_fp w)) as [n fp]. cbn [fst snd] in Hc, Hw.
  set (w1 := set_zoffset _ _).
  specialize (IH w1).
  destruct (Z.eqb_spec n (len out)) as [->|Hne]; cbn [negb orb].
  2: { split; [done|]. intros [? ?]. destruct Hw as [Hf _]; try done.
       by destruct (Hc Hf). }
  destruct (ferror fp) eqn:Hf.
  { split; [done|]. intros [? ?]. destruct Hw; congruence. }
  destruct (Hc eq_refl) as [_ Ha].
  destruct (avail_out zs =? 0).
  - destruct IH as [IH IHf]. split.
    + destruct (_flush_loop fuel flush w1) as [[ret' w']|]; [|done].
      intros ->. destruct (IH eq_refl) as (more & Hr & Hk & Hz & Ha').
      subst w1. cbn in Hr, Hk, Hz, Ha'. rewrite Hr.
      exists (out ++ more). split_and!; try done.
      * rewrite len_app. lia.
      * by apply (appended_trans _ _ _ _ _ Ha).
    + intros Hff zs' out' Hr.
      subst w1. cbn in IHf.
      destruct (flush_round fuel flush (m_ublock w) zs) as [[zs2 more]|] eqn:Hfr;
        [|done].
      eapply IHf; [|done]. eapply appended_fault_free; [exact Ha|done].
  - split; [|by eauto]. intros _. exists out. subst w1. cbn. done.
Qed.

Lemma flush_round_avail_out fuel flush ub st n a o1 o2 :
  flush_round fuel flush ub (mkZstream st n a o1)
  = flush_round fuel flush ub (mkZstream st n a o2).
Proof. by destruct fuel. Qed.

Lemma flush_round_block fuel flush got ub st o :
  flush_round fuel flush (store got ub) (mkZstream st 0 (len got) o)
  = flush_round fuel flush got (mkZstream st 0 (len got) 0).
Proof.
  rewrite (flush_round_avail_out _ _ _ _ _ _ o 0).
  apply flush_round_ext; cbn; [done|apply len_nonneg|].
  rewrite Z.add_0_l, prefix_store. symmetry. apply prefix_all. lia.
Qed.

Lemma deflate_loop_spec fuel src w :
  feof src = false → 0 ≤ f_pos src →
  let input := from (f_pos src) (f_data src) in
  match deflate_loop fuel src w with
  | Some (ret, w', src') =>
      ret = 0 →
      ∃ rounds,
        deflate_rounds fuel (zs_state (m_zs w)) input = Some rounds
        ∧ m_mtime w' = m_mtime w
        ∧ m_bindex_offset w' = m_bindex_offset w
        ∧ globals w' = globals w
        ∧ m_uoffset w' = m_uoffset w + len input
        ∧ m_usize w' = m_usize w + len input
        ∧ m_ucrc32 w' = crc_from (m_ucrc32 w) rounds
        ∧ m_bindex w' = m_bindex w ++ index_of (m_zoffset w) (m_uoffset w) rounds
        ∧ m_zoffset w' = m_zoffset w + len (payload_of rounds)
        ∧ appended (m_fp w) (payload_of rounds) (m_fp w')
  | None => True
  end
  ∧ (fault_free (m_fp w) → ferror src = false →
     ∀ rounds,
       deflate_rounds fuel (zs_state (m_zs w)) input = Some rounds →
       ∃ w' src', deflate_loop fuel src w = Some (0, w', src')).
Proof.
  revert src w. induction fuel as [|fuel IH]; intros src w Heof Hpos; [done|].
  cbn zeta. cbn [deflate_loop deflate_rounds]. cbn zeta.
  unfold fread. cbn zeta.
  set (input := from (f_pos src) (f_data src)).
  set (got := prefix MZGF_BLOCK_SIZE input).
  cbn [ferror f_err].
  change (f_err src) with (ferror src).
  cbn [m_zs set_zs set_ublock m_zoffset m_uoffset m_bindex set_bindex
       set_uoffset avail_in zs_state m_ublock].
  unfold _flush. cbn zeta.
  cbn [m_zs set_zs set_ublock m_zoffset m_uoffset m_bindex set_bindex
       set_uoffset set_usize set_ucrc32 avail_in zs_state m_ublock m_usize
       m_ucrc32].
  rewrite prefix_store.
  set (flush := if len got <? MZGF_BLOCK_SIZE then Z_FINISH else Z_FULL_FLUSH).
  match goal with |- context [ _flush_loop _ _ ?w0 ] => set (wb := w0) end.
  pose proof (_flush_loop_spec (S fuel) flush wb) as [Hfl Hflf].
  assert (flush_round (S fuel) flush (m_ublock wb) (m_zs wb)
          = flush_round (S fuel) flush got
              (mkZstream (zs_state (m_zs w)) 0 (len got) 0)) as Hfr.
  { subst wb. cbn [m_ublock m_zs set_ucrc32 set_usize set_uoffset set_bindex
                   set_zs set_ublock].
    apply flush_round_block. }
  rewrite Hfr in Hfl, Hflf.
  unfold feof in Heof |- *. cbn [f_eof]. rewrite Heof. cbn [orb].
  assert (len input = len got + len (from MZGF_BLOCK_SIZE input)) as Hsplit.
  { rewrite <- (prefix_from_split MZGF_BLOCK_SIZE input) at 1.
    apply len_app. }
  match goal with |- context [deflate_loop fuel ?s _] => set (src1 := s) end.
  assert (from (f_pos src1) (f_data src1) = from MZGF_BLOCK_SIZE input
          ∨ len got < MZGF_BLOCK_SIZE) as Hnext.
  { destruct (Z.lt_ge_cases (len got) MZGF_BLOCK_SIZE) as [?|Hge]; [by right|left].
    subst src1 input. cbn [f_pos f_data].
    assert (len got = MZGF_BLOCK_SIZE) as ->.
    { subst got. rewrite len_prefix in *. unfold MZGF_BLOCK_SIZE in *. lia. }
    rewrite from_from by (unfold MZGF_BLOCK_SIZE; lia). done. }
  assert (0 ≤ f_pos src1) as Hpos1.
  { pose proof (len_nonneg got). subst src1. cbn [f_pos]. lia. }
  assert (feof src1 = (len got <? MZGF_BLOCK_SIZE)) as Heof1 by done.
  assert (ferror src1 = ferror src) as Hferr1 by done.
  clearbody src1.
  assert (len got < MZGF_BLOCK_SIZE → len (from MZGF_BLOCK_SIZE input) = 0)
    as Hshort.
  { intros Hlt. subst got. rewrite len_prefix in Hlt. rewrite len_from.
    unfold MZGF_BLOCK_SIZE in *. lia. }
  split.
  - destruct (ferror src) eqn:Hferr; [done|].
    destruct (_flush_loop (S fuel) flush wb) as [[ret1 w1]|]; [|done].
    destruct (Z.eqb_spec ret1 0) as [->|Hne]; cbn [negb]; [|done].
    destruct (Hfl eq_refl) as (out & Hr & Hk & Hz & Ha).
    rewrite Hr.
    unfold kept_flush in Hk. subst wb. cbn in Hk, Hz, Ha.
    injection Hk as Hk1 Hk2 Hk3 Hk4 Hk5 Hk6 Hk7 Hk8.
    destruct (Z.ltb_spec (len got) MZGF_BLOCK_SIZE) as [Hlt|Hge]; cbn [negb].
    + intros _. exists [(got, out)]. cbn.
      unfold payload_of. cbn. rewrite app_nil_r.
      specialize (Hshort Hlt). split_and!; try done; try lia.
    + destruct Hnext as [Hnext|?]; [|lia].
      specialize (IH src1 w1 Heof1 Hpos1).
      cbn zeta in IH. rewrite Hnext in IH. destruct IH as [IH _].
      destruct (deflate_loop fuel src1 w1) as [[[ret2 w2] src2]|]; [|exact I].
      intros ->. destruct (IH eq_refl)
        as (rounds & Hr2 & Hm & Hbo & Hg & Hu & Hus & Hc & Hix & Hz2 & Ha2).
      rewrite Hr2.
      exists ((got, out) :: rounds). unfold payload_of in *.
      cbn [fmap list_fmap snd concat crc_from foldl fst index_of].
      rewrite len_app.
      split_and!; [done|congruence|congruence|congruence|lia|lia| | |lia|].
      * by rewrite Hc, Hk6.
      * rewrite Hix, Hk3, <- app_assoc. cbn [app]. by rewrite Hz, Hk2.
      * by apply (appended_trans _ _ _ _ _ Ha).
  - intros Hff Hferr rounds. rewrite Hferr.
    destruct (flush_round _ _ _ _) as [[zs1 out]|] eqn:Hfr1; [|done].
    assert (fault_free (m_fp wb)) as Hffb by done.
    destruct (Hflf Hffb zs1 out eq_refl) as (w1 & Hw1).
    rewrite Hw1 in Hfl |- *. cbn [negb Z.eqb].
    destruct (Hfl eq_refl) as (out' & Hr & Hk & Hz & Ha).
    simplify_eq.
    destruct (Z.ltb_spec (len got) MZGF_BLOCK_SIZE) as [Hlt|Hge]; cbn [negb].
    + intros _. eauto.
    + destruct Hnext as [Hnext|?]; [|lia].
      specialize (IH src1 w1 Heof1 Hpos1).
      cbn zeta in IH. rewrite Hnext in IH. destruct IH as [_ IH].
      destruct (deflate_rounds fuel _ _) as [rounds'|] eqn:Hdr; [|done].
      intros _. eapply IH; [| |done].
      * eapply appended_fault_free; [exact Ha|done].
      * congruence.
Qed.

End writer_layout.
(** ** The writer: the file [deflate] produces *)

Section stored.
Implicit Types (A T : list Z) (v : Z).

Lemma unpackInt64_le_bytes8 A T v :
  unpackInt64 (A ++ le_bytes8 v ++ T) (length A) = Some (uint64_t v).
Proof.
  rewrite <- (unpack_packInt64 (A ++ replicate 8 0 ++ T) (length A) v).
  - f_equal. by rewrite packInt64_app by (cbn; lia).
  - rewrite !length_app. cbn. lia.
Qed.

Lemma unpackInt16_le_bytes2 A T v :
  unpackInt16 (A ++ le_bytes2 v ++ T) (length A) = Some (uint16_t v).
Proof.
  rewrite <- (unpack_packInt16 (A ++ replicate 2 0 ++ T) (length A) v).
  - f_equal. by rewrite packInt16_app by (cbn; lia).
  - rewrite !length_app. cbn. lia.
Qed.

Lemma uint64_small v : 0 ≤ v < 2 ^ 64 → uint64_t v = v.
Proof. intros. unfold uint64_t. by apply Z.mod_small. Qed.

Lemma index_members_first mtime crc id pos cur rest :
  rest ≠ [] →
  ∃ next entries more,
    index_members mtime crc id pos cur rest
    = gz_member mtime (bi_extra id next entries) crc ++ more
    ∧ entries ≠ [].
Proof.
  revert cur. induction rest as [|e rest IH]; intros cur Hne; [done|].
  cbn [index_members]. cbn zeta.
  destruct rest as [|e' rest].
  - rewrite orb_true_r. eexists _, _, _. split; [done|]. by destruct cur.
  - destruct (_ <=? _); cbn [orb].
    + eexists _, _, _. split; [done|]. by destruct cur.
    + by apply IH.
Qed.

End stored.

Section writer_file.
Context `{Zl : zlib}.
Import MZGFileWriter.

Implicit Types (w : MZGFileWriter.t) (fp : FILE).

Lemma deflate_layout fuel src dst w :
  feof src = false → 0 ≤ f_pos src → statics_sized (globals w) →
  let input := from (f_pos src) (f_data src) in
  match deflate fuel src dst w with
  | Some (ret, w', src', dst') =>
      ret = 0 →
      ∃ rounds,
        deflate_rounds fuel deflateInit2.2 input = Some rounds
        ∧ dst' = m_fp w'
        ∧ appended dst
            (mzgf_file (m_mtime w) (globals w) crc32_init (payload_of rounds)
               (crc_of rounds) (len input)
               (m_bindex w ++ index_of 17 0 rounds)) dst'
        ∧ m_mtime w' = m_mtime w
        ∧ m_bindex w' = m_bindex w ++ index_of 17 0 rounds
        ∧ m_bindex_offset w' = 17 + len (payload_of rounds) + 8
        ∧ m_uoffset w' = len input
  | None => True
  end
  ∧ (deflateInit2.1 = Z_OK → fault_free dst → ferror src = false →
     ∀ rounds,
       deflate_rounds fuel deflateInit2.2 input = Some rounds →
       ∃ w' src' dst', deflate fuel src dst w = Some (0, w', src', dst')).
Proof.
  intros Heof Hpos (Hmz & Heo & Hbi) input.
  unfold deflate. destruct deflateInit2 as [ret0 st]. cbn [fst snd].
  set (w0 := set_zoffset _ _).
  pose proof (_write_header_spec (extra_mzgf (globals w0)) sizeof_extra_mzgf w0)
    as Hh.
  pose proof (_write_header_unchecked (extra_mzgf (globals w0))
                sizeof_extra_mzgf w0) as Hh0.
  destruct (_write_header _ _ w0) as [reth w1]. cbn zeta in Hh.
  cbn [fst snd] in Hh, Hh0. subst reth.
  destruct Hh as (Hk1 & Hus1 & Hc1 & Hg1 & Hz1 & Ha1 & Hf1).
  unfold kept in Hk1. subst w0. cbn in Hk1, Hus1, Hc1, Hg1, Hz1, Ha1, Hf1.
  injection Hk1 as Hm1 Hs1 Hu1 Hb1 Hbo1.
  rewrite prefix_all in Ha1 by (rewrite Hmz; done).
  cbn [negb Z.eqb].
  pose proof (deflate_loop_spec fuel src w1 Heof Hpos) as [Hl Hlf].
  cbn zeta in Hl, Hlf. fold input in Hl, Hlf. rewrite Hs1 in Hl, Hlf.
  split.
  - destruct (Z.eqb_spec ret0 0) as [->|?]; cbn [negb]; [|done].
    destruct (deflate_loop fuel src w1) as [[[ret2 w2] src2]|]; [|exact I].
    destruct (Z.eqb_spec ret2 0) as [->|?]; cbn [negb]; [|done].
    destruct (Hl eq_refl)
      as (rounds & Hr & Hm2 & Hbo2 & Hg2 & Hu2 & Hus2 & Hc2 & Hb2 & Hz2 & Ha2).
    pose proof (_write_trailer_spec w2) as Ht.
    destruct (_write_trailer w2) as [ret3 w3].
    destruct (Z.eqb_spec ret3 0) as [->|?]; cbn [negb]; [|done].
    destruct Ht as [Ht _].
    destruct (Ht eq_refl) as (Hk3 & Hg3 & Hus3 & Hc3 & Hz3 & Ha3).
    unfold kept in Hk3. injection Hk3 as Hm3 Hs3 Hu3 Hb3 Hbo3.
    pose proof (_write_bindex_spec w3) as Hx.
    destruct (_write_bindex w3) as [ret4 w4].
    destruct (Z.eqb_spec ret4 0) as [->|?]; cbn [negb]; [|done].
    destruct Hx as [Hx _]; [congruence|by destruct Ha3 as (_ & _ & ? & _)|].
    destruct (Hx eq_refl) as (Hm4 & Hu4 & Hb4 & Hbo4 & Hgm4 & Hge4 & Hz4 & Ha4).
    pose proof (_write_eof_spec w4) as He.
    destruct (_write_eof w4) as [ret5 w5].
    destruct (Z.eqb_spec ret5 0) as [->|?]; cbn [negb]; [|done].
    destruct He as [He _]; [congruence|].
    destruct (He eq_refl) as (Hm5 & Hu5 & Hb5 & Hbo5 & Hge5 & Hz5 & Ha5).
    intros _. exists rounds.
    assert (ferror (m_fp w1) = false) as Hfe1
      by (by destruct Ha2 as (_ & ? & _)).
    specialize (Ha1 Hfe1).
    pose proof (appended_trans _ _ _ _ _ Ha1
                  (appended_trans _ _ _ _ _ Ha2
                     (appended_trans _ _ _ _ _ Ha3
                        (appended_trans _ _ _ _ _ Ha4 Ha5)))) as Hall.
    rewrite <- app_assoc in Hall.
    assert (m_zoffset w3 = 17 + len (payload_of rounds) + 8) as Hz3'.
    { rewrite Hz3, Hz2, Hz1. unfold sizeof_gzheader, sizeof_extra_mzgf. lia. }
    assert (m_bindex w3 = m_bindex w ++ index_of 17 0 rounds) as Hb3'.
    { rewrite Hb3, Hb2, Hb1, Hz1, Hu1. done. }
    assert (globals w3 = globals w) as Hg3' by congruence.
    assert (m_mtime w3 = m_mtime w) as Hm3' by congruence.
    split_and!; [done|done| |congruence|congruence|congruence|lia].
    unfold mzgf_file. cbn zeta.
    rewrite Hm4, Hu4, Hbo4, Hge4, Hu3, Hu2, Hu1, Hc2, Hus2, Hc1, Hus1, Hz3',
      Hb3', Hg3', Hm3', !Z.add_0_l in Hall.
    exact Hall.
  - intros -> Hff Hferr rounds Hr. cbn [negb Z.eqb].
    specialize (Hf1 Hff).
    destruct (Hlf Hf1 Hferr rounds Hr) as (w2 & src2 & Hw2).
    rewrite Hw2 in Hl |- *. cbn [negb Z.eqb].
    destruct (Hl eq_refl)
      as (rounds' & Hr' & Hm2 & Hbo2 & Hg2 & Hu2 & Hus2 & Hc2 & Hb2 & Hz2 & Ha2).
    pose proof (appended_fault_free _ _ _ Ha2 Hf1) as Hf2.
    pose proof (_write_trailer_spec w2) as Ht.
    destruct (_write_trailer w2) as [ret3 w3]. destruct Ht as [Ht Htf].
    rewrite (Htf Hf2) in Ht |- *. cbn [negb Z.eqb].
    destruct (Ht eq_refl) as (Hk3 & Hg3 & Hus3 & Hc3 & Hz3 & Ha3).
    pose proof (appended_fault_free _ _ _ Ha3 Hf2) as Hf3.
    pose proof (_write_bindex_spec w3) as Hx.
    destruct (_write_bindex w3) as [ret4 w4].
    destruct Hx as [Hx Hxf]; [congruence|by destruct Hf3|].
    rewrite (Hxf Hf3) in Hx |- *. cbn [negb Z.eqb].
    destruct (Hx eq_refl) as (Hm4 & Hu4 & Hb4 & Hbo4 & Hgm4 & Hge4 & Hz4 & Ha4).
    pose proof (appended_fault_free _ _ _ Ha4 Hf3) as Hf4.
    pose proof (_write_eof_spec w4) as He.
    destruct (_write_eof w4) as [ret5 w5].
    destruct He as [_ Hef]; [congruence|].
    rewrite (Hef Hf4). cbn [negb Z.eqb]. eauto.
Qed.

Lemma deflate_rounds_cons fuel st input rounds :
  deflate_rounds fuel st input = Some rounds →
  ∃ out rs, rounds = (prefix MZGF_BLOCK_SIZE input, out) :: rs.
Proof.
  destruct fuel; [done|]. cbn [deflate_rounds]. cbn zeta.
  intros. repeat case_match; simplify_eq; eauto.
Qed.

(** Whatever the input, a [deflate] that returns 0 has pushed an index
    entry, the one of the block at offset 17; the file it wrote holds a
    ["BI"] member at the offset [m_bindex_offset], which is at least 25,
    and the EOF member's ["BO"] subfield holds that offset, read back by
    [unpackInt64] as a value other than 0 as long as the file stays in the
    range of [off_t]. *)
Lemma deflate_index_present fuel src dst w w' src' dst' :
  feof src = false → 0 ≤ f_pos src →
  statics_sized (globals w) → m_bindex w = [] →
  deflate fuel src dst w = Some (0, w', src', dst') →
  ∃ ix head next entries more bo,
    m_bindex w' = mkBindex 17 0 :: ix
    ∧ f_data dst'
      = f_data dst ++ head
        ++ gz_member (m_mtime w)
             (bi_extra (prefix 2 (extra_bindex (globals w))) next entries)
             crc32_init
        ++ more ++ gz_member (m_mtime w) bo crc32_init
    ∧ entries ≠ []
    ∧ len head = m_bindex_offset w'
    ∧ 25 ≤ m_bindex_offset w'
    ∧ unpackInt64 bo 12 = Some (uint64_t (m_bindex_offset w'))
    ∧ (len (f_data dst') < 2 ^ 63 → uint64_t (m_bindex_offset w') ≠ 0).
Proof.
  intros Heof Hpos Hg Hnil Hrun.
  pose proof (deflate_layout fuel src dst w Heof Hpos Hg) as [Hl _].
  cbn zeta in Hl. rewrite Hrun in Hl.
  destruct (Hl eq_refl) as (rounds & Hr & -> & Ha & Hm & Hb & Hbo & Hu).
  rewrite Hnil in Hb, Ha. cbn [app] in Hb, Ha.
  assert (∃ r rs, rounds = r :: rs) as (r & rs & ->).
  { destruct (deflate_rounds_cons _ _ _ _ Hr) as (? & ? & ->). eauto. }
  destruct r as [block out]. cbn [index_of] in Hb, Ha.
  destruct Ha as (Hd & _). unfold mzgf_file in Hd. cbn zeta in Hd.
  destruct (index_members_first (m_mtime w) crc32_init
              (prefix 2 (extra_bindex (globals w)))
              (17 + len (payload_of ((block, out) :: rs)) + 8) []
              (mkBindex 17 0 :: index_of (17 + len out) (0 + len block) rs))
    as (next & entries & more & Hmem & Hne); [done|].
  rewrite Hmem in Hd.
  destruct Hg as (Hmz & Heo & Hbi).
  set (payload := payload_of ((block, out) :: rs)) in *.
  set (id := prefix 4 (extra_eof (globals w))) in *.
  assert (length id = 4%nat) as Hid.
  { pose proof (len_prefix 4 (extra_eof (globals w))) as Hp.
    rewrite Heo in Hp. fold id in Hp. unfold len, sizeof_extra_eof in Hp.
    lia. }
  pose proof (len_nonneg payload) as Hpl.
  exists (index_of (17 + len out) (0 + len block) rs),
    (gz_header (m_mtime w) sizeof_extra_mzgf ++ extra_mzgf (globals w)
     ++ payload ++ gz_trailer (crc_of ((block, out) :: rs))
                     (len (from (f_pos src) (f_data src)))),
    next, entries, more,
    (bo_extra id (len (from (f_pos src) (f_data src)))
       (17 + len payload + 8)).
  split_and!.
  - done.
  - rewrite Hd. by rewrite <- !app_assoc.
  - done.
  - rewrite Hbo, !len_app, Hmz. unfold gz_header, gz_trailer.
    rewrite !len_app, !len_le_bytes4, len_le_bytes2.
    unfold sizeof_extra_mzgf.
    change (len [GZIP_MAGIC_ID1; GZIP_MAGIC_ID2; 8; GZIP_FEXTRA_FLG]) with 4.
    change (len [0; GZIP_OS]) with 2. lia.
  - lia.
  - rewrite Hbo. unfold bo_extra.
    rewrite (app_assoc id).
    assert (12%nat
            = length (id ++ le_bytes8 (len (from (f_pos src) (f_data src)))))
      as -> by (by rewrite length_app, Hid).
    rewrite <- (app_nil_r (le_bytes8 (17 + len payload + 8))).
    apply unpackInt64_le_bytes8.
  - intros Hsize. rewrite Hd in Hsize. rewrite Hbo.
    rewrite !len_app in Hsize.
    pose proof (len_nonneg (f_data dst)).
    pose proof (len_nonneg more).
    pose proof (len_nonneg (gz_header (m_mtime w) sizeof_extra_mzgf)).
    pose proof (len_nonneg (extra_mzgf (globals w))).
    pose proof (len_nonneg (gz_trailer (crc_of ((block, out) :: rs))
                  (len (from (f_pos src) (f_data src))))).
    pose proof (len_nonneg (gz_member (m_mtime w)
                  (bi_extra (prefix 2 (extra_bindex (globals w))) next entries)
                  crc32_init)).
    pose proof (len_nonneg (gz_member (m_mtime w)
                  (bo_extra id (len (from (f_pos src) (f_data src)))
                     (17 + len payload + 8)) crc32_init)).
    rewrite uint64_small; lia.
Qed.

End writer_file.

Lemma statics_init_sized : statics_sized statics_init.
Proof.
  unfold statics_sized, statics_init, len. cbn [extra_mzgf extra_eof extra_bindex].
  split_and!; [done|done|].
  rewrite length_app, length_replicate, Nat2Z.inj_add, Z2Nat.id; done.
Qed.

(** ** The small engine meets what the round trip asks of an engine *)

Section toy_codec.

Implicit Types (pending block input : list Z) (finished : bool).

Lemma len_encode input : len (toy.encode input) = 2 * len input.
Proof.
  unfold len. induction input as [|b input IH]; [done|].
  cbn [toy.encode flat_map length app] in *. unfold toy.encode in IH. lia.
Qed.

Lemma encode_app a b : toy.encode (a ++ b) = toy.encode a ++ toy.encode b.
Proof. unfold toy.encode. apply flat_map_app. Qed.

(** One [_flush] of the writer: the engine hands out all that is pending,
    65280 bytes per call. *)
Lemma toy_flush_round fuel flush block pending finished nxt ain aout :
  let input := prefix ain (from nxt block) in
  let finish := (flush =? Z_FINISH) && negb finished in
  let total := pending ++ toy.encode input ++ (if finish then [0] else []) in
  len input = ain →
  len total / MZGF_BLOCK_SIZE < Z.of_nat fuel →
  ∃ zs,
    @flush_round toy.engine fuel flush block
      (mkZstream (pending, finished) nxt ain aout) = Some (zs, total)
    ∧ zs_state zs = ([], finished || finish).
Proof.
  revert pending finished nxt ain aout.
  induction fuel as [|fuel IH]; intros pending finished nxt ain aout
    input finish total Hin Hfuel.
  { pose proof (len_nonneg total).
    assert (0 ≤ len total / MZGF_BLOCK_SIZE)
      by (apply Z.div_pos; unfold MZGF_BLOCK_SIZE; lia).
    lia. }
  cbn [flush_round]. cbn zeta.
  cbn [zs_state next_in avail_in avail_out].
  unfold zcall. cbn zeta. cbn [zs_state next_in avail_in avail_out].
  fold input.
  cbn [zdeflate toy.engine]. unfold toy.deflate. fold finish. fold total.
  cbn [z_ret z_state z_used z_out].
  pose proof (len_nonneg input) as Hin0.
  pose proof (len_nonneg total) as Htot0.
  replace (0 `max` (len input `min` len input)) with ain by lia.
  rewrite Z.sub_diag.
  rewrite prefix_prefix by (unfold MZGF_BLOCK_SIZE; lia).
  assert (∀ b : bool,
            ((if b then Z_STREAM_END else Z_OK) =? Z_OK)
            || ((if b then Z_STREAM_END else Z_OK) =? Z_STREAM_END) = true)
    as Hok by (by intros []).
  rewrite Hok.
  rewrite len_prefix.
  destruct (Z.eqb_spec
              (MZGF_BLOCK_SIZE - (0 `max` MZGF_BLOCK_SIZE) `min` len total) 0)
    as [Hfull|Hshort].
  - assert (MZGF_BLOCK_SIZE ≤ len total) as Hge
      by (unfold MZGF_BLOCK_SIZE in *; lia).
    assert (len (from MZGF_BLOCK_SIZE total) = len total - MZGF_BLOCK_SIZE)
      as Hrest by (rewrite len_from; unfold MZGF_BLOCK_SIZE in *; lia).
    assert ((flush =? Z_FINISH) && negb (finished || finish) = false) as Hfin.
    { unfold finish. destruct (flush =? Z_FINISH), finished; done. }
    destruct (IH (from MZGF_BLOCK_SIZE total) (finished || finish)
                (nxt + ain) 0 0) as (zs & Hzs & Hst).
    { rewrite len_prefix. pose proof (len_nonneg (from (nxt + ain) block)).
      lia. }
    { cbn zeta. rewrite Hfin. unfold prefix at 1. cbn [Z.to_nat take].
      cbn [toy.encode flat_map app]. rewrite app_nil_r, Hrest.
      replace (len total - MZGF_BLOCK_SIZE)
        with (len total + (-1) * MZGF_BLOCK_SIZE) by lia.
      rewrite Z.div_add by done. lia. }
    cbn zeta in Hzs, Hst. rewrite Hfin in Hzs, Hst.
    unfold prefix at 1 in Hzs. cbn [Z.to_nat take toy.encode flat_map app] in Hzs.
    rewrite app_nil_r in Hzs. rewrite orb_false_r in Hst.
    rewrite Hfull.
    match goal with |- context [ @flush_round ?e ?a ?b ?c ?d ] =>
      assert (@flush_round e a b c d = Some (zs, from MZGF_BLOCK_SIZE total))
        as -> by exact Hzs end.
    exists zs. by rewrite prefix_from_split.
  - assert (len total < MZGF_BLOCK_SIZE) as Hlt
      by (unfold MZGF_BLOCK_SIZE in *; lia).
    eexists. split.
    + do 2 f_equal. apply prefix_all. lia.
    + cbn [zs_state]. f_equal. unfold from. apply drop_ge. unfold len in *.
      unfold MZGF_BLOCK_SIZE in *. lia.
Qed.

(** The whole [deflate] loop: the stream is the encoded input and the end
    marker. *)
Lemma toy_deflate_rounds fuel input :
  len input / MZGF_BLOCK_SIZE + 3 ≤ Z.of_nat fuel →
  ∃ rounds,
    @deflate_rounds toy.engine fuel ([], false) input = Some rounds
    ∧ payload_of rounds = toy.encode input ++ [0].
Proof.
  revert input. induction fuel as [|fuel IH]; intros input Hfuel.
  { pose proof (len_nonneg input).
    assert (0 ≤ len input / MZGF_BLOCK_SIZE)
      by (apply Z.div_pos; unfold MZGF_BLOCK_SIZE; lia).
    lia. }
  cbn [deflate_rounds]. cbn zeta.
  set (block := prefix MZGF_BLOCK_SIZE input).
  set (flush := if len block <? MZGF_BLOCK_SIZE then Z_FINISH else Z_FULL_FLUSH).
  pose proof (len_nonneg input) as Hin0.
  assert (len block = Z.min MZGF_BLOCK_SIZE (len input)) as Hblock.
  { unfold block. rewrite len_prefix. unfold MZGF_BLOCK_SIZE. lia. }
  assert (prefix (len block) (from 0 block) = block) as Hwin.
  { rewrite from_0. apply prefix_all. lia. }
  assert (0 ≤ len input / MZGF_BLOCK_SIZE) as Hdiv0
    by (apply Z.div_pos; unfold MZGF_BLOCK_SIZE; lia).
  destruct (toy_flush_round (S fuel) flush block [] false 0 (len block) 0)
    as (zs & Hzs & Hst).
  { by rewrite Hwin. }
  { cbn zeta. rewrite Hwin. cbn [app negb]. rewrite andb_true_r.
    rewrite len_app, len_encode.
    apply Z.div_lt_upper_bound; [done|].
    unfold flush.
    destruct (Z.ltb_spec (len block) MZGF_BLOCK_SIZE); cbn [Z.eqb Z_FINISH
      Z_FULL_FLUSH Pos.eqb]; unfold len at 2; cbn [length];
      unfold MZGF_BLOCK_SIZE in *; lia. }
  cbn zeta in Hzs, Hst. rewrite Hwin in Hzs. cbn [app negb orb] in Hzs, Hst.
  rewrite andb_true_r in Hzs, Hst.
  match goal with |- context [ @flush_round ?e ?a ?b ?c ?d ] =>
    assert (@flush_round e a b c d
            = Some (zs, toy.encode block
                        ++ (if flush =? Z_FINISH then [0] else [])))
      as -> by exact Hzs end.
  destruct (Z.ltb_spec (len block) MZGF_BLOCK_SIZE) as [Hlt|Hge].
  - eexists. split; [done|]. unfold payload_of. cbn. rewrite app_nil_r.
    subst flush. cbn. do 2 f_equal. apply prefix_all. lia.
  - assert (len (from MZGF_BLOCK_SIZE input) = len input - MZGF_BLOCK_SIZE)
      as Hrest by (rewrite len_from; unfold MZGF_BLOCK_SIZE in *; lia).
    destruct (IH (from MZGF_BLOCK_SIZE input)) as (rounds & Hr & Hp).
    { rewrite Hrest.
      replace (len input - MZGF_BLOCK_SIZE)
        with (len input + (-1) * MZGF_BLOCK_SIZE) by lia.
      rewrite Z.div_add by done. lia. }
    assert (zs_state zs = (([], false) : @dstate toy.engine)) as Hst'.
    { rewrite Hst. subst flush. done. }
    rewrite Hst', Hr. eexists. split; [done|].
    unfold payload_of in *. cbn [fmap list_fmap snd concat].
    rewrite Hp. subst flush. cbn [Z.eqb Z_FULL_FLUSH Z_FINISH Pos.eqb].
    rewrite app_nil_r, app_assoc, <- encode_app.
    unfold block. by rewrite prefix_from_split.
Qed.

Lemma toy_inflate_run input :
  ∀ tag room used out pz pu rest tail,
    toy_inflating (toy.mkInflating tag false) pz pu →
    input ++ rest = pz ++ tail →
    let r := toy.inflate_run input tag room used out in
    ∃ (k : nat) o,
      z_used r = used + Z.of_nat k ∧ z_out r = out ++ o
      ∧ (k ≤ length input)%nat ∧ (k ≤ length pz)%nat
      ∧ (length o ≤ room)%nat
      ∧ o = take (length o) pu
      ∧ toy_inflating (z_state r) (drop k pz) (drop (length o) pu)
      ∧ (z_ret r = Z_OK ∨ z_ret r = Z_STREAM_END)
      ∧ (z_ret r = Z_STREAM_END → out = [] ∧ pu = [])
      ∧ (z_ret r = Z_OK → input ≠ [] → (0 < room)%nat →
         (0 < k)%nat ∨ out ++ o ≠ []).
Proof.
  induction input as [|b input IH];
    intros tag room used out pz pu rest tail Hinv Heq r.
  { exists 0%nat, []. subst r. cbn [toy.inflate_run z_used z_out z_ret z_state].
    rewrite app_nil_r, Z.add_0_r. cbn [length take drop].
    split_and!; try done; try lia. }
  subst r. cbn [toy.inflate_run]. unfold toy_inflating in Hinv.
  cbn [toy.ended toy.got_tag] in Hinv.
  destruct tag.
  - destruct Hinv as (b' & pu' & -> & ->). cbn [app] in Heq.
    injection Heq as <- Heq.
    destruct room as [|room].
    + exists 0%nat, []. cbn [z_used z_out z_ret z_state length take drop].
      rewrite app_nil_r, Z.add_0_r.
      split_and!; try done; try lia; try (by left).
      unfold toy_inflating. cbn. eauto.
    + destruct (IH false room (used + 1) (out ++ [b]) (toy.encode pu' ++ [0])
                  pu' rest tail) as (k & o & Hu & Ho & Hk1 & Hk2 & Hro & Hpre
                                     & Hinv' & Hret & Hend & Hprog);
        [done|done|].
      exists (S k), (b :: o). cbn [length take drop].
      split_and!; try done; try lia.
      * rewrite Ho. by rewrite <- app_assoc.
      * by rewrite <- Hpre.
      * intros He. destruct (Hend He) as [Hn _]. by destruct out.
  - destruct (Z.eqb_spec b 1) as [->|Hb1].
    + destruct pu as [|c pu'].
      { cbn in Hinv. subst pz. cbn in Heq. by injection Heq. }
      cbn [toy.encode flat_map app] in Hinv. subst pz. cbn [app] in Heq.
      injection Heq as Heq.
      destruct (IH true room (used + 1) out
                  (c :: toy.encode pu' ++ [0]) (c :: pu') rest tail)
        as (k & o & Hu & Ho & Hk1 & Hk2 & Hro & Hpre & Hinv' & Hret & Hend
            & Hprog);
        [unfold toy_inflating; cbn; eauto|done|].
      exists (S k), o. cbn [length drop].
      split_and!; try done; try lia.
      cbn [length] in Hk2 |- *. unfold toy.encode in Hk2. lia.
    + destruct (Z.eqb_spec b 0) as [->|Hb0].
      * destruct pu as [|c pu'].
        2:{ cbn [toy.encode flat_map app] in Hinv. subst pz. cbn in Heq.
            by injection Heq. }
        cbn in Hinv. subst pz.
        destruct out as [|o0 out].
        -- exists 1%nat, []. cbn [z_used z_out z_ret z_state length take drop].
           split_and!; try done; try lia; try (by right).
        -- exists 0%nat, []. cbn [z_used z_out z_ret z_state length take drop].
           rewrite app_nil_r, Z.add_0_r.
           split_and!; try done; try lia; try (by left).
           intros _ _ _. by right.
      * exfalso. subst pz. destruct pu as [|c pu']; cbn in Heq;
          injection Heq; intros; lia.
Qed.

Lemma toy_codec : @zlib_codec toy.engine.
Proof.
  refine (@Build_zlib_codec toy.engine toy_inflating _ _ _ _).
  - done.
  - done.
  - intros input.
    exists (Z.to_nat (len input / MZGF_BLOCK_SIZE + 3)).
    assert (0 ≤ len input / MZGF_BLOCK_SIZE) as Hdiv0.
    { pose proof (len_nonneg input).
      apply Z.div_pos; unfold MZGF_BLOCK_SIZE; lia. }
    destruct (toy_deflate_rounds
                (Z.to_nat (len input / MZGF_BLOCK_SIZE + 3)) input)
      as (rounds & Hr & Hp); [lia|].
    exists rounds. split; [exact Hr|]. rewrite Hp. done.
  - intros s pz pu input rest tail Hinv Hne Heq r.
    destruct s as [tag [|]].
    + unfold toy_inflating in Hinv. cbn in Hinv. destruct Hinv as [-> ->].
      subst r. cbn. pose proof (len_nonneg input).
      split_and!; try done; try lia; try (by right).
    + subst r. cbn [zinflate toy.engine]. unfold toy.inflate.
      cbn [toy.ended toy.got_tag].
      destruct (toy_inflate_run input tag (Z.to_nat MZGF_BLOCK_SIZE) 0 []
                  pz pu rest tail Hinv Heq)
        as (k & o & Hu & Ho & Hk1 & Hk2 & Hro & Hpre & Hinv' & Hret & Hend
            & Hprog).
      cbn zeta in *. change (@istate toy.engine) with toy.inflating.
      set (r := toy.inflate_run _ _ _ _ _) in *. clearbody r.
      cbn [app] in Ho, Hprog. rewrite Ho, Hu.
      unfold len, prefix, from. rewrite !Nat2Z.id.
      replace (Z.to_nat (0 + Z.of_nat k)) with k by lia.
      split_and!; try assumption; try lia.
      * unfold MZGF_BLOCK_SIZE in *. lia.
      * intros He. by destruct (Hend He).
      * intros Hok.
        destruct (Hprog Hok Hne) as [?|?]; [unfold MZGF_BLOCK_SIZE; lia|left; lia|by right].
Defined.

End toy_codec.
(** ** The reader: [open] on a file the writer produced *)

Section reader_open.
Context `{Zl : zlib}.
Import MZGFileReader.

Implicit Types (r : MZGFileReader.t) (data ex T : list Z) (pos : Z).

Lemma fread_rd n data pos got T :
  from pos data = got ++ T → len got = n →
  fread n (rd data pos) = (got, rd data (pos + n)).
Proof.
  intros Hd Hn. unfold fread, rd. cbn [f_pos f_data f_eof f_err f_script].
  rewrite Hd, <- Hn, prefix_app_len, Z.ltb_irrefl. done.
Qed.

Lemma fseek_set_rd off data pos :
  0 ≤ off → fseek_set off (rd data pos) = (0, rd data off).
Proof.
  intros. unfold fseek_set, rd. destruct (Z.ltb_spec off 0); [lia|done].
Qed.

Lemma uint16_small v : 0 ≤ v < 2 ^ 16 → uint16_t v = v.
Proof. intros. unfold uint16_t. by apply Z.mod_small. Qed.

Lemma int64_small v : 0 ≤ v < 2 ^ 63 → int64_t v = v.
Proof. intros. unfold int64_t. rewrite Z.mod_small; lia. Qed.

Lemma packInt32_app A T v :
  packInt32 (A ++ replicate 4 0 ++ T) (length A) v = A ++ le_bytes4 v ++ T.
Proof.
  unfold packInt32. cbn zeta.
  rewrite !insert_app_r_alt by lia.
  replace (length A - length A)%nat with 0%nat by lia.
  replace (length A + 1 - length A)%nat with 1%nat by lia.
  replace (length A + 2 - length A)%nat with 2%nat by lia.
  replace (length A + 3 - length A)%nat with 3%nat by lia.
  reflexivity.
Qed.

(** [unpackInt32] loads a fifth byte, so one must follow the four. *)
Lemma unpackInt32_le_bytes4 A T v :
  T ≠ [] → unpackInt32 (A ++ le_bytes4 v ++ T) (length A) = Some (uint32_t v).
Proof.
  intros HT.
  rewrite <- (unpack_packInt32 (A ++ replicate 4 0 ++ T) (length A) v).
  - f_equal. by rewrite packInt32_app.
  - rewrite !length_app. destruct T; [done|]. cbn. lia.
Qed.

(** The fields [_read_header] looks at in the twelve bytes it has read. *)
Lemma header_fields mtime xlen zb :
  let hb := store (gz_header mtime xlen) zb in
  hb !! 0%nat = Some GZIP_MAGIC_ID1 ∧ hb !! 1%nat = Some GZIP_MAGIC_ID2
  ∧ hb !! 2%nat = Some GZIP_CM_DEFLATED ∧ hb !! 3%nat = Some GZIP_FEXTRA_FLG
  ∧ unpackInt32 hb 4 = Some (uint32_t mtime)
  ∧ unpackInt16 hb 10 = Some (uint16_t xlen).
Proof.
  intros hb. split_and!; try done.
  { change hb with
      ([GZIP_MAGIC_ID1; GZIP_MAGIC_ID2; 8; GZIP_FEXTRA_FLG] ++ le_bytes4 mtime
       ++ [0; GZIP_OS] ++ le_bytes2 xlen ++ drop 12 zb).
    by apply (unpackInt32_le_bytes4
                [GZIP_MAGIC_ID1; GZIP_MAGIC_ID2; 8; GZIP_FEXTRA_FLG]). }
  change hb with
    (([GZIP_MAGIC_ID1; GZIP_MAGIC_ID2; 8; GZIP_FEXTRA_FLG] ++ le_bytes4 mtime
      ++ [0; GZIP_OS]) ++ le_bytes2 xlen ++ drop 12 zb).
  apply (unpackInt16_le_bytes2
           ([GZIP_MAGIC_ID1; GZIP_MAGIC_ID2; 8; GZIP_FEXTRA_FLG]
            ++ le_bytes4 mtime ++ [0; GZIP_OS])).
Qed.

Lemma _read_header_spec extra extralen r data pos mtime xlen ex T :
  m_fp r = Some (rd data pos) → 0 ≤ pos →
  from pos data = gz_header mtime xlen ++ ex ++ T →
  len ex = xlen → 0 < xlen ≤ extralen → xlen < 2 ^ 16 →
  ∃ r', _read_header extra extralen r = Returns (0, store ex extra, r')
        ∧ m_fp r' = Some (rd data (pos + sizeof_gzheader + xlen))
        ∧ rkept r' = rkept r ∧ globals r' = globals r
        ∧ m_mtime r' = uint32_t mtime ∧ m_version r' = m_version r.
Proof.
  intros Hfp Hpos Hd Hex Hx Hx16.
  unfold _read_header, stream. rewrite Hfp. cbn [defined obind].
  rewrite (fread_rd sizeof_gzheader data pos (gz_header mtime xlen) (ex ++ T))
    by done.
  cbn [ferror rd f_err].
  change (len (gz_header mtime xlen) =? sizeof_gzheader) with true.
  cbn [negb m_zblock set_fp set_zblock set_zoffset set_mtime].
  destruct (header_fields mtime xlen (m_zblock r))
    as (H0 & H1 & H2 & H3 & Hmt & H16).
  cbn zeta in H0, H1, H2, H3, Hmt, H16.
  rewrite H0, H1, H2. cbn [defined obind].
  rewrite !Z.eqb_refl. cbn [negb orb].
  rewrite Hmt. cbn [defined obind]. rewrite H3, H16. cbn [defined obind].
  rewrite !(uint16_small xlen) by lia.
  destruct (Z.eqb_spec xlen 0) as [?|_]; [lia|]. rewrite andb_false_r.
  destruct (Z.ltb_spec extralen xlen) as [?|_]; [lia|].
  rewrite (fread_rd xlen data (pos + sizeof_gzheader) ex T); [| |done].
  2: { rewrite <- from_from by (unfold sizeof_gzheader; lia).
       rewrite Hd. apply (from_app_len (gz_header mtime xlen)). }
  cbn [ferror rd f_err]. rewrite Hex, Z.eqb_refl. cbn [negb].
  eexists. split_and!; done.
Qed.

Lemma len_gz_trailer crc usize : len (gz_trailer crc usize) = 8.
Proof. done. Qed.

Lemma len_gz_header mtime xlen : len (gz_header mtime xlen) = 12.
Proof. done. Qed.

Lemma len_gz_member mtime extra crc :
  len (gz_member mtime extra crc) = 12 + len extra + 10.
Proof.
  unfold gz_member. rewrite !len_app, len_gz_header, len_gz_trailer.
  change (len [3; 0]) with 2. lia.
Qed.

Lemma _read_eof_spec r F X mtime id usize fbo crc0 pos0 :
  m_fp r = Some (rd F pos0) → 0 ≤ pos0 →
  F = X ++ gz_member mtime (bo_extra id usize fbo) crc0 →
  id = [chr_B; chr_O; 16; 0] →
  0 ≤ usize < 2 ^ 63 → 0 ≤ fbo < 2 ^ 63 →
  ∃ r', _read_eof r = Returns (0, r')
        ∧ m_fp r' = Some (rd F pos0)
        ∧ m_ufilesize r' = usize ∧ m_bindex_offset r' = fbo
        ∧ m_zs r' = m_zs r ∧ m_isEOF r' = m_isEOF r
        ∧ m_blen r' = m_blen r ∧ m_boffset r' = m_boffset r
        ∧ m_bindex r' = m_bindex r
        ∧ m_mtime r' = uint32_t mtime ∧ m_version r' = m_version r.
Proof.
  intros Hfp Hpos HF Hid Hus Hbo.
  assert (len (bo_extra id usize fbo) = 20) as Hlen by (by subst id).
  assert (len F = len X + 42) as HlenF.
  { rewrite HF, len_app, len_gz_member, Hlen. lia. }
  unfold _read_eof, stream. rewrite Hfp. cbn [defined obind]. cbn zeta.
  unfold fseek_end. cbn [rd f_data].
  rewrite fseek_set_rd
    by (pose proof (len_nonneg X);
        unfold sizeof_gzheader, sizeof_extra_eof; lia).
  cbn [negb Z.eqb].
  replace (len F + - (sizeof_gzheader + sizeof_extra_eof + 2 + 4 + 4))
    with (len X) by (unfold sizeof_gzheader, sizeof_extra_eof; lia).
  set (r1 := set_fp _ r).
  destruct (_read_header_spec (extra_eof (globals r1)) sizeof_extra_eof r1 F
              (len X) mtime 20 (bo_extra id usize fbo)
              ([3; 0] ++ gz_trailer crc0 0))
    as (r2 & Hr2 & Hfp2 & Hk2 & Hg2 & Hmt2 & Hv2);
    [done|apply len_nonneg| |done|done|done|].
  { rewrite HF, from_app_len. unfold gz_member. by rewrite Hlen. }
  rewrite Hr2. cbn [obind negb Z.eqb].
  set (ee := store (bo_extra id usize fbo) (extra_eof (globals r1))).
  assert (ee !! 0%nat = Some chr_B ∧ ee !! 1%nat = Some chr_O) as [-> ->]
    by (by subst ee id).
  cbn [defined obind]. rewrite Z.eqb_refl. cbn [orb].
  assert (unpackInt64 ee 4 = Some (uint64_t usize)) as ->.
  { subst ee. unfold store, bo_extra. rewrite <- !app_assoc.
    assert (4%nat = length id) as -> by (by subst id).
    apply unpackInt64_le_bytes8. }
  assert (unpackInt64 ee 12 = Some (uint64_t fbo)) as ->.
  { subst ee. unfold store, bo_extra. rewrite <- !app_assoc.
    rewrite (app_assoc id).
    assert (12%nat = length (id ++ le_bytes8 usize)) as -> by (by subst id).
    apply unpackInt64_le_bytes8. }
  cbn [defined obind].
  unfold stream. cbn [m_fp set_bindex_offset set_ufilesize set_extra_eof
                      set_globals].
  rewrite Hfp2. cbn [defined obind].
  rewrite fseek_set_rd by done. cbn [negb Z.eqb].
  unfold rkept in Hk2. subst r1. cbn in Hk2.
  injection Hk2 as Hz He Hu Hb Hbo' Hix Hbx.
  rewrite !uint64_small, !int64_small by lia.
  eexists. split_and!; done.
Qed.

(** The first index member of a chain and the chain that follows it. *)
Lemma index_members_split mtime crc id pos rest :
  ∀ cur,
    rest ≠ [] → 12 + 16 * len_bindex cur + 16 < sizeof_extra_bindex →
    ∃ entries rest',
      cur ++ rest = entries ++ rest' ∧ entries ≠ []
      ∧ 12 + 16 * len_bindex entries < sizeof_extra_bindex
      ∧ (length rest' < length rest)%nat
      ∧ let after := pos + 12 + (12 + 16 * len_bindex entries) + 10 in
        index_members mtime crc id pos cur rest
        = gz_member mtime
            (bi_extra id (match rest' with [] => 0 | _ => after end) entries)
            crc
          ++ index_members mtime crc id after [] rest'.
Proof.
  induction rest as [|e rest IH]; intros cur Hne Hcur; [done|].
  cbn [index_members]. cbn zeta.
  destruct ((sizeof_extra_bindex <=? 12 + 16 * len_bindex (cur ++ [e])
               + sizeof_bindex_t)
            || match rest with [] => true | _ => false end) eqn:Hclose.
  - exists (cur ++ [e]), rest. split_and!.
    + by rewrite <- app_assoc.
    + by destruct cur.
    + rewrite len_bindex_snoc. lia.
    + cbn. lia.
    + cbn zeta. unfold sizeof_gzheader.
      replace (pos + 12 + (12 + 16 * len_bindex (cur ++ [e])) + 2 + 8)
        with (pos + 12 + (12 + 16 * len_bindex (cur ++ [e])) + 10) by lia.
      by destruct rest.
  - apply orb_false_iff in Hclose as [Hfull Hlast].
    apply Z.leb_gt in Hfull. unfold sizeof_bindex_t in Hfull.
    destruct (IH (cur ++ [e])) as (entries & rest' & Heq & Hen & Hb & Hl & Hm).
    + by destruct rest.
    + lia.
    + exists entries, rest'. split_and!; try done.
      * rewrite <- Heq. by rewrite <- app_assoc.
      * cbn. lia.
Qed.

Lemma _read_bindex_entries_spec entries :
  ∀ fuel pre T acc i count,
    len pre = i → count = i + 16 * len_bindex entries - 4 →
    (length entries ≤ fuel)%nat → Forall in_range entries →
    _read_bindex_entries fuel i count (pre ++ entry_bytes entries ++ T) acc
    = Returns (acc ++ entries).
Proof.
  induction entries as [|[z u] entries IH];
    intros fuel pre T acc i count Hpre Hcount Hfuel Hr.
  { unfold len_bindex in Hcount. cbn in Hcount.
    destruct fuel; cbn [_read_bindex_entries];
      destruct (Z.ltb_spec i count); try lia; by rewrite app_nil_r. }
  destruct fuel as [|fuel]; [cbn in Hfuel; lia|].
  apply Forall_cons in Hr as [[Hz Hu] Hr]. cbn [zoffset uoffset] in Hz, Hu.
  unfold len_bindex in Hcount. cbn [length] in Hcount.
  cbn [_read_bindex_entries].
  destruct (Z.ltb_spec i count); [|lia].
  unfold entry_bytes. cbn [flat_map zoffset uoffset].
  fold (entry_bytes entries). rewrite <- !app_assoc.
  assert (Z.to_nat i = length pre) as -> by (unfold len in Hpre; lia).
  rewrite unpackInt64_le_bytes8. cbn [defined obind].
  rewrite (app_assoc pre).
  assert (Z.to_nat (i + 8) = length (pre ++ le_bytes8 z)) as ->.
  { rewrite length_app. unfold len in Hpre. unfold le_bytes8. cbn [length].
    lia. }
  rewrite unpackInt64_le_bytes8. cbn [defined obind].
  rewrite (app_assoc _ (le_bytes8 u)).
  rewrite (IH fuel _ T (acc ++ [mkBindex (uint64_t z) (uint64_t u)]) (i + 16)
             count).
  - rewrite !uint64_small by done. by rewrite <- app_assoc.
  - rewrite !len_app, !len_le_bytes8. lia.
  - unfold len_bindex. lia.
  - cbn in Hfuel. lia.
  - done.
Qed.

Lemma _read_bindex_loop_done fuel r : _read_bindex_loop fuel 0 r = Returns (0, r).
Proof. by destruct fuel. Qed.

Lemma _read_bindex_loop_spec mtime crc F (n : nat) :
  ∀ ix fuel r pos T ppos,
    (length ix ≤ n)%nat → ix ≠ [] → (length ix ≤ fuel)%nat →
    m_fp r = Some (rd F ppos) →
    from pos F = index_members mtime crc [chr_B; chr_I] pos [] ix ++ T →
    0 < pos →
    pos + len (index_members mtime crc [chr_B; chr_I] pos [] ix) < 2 ^ 63 →
    Forall in_range ix →
    ∃ r' p',
      _read_bindex_loop fuel pos r = Returns (0, r')
      ∧ m_fp r' = Some (rd F p')
      ∧ m_bindex r' = m_bindex r ++ ix
      ∧ rstate r' = rstate r
      ∧ m_mtime r' = uint32_t mtime ∧ m_version r' = m_version r.
Proof.
  induction n as [|n IH];
    intros ix fuel r pos T ppos Hn Hne Hfuel Hfp HF Hpos Hbound Hr.
  { destruct ix; [done|cbn in Hn; lia]. }
  destruct (index_members_split mtime crc [chr_B; chr_I] pos ix [] Hne)
    as (entries & rest & Hix & Hen & Hb & Hl & Hm).
  { unfold len_bindex, sizeof_extra_bindex, GZIP_FEXTRA_MAX. cbn. lia. }
  cbn [app] in Hix. cbn zeta in Hm. subst ix.
  set (after := pos + 12 + (12 + 16 * len_bindex entries) + 10) in *.
  set (next := match rest with [] => 0 | _ => after end) in *.
  set (bi := bi_extra [chr_B; chr_I] next entries) in *.
  assert (len bi = 12 + 16 * len_bindex entries) as Hlenbi
    by (by apply len_bi_extra).
  assert (0 ≤ len_bindex entries) as Hn0 by (unfold len_bindex; lia).
  assert (1 ≤ length entries)%nat as Hen1
    by (destruct entries; [done|cbn; lia]).
  rewrite length_app in Hn, Hfuel.
  rewrite Hm in HF, Hbound. rewrite len_app, len_gz_member, Hlenbi in Hbound.
  pose proof (len_nonneg
                (index_members mtime crc [chr_B; chr_I] after [] rest)) as Hr0.
  apply Forall_app in Hr as [Hre Hrr].
  destruct fuel as [|fuel].
  { lia. }
  cbn [_read_bindex_loop].
  destruct (Z.eqb_spec pos 0) as [?|_]; [lia|].
  unfold stream at 1. rewrite Hfp. cbn [defined obind].
  rewrite fseek_set_rd by lia. cbn [negb Z.eqb].
  set (r1 := set_fp _ r).
  destruct (_read_header_spec (extra_bindex (globals r1)) sizeof_extra_bindex
              r1 F pos mtime (len bi) bi
              (([3; 0] ++ gz_trailer crc 0)
               ++ index_members mtime crc [chr_B; chr_I] after [] rest ++ T))
    as (r2 & Hr2 & Hfp2 & Hk2 & Hg2 & Hmt2 & Hv2); [done|lia| |done| | |].
  { rewrite HF. unfold gz_member. by rewrite <- !app_assoc. }
  { unfold sizeof_extra_bindex, GZIP_FEXTRA_MAX in *. lia. }
  { unfold sizeof_extra_bindex, GZIP_FEXTRA_MAX in *. lia. }
  rewrite Hr2. cbn [obind negb Z.eqb].
  set (eb := store bi (extra_bindex (globals r1))).
  assert (eb !! 0%nat = Some chr_B ∧ eb !! 1%nat = Some chr_I) as [-> ->]
    by done.
  cbn [defined obind]. rewrite Z.eqb_refl. cbn [orb].
  assert (unpackInt16 eb 2 = Some (8 + 16 * len_bindex entries)) as ->.
  { subst eb bi. unfold store, bi_extra. rewrite <- !app_assoc.
    rewrite (unpackInt16_le_bytes2 [chr_B; chr_I]).
    rewrite uint16_small; [done|].
    unfold sizeof_extra_bindex, GZIP_FEXTRA_MAX in *. lia. }
  assert (0 ≤ next < 2 ^ 63) as Hnext.
  { subst next. destruct rest; lia. }
  assert (unpackInt64 eb 4 = Some next) as ->.
  { subst eb bi. unfold store, bi_extra. rewrite <- !app_assoc.
    rewrite (app_assoc [chr_B; chr_I]).
    rewrite (unpackInt64_le_bytes8
               ([chr_B; chr_I] ++ le_bytes2 (8 + 16 * len_bindex entries))).
    rewrite uint64_small; [done|lia]. }
  cbn [defined obind].
  cbn [m_bindex set_extra_bindex set_globals].
  assert (_read_bindex_entries (Z.to_nat (8 + 16 * len_bindex entries)) 12
            (8 + 16 * len_bindex entries) eb (m_bindex r2)
          = Returns (m_bindex r2 ++ entries)) as ->.
  { subst eb bi. unfold store, bi_extra. fold (entry_bytes entries).
    rewrite <- !app_assoc.
    rewrite (app_assoc [chr_B; chr_I]), (app_assoc _ (le_bytes8 next)).
    apply _read_bindex_entries_spec; [done|lia| |done].
    unfold len_bindex. lia. }
  cbn [obind]. rewrite int64_small by done.
  unfold rkept in Hk2. subst r1. cbn in Hk2.
  injection Hk2 as Hz He Hu Hbl Hbo Hix Hbx.
  destruct rest as [|e rest].
  - subst next. rewrite _read_bindex_loop_done.
    eexists _, _. split_and!; [done| | | | |]; cbn.
    + exact Hfp2.
    + by rewrite Hix, app_nil_r.
    + unfold rstate. cbn. congruence.
    + exact Hmt2.
    + exact Hv2.
  - subst next.
    match goal with |- context [ _read_bindex_loop fuel _ ?rr ] =>
      edestruct (IH (e :: rest) fuel rr after T)
        as (r' & p' & Hr' & Hfp' & Hix' & Hst' & Hmt' & Hv') end.
    + lia.
    + done.
    + lia.
    + cbn. exact Hfp2.
    + assert (after = pos + len (gz_member mtime bi crc)) as Hafter.
      { rewrite len_gz_member, Hlenbi. subst after. lia. }
      rewrite Hafter at 1.
      rewrite <- from_from by (try apply len_nonneg; lia).
      rewrite HF, <- app_assoc. apply from_app_len.
    + subst after. lia.
    + lia.
    + done.
    + rewrite Hr'. eexists _, _.
      split_and!; [done|exact Hfp'| | |exact Hmt'|].
      * rewrite Hix'. cbn. rewrite Hix. by rewrite <- app_assoc.
      * rewrite Hst'. unfold rstate. cbn. congruence.
      * rewrite Hv'. cbn. exact Hv2.
Qed.

Lemma _read_bindex_spec mtime crc F ix fuel r T p0 :
  ix ≠ [] → (length ix ≤ fuel)%nat →
  m_fp r = Some (rd F p0) → 0 ≤ p0 →
  from (m_bindex_offset r) F
  = index_members mtime crc [chr_B; chr_I] (m_bindex_offset r) [] ix ++ T →
  0 < m_bindex_offset r →
  m_bindex_offset r
  + len (index_members mtime crc [chr_B; chr_I] (m_bindex_offset r) [] ix)
  < 2 ^ 63 →
  Forall in_range ix →
  ∃ r',
    _read_bindex fuel r = Returns (0, r')
    ∧ m_fp r' = Some (rd F p0)
    ∧ m_bindex r' = m_bindex r ++ ix
    ∧ rstate r' = rstate r
    ∧ m_mtime r' = uint32_t mtime ∧ m_version r' = m_version r.
Proof.
  intros Hne Hfuel Hfp Hp0 HF Hpos Hb Hr.
  unfold _read_bindex, stream. rewrite Hfp. cbn [defined obind].
  destruct (_read_bindex_loop_spec mtime crc F (length ix) ix fuel r
              (m_bindex_offset r) T p0)
    as (r1 & p1 & Hr1 & Hfp1 & Hix1 & Hst1 & Hmt1 & Hv1); try done.
  rewrite Hr1. cbn [obind negb Z.eqb]. rewrite Hfp1. cbn [defined obind].
  unfold ftell. cbn [rd f_pos]. rewrite fseek_set_rd by done.
  cbn [negb Z.eqb]. eexists. split_and!; [done|done|done| |done|done].
  rewrite <- Hst1. done.
Qed.

Lemma open_spec_meta fuel fs path r mtime g crc0 payload crc usize ix :
  let F := mzgf_file mtime g crc0 payload crc usize ix in
  fs path = Some F → statics_intact g → inflateInit2.1 = Z_OK →
  ix ≠ [] → Forall in_range ix → (length ix ≤ fuel)%nat →
  0 ≤ usize < 2 ^ 63 → len F < 2 ^ 63 →
  ∃ r',
    open fuel fs path r = Returns (0, r')
    ∧ m_fp r' = Some (rd F 17)
    ∧ m_bindex r' = m_bindex r ++ ix
    ∧ m_ufilesize r' = usize
    ∧ m_zfilesize r' = len F
    ∧ m_zs r' = mkZstream inflateInit2.2 0 0 MZGF_BLOCK_SIZE
    ∧ m_isEOF r' = false
    ∧ m_blen r' = m_blen r ∧ m_boffset r' = m_boffset r
    ∧ m_mtime r' = uint32_t mtime ∧ m_version r' = MZGF_VERSION.
Proof.
  intros F Hfs (Hmz & Heo & Heol & Hbi & Hbil) Hinit Hne Hr Hfuel Hus HlenF.
  set (fbo := 17 + len payload + 8).
  set (E := gz_member mtime (bo_extra (prefix 4 (extra_eof g)) usize fbo) crc0).
  set (M := index_members mtime crc0 (prefix 2 (extra_bindex g)) fbo [] ix).
  set (H := gz_header mtime sizeof_extra_mzgf ++ extra_mzgf g ++ payload
            ++ gz_trailer crc usize).
  assert (F = H ++ M ++ E) as HF.
  { subst F H M E fbo. unfold mzgf_file. cbn zeta. by rewrite <- !app_assoc. }
  assert (len H = fbo) as HlenH.
  { subst H fbo. rewrite !len_app, len_gz_header, len_gz_trailer, Hmz.
    change (len [chr_M; chr_Z; 1; 0; MZGF_VERSION]) with 5. lia. }
  pose proof (len_nonneg payload) as Hp0.
  pose proof (len_nonneg M) as HM0.
  pose proof (len_nonneg E) as HE0.
  assert (len F = fbo + len M + len E) as HlenF'.
  { rewrite HF, !len_app. lia. }
  unfold open. rewrite Hfs. cbn zeta.
  unfold reset_inflate. destruct inflateInit2 as [iret ist] eqn:Hii.
  cbn [fst snd] in Hinit |- *. subst iret. cbn [negb Z.eqb Z_OK].
  set (r0 := set_zs _ _).
  destruct (_read_header_spec (extra_mzgf (globals r0)) sizeof_extra_mzgf r0 F
              0 mtime sizeof_extra_mzgf (extra_mzgf g)
              (payload ++ gz_trailer crc usize ++ M ++ E))
    as (r1 & Hr1 & Hfp1 & Hk1 & Hg1 & Hmt1 & Hv1); [done|done| | |done|done|].
  { rewrite from_0, HF. subst H. by rewrite <- !app_assoc. }
  { by rewrite Hmz. }
  rewrite Hr1. cbn [obind negb Z.eqb].
  set (em := store (extra_mzgf g) (extra_mzgf (globals r0))).
  assert (em !! 0%nat = Some chr_M ∧ em !! 1%nat = Some chr_Z
          ∧ em !! 4%nat = Some MZGF_VERSION) as (-> & -> & ->)
    by (by subst em; rewrite Hmz).
  cbn [defined obind]. rewrite !Z.eqb_refl. cbn [negb orb].
  set (r2 := set_version _ _).
  destruct (_read_eof_spec r2 F (H ++ M) mtime (prefix 4 (extra_eof g)) usize
              fbo crc0 (0 + sizeof_gzheader + sizeof_extra_mzgf))
    as (r3 & Hr3 & Hfp3 & Hu3 & Hbo3 & Hz3 & He3 & Hbl3 & Hbf3 & Hix3 & Hmt3
        & Hv3);
    [exact Hfp1|done|by rewrite <- app_assoc|done|done|lia|].
  rewrite Hr3. cbn [obind negb Z.eqb].
  destruct (_read_bindex_spec mtime crc0 F ix fuel r3 E
              (0 + sizeof_gzheader + sizeof_extra_mzgf))
    as (r4 & Hr4 & Hfp4 & Hix4 & Hst4 & Hmt4 & Hv4);
    [done|done|done|done| | | |done|].
  { rewrite Hbo3, <- HlenH, HF, from_app_len, HlenH. subst M.
    by rewrite Hbi. }
  { rewrite Hbo3. lia. }
  { rewrite Hbo3, <- Hbi. fold M. lia. }
  rewrite Hr4. cbn [obind negb Z.eqb].
  unfold rstate in Hst4. injection Hst4 as Hz4 He4 Hu4 Hbl4 Hbf4 Hbo4.
  unfold rkept in Hk1. subst r0. cbn in Hk1.
  injection Hk1 as Hz1 He1 Hu1 Hbl1 Hbf1 Hix1 Hbo1.
  cbn in Hz3, He3, Hbl3, Hbf3, Hix3.
  rewrite Hv3 in Hv4. subst r2. cbn in Hv4.
  eexists. split_and!; [done| | | | | | | | | |]; cbn.
  - exact Hfp4.
  - congruence.
  - congruence.
  - done.
  - congruence.
  - congruence.
  - congruence.
  - congruence.
  - exact Hmt4.
  - exact Hv4.
Qed.

Lemma open_spec fuel fs path r mtime g crc0 payload crc usize ix :
  let F := mzgf_file mtime g crc0 payload crc usize ix in
  fs path = Some F → statics_intact g → inflateInit2.1 = Z_OK →
  ix ≠ [] → Forall in_range ix → (length ix ≤ fuel)%nat →
  0 ≤ usize < 2 ^ 63 → len F < 2 ^ 63 →
  ∃ r',
    open fuel fs path r = Returns (0, r')
    ∧ m_fp r' = Some (rd F 17)
    ∧ m_bindex r' = m_bindex r ++ ix
    ∧ m_ufilesize r' = usize
    ∧ m_zfilesize r' = len F
    ∧ m_zs r' = mkZstream inflateInit2.2 0 0 MZGF_BLOCK_SIZE
    ∧ m_isEOF r' = false
    ∧ m_blen r' = m_blen r ∧ m_boffset r' = m_boffset r.
Proof.
  intros F Hfs Hg Hinit Hne Hr Hfuel Hus HlenF.
  destruct (open_spec_meta fuel fs path r mtime g crc0 payload crc usize ix)
    as (r' & H); try done.
  exists r'. by destruct_and!.
Qed.

End reader_open.
(** ** The rounds of the writer *)

Section rounds_facts.
Context `{Zl : zlib}.

Implicit Types (rounds : list (list Z * list Z)) (input : list Z).

(** The bound on the engine calls does not change a result. *)
Lemma flush_round_det fuel1 :
  ∀ fuel2 flush ublock zs x y,
    flush_round fuel1 flush ublock zs = Some x →
    flush_round fuel2 flush ublock zs = Some y → x = y.
Proof.
  induction fuel1 as [|fuel1 IH]; intros fuel2 flush ublock zs x y; [done|].
  destruct fuel2 as [|fuel2]; [done|].
  cbn [flush_round]. cbn zeta.
  destruct (zcall _ _ _ _) as [[ret zs'] out].
  destruct ((ret =? Z_OK) || (ret =? Z_STREAM_END)); [|done].
  destruct (avail_out zs' =? 0); [|congruence].
  destruct (flush_round fuel1 flush ublock zs') as [[zs1 more1]|] eqn:H1;
    [|done].
  destruct (flush_round fuel2 flush ublock zs') as [[zs2 more2]|] eqn:H2;
    [|done].
  pose proof (IH _ _ _ _ _ _ H1 H2). intros; simplify_eq. done.
Qed.

Lemma deflate_rounds_det fuel1 :
  ∀ fuel2 st input x y,
    deflate_rounds fuel1 st input = Some x →
    deflate_rounds fuel2 st input = Some y → x = y.
Proof.
  induction fuel1 as [|fuel1 IH]; intros fuel2 st input x y; [done|].
  destruct fuel2 as [|fuel2]; [done|].
  cbn [deflate_rounds]. cbn zeta.
  destruct (flush_round (S fuel1) _ _ _) as [[zs1 out1]|] eqn:H1; [|done].
  destruct (flush_round (S fuel2) _ _ _) as [[zs2 out2]|] eqn:H2; [|done].
  pose proof (flush_round_det _ _ _ _ _ _ _ H1 H2). simplify_eq.
  destruct (_ <? _); [congruence|].
  destruct (deflate_rounds fuel1 _ _) as [r1|] eqn:Hr1; [|done].
  destruct (deflate_rounds fuel2 _ _) as [r2|] eqn:Hr2; [|done].
  pose proof (IH _ _ _ _ _ Hr1 Hr2). intros; simplify_eq. done.
Qed.

(** The blocks of the rounds: all of 65280 bytes but the last, which is
    shorter (and may be empty); together they are the input. *)
Lemma deflate_rounds_blocks fuel :
  ∀ st input rounds,
    deflate_rounds fuel st input = Some rounds →
    Z.of_nat (length rounds) = len input / MZGF_BLOCK_SIZE + 1
    ∧ concat (fst <$> rounds) = input
    ∧ ∀ z u (i : nat) e,
        index_of z u rounds !! i = Some e →
        uoffset e = u + MZGF_BLOCK_SIZE * Z.of_nat i.
Proof.
  induction fuel as [|fuel IH]; intros st input rounds; [done|].
  cbn [deflate_rounds]. cbn zeta.
  destruct (flush_round _ _ _ _) as [[zs out]|]; [|done].
  pose proof (len_nonneg input) as Hin0.
  pose proof (len_prefix MZGF_BLOCK_SIZE input) as Hblock.
  destruct (Z.ltb_spec (len (prefix MZGF_BLOCK_SIZE input)) MZGF_BLOCK_SIZE)
    as [Hlt|Hge].
  - intros ?; simplify_eq.
    assert (len input < MZGF_BLOCK_SIZE) as Hlt'
      by (unfold MZGF_BLOCK_SIZE in *; lia).
    split_and!.
    + rewrite Z.div_small by lia. done.
    + cbn. rewrite app_nil_r. apply prefix_all. lia.
    + intros z u [|i] e; cbn; intros ?; simplify_eq. cbn. lia.
  - destruct (deflate_rounds fuel (zs_state zs) (from MZGF_BLOCK_SIZE input))
      as [rs|] eqn:Hrs; [|done].
    intros ?; simplify_eq.
    destruct (IH _ _ _ Hrs) as (Hn & Hcat & Hu).
    assert (len (prefix MZGF_BLOCK_SIZE input) = MZGF_BLOCK_SIZE) as Hfull
      by (unfold MZGF_BLOCK_SIZE in *; lia).
    assert (len (from MZGF_BLOCK_SIZE input) = len input - MZGF_BLOCK_SIZE)
      as Hrest by (rewrite len_from; unfold MZGF_BLOCK_SIZE in *; lia).
    split_and!.
    + cbn [length]. rewrite Nat2Z.inj_succ, Hn, Hrest.
      replace (len input - MZGF_BLOCK_SIZE)
        with (len input + (-1) * MZGF_BLOCK_SIZE) by lia.
      rewrite Z.div_add by done. lia.
    + cbn. rewrite Hcat. apply prefix_from_split.
    + intros z u [|i] e; cbn [index_of lookup list_lookup].
      * intros ?; simplify_eq. cbn. lia.
      * intros He. rewrite (Hu _ _ _ _ He), Hfull. lia.
Qed.

(** Where the entries lie. *)
Lemma index_of_range rounds :
  ∀ z u,
    Forall (λ e, z ≤ zoffset e ≤ z + len (payload_of rounds)
                 ∧ u ≤ uoffset e ≤ u + len (concat (fst <$> rounds)))
      (index_of z u rounds).
Proof.
  induction rounds as [|[block out] rounds IH]; intros z u; [constructor|].
  cbn [index_of]. unfold payload_of.
  cbn [fmap list_fmap fst snd concat]. rewrite !len_app.
  pose proof (len_nonneg out). pose proof (len_nonneg block).
  pose proof (len_nonneg (concat (snd <$> rounds))).
  pose proof (len_nonneg (concat (fst <$> rounds))).
  constructor; [cbn; lia|].
  eapply Forall_impl; [apply IH|]. unfold payload_of.
  cbn beta. intros e. lia.
Qed.

Lemma length_index_of rounds z u :
  length (index_of z u rounds) = length rounds.
Proof.
  revert z u. induction rounds as [|[block out] rounds IH]; intros z u;
    [done|]. cbn. by rewrite IH.
Qed.

(** An index member takes 34 bytes and 16 more for every entry. *)
Lemma len_index_members mtime crc id rest :
  length id = 2%nat →
  ∀ cur pos,
    len (index_members mtime crc id pos cur rest)
    ≤ 50 * len_bindex rest + 16 * len_bindex cur.
Proof.
  intros Hid. induction rest as [|e rest IH]; intros cur pos'.
  { unfold len_bindex. cbn. unfold len. cbn. lia. }
  cbn [index_members]. cbn zeta.
  assert (len_bindex (e :: rest) = len_bindex rest + 1) as ->
    by (unfold len_bindex; cbn [length]; lia).
  assert (0 ≤ len_bindex cur) by (unfold len_bindex; lia).
  destruct (_ || _).
  - rewrite len_app, len_gz_member, len_bi_extra, len_bindex_snoc by done.
    specialize (IH [] (pos' + sizeof_gzheader
                       + (12 + 16 * len_bindex (cur ++ [e])) + 2 + 8)).
    change (len_bindex []) with 0 in IH. rewrite len_bindex_snoc in IH. lia.
  - specialize (IH (cur ++ [e]) pos'). rewrite len_bindex_snoc in IH. lia.
Qed.

End rounds_facts.

(** ** The reader: reading the deflate stream of a file *)

Section reader_stream.
Context `{Zl : zlib} {codec : zlib_codec}.
Import MZGFileReader.

Implicit Types (r : MZGFileReader.t) (pz pu : list Z).

(** The file being read, and what follows its deflate stream. *)
Variables (F tail : list Z).
Hypothesis Htail : 8 < len tail.

Lemma prefix_from_shift a n u (zb : list Z) :
  0 ≤ n → 0 ≤ u ≤ a →
  prefix (a - u) (from (n + u) zb) = from u (prefix a (from n zb)).
Proof.
  intros. rewrite <- from_from by lia. rewrite prefix_from by lia.
  do 2 f_equal. lia.
Qed.

Lemma from_app_le n (A T : list Z) :
  0 ≤ n ≤ len A → from n (A ++ T) = from n A ++ T.
Proof. unfold from, len. intros. apply drop_app_le. lia. Qed.

Lemma prefix_len_split n (A : list Z) :
  prefix n A ++ from (len (prefix n A)) A = A.
Proof.
  unfold prefix, from, len. rewrite Nat2Z.id, length_take.
  destruct (Nat.le_gt_cases (Z.to_nat n) (length A)).
  - rewrite Nat.min_l by done. apply take_drop.
  - rewrite Nat.min_r by lia. rewrite drop_all, app_nil_r. apply take_ge. lia.
Qed.

Ltac rsimpl :=
  cbn [m_fp m_zs m_version m_mtime m_isEOF m_zfilesize m_ufilesize m_zblock
       m_zoffset m_ublock m_uoffset m_blen m_boffset m_bindex m_bindex_offset
       m_error globals set_fp set_zs set_version set_mtime set_isEOF
       set_zfilesize set_ufilesize set_zblock set_zoffset set_ublock
       set_uoffset set_blen set_boffset set_bindex set_bindex_offset set_error
       set_globals zs_state next_in avail_in avail_out obind defined negb
       f_data f_pos f_eof f_err f_script feof ferror ftell z_ret z_state
       z_used z_out].

Tactic Notation "rsimpl" "in" hyp(H) :=
  cbn [m_fp m_zs m_version m_mtime m_isEOF m_zfilesize m_ufilesize m_zblock
       m_zoffset m_ublock m_uoffset m_blen m_boffset m_bindex m_bindex_offset
       m_error globals set_fp set_zs set_version set_mtime set_isEOF
       set_zfilesize set_ufilesize set_zblock set_zoffset set_ublock
       set_uoffset set_blen set_boffset set_bindex set_bindex_offset set_error
       set_globals zs_state next_in avail_in avail_out obind defined negb
       f_data f_pos f_eof f_err f_script feof ferror ftell z_ret z_state
       z_used z_out] in H.

Lemma _read_block_spec r pz pu :
  reading F tail r pz pu → m_blen r = 0 → m_boffset r = 0 → m_isEOF r = false →
  ∃ r' pz' out,
    _read_block r = Returns (len out, r')
    ∧ reading F tail r' pz' (from (len out) pu)
    ∧ out = prefix (len out) pu
    ∧ m_blen r' = len out ∧ m_boffset r' = 0 ∧ buffered r' = out
    ∧ len pz' ≤ len pz
    ∧ (len pz' < len pz ∨ out ≠ [] ∨ m_isEOF r' = true)
    ∧ (m_isEOF r' = true → out = []).
Proof.
  intros (pos & eof & Hfp & Hpos & Hwin & Hlw & Hnx & Heof & Hinf & Hbo & Hbb
          & Hlb & He) Hblen Hboff HisEOF.
  unfold window in Hwin, Hlw.
  pose proof (len_nonneg tail) as Htail0.
  pose proof (len_nonneg pz) as Hpz0.
  unfold _read_block. cbn zeta. rsimpl.
  (* the refill *)
  match goal with |- context [ obind ?m ?k ] =>
    assert (∃ r1 pos1 eof1,
              m = Returns (true, r1)
              ∧ m_fp r1 = Some (mkFILE F pos1 eof1 false [])
              ∧ 0 ≤ pos1 ∧ (eof1 = true → from pos1 F = [])
              ∧ window r1 ++ from pos1 F = pz ++ tail
              ∧ len (window r1) = avail_in (m_zs r1)
              ∧ 0 ≤ next_in (m_zs r1) ∧ window r1 ≠ []
              ∧ zs_state (m_zs r1) = zs_state (m_zs r)
              ∧ m_ublock r1 = m_ublock r ∧ m_boffset r1 = 0
              ∧ m_isEOF r1 = false)
      as (r1 & pos1 & eof1 & -> & Hfp1 & Hpos1 & Heof1 & Hwin1 & Hlw1 & Hnx1
          & Hne1 & Hst1 & Hub1 & Hbo1 & Hie1)
  end.
  { destruct (Z.eqb_spec (avail_in (m_zs r)) 0) as [Hz|Hnz].
    - assert (prefix (avail_in (m_zs r)) (from (next_in (m_zs r)) (m_zblock r))
              = []) as Hw0.
      { destruct (prefix _ _); [done|]. unfold len in Hlw. cbn in Hlw. lia. }
      rewrite Hw0 in Hwin. cbn [app] in Hwin.
      unfold stream. rsimpl. rewrite Hfp. rsimpl.
      unfold fread. rsimpl.
      rewrite andb_false_r.
      set (got := prefix MZGF_BLOCK_SIZE (from pos F)).
      assert (len got = Z.min MZGF_BLOCK_SIZE (len (from pos F))) as Hgot.
      { unfold got. rewrite len_prefix. unfold MZGF_BLOCK_SIZE. lia. }
      assert (len (from pos F) = len pz + len tail) as HlenF
        by (by rewrite Hwin, len_app).
      destruct (Z.eqb_spec (len got) 0) as [?|Hgot0];
        [unfold MZGF_BLOCK_SIZE in *; lia|].
      pose proof (len_nonneg got) as Hgot1.
      eexists _, (pos + len got), (eof || (len got <? MZGF_BLOCK_SIZE)).
      split; [reflexivity|]. unfold window. rsimpl.
      rewrite from_0, prefix_store.
      split_and!; try assumption; try reflexivity; try lia.
      + intros [?|Hlt%Z.ltb_lt]%orb_true_iff.
        * rewrite Heof in Hwin by assumption.
          destruct pz, tail; try discriminate Hwin.
          unfold len in Htail. cbn in Htail. lia.
        * rewrite <- from_from by lia.
          unfold from at 1. apply drop_ge.
          unfold len in *. unfold MZGF_BLOCK_SIZE in *. lia.
      + rewrite <- Hwin. rewrite <- from_from by lia.
        apply prefix_len_split.
      + intros Hg. rewrite Hg in Hgot0. by apply Hgot0.
    - eexists _, pos, eof. split; [reflexivity|]. unfold window. rsimpl.
      split_and!; try assumption; try reflexivity.
      intros Hw0. rewrite Hw0 in Hlw. unfold len in Hlw. cbn in Hlw. lia. }
  cbn [obind negb].
  unfold zcall. cbn zeta. rsimpl. fold (window r1).
  rewrite <- Hst1 in Hinf.
  destruct (inflating_step _ pz pu (window r1) (from pos1 F) tail Hinf Hne1
              Hwin1)
    as (Hret & Hused & Hupz & Hout & Hpre & Hinf' & Hend & Hprog).
  cbn zeta in Hret, Hused, Hupz, Hout, Hpre, Hinf', Hend, Hprog.
  set (res := zinflate (zs_state (m_zs r1)) (window r1) Z_BLOCK
                MZGF_BLOCK_SIZE) in *.
  clearbody res.
  pose proof (len_nonneg (z_out res)) as Hout0.
  replace (0 `max` (z_used res `min` len (window r1))) with (z_used res)
    by lia.
  rewrite (prefix_all MZGF_BLOCK_SIZE (z_out res))
    by (unfold MZGF_BLOCK_SIZE in *; lia).
  replace (MZGF_BLOCK_SIZE - (MZGF_BLOCK_SIZE - len (z_out res)))
    with (len (z_out res)) by lia.
  assert (prefix (avail_in (m_zs r1) - z_used res)
            (from (next_in (m_zs r1) + z_used res) (m_zblock r1))
          = from (z_used res) (window r1)) as Hwin2.
  { unfold window. apply prefix_from_shift; lia. }
  assert (from (z_used res) (window r1) ++ from pos1 F
          = from (z_used res) pz ++ tail) as Hwin3.
  { rewrite <- !from_app_le by lia. by rewrite Hwin1. }
  assert (len (from (z_used res) (window r1))
          = avail_in (m_zs r1) - z_used res) as Hlw3.
  { rewrite len_from. lia. }
  assert (len (from (z_used res) pz) ≤ len pz) as Hpz3.
  { rewrite len_from. lia. }
  assert (prefix (len (z_out res) - 0)
            (from 0 (store (z_out res) (m_ublock r1))) = z_out res) as Hbuf.
  { rewrite Z.sub_0_r, from_0. apply prefix_store. }
  assert (eof1 && (avail_in (m_zs r1) - z_used res <=? 8) = false)
    as Hnoeof.
  { apply andb_false_iff. destruct eof1; [right|by left].
    apply Z.leb_gt. rewrite <- Hlw3.
    assert (len (from (z_used res) (window r1) ++ from pos1 F)
            = len (from (z_used res) pz ++ tail)) as Hl by (by rewrite Hwin3).
    rewrite !len_app, Heof1 in Hl by done.
    pose proof (len_nonneg (from (z_used res) pz)).
    change (len []) with 0 in Hl. lia. }
  destruct Hret as [Hok|Hse]; rewrite ?Hok, ?Hse; cbn [Z.eqb Z_OK Z_STREAM_END Pos.eqb].
  - unfold stream. rsimpl. rewrite Hfp1. rsimpl.
    rewrite Hie1, Hnoeof. cbn [orb].
    eexists _, (from (z_used res) pz), (z_out res).
    split; [reflexivity|]. unfold reading, window, buffered. rsimpl.
    rewrite Hbo1, Hwin2, Hbuf.
    split_and!; try assumption; try reflexivity; try lia.
    + exists pos1, eof1. rewrite Z.sub_0_r.
      split_and!; try assumption; try reflexivity; try lia; try discriminate.
    + destruct (Hprog Hok) as [?|?]; [left|right; by left].
      rewrite len_from. lia.
  - unfold stream. rsimpl. rewrite Hfp1. rsimpl. cbn [orb].
    specialize (Hend Hse). subst pu.
    assert (z_out res = []) as Hnil.
    { rewrite Hpre. unfold prefix. by rewrite take_nil. }
    eexists _, (from (z_used res) pz), (z_out res).
    split; [reflexivity|]. unfold reading, window, buffered. rsimpl.
    rewrite Hbo1, Hwin2, Hbuf.
    split_and!; try assumption; try reflexivity; try lia.
    + exists pos1, eof1. rewrite Z.sub_0_r.
      split_and!; try assumption; try reflexivity; try lia.
      intros _. rewrite Hnil. done.
    + by intros _.
Qed.

Lemma read_copy_spec size copied data r pz pu :
  reading F tail r pz pu → m_boffset r < m_blen r → copied < size →
  ∃ chunk r',
    read_copy size copied data (m_blen r - m_boffset r) r
    = (copied + len chunk, data ++ chunk, r')
    ∧ chunk ≠ [] ∧ copied + len chunk ≤ size
    ∧ chunk ++ buffered r' = buffered r
    ∧ reading F tail r' pz pu ∧ m_isEOF r' = m_isEOF r.
Proof.
  intros (pos & eof & Hfp & Hpos & Hwin & Hlw & Hnx & Heof & Hinf & Hbo & Hbb
          & Hlb & He) Hlt Hcs.
  unfold read_copy. cbn zeta.
  set (avail := m_blen r - m_boffset r) in *.
  set (have := if size - copied <? avail then size - copied else avail).
  assert (0 < have ≤ avail ∧ have ≤ size - copied) as Hhave.
  { unfold have. destruct (Z.ltb_spec (size - copied) avail); lia. }
  assert (prefix have (from (m_boffset r) (m_ublock r))
          = prefix have (buffered r)) as Hchunk.
  { unfold buffered. fold avail. rewrite prefix_prefix by lia. done. }
  assert (len (prefix have (buffered r)) = have) as Hlen.
  { rewrite len_prefix. lia. }
  rewrite Hchunk.
  assert (∀ rr, m_blen rr = m_blen r → m_boffset rr = m_boffset r + have →
            m_ublock rr = m_ublock r →
            buffered (if m_blen rr <=? m_boffset rr
                      then set_boffset 0 (set_blen 0 rr) else rr)
            = from have (buffered r)) as Hbuf.
  { intros rr Hb1 Hb2 Hb3. destruct (Z.leb_spec (m_blen rr) (m_boffset rr)).
    - unfold buffered at 1. rsimpl.
      unfold from at 2. rewrite drop_ge by (unfold len in *; lia). done.
    - unfold buffered. rewrite Hb1, Hb2, Hb3.
      replace (m_blen r - (m_boffset r + have)) with (avail - have)
        by (unfold avail; lia).
      apply prefix_from_shift; lia. }
  eexists (prefix have (buffered r)), _. rewrite Hlen.
  split; [reflexivity|].
  split_and!.
  - intros Hn. rewrite Hn in Hlen. change (len []) with 0 in Hlen. lia.
  - lia.
  - rewrite Hbuf by done. apply prefix_from_split.
  - unfold reading. rewrite Hbuf by done.
    exists pos, eof. rsimpl.
    destruct (Z.leb_spec (m_blen r) (m_boffset r + have)); unfold window;
      rsimpl; fold (window r).
    all: split_and!; try assumption; try lia.
    all: try (rewrite len_from; lia).
    all: intros Hie; destruct (He Hie) as [Hb ?]; rewrite Hb in Hlb;
      change (len []) with 0 in Hlb; lia.
  - rsimpl. by destruct (_ <=? _).
Qed.

(** The loop of [read]: what it copies is what comes next. *)
Lemma read_loop_spec fuel :
  ∀ size copied data r pz pu,
    reading F tail r pz pu →
    m_isEOF r = false ∨ m_boffset r < m_blen r →
    0 ≤ copied ≤ size → size - copied ≤ Z.of_nat fuel →
    ∃ chunk r' pz',
      read_loop fuel size copied data r
      = Returns (copied + len chunk, data ++ chunk, r')
      ∧ copied + len chunk ≤ size
      ∧ ∃ pu', reading F tail r' pz' pu'
         ∧ chunk ++ buffered r' ++ pu' = buffered r ++ pu
         ∧ len pz' ≤ len pz
         ∧ (copied < size →
            chunk ≠ [] ∨ len pz' < len pz ∨ m_isEOF r' = true).
Proof.
  induction fuel as [|fuel IH]; intros size copied data r pz pu Hr Hie Hc Hf.
  { exists [], r, pz. cbn [read_loop].
    destruct (Z.ltb_spec copied size); [lia|].
    change (len []) with 0. rewrite Z.add_0_r, app_nil_r.
    split; [done|]. split; [lia|]. exists pu. split_and!; try done. lia. }
  cbn [read_loop].
  destruct (Z.ltb_spec copied size) as [Hlt|Hge].
  2: { exists [], r, pz.
       change (len []) with 0. rewrite Z.add_0_r, app_nil_r.
       split; [done|]. split; [lia|]. exists pu. split_and!; try done. lia. }
  cbn zeta.
  pose proof Hr as (pos & eof & Hfp & Hpos & Hwin & Hlw & Hnx & Heof & Hinf
                    & Hbo & Hbb & Hlb & He).
  destruct (Z.leb_spec (m_blen r - m_boffset r) 0) as [Hempty|Hfull].
  - assert (m_boffset r = 0 ∧ m_blen r = 0) as [Hb0 Hl0] by lia.
    assert (m_isEOF r = false) as Hie' by (destruct Hie; [done|lia]).
    assert (buffered r = []) as Hbuf0.
    { destruct (buffered r); [done|]. unfold len in Hlb. cbn in Hlb. lia. }
    destruct (_read_block_spec r pz pu Hr Hl0 Hb0 Hie')
      as (r1 & pz1 & out & Hrb & Hr1 & Hout & Hbl1 & Hbo1 & Hbuf1 & Hpz1
          & Hprog & Hend).
    rewrite Hrb. cbn [obind].
    pose proof (len_nonneg out) as Hout0.
    destruct (Z.eqb_spec (len out) (-1)) as [?|_]; [lia|].
    destruct (Z.eqb_spec (m_blen r1) 0) as [Hz|Hnz];
      [rewrite Hbl1 in Hz|rewrite Hbl1 in Hnz].
    + exists [], r1, pz1. change (len []) with 0.
      rewrite Z.add_0_r, app_nil_r. split; [done|]. split; [lia|].
      exists (from (len out) pu). split_and!; try done.
      * rewrite Hbuf0, Hbuf1. cbn [app]. rewrite Hout at 1.
        apply prefix_from_split.
      * intros _. destruct Hprog as [?|[?|?]]; [by right; left| |by right; right].
        destruct out; [done|]. unfold len in Hz. cbn in Hz. lia.
    + destruct (Z.ltb_spec (m_blen r1) (m_boffset r1)) as [?|_]; [lia|].
      destruct (read_copy_spec size copied data r1 pz1 (from (len out) pu))
        as (chunk & r2 & Hcp & Hcn & Hcs & Hcb & Hr2 & Hie2);
        [done|lia|done|].
      rewrite Hcp.
      assert (0 < len chunk) as Hcl.
      { destruct chunk; [done|]. unfold len. cbn. lia. }
      destruct (IH size (copied + len chunk) (data ++ chunk) r2 pz1
                  (from (len out) pu))
        as (chunk' & r3 & pz3 & Hrl & Hcs3 & pu3 & Hr3 & Hrem3 & Hpz3 & Hp3);
        [done| |lia|lia|].
      { left. rewrite Hie2. destruct (m_isEOF r1) eqn:Hie1; [|done].
        specialize (Hend eq_refl). rewrite Hend in Hnz. exfalso.
        by apply Hnz. }
      rewrite Hrl. exists (chunk ++ chunk'), r3, pz3.
      rewrite len_app, <- !app_assoc, Z.add_assoc.
      split; [done|]. split; [lia|]. exists pu3. split_and!.
      * done.
      * rewrite <- app_assoc, Hrem3, Hbuf0. cbn [app].
        rewrite app_assoc, Hcb, Hbuf1.
        rewrite Hout at 1. apply prefix_from_split.
      * lia.
      * intros _. left. by destruct chunk.
  - destruct (read_copy_spec size copied data r pz pu)
      as (chunk & r2 & Hcp & Hcn & Hcs & Hcb & Hr2 & Hie2); [done|lia|done|].
    rewrite Hcp.
    assert (0 < len chunk) as Hcl.
    { destruct chunk; [done|]. unfold len. cbn. lia. }
    destruct (Z.ltb_spec (copied + len chunk) size) as [Hmore|Hdone].
    + (* the buffer is used up: the latch is not set *)
      assert (m_isEOF r = false) as Hie'.
      { destruct (m_isEOF r) eqn:Hx; [|done].
        destruct (He eq_refl) as [Hb ?]. rewrite Hb in Hlb.
        change (len []) with 0 in Hlb. lia. }
      destruct (IH size (copied + len chunk) (data ++ chunk) r2 pz pu)
        as (chunk' & r3 & pz3 & Hrl & Hcs3 & pu3 & Hr3 & Hrem3 & Hpz3 & Hp3);
        [done|left; congruence|lia|lia|].
      rewrite Hrl. exists (chunk ++ chunk'), r3, pz3.
      rewrite len_app, <- !app_assoc, Z.add_assoc.
      split; [done|]. split; [lia|]. exists pu3. split_and!.
      * done.
      * rewrite <- app_assoc, Hrem3, app_assoc, Hcb. done.
      * lia.
      * intros _. left. by destruct chunk.
    + destruct fuel as [|fuel']; cbn [read_loop];
        (destruct (Z.ltb_spec (copied + len chunk) size); [lia|]).
      all: exists chunk, r2, pz.
      all: split; [done|]; split; [lia|]; exists pu; split_and!;
        [done|by rewrite app_assoc, Hcb|lia|].
      all: intros _; left; by destruct chunk.
Qed.

Lemma read_spec size r pz pu :
  reading F tail r pz pu → m_isEOF r = false → 0 ≤ size →
  ∃ chunk r' pz' pu',
    read size r = Returns (len chunk, chunk, r')
    ∧ len chunk ≤ size
    ∧ reading F tail r' pz' pu'
    ∧ chunk ++ buffered r' ++ pu' = buffered r ++ pu
    ∧ len pz' ≤ len pz
    ∧ (0 < size → chunk ≠ [] ∨ len pz' < len pz ∨ m_isEOF r' = true).
Proof.
  intros Hr Hie Hsize. unfold read, eof. rewrite Hie.
  destruct (read_loop_spec (read_fuel size r) size 0 [] r pz pu)
    as (chunk & r' & pz' & Hrl & Hcs & pu' & Hr' & Hrem & Hpz & Hprog);
    [done|by left|lia|unfold read_fuel; lia|].
  rewrite Hrl. exists chunk, r', pz', pu'. rewrite Z.add_0_l in *.
  cbn [app]. done.
Qed.

(** The loop of the front end hands out all that is left of the data. *)
Lemma decompress_loop_spec fuel :
  ∀ opt_size ret written r pz pu,
    reading F tail r pz pu → len (buffered r ++ pu) < opt_size →
    len pz + len (buffered r ++ pu) + (if m_isEOF r then 0 else 1)
    ≤ Z.of_nat fuel →
    ∃ ret' r',
      mzgzip.decompress_loop fuel opt_size ret written r
      = Returns (ret', written ++ buffered r ++ pu, r')
      ∧ eof r' = true.
Proof.
  induction fuel as [|fuel IH]; intros opt_size ret written r pz pu Hr Hsz Hm.
  all: pose proof (len_nonneg pz); pose proof (len_nonneg (buffered r ++ pu)).
  all: pose proof Hr as (_ & _ & _ & _ & _ & _ & _ & _ & _ & _ & _ & _ & He).
  all: destruct (m_isEOF r) eqn:Hie.
  1, 3: destruct (He eq_refl) as [-> ->];
    exists ret, r; cbn [mzgzip.decompress_loop]; unfold eof; rewrite Hie;
    rewrite andb_false_r, !app_nil_r; done.
  { lia. }
  cbn [mzgzip.decompress_loop]. unfold eof at 1. rewrite Hie.
  destruct (Z.ltb_spec 0 opt_size); [|lia]. cbn [andb negb].
  set (have := if opt_size <? MZGF_BLOCK_SIZE then opt_size
               else MZGF_BLOCK_SIZE).
  assert (0 < have) as Hhave.
  { unfold have. destruct (_ <? _); [lia|done]. }
  destruct (read_spec have r pz pu Hr Hie)
    as (chunk & r1 & pz1 & pu1 & Hrd & Hcs & Hr1 & Hrem & Hpz1 & Hprog); [lia|].
  rewrite Hrd. cbn [obind].
  pose proof (len_nonneg chunk).
  destruct (Z.eqb_spec (len chunk) (-1)); [lia|].
  assert (len (buffered r ++ pu) = len chunk + len (buffered r1 ++ pu1))
    as Hlen by (by rewrite <- Hrem, len_app).
  destruct (IH (opt_size - len chunk) (len chunk) (written ++ chunk) r1 pz1
              pu1) as (ret' & r' & Hdl & Heof'); [done|lia| |].
  { destruct (Hprog Hhave) as [Hc|[?|Hx]].
    - assert (0 < len chunk)
        by (destruct chunk; [done|unfold len; cbn; lia]).
      destruct (m_isEOF r1); lia.
    - destruct (m_isEOF r1); lia.
    - rewrite Hx. lia. }
  rewrite Hdl. exists ret', r'. split; [|done].
  by rewrite <- Hrem, <- !app_assoc.
Qed.

End reader_stream.
(** ** Writing a file and opening it again *)

Section write_then_open.
Context `{Zl : zlib}.

Lemma statics_intact_sized g : statics_intact g → statics_sized g.
Proof. intros (Hmz & _ & ? & _ & ?). split_and!; try done. by rewrite Hmz. Qed.

(** The size of a file. *)
Lemma len_mzgf_file mtime g crc0 payload crc usize ix :
  statics_intact g →
  let F := mzgf_file mtime g crc0 payload crc usize ix in
  17 + len payload + 8 + 42 ≤ len F
  ∧ len F ≤ 17 + len payload + 8 + 50 * len_bindex ix + 42.
Proof.
  intros (Hmz & Heo & Heol & Hbi & Hbil) F. subst F. unfold mzgf_file.
  cbn zeta. rewrite !len_app, len_gz_header, len_gz_trailer, len_gz_member.
  rewrite Hmz, Heo, Hbi.
  change (len [chr_M; chr_Z; 1; 0; MZGF_VERSION]) with 5.
  change (len (bo_extra [chr_B; chr_O; 16; 0] usize (17 + len payload + 8)))
    with 20.
  pose proof (len_index_members mtime crc0 [chr_B; chr_I] ix eq_refl []
                (17 + len payload + 8)) as Hm.
  change (len_bindex []) with 0 in Hm.
  pose proof (len_nonneg (index_members mtime crc0 [chr_B; chr_I]
                            (17 + len payload + 8) [] ix)).
  lia.
Qed.

Lemma deflate_then_open fuel input w w' src' dst' fuelr fs path r :
  statics_intact (MZGFileWriter.globals w) → MZGFileWriter.m_bindex w = [] →
  MZGFileWriter.deflate fuel (fopen_rb input) (fopen_wb []) w
  = Some (0, w', src', dst') →
  inflateInit2.1 = Z_OK →
  len input < 2 ^ 63 → len (f_data dst') < 2 ^ 63 →
  fs path = Some (f_data dst') →
  (length (MZGFileWriter.m_bindex w') ≤ fuelr)%nat →
  ∃ rounds r',
    deflate_rounds fuel deflateInit2.2 input = Some rounds
    ∧ f_data dst'
      = mzgf_file (MZGFileWriter.m_mtime w) (MZGFileWriter.globals w)
          crc32_init (payload_of rounds) (crc_of rounds) (len input)
          (index_of 17 0 rounds)
    ∧ MZGFileWriter.m_bindex w' = index_of 17 0 rounds
    ∧ MZGFileReader.open fuelr fs path r = Returns (0, r')
    ∧ MZGFileReader.m_fp r' = Some (rd (f_data dst') 17)
    ∧ MZGFileReader.m_bindex r'
      = MZGFileReader.m_bindex r ++ MZGFileWriter.m_bindex w'
    ∧ MZGFileReader.m_ufilesize r' = len input
    ∧ MZGFileReader.m_zfilesize r' = len (f_data dst')
    ∧ MZGFileReader.m_zs r' = mkZstream inflateInit2.2 0 0 MZGF_BLOCK_SIZE
    ∧ MZGFileReader.m_isEOF r' = false
    ∧ MZGFileReader.m_blen r' = MZGFileReader.m_blen r
    ∧ MZGFileReader.m_boffset r' = MZGFileReader.m_boffset r.
Proof.
  intros Hg Hnil Hrun Hinit Hin HlenF Hfs Hfuel.
  pose proof (deflate_layout fuel (fopen_rb input) (fopen_wb []) w eq_refl
                (Z.le_refl 0) (statics_intact_sized _ Hg)) as [Hl _].
  cbn zeta in Hl. rewrite Hrun in Hl.
  destruct (Hl eq_refl) as (rounds & Hr & Hdst & Ha & Hm & Hb & Hbo & Hu).
  change (from (f_pos (fopen_rb input)) (f_data (fopen_rb input)))
    with input in *.
  rewrite Hnil in Ha, Hb. cbn [app] in Ha, Hb.
  destruct Ha as (Hd & _). cbn [fopen_wb f_data app] in Hd.
  destruct (deflate_rounds_cons _ _ _ _ Hr) as (out & rs & Hcons).
  destruct (deflate_rounds_blocks _ _ _ _ Hr) as (Hn & Hcat & Hux).
  pose proof (len_mzgf_file (MZGFileWriter.m_mtime w) (MZGFileWriter.globals w)
                crc32_init (payload_of rounds) (crc_of rounds) (len input)
                (index_of 17 0 rounds) Hg) as [HF1 _].
  cbn zeta in HF1. rewrite <- Hd in HF1.
  pose proof (len_nonneg input) as Hin0.
  destruct (open_spec fuelr fs path r (MZGFileWriter.m_mtime w)
              (MZGFileWriter.globals w) crc32_init (payload_of rounds)
              (crc_of rounds) (len input) (index_of 17 0 rounds))
    as (r' & Hopen & Hfp & Hix & Hus & Hzf & Hzs & Hie & Hbl & Hbf).
  - by rewrite <- Hd.
  - done.
  - done.
  - rewrite Hcons. by destruct out.
  - eapply Forall_impl; [apply index_of_range|]. cbn beta.
    rewrite Hcat. intros e. unfold in_range. lia.
  - by rewrite <- Hb.
  - lia.
  - by rewrite <- Hd.
  - exists rounds, r'. rewrite <- Hd in *. rewrite Hb.
    split_and!; done.
Qed.

(** C3 (as amended).  The writer records one index entry for every pass
    of its loop, that is for every [fread] of up to 65280 bytes, the last
    and possibly empty one included: an input of [n] bytes gives
    [n / 65280 + 1] entries, entry [i] for the block at uncompressed offset
    [65280 * i].  A reader that opens the file holds the same index, and
    [ufilesize()] is [n]. *)
Theorem bindex_entry_per_pass fuel input w w' src' dst' fuelr fs path r :
  statics_intact (MZGFileWriter.globals w) → MZGFileWriter.m_bindex w = [] →
  MZGFileWriter.deflate fuel (fopen_rb input) (fopen_wb []) w
  = Some (0, w', src', dst') →
  inflateInit2.1 = Z_OK →
  len input < 2 ^ 63 → len (f_data dst') < 2 ^ 63 →
  fs path = Some (f_data dst') →
  (length (MZGFileWriter.m_bindex w') ≤ fuelr)%nat →
  MZGFileReader.m_bindex r = [] →
  len_bindex (MZGFileWriter.m_bindex w') = len input / MZGF_BLOCK_SIZE + 1
  ∧ ∃ r',
      MZGFileReader.open fuelr fs path r = Returns (0, r')
      ∧ MZGFileReader.bindex r' = MZGFileWriter.m_bindex w'
      ∧ len_bindex (MZGFileReader.bindex r')
        = len input / MZGF_BLOCK_SIZE + 1
      ∧ (∀ (i : nat) e,
           MZGFileReader.bindex r' !! i = Some e →
           uoffset e = MZGF_BLOCK_SIZE * Z.of_nat i)
      ∧ MZGFileReader.ufilesize r' = len input.
Proof.
  intros Hg Hnil Hrun Hinit Hin HlenF Hfs Hfuel Hrnil.
  destruct (deflate_then_open fuel input w w' src' dst' fuelr fs path r)
    as (rounds & r' & Hr & Hd & Hb & Hopen & Hfp & Hix & Hus & _); try done.
  destruct (deflate_rounds_blocks _ _ _ _ Hr) as (Hn & Hcat & Hux).
  assert (len_bindex (MZGFileWriter.m_bindex w')
          = len input / MZGF_BLOCK_SIZE + 1) as Hlen.
  { rewrite Hb. unfold len_bindex. by rewrite length_index_of. }
  split; [done|]. exists r'. unfold MZGFileReader.bindex, MZGFileReader.ufilesize.
  rewrite Hix, Hrnil. cbn [app].
  split_and!; try done.
  intros i e He. rewrite Hb in He. rewrite (Hux _ _ _ _ He). lia.
Qed.

End write_then_open.

Lemma statics_init_intact : statics_intact statics_init.
Proof.
  unfold statics_intact, statics_init, len.
  cbn [extra_mzgf extra_eof extra_bindex].
  split_and!; [done|done|done|done|].
  rewrite length_app, length_replicate, Nat2Z.inj_add, Z2Nat.id; done.
Qed.

(** The input 7, 8, 9: one entry, at offset 0. *)
Lemma bindex_entry_per_pass_witness :
  let w := MZGFileWriter.MZGFileWriter 1000 statics_init toy.writer_junk in
  let r := MZGFileReader.MZGFileReader statics_init toy.reader_junk in
  match @MZGFileWriter.deflate toy.engine 8 (fopen_rb [7; 8; 9]) (fopen_wb []) w
  with
  | Some (_, w', _, dst') =>
      len_bindex (MZGFileWriter.m_bindex w') = len [7; 8; 9] / MZGF_BLOCK_SIZE + 1
      ∧ ∃ r',
          MZGFileReader.open 4 (toy.single "in.mgz" (f_data dst')) "in.mgz" r
          = Returns (0, r')
          ∧ MZGFileReader.bindex r' = MZGFileWriter.m_bindex w'
          ∧ len_bindex (MZGFileReader.bindex r')
            = len [7; 8; 9] / MZGF_BLOCK_SIZE + 1
          ∧ (∀ (i : nat) e,
               MZGFileReader.bindex r' !! i = Some e →
               uoffset e = MZGF_BLOCK_SIZE * Z.of_nat i)
          ∧ MZGFileReader.ufilesize r' = len [7; 8; 9]
  | None => False
  end.
Proof.
  intros w r.
  pose proof (eq_refl :
    option_map (λ res, (res.1.1.1, len (f_data res.2) <? 2 ^ 63,
                        len_bindex (MZGFileWriter.m_bindex res.1.1.2) <=? 4))
      (@MZGFileWriter.deflate toy.engine 8 (fopen_rb [7; 8; 9]) (fopen_wb []) w)
    = Some (0, true, true)) as Hret.
  revert Hret.
  destruct (MZGFileWriter.deflate _ _ _ _) as [[[[ret w'] src'] dst']|] eqn:Hrun;
    intros Hret; [|discriminate Hret].
  cbn [option_map fst snd] in Hret.
  injection Hret as -> Hsize%Z.ltb_lt Hfuel%Z.leb_le.
  apply (bindex_entry_per_pass 8 [7; 8; 9] w w' src' dst' 4
           (toy.single "in.mgz" (f_data dst')) "in.mgz" r).
  - exact statics_init_intact.
  - reflexivity.
  - exact Hrun.
  - reflexivity.
  - reflexivity.
  - exact Hsize.
  - reflexivity.
  - unfold len_bindex in Hfuel. lia.
  - reflexivity.
Defined.

(** C3, as stated, fails.  An input of exactly 65280 bytes fills the
    first [fread]; the end-of-file indicator is not set yet, so the loop
    makes a second pass that reads nothing and pushes a second entry, at
    uncompressed offset 65280.  The reader then holds two entries. *)
Lemma full_block_bindex_counterexample :
  let input := replicate (Z.to_nat MZGF_BLOCK_SIZE) 0 in
  let w := MZGFileWriter.MZGFileWriter 1000 statics_init toy.writer_junk in
  let r := MZGFileReader.MZGFileReader statics_init toy.reader_junk in
  len input = 65280
  ∧ ∃ w' src' dst' r',
      @MZGFileWriter.deflate toy.engine 4 (fopen_rb input) (fopen_wb []) w
      = Some (0, w', src', dst')
      ∧ len_bindex (MZGFileWriter.m_bindex w') = 2
      ∧ MZGFileReader.open 2 (toy.single "in.mgz" (f_data dst')) "in.mgz" r
        = Returns (0, r')
      ∧ len_bindex (MZGFileReader.bindex r') = 2
      ∧ len_bindex (MZGFileReader.bindex r') ≠ 1
      ∧ MZGFileReader.ufilesize r' = 65280.
Proof.
  intros input w r.
  assert (len input = 65280) as Hlen.
  { unfold input, len. rewrite length_replicate, Z2Nat.id; done. }
  split; [exact Hlen|].
  clearbody input.
  destruct (toy_deflate_rounds 4 input) as (rounds & Hr & Hp).
  { rewrite Hlen. done. }
  pose proof (@deflate_layout toy.engine 4 (fopen_rb input) (fopen_wb []) w
                eq_refl (Z.le_refl 0) statics_init_sized) as [Hl Hex].
  cbn zeta in Hl, Hex.
  change (from (f_pos (fopen_rb input)) (f_data (fopen_rb input)))
    with input in *.
  destruct (Hex eq_refl (conj eq_refl eq_refl) eq_refl rounds Hr)
    as (w' & src' & dst' & Hrun).
  rewrite Hrun in Hl.
  destruct (Hl eq_refl) as (rounds' & Hr' & Hdst & Ha & Hm & Hb & Hbo & Hu).
  assert (rounds' = rounds) as ->
    by exact (deflate_rounds_det _ _ _ _ _ _ Hr' Hr).
  destruct (deflate_rounds_blocks _ _ _ _ Hr) as (Hn & Hcat & Hux).
  rewrite Hlen in Hn. change (65280 / MZGF_BLOCK_SIZE + 1) with 2 in Hn.
  change (MZGFileWriter.m_bindex w) with (@nil bindex_t) in Ha, Hb.
  cbn [app] in Ha, Hb.
  assert (len_bindex (MZGFileWriter.m_bindex w') = 2) as Hlen2.
  { rewrite Hb. unfold len_bindex. by rewrite length_index_of. }
  destruct Ha as (Hd & _). cbn [fopen_wb f_data app] in Hd.
  assert (len (f_data dst') < 2 ^ 63) as Hsize.
  { rewrite Hd.
    pose proof (len_mzgf_file (MZGFileWriter.m_mtime w)
                  (MZGFileWriter.globals w) (@crc32_init toy.engine)
                  (payload_of rounds) (@crc_of toy.engine rounds) (len input)
                  (index_of 17 0 rounds) statics_init_intact) as [_ HF].
    cbn zeta in HF. eapply Z.le_lt_trans; [exact HF|].
    rewrite <- Hb, Hlen2, Hp, len_app, len_encode, Hlen.
    change (len [0]) with 1. lia. }
  destruct (@deflate_then_open toy.engine 4 input w w' src' dst' 2
              (toy.single "in.mgz" (f_data dst')) "in.mgz" r)
    as (rounds' & r' & _ & _ & _ & Hopen & _ & Hix & Hus & _).
  - exact statics_init_intact.
  - reflexivity.
  - exact Hrun.
  - reflexivity.
  - rewrite Hlen. done.
  - exact Hsize.
  - reflexivity.
  - unfold len_bindex in Hlen2. lia.
  - exists w', src', dst', r'.
    unfold MZGFileReader.bindex, MZGFileReader.ufilesize.
    rewrite Hix, Hus, Hlen.
    change (MZGFileReader.m_bindex r) with (@nil bindex_t). cbn [app].
    rewrite Hlen2. split_and!; try done.
Qed.
(** ** The round trip *)

Section round_trip.
Context `{Zl : zlib} {codec : zlib_codec}.

(** C1.  Take an engine that meets [zlib_codec], file-scope arrays as
    they are initialised, and any input [B] shorter than [SSIZE_MAX].
    On a device without faults [deflate] returns 0 (given enough engine
    calls); and whenever it has returned 0, leaving a file that fits the
    range of [off_t], a fresh reader opens that file with return code 0 and
    the loop of the front end, reading until [eof()], delivers exactly
    [B]. *)
Theorem round_trip (B : list Z) now g junkw gr junkr :
  statics_intact g → len B < mzgzip.SSIZE_MAX →
  let w := MZGFileWriter.MZGFileWriter now g junkw in
  (∃ fuel w' src' dst',
     MZGFileWriter.deflate fuel (fopen_rb B) (fopen_wb []) w
     = Some (0, w', src', dst'))
  ∧ ∀ fuel w' src' dst' fs path,
      MZGFileWriter.deflate fuel (fopen_rb B) (fopen_wb []) w
      = Some (0, w', src', dst') →
      len (f_data dst') < 2 ^ 63 → fs path = Some (f_data dst') →
      ∃ fuelr r ret r',
        MZGFileReader.open fuelr fs path (MZGFileReader.MZGFileReader gr junkr)
        = Returns (0, r)
        ∧ mzgzip.decompress fuelr (-1) (-1) mzgzip.SSIZE_MAX r
          = Returns (ret, B, r')
        ∧ MZGFileReader.eof r' = true.
Proof.
  intros Hg HB w.
  destruct (deflate_inflating B) as (fuel0 & rounds0 & Hr0 & Hinf).
  pose proof (len_nonneg B) as HB0.
  unfold mzgzip.SSIZE_MAX in HB.
  split.
  - pose proof (deflate_layout fuel0 (fopen_rb B) (fopen_wb []) w eq_refl
                  (Z.le_refl 0) (statics_intact_sized _ Hg)) as [_ Hex].
    cbn zeta in Hex.
    destruct (Hex deflateInit2_ok (conj eq_refl eq_refl) eq_refl rounds0 Hr0)
      as (w' & src' & dst' & Hrun).
    by exists fuel0, w', src', dst'.
  - intros fuel w' src' dst' fs path Hrun HlenF Hfs.
    set (r0 := MZGFileReader.MZGFileReader gr junkr).
    set (fuelr := (length (MZGFileWriter.m_bindex w')
                   + Z.to_nat (len (payload_of rounds0) + len B + 1))%nat).
    destruct (deflate_then_open fuel B w w' src' dst' fuelr fs path r0)
      as (rounds & r & Hr & Hd & Hb & Hopen & Hfp & Hix & Hus & Hzf & Hzs
          & Hie & Hbl & Hbf);
      [done|done|done|exact inflateInit2_ok|lia|done|done|lia|].
    assert (rounds = rounds0) as -> by exact (deflate_rounds_det _ _ _ _ _ _ Hr Hr0).
    exists fuelr, r. 
    set (F := f_data dst') in *.
    set (M := index_members (MZGFileWriter.m_mtime w) crc32_init
                (prefix 2 (extra_bindex g))
                (17 + len (payload_of rounds0) + 8) []
                (index_of 17 0 rounds0)).
    set (E := gz_member (MZGFileWriter.m_mtime w)
                (bo_extra (prefix 4 (extra_eof g)) (len B)
                   (17 + len (payload_of rounds0) + 8)) crc32_init).
    set (tail := gz_trailer (crc_of rounds0) (len B) ++ M ++ E).
    assert (F = (gz_header (MZGFileWriter.m_mtime w) sizeof_extra_mzgf
                 ++ extra_mzgf g) ++ payload_of rounds0 ++ tail) as HF.
    { rewrite Hd. unfold mzgf_file. cbn zeta. by rewrite <- !app_assoc. }
    assert (8 < len tail) as Htail.
    { unfold tail. rewrite !len_app, len_gz_trailer.
      unfold E. rewrite len_gz_member.
      pose proof (len_nonneg M).
      pose proof (len_nonneg (bo_extra (prefix 4 (extra_eof g)) (len B)
                                (17 + len (payload_of rounds0) + 8))).
      lia. }
    assert (reading F tail r (payload_of rounds0) B) as Hreading.
    { exists 17, false. unfold window, buffered.
      rewrite Hzs, Hbl, Hbf. cbn [avail_in next_in zs_state].
      change (MZGFileReader.m_blen r0) with 0.
      change (MZGFileReader.m_boffset r0) with 0.
      split_and!; try done.
      - rewrite HF. destruct Hg as (Hmz & _). rewrite Hmz.
        apply (from_app_len
                 (gz_header (MZGFileWriter.m_mtime w) sizeof_extra_mzgf
                  ++ [chr_M; chr_Z; 1; 0; MZGF_VERSION])).
      - by right.
      - by rewrite Hie. }
    assert (buffered r = []) as Hbuf.
    { unfold buffered. rewrite Hbl, Hbf. done. }
    destruct (decompress_loop_spec F tail Htail fuelr mzgzip.SSIZE_MAX 0 [] r
                (payload_of rounds0) B Hreading)
      as (ret & r' & Hdl & Heof).
    + rewrite Hbuf. cbn [app]. unfold mzgzip.SSIZE_MAX. lia.
    + rewrite Hbuf, Hie. cbn [app]. unfold fuelr.
      pose proof (len_nonneg (payload_of rounds0)). lia.
    + exists ret, r'. split; [done|]. split; [|done].
      unfold mzgzip.decompress. cbn [Z.eqb Pos.eqb negb obind].
      rewrite Hdl, Hbuf. done.
Qed.

End round_trip.

(** The input 7, 8, 9 and the small engine. *)
Lemma round_trip_witness :
  let w := MZGFileWriter.MZGFileWriter 1000 statics_init toy.writer_junk in
  (∃ fuel w' src' dst',
     @MZGFileWriter.deflate toy.engine fuel (fopen_rb [7; 8; 9]) (fopen_wb []) w
     = Some (0, w', src', dst'))
  ∧ ∀ fuel w' src' dst' fs path,
      @MZGFileWriter.deflate toy.engine fuel (fopen_rb [7; 8; 9]) (fopen_wb []) w
      = Some (0, w', src', dst') →
      len (f_data dst') < 2 ^ 63 → fs path = Some (f_data dst') →
      ∃ fuelr r ret r',
        MZGFileReader.open fuelr fs path
          (MZGFileReader.MZGFileReader statics_init toy.reader_junk)
        = Returns (0, r)
        ∧ mzgzip.decompress fuelr (-1) (-1) mzgzip.SSIZE_MAX r
          = Returns (ret, [7; 8; 9], r')
        ∧ MZGFileReader.eof r' = true.
Proof.
  apply (@round_trip toy.engine toy_codec [7; 8; 9] 1000 statics_init
           toy.writer_junk statics_init toy.reader_junk).
  - exact statics_init_intact.
  - reflexivity.
Defined.
(** ** The writer returns *)

Section writer_returns.
Context `{Zl : zlib}.
Import MZGFileWriter.

Implicit Types (w : MZGFileWriter.t) (src dst : FILE).

(** More engine calls allowed change nothing in a result. *)
Lemma _flush_loop_mono fuel :
  ∀ fuel' flush w x,
    _flush_loop fuel flush w = Some x → (fuel ≤ fuel')%nat →
    _flush_loop fuel' flush w = Some x.
Proof.
  induction fuel as [|fuel IH]; intros fuel' flush w x; [done|].
  destruct fuel' as [|fuel']; [lia|].
  cbn [_flush_loop]. cbn zeta.
  destruct (zcall _ _ _ _) as [[ret zs] out].
  destruct ((ret =? Z_OK) || (ret =? Z_STREAM_END)); [|done].
  destruct (fwrite _ _) as [n fp].
  destruct (negb _ || _); [done|].
  destruct (avail_out zs =? 0); [|done].
  intros Hx Hle. apply IH; [done|lia].
Qed.

Lemma deflate_loop_mono fuel :
  ∀ fuel' src w x,
    deflate_loop fuel src w = Some x → (fuel ≤ fuel')%nat →
    deflate_loop fuel' src w = Some x.
Proof.
  induction fuel as [|fuel IH]; intros fuel' src w x; [done|].
  destruct fuel' as [|fuel']; [lia|].
  cbn [deflate_loop]. cbn zeta.
  destruct (fread _ _) as [got src1].
  destruct (ferror src1); [done|].
  unfold _flush. cbn zeta.
  match goal with |- context [ _flush_loop (S fuel) ?f ?wb ] =>
    destruct (_flush_loop (S fuel) f wb) as [[ret w1]|] eqn:Hfl; [|done];
    intros Hx Hle;
    rewrite (_flush_loop_mono (S fuel) (S fuel') f wb _ Hfl) by lia
  end.
  destruct (negb (ret =? 0)); [done|].
  destruct (negb (feof src1)); [|done].
  apply IH; [done|lia].
Qed.

Lemma deflate_loop_mono_flush fuel fuel' w x :
  _flush fuel w = Some x → (fuel ≤ fuel')%nat → _flush fuel' w = Some x.
Proof. unfold _flush. cbn zeta. apply _flush_loop_mono. Qed.

(** A flush ends whatever the device does: a failed write only ends it
    earlier. *)
Lemma _flush_loop_returns fuel :
  ∀ flush w,
    is_Some (flush_round fuel flush (m_ublock w) (m_zs w)) →
    is_Some (_flush_loop fuel flush w).
Proof.
  induction fuel as [|fuel IH]; intros flush w; [by intros [? ?]|].
  cbn [_flush_loop flush_round]. cbn zeta.
  destruct (zcall _ _ _ _) as [[ret zs] out].
  destruct ((ret =? Z_OK) || (ret =? Z_STREAM_END)); [|done].
  destruct (fwrite _ _) as [n fp].
  destruct (negb _ || _); [done|].
  destruct (avail_out zs =? 0); [|done].
  intros Hr. apply IH. cbn [m_ublock m_zs set_zoffset set_fp set_zs set_zblock].
  destruct (flush_round fuel flush (m_ublock w) zs) as [[? ?]|]; [done|].
  by destruct Hr.
Qed.

Lemma deflate_loop_returns (n : nat) :
  flushes_complete →
  ∀ src w,
    0 ≤ f_pos src →
    len (from (f_pos src) (f_data src))
    < (Z.of_nat n + 1) * MZGF_BLOCK_SIZE →
    ∃ fuel, is_Some (deflate_loop fuel src w).
Proof.
  intros Hfc. induction n as [|n IH]; intros src w Hpos Hrem.
  all: set (got := prefix MZGF_BLOCK_SIZE (from (f_pos src) (f_data src))).
  all: set (wa := set_uoffset (m_uoffset w + len got)
                    (set_bindex (m_bindex w
                                 ++ [mkBindex (m_zoffset w) (m_uoffset w)])
                       (set_zs (mkZstream (zs_state (m_zs w)) 0 (len got)
                                  (avail_out (m_zs w)))
                          (set_ublock (store got (m_ublock w)) w)))).
  all: set (flush := if len got <? MZGF_BLOCK_SIZE then Z_FINISH
                     else Z_FULL_FLUSH).
  all: destruct (Hfc flush got (zs_state (m_zs w))) as [fuelf Hfr].
  all: rewrite <- (flush_round_block fuelf flush got (m_ublock w)
                     (zs_state (m_zs w)) (avail_out (m_zs w))) in Hfr.
  all: assert (is_Some (_flush fuelf wa)) as [[ret w1] Hfl]
         by (unfold _flush; cbn zeta; apply _flush_loop_returns; exact Hfr).
  all: pose proof (len_prefix MZGF_BLOCK_SIZE
                     (from (f_pos src) (f_data src))) as Hgot;
       fold got in Hgot.
  all: pose proof (len_nonneg got) as Hgot0.
  - exists (S fuelf). cbn [deflate_loop]. cbn zeta. unfold fread. cbn zeta.
    fold got. cbn [ferror f_err]. destruct (f_err src); [done|].
    cbn [m_zs set_zs set_ublock m_zoffset m_uoffset m_bindex avail_in].
    match goal with |- context [ _flush _ ?x ] => change x with wa end.
    rewrite (deflate_loop_mono_flush fuelf (S fuelf) wa _ Hfl) by lia.
    destruct (negb (ret =? 0)); [done|].
    cbn [feof f_eof].
    destruct (Z.ltb_spec (len got) MZGF_BLOCK_SIZE);
      [|unfold MZGF_BLOCK_SIZE in *; lia].
    rewrite orb_true_r. done.
  - set (src1 := mkFILE (f_data src) (f_pos src + len got)
                   (f_eof src || (len got <? MZGF_BLOCK_SIZE)) (f_err src)
                   (f_script src)).
    assert (feof src1 = false →
            ∃ fuelr, is_Some (deflate_loop fuelr src1 w1)) as Hrec.
    { intros He. apply orb_false_iff in He as [_ He]. apply Z.ltb_ge in He.
      apply IH; [cbn; lia|]. cbn [src1 f_pos f_data].
      rewrite <- from_from by lia. rewrite len_from.
      unfold MZGF_BLOCK_SIZE in *. lia. }
    destruct (feof src1) eqn:Heof1.
    + exists (S fuelf). cbn [deflate_loop]. cbn zeta. unfold fread. cbn zeta.
      fold got. fold src1. cbn [ferror]. 
      change (f_err src1) with (f_err src). destruct (f_err src); [done|].
      cbn [m_zs set_zs set_ublock m_zoffset m_uoffset m_bindex avail_in].
      match goal with |- context [ _flush _ ?x ] => change x with wa end.
      rewrite (deflate_loop_mono_flush fuelf (S fuelf) wa _ Hfl) by lia.
      destruct (negb (ret =? 0)); [done|]. rewrite Heof1. done.
    + destruct (Hrec eq_refl) as [fuelr [x Hx]].
      exists (S (fuelf `max` fuelr)). cbn [deflate_loop]. cbn zeta.
      unfold fread. cbn zeta. fold got. fold src1. cbn [ferror].
      change (f_err src1) with (f_err src). destruct (f_err src); [done|].
      cbn [m_zs set_zs set_ublock m_zoffset m_uoffset m_bindex avail_in].
      match goal with |- context [ _flush _ ?x ] => change x with wa end.
      rewrite (deflate_loop_mono_flush fuelf (S (fuelf `max` fuelr)) wa _ Hfl)
        by lia.
      destruct (negb (ret =? 0)); [done|]. rewrite Heof1. cbn [negb].
      rewrite (deflate_loop_mono fuelr (fuelf `max` fuelr) src1 w1 x Hx)
        by lia.
      done.
Qed.

Lemma deflate_returns src dst w :
  flushes_complete → 0 ≤ f_pos src →
  ∃ fuel0, ∀ fuel, (fuel0 ≤ fuel)%nat → is_Some (deflate fuel src dst w).
Proof.
  intros Hfc Hpos. unfold deflate.
  destruct deflateInit2 as [iret st]. cbn zeta.
  destruct (negb (iret =? 0)); [by exists 0%nat|].
  match goal with |- context [ _write_header ?a ?b ?c ] =>
    pose proof (_write_header_unchecked a b c) as Hh;
    destruct (_write_header a b c) as [ret0 w1] end.
  cbn in Hh. subst ret0. cbn [negb Z.eqb].
  destruct (deflate_loop_returns
              (Z.to_nat (len (from (f_pos src) (f_data src)))) Hfc src w1 Hpos)
    as [fuel0 [x Hx]].
  { pose proof (len_nonneg (from (f_pos src) (f_data src))).
    unfold MZGF_BLOCK_SIZE. lia. }
  exists fuel0. intros fuel Hle.
  rewrite (deflate_loop_mono fuel0 fuel src w1 x Hx Hle).
  destruct x as [[ret w2] src2].
  destruct (negb (ret =? 0)); [done|].
  destruct (_write_trailer w2) as [ret3 w3].
  destruct (negb (ret3 =? 0)); [done|].
  destruct (_write_bindex w3) as [ret4 w4].
  destruct (negb (ret4 =? 0)); [done|].
  destruct (_write_eof w4) as [ret5 w5].
  by destruct (negb (ret5 =? 0)).
Qed.

(** C7.  [deflate] returns whatever the destination does, as long as the
    engine ends every flush; and whenever it returns with the error
    indicator of the destination set, which is the case as soon as one
    [fwrite] on it was short ([fwrite_short_sets_error],
    [fwrite_error_sticky]), the write of a member header included, the
    status returned is not 0 and [m_error] holds a message; the status is
    [MZGF_FERROR] unless [deflateInit2] itself failed. *)
Theorem deflate_reports_write_failure src dst w :
  (flushes_complete → 0 ≤ f_pos src →
   ∃ fuel0, ∀ fuel, (fuel0 ≤ fuel)%nat → is_Some (deflate fuel src dst w))
  ∧ ∀ fuel res,
      deflate fuel src dst w = Some res →
      ferror res.2 = true →
      res.1.1.1 ≠ 0
      ∧ m_error res.1.1.2 ≠ no_error
      ∧ (deflateInit2.1 = 0 → res.1.1.1 = MZGF_FERROR).
Proof.
  split.
  - apply deflate_returns.
  - intros fuel res. apply deflate_write_failure_reported.
Qed.

(** C9.  Whatever the input, a [deflate] that returns 0 has pushed an
    index entry, the one of the block at offset 17; the file it wrote holds
    a ["BI"] member at the offset [m_bindex_offset], which is at least 25,
    and the EOF member's ["BO"] subfield holds that offset, read back by
    [unpackInt64] as a value other than 0 as long as the file stays in the
    range of [off_t].  Such a run exists when the device is without faults
    and the engine takes the input to its end. *)
Theorem deflate_index_never_empty src dst w :
  feof src = false → 0 ≤ f_pos src →
  statics_sized (globals w) → m_bindex w = [] →
  (deflateInit2.1 = Z_OK → fault_free dst → ferror src = false →
   (∃ fuel rounds,
      deflate_rounds fuel deflateInit2.2 (from (f_pos src) (f_data src))
      = Some rounds) →
   ∃ fuel w' src' dst', deflate fuel src dst w = Some (0, w', src', dst'))
  ∧ ∀ fuel w' src' dst',
      deflate fuel src dst w = Some (0, w', src', dst') →
      ∃ ix head next entries more bo,
        m_bindex w' = mkBindex 17 0 :: ix
        ∧ f_data dst'
          = f_data dst ++ head
            ++ gz_member (m_mtime w)
                 (bi_extra (prefix 2 (extra_bindex (globals w))) next entries)
                 crc32_init
            ++ more ++ gz_member (m_mtime w) bo crc32_init
        ∧ entries ≠ []
        ∧ len head = m_bindex_offset w'
        ∧ 25 ≤ m_bindex_offset w'
        ∧ unpackInt64 bo 12 = Some (uint64_t (m_bindex_offset w'))
        ∧ (len (f_data dst') < 2 ^ 63 → uint64_t (m_bindex_offset w') ≠ 0).
Proof.
  intros Heof Hpos Hg Hnil. split.
  - intros Hinit Hff Hferr (fuel & rounds & Hr).
    pose proof (deflate_layout fuel src dst w Heof Hpos Hg) as [_ Hex].
    cbn zeta in Hex. destruct (Hex Hinit Hff Hferr rounds Hr)
      as (w' & src' & dst' & Hrun).
    by exists fuel, w', src', dst'.
  - intros fuel w' src' dst'. by apply deflate_index_present.
Qed.

End writer_returns.

Lemma toy_flushes_complete : @flushes_complete toy.engine.
Proof.
  intros flush block [pending finished].
  set (total := pending ++ toy.encode block
                ++ (if (flush =? Z_FINISH) && negb finished then [0] else [])).
  assert (prefix (len block) (from 0 block) = block) as Hwin.
  { rewrite from_0. apply prefix_all. lia. }
  destruct (toy_flush_round (S (Z.to_nat (len total / MZGF_BLOCK_SIZE))) flush
              block pending finished 0 (len block) 0) as (zs & Hzs & _).
  - by rewrite Hwin.
  - cbn zeta. rewrite Hwin. fold total.
    assert (0 ≤ len total / MZGF_BLOCK_SIZE).
    { pose proof (len_nonneg total). apply Z.div_pos; [lia|done]. }
    lia.
  - eexists. eexists. exact Hzs.
Qed.

(** A run in which the device takes only 5 of the 12 bytes of the first
    member header and everything after that. *)
Lemma deflate_reports_write_failure_witness :
  let src := fopen_rb [7; 8; 9] in
  let dst := fopen_wb [5] in
  let w := MZGFileWriter.MZGFileWriter 1000 statics_init toy.writer_junk in
  (∃ fuel0, ∀ fuel, (fuel0 ≤ fuel)%nat →
     is_Some (@MZGFileWriter.deflate toy.engine fuel src dst w))
  ∧ match @MZGFileWriter.deflate toy.engine 8 src dst w with
    | Some res =>
        res.1.1.1 ≠ 0
        ∧ MZGFileWriter.m_error res.1.1.2 ≠ no_error
        ∧ ((@deflateInit2 toy.engine).1 = 0 → res.1.1.1 = MZGF_FERROR)
    | None => False
    end.
Proof.
  intros src dst w.
  destruct (@deflate_reports_write_failure toy.engine src dst w)
    as [Hret Hfail].
  split; [exact (Hret toy_flushes_complete (Z.le_refl 0))|].
  pose proof (eq_refl :
    option_map (λ res, ferror res.2)
      (@MZGFileWriter.deflate toy.engine 8 src dst w) = Some true) as Herr.
  revert Herr.
  destruct (MZGFileWriter.deflate _ _ _ _) as [res|] eqn:Hrun;
    intros Herr; [|discriminate Herr].
  injection Herr as Herr.
  exact (Hfail 8%nat res Hrun Herr).
Defined.

(** The input 7, 8, 9, compressed into an empty file. *)
Lemma deflate_index_never_empty_witness :
  let src := fopen_rb [7; 8; 9] in
  let dst := fopen_wb [] in
  let w := MZGFileWriter.MZGFileWriter 1000 statics_init toy.writer_junk in
  ∃ fuel w' src' dst',
    @MZGFileWriter.deflate toy.engine fuel src dst w = Some (0, w', src', dst')
    ∧ ∃ ix head next entries more bo,
        MZGFileWriter.m_bindex w' = mkBindex 17 0 :: ix
        ∧ f_data dst'
          = f_data dst ++ head
            ++ gz_member (MZGFileWriter.m_mtime w)
                 (bi_extra (prefix 2 (extra_bindex (MZGFileWriter.globals w)))
                    next entries)
                 (@crc32_init toy.engine)
            ++ more
            ++ gz_member (MZGFileWriter.m_mtime w) bo (@crc32_init toy.engine)
        ∧ entries ≠ []
        ∧ len head = MZGFileWriter.m_bindex_offset w'
        ∧ 25 ≤ MZGFileWriter.m_bindex_offset w'
        ∧ unpackInt64 bo 12
          = Some (uint64_t (MZGFileWriter.m_bindex_offset w'))
        ∧ (len (f_data dst') < 2 ^ 63 →
           uint64_t (MZGFileWriter.m_bindex_offset w') ≠ 0).
Proof.
  intros src dst w.
  destruct (@deflate_index_never_empty toy.engine src dst w eq_refl
              (Z.le_refl 0) statics_init_sized eq_refl) as [Hex Hix].
  destruct (Hex eq_refl (conj eq_refl eq_refl) eq_refl)
    as (fuel & w' & src' & dst' & Hrun).
  { destruct (toy_deflate_rounds 3 [7; 8; 9]) as (rounds & Hr & _); [done|].
    by exists 3%nat, rounds. }
  exists fuel, w', src', dst'. split; [exact Hrun|].
  exact (Hix fuel w' src' dst' Hrun).
Defined.

(** ** The reader: reading from where a seek has put it *)

Section reader_seek.
Context `{Zl : zlib} {codec : zlib_codec}.
Import MZGFileReader.

Implicit Types (r : MZGFileReader.t) (pz pu : list Z).

(** The file being read, and what follows its deflate stream. *)
Variables (F tail : list Z).
Hypothesis Htail : 8 < len tail.

Ltac rsimpl :=
  cbn [m_fp m_zs m_version m_mtime m_isEOF m_zfilesize m_ufilesize m_zblock
       m_zoffset m_ublock m_uoffset m_blen m_boffset m_bindex m_bindex_offset
       m_error globals set_fp set_zs set_version set_mtime set_isEOF
       set_zfilesize set_ufilesize set_zblock set_zoffset set_ublock
       set_uoffset set_blen set_boffset set_bindex set_bindex_offset set_error
       set_globals zs_state next_in avail_in avail_out obind defined negb
       f_data f_pos f_eof f_err f_script feof ferror ftell z_ret z_state
       z_used z_out].

Tactic Notation "rsimpl" "in" hyp(H) :=
  cbn [m_fp m_zs m_version m_mtime m_isEOF m_zfilesize m_ufilesize m_zblock
       m_zoffset m_ublock m_uoffset m_blen m_boffset m_bindex m_bindex_offset
       m_error globals set_fp set_zs set_version set_mtime set_isEOF
       set_zfilesize set_ufilesize set_zblock set_zoffset set_ublock
       set_uoffset set_blen set_boffset set_bindex set_bindex_offset set_error
       set_globals zs_state next_in avail_in avail_out obind defined negb
       f_data f_pos f_eof f_err f_script feof ferror ftell z_ret z_state
       z_used z_out] in H.

(** [_read_block] neither reads nor assigns [m_boffset]. *)
Lemma _read_block_frame k r :
  _read_block (set_boffset k r)
  = '(ret, r') ←! _read_block r; Returns (ret, set_boffset k r').
Proof.
  unfold _read_block, stream. cbn zeta. rsimpl.
  destruct (avail_in (m_zs r) =? 0); rsimpl.
  - destruct (m_fp r) as [fp|]; [|done]. rsimpl.
    destruct (fread MZGF_BLOCK_SIZE fp) as [got fp1]. rsimpl.
    destruct (len got =? MZGF_BLOCK_SIZE), (ferror fp1), (len got =? 0);
      cbn [negb andb]; rsimpl; try done.
    all: match goal with |- context [zcall ?a ?b ?c ?d] =>
           destruct (zcall a b c d) as [[ret zs] out] end; rsimpl.
    all: destruct (ret =? Z_OK); [done|].
    all: destruct (ret =? Z_STREAM_END); [done|].
    all: by destruct (ret =? Z_STREAM_ERROR).
  - destruct (zcall _ _ _ _) as [[ret zs] out]. rsimpl.
    destruct (ret =? Z_OK); [by destruct (m_fp r)|].
    destruct (ret =? Z_STREAM_END); [by destruct (m_fp r)|].
    by destruct (ret =? Z_STREAM_ERROR).
Qed.

Lemma seeking_reading r pz pu :
  seeking F tail r pz pu → reading F tail (set_boffset 0 r) pz pu.
Proof.
  intros (pos & eof & Hfp & Hpos & Hwin & Hlw & Hnx & Heof & Hinf & Hbl & Hbo
          & Hie).
  exists pos, eof. unfold window, buffered in *. rsimpl. rewrite Hbl, Hie.
  split_and!; try assumption; try done; try lia.
Qed.

Lemma pending_reading r pz pu :
  reading F tail r pz pu → pending r pu = buffered r ++ pu.
Proof.
  intros (pos & eof & Hfp & Hpos & Hwin & Hlw & Hnx & Heof & Hinf & Hbo & Hbb
          & Hlb & He).
  unfold pending. destruct (Z.eqb_spec (m_blen r) 0) as [Hz|?]; [|by rewrite from_0].
  replace (m_boffset r) with 0 by lia. by rewrite from_0.
Qed.

Lemma pending_seeking r pz pu :
  seeking F tail r pz pu → pending r pu = from (m_boffset r) pu.
Proof.
  intros (pos & eof & Hfp & Hpos & Hwin & Hlw & Hnx & Heof & Hinf & Hbl & Hbo
          & Hie).
  unfold pending, buffered. rewrite Hbl. cbn [Z.eqb].
  unfold prefix. replace (Z.to_nat (0 - m_boffset r)) with 0%nat by lia.
  by rewrite take_0.
Qed.

Lemma buffered_seeking r pz pu : seeking F tail r pz pu → buffered r = [].
Proof.
  intros (pos & eof & Hfp & Hpos & Hwin & Hlw & Hnx & Heof & Hinf & Hbl & Hbo
          & Hie).
  unfold buffered, prefix. rewrite Hbl.
  replace (Z.to_nat (0 - m_boffset r)) with 0%nat by lia. by rewrite take_0.
Qed.

(** One call of [_read_block] by a reader that a seek has positioned. *)
Lemma _read_block_seeking r pz pu :
  seeking F tail r pz pu →
  ∃ r' pz' out,
    _read_block r = Returns (len out, r')
    ∧ reading F tail (set_boffset 0 r') pz' (from (len out) pu)
    ∧ out = prefix (len out) pu
    ∧ m_blen r' = len out ∧ m_boffset r' = m_boffset r
    ∧ prefix (len out) (m_ublock r') = out
    ∧ len pz' ≤ len pz
    ∧ (len pz' < len pz ∨ out ≠ [] ∨ m_isEOF r' = true)
    ∧ (m_isEOF r' = true → out = []).
Proof.
  intros Hs. pose proof (seeking_reading _ _ _ Hs) as Hr.
  destruct Hs as (pos & eof & Hfp & Hpos & Hwin & Hlw & Hnx & Heof & Hinf
                  & Hbl & Hbo & Hie).
  destruct (_read_block_spec F tail Htail _ pz pu Hr)
    as (r0 & pz' & out & Hrb & Hr0 & Hout & Hbl0 & Hbo0 & Hbuf0 & Hpz & Hprog
        & Hend); [done..|].
  rewrite _read_block_frame in Hrb.
  destruct (_read_block r) as [[ret r']| | |] eqn:Hrb'; try discriminate Hrb.
  cbn [obind] in Hrb. injection Hrb as -> <-.
  exists r', pz', out.
  unfold buffered in Hbuf0. rsimpl in Hbuf0. rsimpl in Hbl0.
  rewrite Hbl0, Z.sub_0_r, from_0 in Hbuf0.
  split_and!; try done.
  by apply _read_block_boffset in Hrb'.
Qed.

(** A reader that differs from one in the middle of the stream only in
    what it holds of the block array. *)
Lemma seeking_intro r0 r pz pu :
  reading F tail r0 pz pu →
  m_fp r = m_fp r0 → m_zs r = m_zs r0 → m_zblock r = m_zblock r0 →
  m_isEOF r = m_isEOF r0 →
  m_blen r = 0 → 0 ≤ m_boffset r < len pu →
  seeking F tail r pz pu.
Proof.
  intros (pos & eof & Hfp & Hpos & Hwin & Hlw & Hnx & Heof & Hinf & Hbo & Hbb
          & Hlb & He) H1 H2 H3 H4 Hbl Hk.
  exists pos, eof. unfold window in *. rewrite H1, H2, H3, H4.
  split_and!; try assumption; try lia.
  destruct (m_isEOF r0); [|done].
  destruct (He eq_refl) as [_ ->]. change (len []) with 0 in Hk. lia.
Qed.

Lemma reading_emptied r0 r pz pu :
  reading F tail r0 pz pu →
  m_fp r = m_fp r0 → m_zs r = m_zs r0 → m_zblock r = m_zblock r0 →
  m_isEOF r = m_isEOF r0 →
  m_blen r = 0 → m_boffset r = 0 →
  reading F tail r pz pu.
Proof.
  intros (pos & eof & Hfp & Hpos & Hwin & Hlw & Hnx & Heof & Hinf & Hbo & Hbb
          & Hlb & He) H1 H2 H3 H4 Hbl Hk.
  exists pos, eof. unfold window, buffered in *. rewrite H1, H2, H3, H4, Hbl, Hk.
  change (prefix (0 - 0) (from 0 (m_ublock r))) with (@nil Z).
  split_and!; try assumption; try done; try lia.
  intros Hie. by destruct (He Hie) as [_ ->].
Qed.

Lemma reading_offset r pz pu :
  reading F tail (set_boffset 0 r) pz pu → 0 ≤ m_boffset r < m_blen r →
  reading F tail r pz pu
  ∧ buffered r = from (m_boffset r) (prefix (m_blen r) (m_ublock r)).
Proof.
  intros (pos & eof & Hfp & Hpos & Hwin & Hlw & Hnx & Heof & Hinf & Hbo & Hbb
          & Hlb & He) Hk.
  unfold window, buffered in *. rsimpl in Hfp. rsimpl in Hwin. rsimpl in Hlw.
  rsimpl in Hnx. rsimpl in Hinf. rsimpl in Hlb. rsimpl in He.
  rewrite Z.sub_0_r, from_0 in Hlb, He.
  assert (prefix (m_blen r - m_boffset r) (from (m_boffset r) (m_ublock r))
          = from (m_boffset r) (prefix (m_blen r) (m_ublock r))) as Hb.
  { rewrite <- (from_0 (m_ublock r)) at 2.
    rewrite <- (prefix_from_shift (m_blen r) 0 (m_boffset r)) by lia.
    by rewrite Z.add_0_l. }
  split; [|exact Hb].
  exists pos, eof. unfold window, buffered. rewrite Hb.
  split_and!; try assumption; try lia.
  - rewrite len_from. lia.
  - intros Hie. destruct (He Hie) as [Hn _]. rewrite Hn in Hlb.
    change (len []) with 0 in Hlb. lia.
Qed.

(** The loop of [read] in a reader that a seek has positioned: the bytes
    to pass over are dropped block by block, and what is copied is what
    comes after them. *)
Lemma read_loop_seeking fuel :
  ∀ size copied data r pz pu,
    seeking F tail r pz pu → 0 ≤ copied ≤ size →
    size - copied + m_boffset r < Z.of_nat fuel →
    ∃ chunk r' pz' pu',
      read_loop fuel size copied data r
      = Returns (copied + len chunk, data ++ chunk, r')
      ∧ copied + len chunk ≤ size
      ∧ positioned F tail r' pz' pu'
      ∧ chunk ++ pending r' pu' = pending r pu
      ∧ (copied < size → remaining r' pz' pu' < remaining r pz pu).
Proof.
  induction fuel as [|fuel IH]; intros size copied data r pz pu Hs Hc Hf.
  { destruct Hs as (? & ? & ? & ? & ? & ? & ? & ? & ? & ? & ? & ?). lia. }
  cbn [read_loop].
  destruct (Z.ltb_spec copied size) as [Hlt|Hge].
  2: { exists [], r, pz, pu. change (len []) with 0.
       rewrite Z.add_0_r, app_nil_r. split_and!; try done; try lia.
       by right. }
  cbn zeta.
  pose proof (pending_seeking _ _ _ Hs) as Hpend.
  pose proof (buffered_seeking _ _ _ Hs) as Hbuf.
  pose proof Hs as (pos & eof & Hfp & Hpos & Hwin & Hlw & Hnx & Heof & Hinf
                    & Hbl & Hbo & Hie).
  destruct (Z.leb_spec (m_blen r - m_boffset r) 0) as [_|?]; [|lia].
  destruct (_read_block_seeking r pz pu Hs)
    as (r1 & pz1 & out & Hrb & Hr1 & Hout & Hbl1 & Hbo1 & Hub1 & Hpz1 & Hprog
        & Hend).
  rewrite Hrb. cbn [obind].
  pose proof (len_nonneg out) as Hout0.
  pose proof (len_nonneg pz) as Hpz0.
  pose proof (len_nonneg pz1) as Hpz10.
  assert (len out ≤ len pu) as Hlout.
  { rewrite Hout, len_prefix. lia. }
  assert (len (from (len out) pu) = len pu - len out) as Hlpu1.
  { rewrite len_from. lia. }
  assert (out = [] → m_isEOF r1 = false) as Hnoeof.
  { intros ->. destruct (m_isEOF r1) eqn:Hx; [|done].
    destruct Hr1 as (_ & _ & _ & _ & _ & _ & _ & _ & _ & _ & _ & _ & He).
    rsimpl in He. destruct (He Hx) as [_ Hn].
    change (len []) with 0 in *. rewrite from_0 in Hn. rewrite Hn in Hbo.
    change (len []) with 0 in Hbo. lia. }
  assert (out ≠ [] → m_isEOF r1 = false) as Hnoeof'.
  { intros Hne. destruct (m_isEOF r1); [|done]. by destruct Hne, Hend. }
  assert (m_isEOF r1 = false) as Hie1.
  { destruct out; [by apply Hnoeof|by apply Hnoeof']. }
  destruct (Z.eqb_spec (len out) (-1)) as [?|_]; [lia|].
  destruct (Z.eqb_spec (m_blen r1) 0) as [Hz|Hnz];
    [rewrite Hbl1 in Hz|rewrite Hbl1 in Hnz].
  - (* nothing was inflated *)
    assert (out = []) as -> by (destruct out; [done|unfold len in Hz; cbn in Hz; lia]).
    change (len []) with 0 in *. rewrite from_0 in Hr1.
    assert (seeking F tail r1 pz1 pu) as Hs1.
    { apply (seeking_intro _ r1 _ _ Hr1); try done; lia. }
    exists [], r1, pz1, pu. change (len []) with 0.
    rewrite Z.add_0_r, app_nil_r. split_and!; try done; try lia.
    + by right.
    + cbn [app]. rewrite (pending_seeking _ _ _ Hs1), Hpend. by rewrite Hbo1.
    + intros _. unfold remaining.
      rewrite Hbuf, (buffered_seeking _ _ _ Hs1), Hie, Hie1.
      destruct Hprog as [?|[?|?]]; [lia|done|congruence].
  - destruct (Z.ltb_spec (m_blen r1) (m_boffset r1)) as [Hskip|Hin].
    + (* the whole block is passed over *)
      set (r2 := set_blen 0 (set_boffset (m_boffset r1 - m_blen r1) r1)).
      assert (seeking F tail r2 pz1 (from (len out) pu)) as Hs2.
      { apply (seeking_intro _ r2 _ _ Hr1); try done.
        unfold r2. rsimpl. lia. }
      destruct (IH size copied data r2 pz1 (from (len out) pu) Hs2 Hc)
        as (chunk & r3 & pz3 & pu3 & Hrl & Hcs & Hp3 & Hrem & Hm);
        [unfold r2; rsimpl; lia|].
      rewrite Hrl. exists chunk, r3, pz3, pu3.
      split_and!; try done.
      * rewrite Hrem, (pending_seeking _ _ _ Hs2), Hpend.
        unfold r2. rsimpl. rewrite from_from by lia. f_equal. lia.
      * intros _. specialize (Hm Hlt). unfold remaining in *.
        rewrite (buffered_seeking _ _ _ Hs2) in Hm. rewrite Hbuf, Hie.
        replace (m_isEOF r2) with false in Hm by (unfold r2; rsimpl; done).
        change (len []) with 0 in *. lia.
    + destruct (Z.eq_dec (m_boffset r1) (m_blen r1)) as [Heq|Hne].
      * (* the block ends where the data wanted begins *)
        unfold read_copy. cbn zeta. rewrite Heq, Z.sub_diag.
        destruct (Z.ltb_spec (size - copied) 0) as [?|_]; [lia|].
        rsimpl. rewrite Z.add_0_r.
        change (prefix 0 (from (m_blen r1) (m_ublock r1))) with (@nil Z).
        rewrite app_nil_r, Z.add_0_r.
        destruct (Z.leb_spec (m_blen r1) (m_blen r1)) as [_|?]; [|lia].
        set (r2 := set_boffset 0 (set_blen 0 (set_boffset (m_blen r1) r1))).
        assert (reading F tail r2 pz1 (from (len out) pu)) as Hr2.
        { by apply (reading_emptied _ r2 _ _ Hr1). }
        destruct (read_loop_spec F tail Htail fuel size copied data r2 pz1
                    (from (len out) pu) Hr2)
          as (chunk & r3 & pz3 & Hrl & Hcs & pu3 & Hr3 & Hrem & Hpz3 & Hp3);
          [by left|lia|lia|].
        rewrite Hrl. exists chunk, r3, pz3, pu3.
        split_and!; try done.
        -- by left.
        -- rewrite (pending_reading _ _ _ Hr3), Hrem, Hpend.
           replace (buffered r2) with (@nil Z) by done. cbn [app].
           f_equal. lia.
        -- intros _. unfold remaining. rewrite Hbuf, Hie.
           assert (len (chunk ++ buffered r3 ++ pu3)
                   = len (buffered r2 ++ from (len out) pu)) as Hl
             by (by rewrite Hrem).
           replace (buffered r2) with (@nil Z) in Hl by done.
           cbn [app] in Hl. rewrite !len_app in Hl.
           pose proof (len_nonneg chunk). pose proof (len_nonneg pz3).
           change (len []) with 0.
           destruct (m_isEOF r3); lia.
      * (* the data wanted begins inside the block *)
        destruct (reading_offset r1 pz1 (from (len out) pu) Hr1) as [Hr1' Hb1];
          [lia|].
        destruct (read_copy_spec F tail size copied data r1 pz1
                    (from (len out) pu))
          as (chunk & r2 & Hcp & Hcn & Hcs & Hcb & Hr2 & Hie2);
          [done|lia|done|].
        rewrite Hcp. pose proof (len_nonneg chunk) as Hch0.
        destruct (read_loop_spec F tail Htail fuel size (copied + len chunk)
                    (data ++ chunk) r2 pz1 (from (len out) pu) Hr2)
          as (chunk' & r3 & pz3 & Hrl & Hcs3 & pu3 & Hr3 & Hrem & Hpz3 & Hp3);
          [left; congruence|lia|lia|].
        rewrite Hrl. exists (chunk ++ chunk'), r3, pz3, pu3.
        rewrite len_app, <- !app_assoc, Z.add_assoc.
        assert (buffered r1 ++ from (len out) pu = from (m_boffset r) pu)
          as Hjoin.
        { rewrite Hb1, Hbl1, Hub1, Hbo1.
          rewrite <- from_app_le by lia.
          rewrite Hout at 1. by rewrite prefix_from_split. }
        split_and!; try done.
        -- by left.
        -- rewrite (pending_reading _ _ _ Hr3), Hrem, Hpend.
           by rewrite app_assoc, Hcb, Hjoin.
        -- intros _. unfold remaining. rewrite Hbuf, Hie.
           assert (len (chunk ++ chunk' ++ buffered r3 ++ pu3)
                   = len (from (m_boffset r) pu)) as Hl.
           { by rewrite Hrem, app_assoc, Hcb, Hjoin. }
           rewrite !len_app, len_from in Hl.
           assert (0 < len chunk)
             by (destruct chunk; [done|unfold len; cbn; lia]).
           pose proof (len_nonneg chunk'). pose proof (len_nonneg pz3).
           change (len []) with 0.
           destruct (m_isEOF r3); lia.
Qed.

Lemma prefix_app_ge n (A T : list Z) :
  len A ≤ n → prefix n (A ++ T) = A ++ prefix (n - len A) T.
Proof.
  unfold prefix, len. intros. rewrite take_app. f_equal.
  - apply take_ge. lia.
  - f_equal. lia.
Qed.

(** [read] by a reader in the middle of the stream or positioned by a
    seek: it hands out what comes next, and gets nearer to the end. *)
Lemma read_positioned size r pz pu :
  positioned F tail r pz pu → m_isEOF r = false → 0 ≤ size →
  ∃ chunk r' pz' pu',
    read size r = Returns (len chunk, chunk, r')
    ∧ len chunk ≤ size
    ∧ positioned F tail r' pz' pu'
    ∧ chunk ++ pending r' pu' = pending r pu
    ∧ (0 < size → remaining r' pz' pu' < remaining r pz pu).
Proof.
  intros [Hr|Hs] Hie Hsize.
  - destruct (read_spec F tail Htail size r pz pu Hr Hie Hsize)
      as (chunk & r' & pz' & pu' & Hrd & Hcs & Hr' & Hrem & Hpz & Hprog).
    exists chunk, r', pz', pu'. split_and!; try done.
    + by left.
    + by rewrite (pending_reading _ _ _ Hr'), (pending_reading _ _ _ Hr).
    + intros Hpos. unfold remaining. rewrite Hie.
      assert (len (chunk ++ buffered r' ++ pu') = len (buffered r ++ pu)) as Hl
        by (by rewrite Hrem).
      rewrite !len_app in Hl. pose proof (len_nonneg chunk).
      destruct (Hprog Hpos) as [Hc|[?|Hx]].
      * assert (0 < len chunk)
          by (destruct chunk; [done|unfold len; cbn; lia]).
        destruct (m_isEOF r'); lia.
      * destruct (m_isEOF r'); lia.
      * rewrite Hx. lia.
  - unfold read, eof. rewrite Hie.
    pose proof Hs as (_ & _ & _ & _ & _ & _ & _ & _ & _ & _ & Hbo & _).
    destruct (Z.eq_dec size 0) as [->|Hnz].
    + exists [], r, pz, pu. change (len []) with 0.
      split_and!; try done; try lia; [|by right].
      by destruct (read_fuel 0 r).
    + destruct (read_loop_seeking (read_fuel size r) size 0 [] r pz pu Hs)
        as (chunk & r' & pz' & pu' & Hrl & Hcs & Hp & Hrem & Hm);
        [lia|unfold read_fuel; lia|].
      rewrite Hrl. exists chunk, r', pz', pu'. rewrite Z.add_0_l in *.
      cbn [app]. split_and!; try done; intros; apply Hm; lia.
Qed.

(** The loop of the front end hands out the first [opt_size] bytes of what
    is left of the data, and all of it when that is less. *)
Lemma decompress_loop_positioned fuel :
  ∀ opt_size ret written r pz pu,
    positioned F tail r pz pu →
    remaining r pz pu ≤ Z.of_nat fuel →
    ∃ ret' r',
      mzgzip.decompress_loop fuel opt_size ret written r
      = Returns (ret', written ++ prefix opt_size (pending r pu), r')
      ∧ (len (pending r pu) < opt_size → eof r' = true).
Proof.
  assert (∀ opt_size ret written r pz pu (n : nat),
            positioned F tail r pz pu →
            opt_size ≤ 0 ∨ m_isEOF r = true →
            ∃ ret' r',
              mzgzip.decompress_loop n opt_size ret written r
              = Returns (ret', written ++ prefix opt_size (pending r pu), r')
              ∧ (len (pending r pu) < opt_size → eof r' = true)) as Hstop.
  { intros opt_size ret written r pz pu n Hp Hcase.
    assert ((0 <? opt_size) && negb (eof r) = false) as Hcond.
    { destruct Hcase as [?|Hx].
      - destruct (Z.ltb_spec 0 opt_size); [lia|done].
      - unfold eof. rewrite Hx. apply andb_false_r. }
    exists ret, r.
    assert (prefix opt_size (pending r pu) = []
            ∧ (len (pending r pu) < opt_size → eof r = true)) as [-> ?].
    { destruct Hcase as [?|Hx].
      - split.
        + unfold prefix. replace (Z.to_nat opt_size) with 0%nat by lia.
          apply take_0.
        + pose proof (len_nonneg (pending r pu)). lia.
      - split; [|done]. destruct Hp as [Hr|Hs].
        + rewrite (pending_reading _ _ _ Hr).
          destruct Hr as (_ & _ & _ & _ & _ & _ & _ & _ & _ & _ & _ & _ & He).
          destruct (He Hx) as [-> ->]. unfold prefix. apply take_nil.
        + destruct Hs as (_ & _ & _ & _ & _ & _ & _ & _ & _ & _ & _ & Hie).
          congruence. }
    rewrite app_nil_r. split; [|done].
    destruct n; cbn [mzgzip.decompress_loop]; by rewrite Hcond. }
  induction fuel as [|fuel IH]; intros opt_size ret written r pz pu Hp Hm.
  all: destruct (Z.le_gt_cases opt_size 0) as [?|Hpos];
    [by apply (Hstop _ _ _ _ pz); [|left]|].
  all: destruct (m_isEOF r) eqn:Hie; [by apply (Hstop _ _ _ _ pz); [|right]|].
  { exfalso. unfold remaining in Hm. rewrite Hie in Hm.
    pose proof (len_nonneg pz). pose proof (len_nonneg pu).
    pose proof (len_nonneg (buffered r)). lia. }
  cbn [mzgzip.decompress_loop]. unfold eof at 1. rewrite Hie.
  destruct (Z.ltb_spec 0 opt_size); [|lia]. cbn [andb negb].
  set (have := if opt_size <? MZGF_BLOCK_SIZE then opt_size
               else MZGF_BLOCK_SIZE).
  assert (0 < have ≤ opt_size) as Hhave.
  { unfold have. destruct (Z.ltb_spec opt_size MZGF_BLOCK_SIZE);
      unfold MZGF_BLOCK_SIZE in *; lia. }
  destruct (read_positioned have r pz pu Hp Hie)
    as (chunk & r1 & pz1 & pu1 & Hrd & Hcs & Hp1 & Hrem & Hm1); [lia|].
  rewrite Hrd. cbn [obind].
  pose proof (len_nonneg chunk).
  destruct (Z.eqb_spec (len chunk) (-1)); [lia|].
  destruct (IH (opt_size - len chunk) (len chunk) (written ++ chunk) r1 pz1
              pu1 Hp1) as (ret' & r' & Hdl & Heof'); [lia|].
  rewrite Hdl. exists ret', r'. split.
  - rewrite <- Hrem, prefix_app_ge by lia. by rewrite <- app_assoc.
  - intros Hl. apply Heof'. rewrite <- Hrem, len_app in Hl. lia.
Qed.

End reader_seek.
(** ** Random access into a file of the writer *)

Section rounds_index.
Context `{Zl : zlib}.

Lemma payload_of_app a b : payload_of (a ++ b) = payload_of a ++ payload_of b.
Proof. unfold payload_of. by rewrite fmap_app, concat_app. Qed.

Lemma payload_of_cons block out rounds :
  payload_of ((block, out) :: rounds) = out ++ payload_of rounds.
Proof. done. Qed.

(** Where the entries of the index point: entry [k] holds the sizes of the
    outputs and of the blocks of the rounds before round [k]. *)
Lemma index_of_lookup rounds :
  ∀ z u (k : nat) e,
    index_of z u rounds !! k = Some e →
    (k < length rounds)%nat
    ∧ zoffset e = z + len (payload_of (take k rounds))
    ∧ uoffset e = u + len (concat (fst <$> take k rounds)).
Proof.
  induction rounds as [|[block out] rounds IH]; intros z u k e; [done|].
  destruct k as [|k]; cbn [index_of lookup list_lookup].
  - intros [= <-]. cbn [length take fmap list_fmap concat zoffset uoffset].
    change (payload_of []) with (@nil Z). change (len []) with 0.
    split_and!; lia.
  - intros H. apply IH in H as (Hk & -> & ->).
    cbn [length take fmap list_fmap concat fst].
    rewrite payload_of_cons, !len_app. split_and!; lia.
Qed.

Lemma index_of_lookup_lt rounds z u (k : nat) :
  (k < length rounds)%nat → is_Some (index_of z u rounds !! k).
Proof. intros. apply lookup_lt_is_Some_2. by rewrite length_index_of. Qed.

(** The index of the writer is ordered. *)
Lemma index_of_sorted fuel st input rounds z u :
  deflate_rounds fuel st input = Some rounds →
  sorted_index (index_of z u rounds).
Proof.
  intros Hr i j ei ej Hij Hi Hj.
  destruct (deflate_rounds_blocks _ _ _ _ Hr) as (_ & _ & Hu).
  rewrite (Hu _ _ _ _ Hi), (Hu _ _ _ _ Hj). unfold MZGF_BLOCK_SIZE. lia.
Qed.

(** The blocks before round [k], and those from round [k] on. *)
Lemma rounds_blocks_before fuel st input rounds (k : nat) :
  deflate_rounds fuel st input = Some rounds →
  (k < length rounds)%nat →
  len (concat (fst <$> take k rounds)) = MZGF_BLOCK_SIZE * Z.of_nat k
  ∧ concat (fst <$> drop k rounds) = from (MZGF_BLOCK_SIZE * Z.of_nat k) input
  ∧ MZGF_BLOCK_SIZE * Z.of_nat k ≤ len input.
Proof.
  intros Hr Hk.
  destruct (deflate_rounds_blocks _ _ _ _ Hr) as (_ & Hcat & Hu).
  destruct (index_of_lookup_lt rounds 0 0 k Hk) as [e He].
  destruct (index_of_lookup _ _ _ _ _ He) as (_ & _ & Hue).
  rewrite (Hu _ _ _ _ He) in Hue.
  assert (len (concat (fst <$> take k rounds)) = MZGF_BLOCK_SIZE * Z.of_nat k)
    as Hlen by lia.
  assert (input = concat (fst <$> take k rounds)
                  ++ concat (fst <$> drop k rounds)) as Hsplit.
  { by rewrite <- concat_app, <- fmap_app, take_drop. }
  split_and!; [done| |].
  - rewrite Hsplit. by rewrite <- Hlen, from_app_len.
  - rewrite Hsplit, len_app, Hlen.
    pose proof (len_nonneg (concat (fst <$> drop k rounds))). lia.
Qed.

End rounds_index.

Section seek_file.
Context `{Zl : zlib} {codec : zlib_codec}.
Import MZGFileReader.

Implicit Types (r : MZGFileReader.t).

Lemma reset_inflate_ok r :
  reset_inflate r
  = (Z_OK, set_zs (mkZstream inflateInit2.2 0 0 MZGF_BLOCK_SIZE) r).
Proof.
  unfold reset_inflate. pose proof inflateInit2_ok as Hok.
  destruct inflateInit2 as [ret st]. cbn in *. by subst.
Qed.

(** A reader put in front of round [k] of the deflate stream of a file,
    with [b] bytes to pass over. *)
Lemma seeking_at_block fuel input rounds hd tail F (k : nat) r :
  deflate_rounds fuel deflateInit2.2 input = Some rounds →
  restartable →
  F = hd ++ payload_of rounds ++ tail →
  (k < length rounds)%nat →
  m_fp r = Some (rd F (len hd + len (payload_of (take k rounds)))) →
  m_zs r = mkZstream inflateInit2.2 0 0 MZGF_BLOCK_SIZE →
  m_blen r = 0 → m_isEOF r = false →
  0 ≤ m_boffset r →
  MZGF_BLOCK_SIZE * Z.of_nat k + m_boffset r < len input →
  let pz := payload_of (drop k rounds) in
  let pu := from (MZGF_BLOCK_SIZE * Z.of_nat k) input in
  seeking F tail r pz pu
  ∧ pending r pu = from (MZGF_BLOCK_SIZE * Z.of_nat k + m_boffset r) input
  ∧ remaining r pz pu ≤ len (payload_of rounds) + len input + 1.
Proof.
  intros Hr Hre HF Hk Hfp Hzs Hbl Hie Hb0 Hb pz pu.
  destruct (rounds_blocks_before _ _ _ _ k Hr Hk) as (Hlen & Hdrop & Hle).
  assert (rounds = take k rounds ++ drop k rounds) as Hsplit
    by (by rewrite take_drop).
  assert (payload_of rounds
          = payload_of (take k rounds) ++ payload_of (drop k rounds))
    as Hpsplit by (by rewrite <- payload_of_app, take_drop).
  assert (drop k rounds ≠ []) as Hne.
  { intros Hn. apply (f_equal length) in Hn. rewrite length_drop in Hn.
    cbn in Hn. lia. }
  assert (inflating inflateInit2.2 pz pu) as Hinf.
  { unfold pz, pu. rewrite <- Hdrop.
    apply (Hre fuel input (take k rounds)); [by rewrite <- Hsplit|done]. }
  pose proof (len_nonneg (payload_of (take k rounds))).
  pose proof (len_nonneg hd).
  assert (len pu = len input - MZGF_BLOCK_SIZE * Z.of_nat k) as Hlpu.
  { unfold pu. rewrite len_from. unfold MZGF_BLOCK_SIZE in *. lia. }
  assert (seeking F tail r pz pu) as Hs.
  { exists (len hd + len (payload_of (take k rounds))), false.
    unfold window. rewrite Hzs. cbn [avail_in next_in zs_state].
    change (prefix 0 (from 0 (m_zblock r))) with (@nil Z). cbn [app].
    split_and!; try done; try lia.
    rewrite HF, Hpsplit, <- app_assoc.
    rewrite (app_assoc hd), <- len_app. apply from_app_len. }
  split_and!; [done| |].
  - rewrite (pending_seeking _ _ _ _ _ Hs). unfold pu.
    apply from_from; [unfold MZGF_BLOCK_SIZE|]; lia.
  - unfold remaining. rewrite (buffered_seeking _ _ _ _ _ Hs), Hie.
    change (len []) with 0.
    assert (len pz ≤ len (payload_of rounds)).
    { rewrite Hpsplit, len_app. unfold pz. lia. }
    unfold MZGF_BLOCK_SIZE in *. lia.
Qed.

(** The sizes of the rounds bound what lies between an offset and the
    block it falls into. *)
Lemma rounds_count fuel st input rounds :
  deflate_rounds fuel st input = Some rounds →
  len input < MZGF_BLOCK_SIZE * Z.of_nat (length rounds)
  ∧ (0 < length rounds)%nat.
Proof.
  intros Hr. destruct (deflate_rounds_blocks _ _ _ _ Hr) as (Hn & _ & _).
  pose proof (len_nonneg input).
  assert (0 ≤ len input / MZGF_BLOCK_SIZE)
    by (apply Z.div_pos; unfold MZGF_BLOCK_SIZE; lia).
  split; [|lia]. rewrite Hn.
  pose proof (Z.mul_succ_div_gt (len input) MZGF_BLOCK_SIZE).
  unfold MZGF_BLOCK_SIZE in *. lia.
Qed.

(** [useek] on a reader that holds the index of the file and whose offset
    counter differs from the offsets of all blocks: the reader is put in
    front of the block that holds the byte wanted. *)
Lemma useek_seeking fuel0 input rounds hd tail F fuel u r p :
  deflate_rounds fuel0 deflateInit2.2 input = Some rounds →
  restartable →
  F = hd ++ payload_of rounds ++ tail →
  len F < 2 ^ 63 → len input < 2 ^ 63 →
  m_fp r = Some (rd F p) →
  m_bindex r = index_of (len hd) 0 rounds →
  0 ≤ u < len input →
  Forall (λ e, zoffset e ≠ uint64_t (m_zoffset r)) (m_bindex r) →
  ∃ r' (k : nat),
    useek fuel u r = Returns (0, r')
    ∧ let pz := payload_of (drop k rounds) in
      let pu := from (MZGF_BLOCK_SIZE * Z.of_nat k) input in
      seeking F tail r' pz pu
      ∧ pending r' pu = from u input
      ∧ remaining r' pz pu ≤ len (payload_of rounds) + len input + 1.
Proof.
  intros Hr Hre HF HlenF Hlenin Hfp Hix Hu Hne.
  destruct (rounds_count _ _ _ _ Hr) as [Hcount Hpos].
  pose proof (index_of_sorted _ _ _ _ (len hd) 0 Hr) as Hs.
  rewrite <- Hix in Hs.
  assert (len_bindex (m_bindex r) = Z.of_nat (length rounds)) as Hlen.
  { unfold len_bindex. by rewrite Hix, length_index_of. }
  assert (uint64_t u = u) as Huu.
  { unfold uint64_t. apply Z.mod_small. lia. }
  assert (∀ (j : nat) e, m_bindex r !! j = Some e →
            uoffset e = MZGF_BLOCK_SIZE * Z.of_nat j) as Huoff.
  { intros j e He. rewrite Hix in He.
    destruct (deflate_rounds_blocks _ _ _ _ Hr) as (_ & _ & Hb).
    rewrite (Hb _ _ _ _ He). lia. }
  destruct (lookup_lt_is_Some_2 (m_bindex r) 0) as [e0 H0].
  { unfold len_bindex in Hlen. lia. }
  assert (uoffset e0 ≤ u) as Hu0.
  { rewrite (Huoff _ _ H0). lia. }
  unfold useek.
  destruct (Z.eqb_spec (len_bindex (m_bindex r)) 0) as [?|_]; [lia|].
  cbn. rewrite Huu.
  destruct (useek_search_spec (length (m_bindex r)) (m_bindex r) u 0
              (len_bindex (m_bindex r) - 1))
    as (k & -> & Hk & Hlow & Hupp);
    [done | lia | lia | unfold len_bindex; lia | intros; lia | by left |].
  cbn. unfold at_index.
  destruct (Z.ltb_spec k 0); [lia|].
  destruct (lookup_lt_is_Some_2 (m_bindex r) (Z.to_nat k)) as [[kz ku] Hek].
  { unfold len_bindex in Hk. lia. }
  rewrite Hek. cbn.
  assert (∃ (n : nat) e, selected (m_bindex r) u n e
            ∧ (if u <? ku then k - 1 else k) = Z.of_nat n)
    as (n & [ez eu] & Hsel & Hn).
  { destruct (Z.ltb_spec u ku) as [Hlt|Hge].
    - assert (k ≠ 0) as Hk0.
      { intros ->. change (Z.to_nat 0) with 0%nat in Hek.
        rewrite H0 in Hek. simplify_eq. cbn in Hu0. lia. }
      destruct (lookup_lt_is_Some_2 (m_bindex r) (Z.to_nat (k - 1)))
        as [e' He'].
      { unfold len_bindex in Hk. lia. }
      exists (Z.to_nat (k - 1)), e'. split; [|lia].
      split_and!; [done| |].
      + apply (Hlow (Z.to_nat (k - 1))); [lia|done].
      + intros j e'' Hj He''.
        apply (Hs (Z.to_nat k) j (mkBindex kz ku) e'') in He''; [|lia|done].
        cbn in He''. lia.
    - exists (Z.to_nat k), (mkBindex kz ku). split; [|lia].
      split_and!; [done|done|].
      intros j e' Hj He'. apply lookup_lt_Some in He'.
      destruct Hupp as [->|(e'' & He'' & Hlt)].
      + unfold len_bindex in Hj. lia.
      + rewrite Hek in He''. simplify_eq. cbn in Hlt. lia. }
  rewrite Hn. destruct (Z.ltb_spec (Z.of_nat n) 0); [lia|].
  rewrite Nat2Z.id. destruct Hsel as (Hen & Hle & Hgt).
  rewrite Hen. cbn. cbn in Hle.
  (* the entry chosen *)
  pose proof (Huoff _ _ Hen) as Heu. cbn in Heu.
  pose proof Hen as Hen'. rewrite Hix in Hen'.
  destruct (index_of_lookup _ _ _ _ _ Hen') as (Hnlt & Hez & _).
  cbn in Hez.
  assert (u - eu < MZGF_BLOCK_SIZE) as Hnear.
  { destruct (decide (S n < length rounds)%nat) as [Hin|Hlast].
    - destruct (lookup_lt_is_Some_2 (m_bindex r) (S n)) as [e' He'].
      { unfold len_bindex in Hlen. lia. }
      pose proof (Hgt (S n) e' (Nat.lt_succ_diag_r n) He') as Hlt.
      rewrite (Huoff _ _ He') in Hlt. unfold MZGF_BLOCK_SIZE in *. lia.
    - unfold MZGF_BLOCK_SIZE in *. lia. }
  assert (ez ≠ uint64_t (m_zoffset r)) as Hzne.
  { rewrite Forall_forall in Hne.
    apply (Hne (mkBindex ez eu)). by eapply list_elem_of_lookup_2. }
  destruct (Z.eqb_spec (uint64_t (m_zoffset r)) ez) as [?|_]; [congruence|].
  rewrite reset_inflate_ok. cbn.
  unfold stream. cbn. rewrite Hfp. cbn.
  pose proof (len_nonneg hd). pose proof (len_nonneg tail).
  pose proof (len_nonneg (payload_of (take n rounds))).
  assert (len (payload_of (take n rounds)) ≤ len (payload_of rounds)) as Hpl.
  { rewrite <- (take_drop n rounds) at 2. rewrite payload_of_app, len_app.
    pose proof (len_nonneg (payload_of (drop n rounds))). lia. }
  assert (ez ≤ len F) as HezF.
  { rewrite HF, !len_app. lia. }
  rewrite (int64_small ez) by lia.
  rewrite fseek_set_rd by lia. cbn.
  rewrite (int32_small (u - eu)) by (unfold MZGF_BLOCK_SIZE in *; lia).
  eexists _, n. split; [reflexivity|].
  match goal with |- context [seeking F tail ?rr _ _] => set (r' := rr) end.
  destruct (seeking_at_block fuel0 input rounds hd tail F n r')
    as (Hsk & Hpe & Hrm); try done.
  - cbn. by rewrite Hez.
  - cbn. lia.
  - cbn. lia.
  - cbn zeta. split_and!; [done| |done].
    rewrite Hpe. f_equal. cbn. lia.
Qed.

(** [vseek] to the virtual offset made of the offset of a block and of an
    offset into its data. *)
Lemma vseek_seeking fuel0 input rounds hd tail F (k : nat) e b r p :
  deflate_rounds fuel0 deflateInit2.2 input = Some rounds →
  restartable →
  F = hd ++ payload_of rounds ++ tail →
  m_fp r = Some (rd F p) →
  index_of (len hd) 0 rounds !! k = Some e →
  0 ≤ b < 2 ^ 16 → uoffset e + b < len input →
  zoffset e ≠ m_zoffset r →
  ∃ r',
    vseek (zoffset e ≪ 16 + b) r = Returns (0, r')
    ∧ let pz := payload_of (drop k rounds) in
      let pu := from (MZGF_BLOCK_SIZE * Z.of_nat k) input in
      seeking F tail r' pz pu
      ∧ pending r' pu = from (uoffset e + b) input
      ∧ remaining r' pz pu ≤ len (payload_of rounds) + len input + 1.
Proof.
  intros Hr Hre HF Hfp He Hb Hin Hzne.
  destruct (index_of_lookup _ _ _ _ _ He) as (Hk & Hez & _).
  destruct (deflate_rounds_blocks _ _ _ _ Hr) as (_ & _ & Huoff).
  pose proof (Huoff _ _ _ _ He) as Heu. rewrite Z.add_0_l in Heu.
  pose proof (len_nonneg hd).
  pose proof (len_nonneg (payload_of (take k rounds))).
  assert (Z.land (zoffset e ≪ 16 + b) 65535 = b) as Hland.
  { change 65535 with (Z.ones 16). rewrite Z.land_ones by lia.
    rewrite Z.shiftl_mul_pow2 by lia.
    rewrite Z.add_comm, Z.mod_add by lia. apply Z.mod_small. lia. }
  assert ((zoffset e ≪ 16 + b) ≫ 16 = zoffset e) as Hshr.
  { rewrite Z.shiftr_div_pow2, Z.shiftl_mul_pow2 by lia.
    rewrite Z.add_comm, Z.div_add by lia.
    rewrite Z.div_small by lia. lia. }
  unfold vseek. cbn zeta. rewrite Hland, Hshr. cbn.
  destruct (Z.eqb_spec (zoffset e) (m_zoffset r)) as [?|_]; [done|].
  unfold stream. cbn. rewrite Hfp. cbn.
  rewrite fseek_set_rd by lia. cbn.
  rewrite reset_inflate_ok. cbn.
  rewrite (int32_small b) by lia.
  eexists. split; [reflexivity|].
  match goal with |- context [seeking F tail ?rr _ _] => set (r' := rr) end.
  destruct (seeking_at_block fuel0 input rounds hd tail F k r')
    as (Hsk & Hpe & Hrm); try done.
  - cbn. by rewrite Hez.
  - cbn. lia.
  - cbn. lia.
  - cbn zeta. split_and!; [done| |done].
    rewrite Hpe. f_equal. cbn. lia.
Qed.

End seek_file.
(** ** Reading a file of the writer from any position *)

Section positioned_reads.
Context `{Zl : zlib} {codec : zlib_codec}.

(** What [open] leaves of a file that [deflate] has written: the reader
    stands in front of the deflate stream and holds the index. *)
Lemma deflate_open_reading B now g junkw fuel w' src' dst' fs path fuelr
    gr junkr r :
  statics_intact g → len B < 2 ^ 63 →
  MZGFileWriter.deflate fuel (fopen_rb B) (fopen_wb [])
    (MZGFileWriter.MZGFileWriter now g junkw)
  = Some (0, w', src', dst') →
  len (f_data dst') < 2 ^ 63 → fs path = Some (f_data dst') →
  (length (MZGFileWriter.m_bindex w') ≤ fuelr)%nat →
  MZGFileReader.open fuelr fs path (MZGFileReader.MZGFileReader gr junkr)
  = Returns (0, r) →
  ∃ rounds hd tail,
    deflate_rounds fuel deflateInit2.2 B = Some rounds
    ∧ f_data dst' = hd ++ payload_of rounds ++ tail
    ∧ len hd = 17 ∧ 8 < len tail
    ∧ MZGFileReader.m_fp r = Some (rd (f_data dst') 17)
    ∧ MZGFileReader.m_bindex r = index_of (len hd) 0 rounds
    ∧ reading (f_data dst') tail r (payload_of rounds) B
    ∧ pending r B = B
    ∧ remaining r (payload_of rounds) B ≤ len (payload_of rounds) + len B + 1.
Proof.
  intros Hg HB Hrun HlenF Hfs Hfuel Hopen.
  set (w := MZGFileWriter.MZGFileWriter now g junkw) in *.
  set (r0 := MZGFileReader.MZGFileReader gr junkr) in *.
  destruct (deflate_inflating B) as (fuel0 & rounds0 & Hr0 & Hinf).
  destruct (deflate_then_open fuel B w w' src' dst' fuelr fs path r0)
    as (rounds & r1 & Hr & Hd & Hb & Hopen1 & Hfp & Hix & Hus & Hzf & Hzs
        & Hie & Hbl & Hbf);
    [done|done|done|exact inflateInit2_ok|lia|done|done|lia|].
  rewrite Hopen in Hopen1. injection Hopen1 as <-.
  assert (rounds = rounds0) as ->
    by exact (deflate_rounds_det _ _ _ _ _ _ Hr Hr0).
  set (F := f_data dst') in *.
  set (hd := gz_header (MZGFileWriter.m_mtime w) sizeof_extra_mzgf
             ++ extra_mzgf g).
  set (tail :=
         gz_trailer (crc_of rounds0) (len B)
         ++ index_members (MZGFileWriter.m_mtime w) crc32_init
              (prefix 2 (extra_bindex g))
              (17 + len (payload_of rounds0) + 8) [] (index_of 17 0 rounds0)
         ++ gz_member (MZGFileWriter.m_mtime w)
              (bo_extra (prefix 4 (extra_eof g)) (len B)
                 (17 + len (payload_of rounds0) + 8)) crc32_init).
  assert (F = hd ++ payload_of rounds0 ++ tail) as HF.
  { rewrite Hd. unfold mzgf_file, hd, tail. cbn zeta. by rewrite <- !app_assoc. }
  assert (len hd = 17) as Hhd.
  { unfold hd. destruct Hg as (Hmz & _). rewrite Hmz, len_app, len_gz_header.
    done. }
  assert (8 < len tail) as Htail.
  { unfold tail. rewrite !len_app, len_gz_trailer, len_gz_member.
    pose proof (len_nonneg (index_members (MZGFileWriter.m_mtime w) crc32_init
                              (prefix 2 (extra_bindex g))
                              (17 + len (payload_of rounds0) + 8) []
                              (index_of 17 0 rounds0))).
    pose proof (len_nonneg (bo_extra (prefix 4 (extra_eof g)) (len B)
                              (17 + len (payload_of rounds0) + 8))).
    lia. }
  assert (reading F tail r (payload_of rounds0) B) as Hreading.
  { exists 17, false. unfold window, buffered.
    rewrite Hzs, Hbl, Hbf. cbn [avail_in next_in zs_state].
    change (MZGFileReader.m_blen r0) with 0.
    change (MZGFileReader.m_boffset r0) with 0.
    split_and!; try done.
    - rewrite HF, <- Hhd. apply from_app_len.
    - by right.
    - by rewrite Hie. }
  assert (buffered r = []) as Hbuf.
  { unfold buffered. rewrite Hbl, Hbf. done. }
  exists rounds0, hd, tail. split_and!; try done.
  - by rewrite Hhd, Hix.
  - by rewrite (pending_reading _ _ _ _ _ Hreading), Hbuf.
  - unfold remaining. rewrite Hbuf, Hie. change (len []) with 0. lia.
Qed.

(** [decompress] of the front end with the option [-u u], on a file that
    [deflate] wrote for the input [B] and that [open] has just opened:
    [useek] puts the reader in front of the block holding offset [u], and
    the loop writes the bytes of [B] from offset [u] on, at most [size] of
    them; when fewer than [size] are left the reader ends at [eof()].  The
    blocks have to be independent of each other ([restartable]), and no
    block may begin at the offset the counter [m_zoffset] holds after
    [open]: for such a block [useek] returns without moving the stream. *)
Theorem decompress_from_uoffset B now g junkw fuel w' src' dst' fs path fuelr
    gr junkr r u size :
  restartable →
  statics_intact g → len B < 2 ^ 63 →
  MZGFileWriter.deflate fuel (fopen_rb B) (fopen_wb [])
    (MZGFileWriter.MZGFileWriter now g junkw)
  = Some (0, w', src', dst') →
  len (f_data dst') < 2 ^ 63 → fs path = Some (f_data dst') →
  (length (MZGFileWriter.m_bindex w') ≤ fuelr)%nat →
  MZGFileReader.open fuelr fs path (MZGFileReader.MZGFileReader gr junkr)
  = Returns (0, r) →
  0 ≤ u < len B →
  Forall (λ e, zoffset e ≠ uint64_t (MZGFileReader.vtell r))
    (MZGFileReader.bindex r) →
  ∃ fuel' ret r',
    mzgzip.decompress fuel' (-1) u size r
    = Returns (ret, prefix size (from u B), r')
    ∧ (len B - u < size → MZGFileReader.eof r' = true).
Proof.
  intros Hre Hg HB Hrun HlenF Hfs Hfuel Hopen Hu Hne.
  destruct (deflate_open_reading B now g junkw fuel w' src' dst' fs path
              fuelr gr junkr r)
    as (rounds & hd & tail & Hr & HF & Hhd & Htail & Hfp & Hix & _ & _ & _);
    try done.
  set (fuel' := Z.to_nat (len (payload_of rounds) + len B + 1)).
  destruct (useek_seeking fuel B rounds hd tail (f_data dst') fuel' u r 17)
    as (r1 & k & Hseek & Hs & Hpe & Hrm); try done.
  cbn zeta in Hs, Hpe, Hrm.
  destruct (decompress_loop_positioned (f_data dst') tail Htail fuel' size 0
              [] r1 _ _ (or_intror Hs))
    as (ret & r' & Hdl & Heof); [unfold fuel'; lia|].
  exists fuel', ret, r'. unfold mzgzip.decompress.
  destruct (Z.eqb_spec u (-1)) as [?|_]; [lia|].
  cbn [Z.eqb Pos.eqb negb]. rewrite Hseek. cbn [obind Z.eqb negb].
  rewrite Hdl, Hpe. split; [done|].
  intros Hl. apply Heof. rewrite Hpe, len_from. lia.
Qed.

(** [decompress] with the option [-v]: the virtual offset made of the
    offset [zoffset e] of an indexed block, shifted left by 16 bits, and of
    an offset [b] into the data from that block on.  The loop writes the
    bytes of [B] from offset [uoffset e + b] on, at most [size] of them.
    A value given for [-u] is not looked at. *)
Theorem decompress_from_voffset B now g junkw fuel w' src' dst' fs path fuelr
    gr junkr r (k : nat) e b opt_uoffset size :
  restartable →
  statics_intact g → len B < 2 ^ 63 →
  MZGFileWriter.deflate fuel (fopen_rb B) (fopen_wb [])
    (MZGFileWriter.MZGFileWriter now g junkw)
  = Some (0, w', src', dst') →
  len (f_data dst') < 2 ^ 63 → fs path = Some (f_data dst') →
  (length (MZGFileWriter.m_bindex w') ≤ fuelr)%nat →
  MZGFileReader.open fuelr fs path (MZGFileReader.MZGFileReader gr junkr)
  = Returns (0, r) →
  MZGFileReader.bindex r !! k = Some e →
  zoffset e < 2 ^ 47 →
  0 ≤ b < 2 ^ 16 → uoffset e + b < len B →
  zoffset e ≠ MZGFileReader.vtell r →
  ∃ fuel' ret r',
    mzgzip.decompress fuel' (zoffset e ≪ 16 + b) opt_uoffset size r
    = Returns (ret, prefix size (from (uoffset e + b) B), r')
    ∧ (len B - (uoffset e + b) < size → MZGFileReader.eof r' = true).
Proof.
  intros Hre Hg HB Hrun HlenF Hfs Hfuel Hopen He Hz47 Hb Hin Hne.
  destruct (deflate_open_reading B now g junkw fuel w' src' dst' fs path
              fuelr gr junkr r)
    as (rounds & hd & tail & Hr & HF & Hhd & Htail & Hfp & Hix & _ & _ & _);
    try done.
  unfold MZGFileReader.bindex in He. rewrite Hix in He.
  set (fuel' := Z.to_nat (len (payload_of rounds) + len B + 1)).
  destruct (vseek_seeking fuel B rounds hd tail (f_data dst') k e b r 17)
    as (r1 & Hseek & Hs & Hpe & Hrm); try done.
  cbn zeta in Hs, Hpe, Hrm.
  destruct (decompress_loop_positioned (f_data dst') tail Htail fuel' size 0
              [] r1 _ _ (or_intror Hs))
    as (ret & r' & Hdl & Heof); [unfold fuel'; lia|].
  destruct (index_of_lookup _ _ _ _ _ He) as (_ & Hez & Heu).
  pose proof (len_nonneg hd).
  pose proof (len_nonneg (payload_of (take k rounds))).
  pose proof (len_nonneg (concat (fst <$> take k rounds))).
  assert (0 ≤ zoffset e ≪ 16 + b) as Hv.
  { rewrite Z.shiftl_mul_pow2 by lia. lia. }
  exists fuel', ret, r'. unfold mzgzip.decompress.
  destruct (Z.eqb_spec (zoffset e ≪ 16 + b) (-1)) as [?|_]; [lia|].
  cbn [negb]. rewrite Hseek. cbn [obind Z.eqb negb].
  rewrite Hdl, Hpe. split; [done|].
  intros Hl. apply Heof. rewrite Hpe, len_from. lia.
Qed.

(** [decompress] with the option [-s size] alone writes the first [size]
    bytes of [B], and all of [B] when it is shorter; in that case the
    reader ends at [eof()]. *)
Theorem decompress_up_to_size B now g junkw fuel w' src' dst' fs path fuelr
    gr junkr r size :
  statics_intact g → len B < 2 ^ 63 →
  MZGFileWriter.deflate fuel (fopen_rb B) (fopen_wb [])
    (MZGFileWriter.MZGFileWriter now g junkw)
  = Some (0, w', src', dst') →
  len (f_data dst') < 2 ^ 63 → fs path = Some (f_data dst') →
  (length (MZGFileWriter.m_bindex w') ≤ fuelr)%nat →
  MZGFileReader.open fuelr fs path (MZGFileReader.MZGFileReader gr junkr)
  = Returns (0, r) →
  ∃ fuel' ret r',
    mzgzip.decompress fuel' (-1) (-1) size r
    = Returns (ret, prefix size B, r')
    ∧ (len B < size → MZGFileReader.eof r' = true).
Proof.
  intros Hg HB Hrun HlenF Hfs Hfuel Hopen.
  destruct (deflate_open_reading B now g junkw fuel w' src' dst' fs path
              fuelr gr junkr r)
    as (rounds & hd & tail & Hr & HF & Hhd & Htail & Hfp & Hix & Hrd & Hpe
        & Hrm); try done.
  set (fuel' := Z.to_nat (len (payload_of rounds) + len B + 1)).
  destruct (decompress_loop_positioned (f_data dst') tail Htail fuel' size 0
              [] r _ _ (or_introl Hrd))
    as (ret & r' & Hdl & Heof); [unfold fuel'; lia|].
  exists fuel', ret, r'. unfold mzgzip.decompress.
  cbn [Z.eqb Pos.eqb negb obind]. rewrite Hdl, Hpe. split; [done|].
  intros Hl. apply Heof. by rewrite Hpe.
Qed.

(** One call of [read] on the reader that [open] has left: it returns the
    number of bytes it stored, at most [size]; the bytes are the first
    ones of [B]; and the reader goes on from there: the loop of the front
    end then writes what follows them in [B]. *)
Theorem read_hands_out_next_bytes B now g junkw fuel w' src' dst' fs path
    fuelr gr junkr r size :
  statics_intact g → len B < 2 ^ 63 →
  MZGFileWriter.deflate fuel (fopen_rb B) (fopen_wb [])
    (MZGFileWriter.MZGFileWriter now g junkw)
  = Some (0, w', src', dst') →
  len (f_data dst') < 2 ^ 63 → fs path = Some (f_data dst') →
  (length (MZGFileWriter.m_bindex w') ≤ fuelr)%nat →
  MZGFileReader.open fuelr fs path (MZGFileReader.MZGFileReader gr junkr)
  = Returns (0, r) →
  0 ≤ size →
  ∃ chunk r1,
    MZGFileReader.read size r = Returns (len chunk, chunk, r1)
    ∧ len chunk ≤ size
    ∧ chunk = prefix (len chunk) B
    ∧ ∃ fuel' ret r',
        mzgzip.decompress_loop fuel' mzgzip.SSIZE_MAX 0 [] r1
        = Returns (ret, from (len chunk) B, r').
Proof.
  intros Hg HB Hrun HlenF Hfs Hfuel Hopen Hsize.
  destruct (deflate_open_reading B now g junkw fuel w' src' dst' fs path
              fuelr gr junkr r)
    as (rounds & hd & tail & Hr & HF & Hhd & Htail & Hfp & Hix & Hrd & Hpe
        & Hrm); try done.
  assert (MZGFileReader.m_isEOF r = false) as Hie.
  { destruct (deflate_then_open fuel B (MZGFileWriter.MZGFileWriter now g junkw)
                w' src' dst' fuelr fs path
                (MZGFileReader.MZGFileReader gr junkr))
      as (? & r1 & _ & _ & _ & Hopen1 & _ & _ & _ & _ & _ & Hie & _);
      [done|done|done|exact inflateInit2_ok|lia|done|done|lia|].
    rewrite Hopen in Hopen1. by injection Hopen1 as <-. }
  destruct (read_positioned (f_data dst') tail Htail size r _ _
              (or_introl Hrd) Hie Hsize)
    as (chunk & r1 & pz1 & pu1 & Hread & Hcs & Hp1 & Hrem & _).
  rewrite Hpe in Hrem.
  set (fuel' := Z.to_nat (remaining r1 pz1 pu1)).
  destruct (decompress_loop_positioned (f_data dst') tail Htail fuel'
              mzgzip.SSIZE_MAX 0 [] r1 pz1 pu1 Hp1)
    as (ret & r' & Hdl & _); [unfold fuel'; lia|].
  exists chunk, r1. split_and!; try done.
  - rewrite <- Hrem. by rewrite prefix_app_len.
  - exists fuel', ret, r'. rewrite Hdl. cbn [app].
    assert (len (chunk ++ pending r1 pu1) = len B) as Hl by (by rewrite Hrem).
    rewrite len_app in Hl. pose proof (len_nonneg chunk).
    rewrite prefix_all by (unfold mzgzip.SSIZE_MAX; lia).
    by rewrite <- Hrem, from_app_len.
Qed.

End positioned_reads.
(** *** The small engine restarts at every block *)

Section toy_restart.

Lemma toy_round fuel flush block finished zs out :
  @flush_round toy.engine fuel flush block
    (mkZstream ([], finished) 0 (len block) 0) = Some (zs, out) →
  out = toy.encode block
        ++ (if (flush =? Z_FINISH) && negb finished then [0] else [])
  ∧ zs_state zs = ([], finished || (flush =? Z_FINISH) && negb finished).
Proof.
  intros H.
  set (total := toy.encode block
                ++ (if (flush =? Z_FINISH) && negb finished then [0] else [])).
  pose proof (len_nonneg total).
  assert (prefix (len block) (from 0 block) = block) as Hblock.
  { rewrite from_0. apply prefix_all. lia. }
  destruct (toy_flush_round (S (Z.to_nat (len total / MZGF_BLOCK_SIZE))) flush
              block [] finished 0 (len block) 0)
    as (zs2 & H2 & Hst).
  - by rewrite Hblock.
  - rewrite Hblock. cbn [app]. fold total.
    assert (0 ≤ len total / MZGF_BLOCK_SIZE)
      by (apply Z.div_pos; unfold MZGF_BLOCK_SIZE; lia).
    lia.
  - rewrite Hblock in H2. cbn [app] in H2.
    pose proof (flush_round_det _ _ _ _ _ _ _ H H2) as Heq.
    injection Heq as -> ->. done.
Qed.

Lemma toy_rounds_shape fuel :
  ∀ input rounds,
    @deflate_rounds toy.engine fuel ([], false) input = Some rounds →
    ∀ pre post, rounds = pre ++ post → post ≠ [] →
      payload_of post = toy.encode (concat (fst <$> post)) ++ [0].
Proof.
  induction fuel as [|fuel IH]; intros input rounds H pre post Hsplit Hne;
    [done|].
  cbn [deflate_rounds] in H. cbn zeta in H.
  set (block := prefix MZGF_BLOCK_SIZE input) in *.
  destruct (flush_round _ _ _ _) as [[zs out]|] eqn:Hfr; [|done].
  apply toy_round in Hfr as [Hout Hst]. cbn [negb andb orb] in Hout, Hst.
  rewrite andb_true_r in Hout, Hst.
  destruct (len block <? MZGF_BLOCK_SIZE) eqn:Hlast.
  - injection H as <-. cbn [Z.eqb Z_FINISH Pos.eqb] in Hout.
    destruct pre as [|x pre].
    + cbn [app] in Hsplit. subst post.
      unfold payload_of. cbn [fmap list_fmap concat fst snd].
      by rewrite !app_nil_r.
    + injection Hsplit as _ Hnil. symmetry in Hnil.
      apply app_eq_nil in Hnil as [_ ?]. done.
  - cbn [Z.eqb Z_FULL_FLUSH Z_FINISH Pos.eqb] in Hout, Hst.
    rewrite app_nil_r in Hout.
    change (@zs_state (@dstate toy.engine) zs = ([], false)) in Hst.
    rewrite Hst in H.
    destruct (deflate_rounds fuel _ _) as [rounds'|] eqn:Hrec; [|done].
    injection H as <-.
    destruct pre as [|x pre].
    + cbn [app] in Hsplit. subst post.
      destruct (deflate_rounds_cons _ _ _ _ Hrec) as (o & rs & Hrs).
      rewrite payload_of_cons. cbn [fmap list_fmap concat fst].
      rewrite encode_app, <- app_assoc, Hout. f_equal.
      apply (IH _ _ Hrec []); [done|by rewrite Hrs].
    + injection Hsplit as _ Hrest. by apply (IH _ _ Hrec pre).
Qed.

Lemma toy_restartable : @restartable toy.engine toy_codec.
Proof.
  intros fuel input pre post Hr Hne.
  change (payload_of post = toy.encode (concat (fst <$> post)) ++ [0]).
  by apply (toy_rounds_shape fuel input _ Hr pre).
Qed.

(** What the writer makes of the input 7, 8, 9, and the reader that has
    opened the file. *)
Lemma toy_sample :
  let w := MZGFileWriter.MZGFileWriter 1000 statics_init toy.writer_junk in
  ∃ w' src' dst' r,
    @MZGFileWriter.deflate toy.engine 8 (fopen_rb [7; 8; 9]) (fopen_wb []) w
    = Some (0, w', src', dst')
    ∧ len (f_data dst') < 2 ^ 63
    ∧ (length (MZGFileWriter.m_bindex w') ≤ 4)%nat
    ∧ toy.mgz [7; 8; 9] = f_data dst'
    ∧ MZGFileReader.open 4 (toy.single "in.mgz" (f_data dst')) "in.mgz"
        (MZGFileReader.MZGFileReader statics_init toy.reader_junk)
      = Returns (0, r)
    ∧ MZGFileReader.bindex r = [mkBindex 17 0]
    ∧ MZGFileReader.vtell r = 89.
Proof.
  intros w.
  assert (
    match MZGFileReader.open 4 (toy.single "in.mgz" (toy.mgz [7; 8; 9]))
            "in.mgz" (MZGFileReader.MZGFileReader statics_init toy.reader_junk)
    with
    | Returns (ret, r) =>
        Some (ret, MZGFileReader.bindex r, MZGFileReader.vtell r)
    | _ => None
    end = Some (0, [mkBindex 17 0], 89)) as Hopen by (vm_compute; reflexivity).
  assert (
    option_map (λ res, (res.1.1.1, len (f_data res.2) <? 2 ^ 63,
                        len_bindex (MZGFileWriter.m_bindex res.1.1.2) <=? 4))
      (@MZGFileWriter.deflate toy.engine 8 (fopen_rb [7; 8; 9]) (fopen_wb []) w)
    = Some (0, true, true)) as Hret by (vm_compute; reflexivity).
  assert (∀ ret w' src' dst',
            MZGFileWriter.deflate 8 (fopen_rb [7; 8; 9]) (fopen_wb []) w
            = Some (ret, w', src', dst') →
            toy.mgz [7; 8; 9] = f_data dst') as Hmgz.
  { intros ret w' src' dst' H. unfold toy.mgz, toy.compress. fold w.
    by rewrite H. }
  destruct (MZGFileWriter.deflate _ _ _ _) as [[[[ret w'] src'] dst']|];
    [|discriminate Hret].
  cbn [option_map fst snd] in Hret.
  injection Hret as -> Hsize%Z.ltb_lt Hfuel%Z.leb_le.
  specialize (Hmgz _ _ _ _ eq_refl). rewrite Hmgz in Hopen.
  destruct (MZGFileReader.open 4 _ _ _) as [[ret r]| | |] eqn:Hop; try discriminate Hopen.
  injection Hopen as -> Hix Hvt.
  exists w', src', dst', r.
  split_and!; [reflexivity|exact Hsize| |exact Hmgz|exact Hop|exact Hix|exact Hvt]. unfold len_bindex in Hfuel. lia.
Qed.

End toy_restart.

(** The input 7, 8, 9 and the small engine: from offset 1, at most 5
    bytes. *)
Lemma decompress_from_uoffset_witness :
  ∃ r,
    MZGFileReader.open 4 (toy.single "in.mgz" (toy.mgz [7; 8; 9])) "in.mgz"
      (MZGFileReader.MZGFileReader statics_init toy.reader_junk)
    = Returns (0, r)
    ∧ ∃ fuel' ret r',
        mzgzip.decompress fuel' (-1) 1 5 r
        = Returns (ret, prefix 5 (from 1 [7; 8; 9]), r')
        ∧ (len [7; 8; 9] - 1 < 5 → MZGFileReader.eof r' = true).
Proof.
  destruct toy_sample as (w' & src' & dst' & r & Hrun & Hlen & Hfuel & Hm
                          & Hopen & Hix & Hvt).
  exists r. split; [rewrite Hm; exact Hopen|].
  apply (@decompress_from_uoffset toy.engine toy_codec [7; 8; 9] 1000
           statics_init toy.writer_junk 8 w' src' dst'
           (toy.single "in.mgz" (f_data dst')) "in.mgz" 4 statics_init
           toy.reader_junk r 1 5).
  - exact toy_restartable.
  - exact statics_init_intact.
  - reflexivity.
  - exact Hrun.
  - exact Hlen.
  - reflexivity.
  - exact Hfuel.
  - exact Hopen.
  - split; [discriminate|reflexivity].
  - rewrite Hix, Hvt. repeat constructor. discriminate.
Defined.

(** The same file: the virtual offset of the block at 17 with the offset 1
    into its data. *)
Lemma decompress_from_voffset_witness :
  ∃ r,
    MZGFileReader.open 4 (toy.single "in.mgz" (toy.mgz [7; 8; 9])) "in.mgz"
      (MZGFileReader.MZGFileReader statics_init toy.reader_junk)
    = Returns (0, r)
    ∧ ∃ fuel' ret r',
        mzgzip.decompress fuel' (17 ≪ 16 + 1) (-1) 5 r
        = Returns (ret, prefix 5 (from (0 + 1) [7; 8; 9]), r')
        ∧ (len [7; 8; 9] - (0 + 1) < 5 → MZGFileReader.eof r' = true).
Proof.
  destruct toy_sample as (w' & src' & dst' & r & Hrun & Hlen & Hfuel & Hm
                          & Hopen & Hix & Hvt).
  exists r. split; [rewrite Hm; exact Hopen|].
  apply (@decompress_from_voffset toy.engine toy_codec [7; 8; 9] 1000
           statics_init toy.writer_junk 8 w' src' dst'
           (toy.single "in.mgz" (f_data dst')) "in.mgz" 4 statics_init
           toy.reader_junk r 0 (mkBindex 17 0) 1 (-1) 5).
  - exact toy_restartable.
  - exact statics_init_intact.
  - reflexivity.
  - exact Hrun.
  - exact Hlen.
  - reflexivity.
  - exact Hfuel.
  - exact Hopen.
  - rewrite Hix. reflexivity.
  - reflexivity.
  - split; [discriminate|reflexivity].
  - reflexivity.
  - rewrite Hvt. discriminate.
Defined.

(** The same file: the first two bytes. *)
Lemma decompress_up_to_size_witness :
  ∃ r,
    MZGFileReader.open 4 (toy.single "in.mgz" (toy.mgz [7; 8; 9])) "in.mgz"
      (MZGFileReader.MZGFileReader statics_init toy.reader_junk)
    = Returns (0, r)
    ∧ ∃ fuel' ret r',
        mzgzip.decompress fuel' (-1) (-1) 2 r
        = Returns (ret, prefix 2 [7; 8; 9], r')
        ∧ (len [7; 8; 9] < 2 → MZGFileReader.eof r' = true).
Proof.
  destruct toy_sample as (w' & src' & dst' & r & Hrun & Hlen & Hfuel & Hm
                          & Hopen & Hix & Hvt).
  exists r. split; [rewrite Hm; exact Hopen|].
  apply (@decompress_up_to_size toy.engine toy_codec [7; 8; 9] 1000
           statics_init toy.writer_junk 8 w' src' dst'
           (toy.single "in.mgz" (f_data dst')) "in.mgz" 4 statics_init
           toy.reader_junk r 2).
  - exact statics_init_intact.
  - reflexivity.
  - exact Hrun.
  - exact Hlen.
  - reflexivity.
  - exact Hfuel.
  - exact Hopen.
Defined.

(** The same file: a call asking for two bytes. *)
Lemma read_hands_out_next_bytes_witness :
  ∃ r,
    MZGFileReader.open 4 (toy.single "in.mgz" (toy.mgz [7; 8; 9])) "in.mgz"
      (MZGFileReader.MZGFileReader statics_init toy.reader_junk)
    = Returns (0, r)
    ∧ ∃ chunk r1,
        MZGFileReader.read 2 r = Returns (len chunk, chunk, r1)
        ∧ len chunk ≤ 2
        ∧ chunk = prefix (len chunk) [7; 8; 9]
        ∧ ∃ fuel' ret r',
            mzgzip.decompress_loop fuel' mzgzip.SSIZE_MAX 0 [] r1
            = Returns (ret, from (len chunk) [7; 8; 9], r').
Proof.
  destruct toy_sample as (w' & src' & dst' & r & Hrun & Hlen & Hfuel & Hm
                          & Hopen & Hix & Hvt).
  exists r. split; [rewrite Hm; exact Hopen|].
  apply (@read_hands_out_next_bytes toy.engine toy_codec [7; 8; 9] 1000
           statics_init toy.writer_junk 8 w' src' dst'
           (toy.single "in.mgz" (f_data dst')) "in.mgz" 4 statics_init
           toy.reader_junk r 2).
  - exact statics_init_intact.
  - reflexivity.
  - exact Hrun.
  - exact Hlen.
  - reflexivity.
  - exact Hfuel.
  - exact Hopen.
  - discriminate.
Defined.
(** ** The file the writer leaves *)

Section written_file.
Context `{Zl : zlib}.

(** The bytes [deflate] has written when it returns 0, for a writer as
    constructed and an empty destination. *)
Lemma deflate_file B now g junkw fuel w' src' dst' :
  statics_intact g →
  MZGFileWriter.deflate fuel (fopen_rb B) (fopen_wb [])
    (MZGFileWriter.MZGFileWriter now g junkw)
  = Some (0, w', src', dst') →
  ∃ rounds,
    deflate_rounds fuel deflateInit2.2 B = Some rounds
    ∧ f_data dst'
      = mzgf_file now g crc32_init (payload_of rounds) (crc_of rounds) (len B)
          (index_of 17 0 rounds)
    ∧ MZGFileWriter.m_bindex w' = index_of 17 0 rounds.
Proof.
  intros Hg Hrun.
  pose proof (deflate_layout fuel (fopen_rb B) (fopen_wb [])
                (MZGFileWriter.MZGFileWriter now g junkw) eq_refl
                (Z.le_refl 0) (statics_intact_sized _ Hg)) as [Hlay _].
  cbn zeta in Hlay. rewrite Hrun in Hlay.
  destruct (Hlay eq_refl) as (rounds & Hr & _ & Happ & _ & Hix & _).
  change (from (f_pos (fopen_rb B)) (f_data (fopen_rb B))) with (from 0 B)
    in Hr, Happ.
  rewrite from_0 in Hr, Happ.
  exists rounds. split_and!; [done| |done].
  destruct Happ as (Hd & _). by rewrite Hd.
Qed.

(** The checksum over the blocks is the checksum of the input, for a
    checksum that can be computed piecewise. *)
Lemma crc_of_input rounds :
  (∀ crc a b, crc32 (crc32 crc a) b = crc32 crc (a ++ b)) →
  rounds ≠ [] →
  crc_of rounds = crc32 crc32_init (concat (fst <$> rounds)).
Proof.
  intros Hcrc Hne. destruct rounds as [|[block out] rounds]; [done|].
  unfold crc_of. cbn [foldl fmap list_fmap concat fst].
  generalize block. clear block Hne.
  induction rounds as [|[block' out'] rounds IH]; intros block.
  - cbn [foldl fmap list_fmap concat]. by rewrite app_nil_r.
  - cbn [foldl fmap list_fmap concat fst]. rewrite Hcrc, IH.
    by rewrite app_assoc.
Qed.

(** The size of the chain of index members: every member takes 34 bytes
    besides its entries, and a member is closed when it holds 4095
    entries. *)
Lemma len_index_members_exact mtime crc id rest :
  length id = 2%nat →
  ∀ cur pos,
    len_bindex cur < 4095 → rest ≠ [] →
    len (index_members mtime crc id pos cur rest)
    = 34 * ((len_bindex cur + len_bindex rest + 4094) / 4095)
      + 16 * (len_bindex cur + len_bindex rest).
Proof.
  intros Hid. induction rest as [|e rest IH]; intros cur pos' Hcur Hne;
    [done|].
  cbn [index_members]. cbn zeta.
  assert (len_bindex (e :: rest) = len_bindex rest + 1) as ->
    by (unfold len_bindex; cbn [length]; lia).
  assert (0 ≤ len_bindex cur) by (unfold len_bindex; lia).
  assert (0 ≤ len_bindex rest) by (unfold len_bindex; lia).
  rewrite len_bindex_snoc.
  unfold sizeof_extra_bindex, GZIP_FEXTRA_MAX, sizeof_bindex_t.
  destruct (Z.leb_spec 65535 (12 + 16 * (len_bindex cur + 1) + 16))
    as [Hfull|Hroom]; cbn [orb].
  - (* the member is full *)
    assert (len_bindex cur + 1 = 4095) as Hk by lia.
    rewrite len_app, len_gz_member, len_bi_extra, len_bindex_snoc by done.
    destruct rest as [|e' rest].
    + cbn [index_members]. change (len []) with 0.
      change (len_bindex []) with 0.
      replace (len_bindex cur + (0 + 1) + 4094) with (1 * 4095 + 4094) by lia.
      rewrite Z.div_add_l by lia. change (4094 / 4095) with 0. lia.
    + rewrite (IH [] _) by done. change (len_bindex []) with 0.
      replace (len_bindex cur + (len_bindex (e' :: rest) + 1) + 4094)
        with (1 * 4095 + (0 + len_bindex (e' :: rest) + 4094)) by lia.
      rewrite Z.div_add_l by lia. lia.
  - destruct rest as [|e' rest].
    + rewrite len_app, len_gz_member, len_bi_extra, len_bindex_snoc by done.
      cbn [index_members]. change (len []) with 0.
      change (len_bindex []) with 0.
      replace ((len_bindex cur + (0 + 1) + 4094) / 4095) with 1; [lia|].
      apply (Z.div_unique _ _ 1 (len_bindex cur)); lia.
    + rewrite (IH (cur ++ [e]) pos') by (rewrite ?len_bindex_snoc; done || lia).
      rewrite len_bindex_snoc. do 2 f_equal; [f_equal|]; lia.
Qed.

(** Round [k] holds the block of the input at offset [65280 * k]. *)
Lemma rounds_lookup_block fuel :
  ∀ st input rounds (k : nat) block out,
    deflate_rounds fuel st input = Some rounds →
    rounds !! k = Some (block, out) →
    block = prefix MZGF_BLOCK_SIZE (from (MZGF_BLOCK_SIZE * Z.of_nat k) input).
Proof.
  induction fuel as [|fuel IH]; intros st input rounds k block out Hr Hk;
    [done|].
  cbn [deflate_rounds] in Hr. cbn zeta in Hr.
  destruct (flush_round _ _ _ _) as [[zs o]|]; [|done].
  destruct (len (prefix MZGF_BLOCK_SIZE input) <? MZGF_BLOCK_SIZE).
  - injection Hr as <-. destruct k as [|k]; [|done].
    injection Hk as <- _. by rewrite Z.mul_0_r, from_0.
  - destruct (deflate_rounds fuel _ _) as [rs|] eqn:Hrec; [|done].
    injection Hr as <-. destruct k as [|k].
    + injection Hk as <- _. by rewrite Z.mul_0_r, from_0.
    + cbn [lookup list_lookup] in Hk.
      rewrite (IH _ _ _ _ _ _ Hrec Hk).
      rewrite from_from by (unfold MZGF_BLOCK_SIZE; lia).
      do 2 f_equal. lia.
Qed.

(** The file [deflate] leaves for the input [B], byte by byte: the header
    of the first member with the subfield ["MZ"] and the format version;
    the deflate stream, which is the outputs of the engine for the blocks
    of [B] one after another; the trailer with the checksum and the length
    of [B]; the members that carry the block index; and the EOF member,
    whose subfield ["BO"] holds the length of [B] and the offset of the
    first index member.  The checksum of the trailer is that of [B] when
    the checksum can be computed piecewise, as CRC-32 can. *)
Theorem deflate_output_layout B now g junkw fuel w' src' dst' :
  statics_intact g →
  (∀ crc a b, crc32 (crc32 crc a) b = crc32 crc (a ++ b)) →
  MZGFileWriter.deflate fuel (fopen_rb B) (fopen_wb [])
    (MZGFileWriter.MZGFileWriter now g junkw)
  = Some (0, w', src', dst') →
  ∃ rounds,
    deflate_rounds fuel deflateInit2.2 B = Some rounds
    ∧ let payload := payload_of rounds in
      let index_at := 17 + len payload + 8 in
      f_data dst'
      = gz_header now 5 ++ [chr_M; chr_Z; 1; 0; MZGF_VERSION]
        ++ payload ++ gz_trailer (crc32 crc32_init B) (len B)
        ++ index_members now crc32_init [chr_B; chr_I] index_at []
             (index_of 17 0 rounds)
        ++ gz_member now (bo_extra [chr_B; chr_O; 16; 0] (len B) index_at)
             crc32_init.
Proof.
  intros Hg Hcrc Hrun.
  destruct (deflate_file _ _ _ _ _ _ _ _ Hg Hrun) as (rounds & Hr & Hd & _).
  exists rounds. split; [done|]. cbn zeta. rewrite Hd.
  destruct (deflate_rounds_blocks _ _ _ _ Hr) as (_ & Hcat & _).
  destruct (deflate_rounds_cons _ _ _ _ Hr) as (o & rs & Hrs).
  rewrite (crc_of_input rounds Hcrc) by (by rewrite Hrs).
  rewrite Hcat. unfold mzgf_file. cbn zeta.
  destruct Hg as (-> & -> & _ & -> & _). done.
Qed.

(** The size of the file: 17 bytes of header, the deflate stream, 8 bytes
    of trailer, the index, and 42 bytes of EOF member.  The index has one
    entry of 16 bytes for every 65280 bytes of input begun, plus one, and
    is cut into members of at most 4095 entries, each adding 34 bytes. *)
Theorem deflate_output_size B now g junkw fuel w' src' dst' :
  statics_intact g →
  MZGFileWriter.deflate fuel (fopen_rb B) (fopen_wb [])
    (MZGFileWriter.MZGFileWriter now g junkw)
  = Some (0, w', src', dst') →
  ∃ rounds,
    deflate_rounds fuel deflateInit2.2 B = Some rounds
    ∧ let entries := len B / MZGF_BLOCK_SIZE + 1 in
      let members := (entries + 4094) / 4095 in
      len_bindex (MZGFileWriter.m_bindex w') = entries
      ∧ len (f_data dst')
        = 17 + len (payload_of rounds) + 8 + (34 * members + 16 * entries)
          + 42.
Proof.
  intros Hg Hrun.
  destruct (deflate_file _ _ _ _ _ _ _ _ Hg Hrun) as (rounds & Hr & Hd & Hix).
  exists rounds. split; [done|]. cbn zeta.
  destruct (deflate_rounds_blocks _ _ _ _ Hr) as (Hn & _ & _).
  destruct (deflate_rounds_cons _ _ _ _ Hr) as (o & rs & Hrs).
  assert (len_bindex (index_of 17 0 rounds) = len B / MZGF_BLOCK_SIZE + 1)
    as Hlen.
  { unfold len_bindex. by rewrite length_index_of. }
  split; [by rewrite Hix|].
  rewrite Hd. unfold mzgf_file. cbn zeta.
  pose proof Hg as (Hmz & Heo & _ & Hbi & _).
  rewrite !len_app, len_gz_header, len_gz_trailer, len_gz_member, Hmz.
  rewrite len_bo_extra by (by rewrite Heo).
  rewrite len_index_members_exact;
    [|by rewrite Hbi|done|by rewrite Hrs].
  change (len_bindex []) with 0. rewrite Z.add_0_l, Hlen.
  change (len [chr_M; chr_Z; 1; 0; MZGF_VERSION]) with 5.
  unfold sizeof_extra_eof. lia.
Qed.

(** Every entry of the index locates a block: entry [k] holds the offset
    [65280 * k] of block [k] in the input and the offset in the file at
    which the output of the engine for that block begins. *)
Theorem index_entries_locate_blocks B now g junkw fuel w' src' dst' :
  statics_intact g →
  MZGFileWriter.deflate fuel (fopen_rb B) (fopen_wb [])
    (MZGFileWriter.MZGFileWriter now g junkw)
  = Some (0, w', src', dst') →
  ∃ rounds,
    deflate_rounds fuel deflateInit2.2 B = Some rounds
    ∧ length (MZGFileWriter.m_bindex w') = length rounds
    ∧ ∀ (k : nat) e,
        MZGFileWriter.m_bindex w' !! k = Some e →
        uoffset e = MZGF_BLOCK_SIZE * Z.of_nat k
        ∧ uoffset e ≤ len B
        ∧ 17 ≤ zoffset e
        ∧ ∃ out,
            rounds !! k
            = Some (prefix MZGF_BLOCK_SIZE (from (uoffset e) B), out)
            ∧ prefix (len out) (from (zoffset e) (f_data dst')) = out.
Proof.
  intros Hg Hrun.
  destruct (deflate_file _ _ _ _ _ _ _ _ Hg Hrun) as (rounds & Hr & Hd & Hix).
  exists rounds. split; [done|]. rewrite Hix.
  split; [apply length_index_of|].
  intros k e He.
  destruct (index_of_lookup _ _ _ _ _ He) as (Hk & Hez & _).
  destruct (rounds_blocks_before _ _ _ _ k Hr Hk) as (Hlen & _ & Hle).
  destruct (deflate_rounds_blocks _ _ _ _ Hr) as (_ & _ & Hu).
  pose proof (Hu _ _ _ _ He) as Heu. rewrite Z.add_0_l in Heu.
  pose proof (len_nonneg (payload_of (take k rounds))).
  destruct (lookup_lt_is_Some_2 rounds k Hk) as [[block out] Hround].
  split_and!; [done|lia|lia|].
  exists out. rewrite Heu.
  rewrite <- (rounds_lookup_block _ _ _ _ _ _ _ Hr Hround).
  split; [done|].
  rewrite Hd, Hez. unfold mzgf_file. cbn zeta.
  rewrite <- (take_drop k rounds) at 2.
  rewrite (drop_S _ _ _ Hround), payload_of_app, payload_of_cons.
  destruct Hg as (Hmz & _). rewrite Hmz.
  rewrite <- !app_assoc.
  rewrite (app_assoc (gz_header now sizeof_extra_mzgf)).
  rewrite (app_assoc (gz_header now sizeof_extra_mzgf ++ _)).
  replace (17 + len (payload_of (take k rounds)))
    with (len ((gz_header now sizeof_extra_mzgf
                ++ [chr_M; chr_Z; 1; 0; MZGF_VERSION])
               ++ payload_of (take k rounds))).
  2: { rewrite !len_app, len_gz_header. done. }
  rewrite from_app_len. apply prefix_app_len.
Qed.

End written_file.

(** The file for the input 7, 8, 9, written with the small engine. *)
Lemma deflate_output_layout_witness :
  ∃ w' src' dst' rounds,
    @MZGFileWriter.deflate toy.engine 8 (fopen_rb [7; 8; 9]) (fopen_wb [])
      (MZGFileWriter.MZGFileWriter 1000 statics_init toy.writer_junk)
    = Some (0, w', src', dst')
    ∧ @deflate_rounds toy.engine 8 (@deflateInit2 toy.engine).2 [7; 8; 9]
      = Some rounds
    ∧ let payload := payload_of rounds in
      let index_at := 17 + len payload + 8 in
      f_data dst'
      = gz_header 1000 5 ++ [chr_M; chr_Z; 1; 0; MZGF_VERSION]
        ++ payload
        ++ gz_trailer (@crc32 toy.engine (@crc32_init toy.engine) [7; 8; 9])
             (len [7; 8; 9])
        ++ index_members 1000 (@crc32_init toy.engine) [chr_B; chr_I]
             index_at [] (index_of 17 0 rounds)
        ++ gz_member 1000
             (bo_extra [chr_B; chr_O; 16; 0] (len [7; 8; 9]) index_at)
             (@crc32_init toy.engine).
Proof.
  destruct toy_sample as (w' & src' & dst' & r & Hrun & _).
  destruct (@deflate_output_layout toy.engine [7; 8; 9] 1000 statics_init
              toy.writer_junk 8 w' src' dst') as (rounds & Hr & Hd).
  - exact statics_init_intact.
  - intros crc a b. symmetry. apply foldl_app.
  - exact Hrun.
  - exists w', src', dst', rounds. split; [exact Hrun|]. split; [exact Hr|].
    exact Hd.
Defined.

Lemma deflate_output_size_witness :
  ∃ w' src' dst' rounds,
    @MZGFileWriter.deflate toy.engine 8 (fopen_rb [7; 8; 9]) (fopen_wb [])
      (MZGFileWriter.MZGFileWriter 1000 statics_init toy.writer_junk)
    = Some (0, w', src', dst')
    ∧ @deflate_rounds toy.engine 8 (@deflateInit2 toy.engine).2 [7; 8; 9]
      = Some rounds
    ∧ let entries := len [7; 8; 9] / MZGF_BLOCK_SIZE + 1 in
      let members := (entries + 4094) / 4095 in
      len_bindex (MZGFileWriter.m_bindex w') = entries
      ∧ len (f_data dst')
        = 17 + len (payload_of rounds) + 8 + (34 * members + 16 * entries)
          + 42.
Proof.
  destruct toy_sample as (w' & src' & dst' & r & Hrun & _).
  destruct (@deflate_output_size toy.engine [7; 8; 9] 1000 statics_init
              toy.writer_junk 8 w' src' dst') as (rounds & Hr & Hd).
  - exact statics_init_intact.
  - exact Hrun.
  - exists w', src', dst', rounds. split; [exact Hrun|]. split; [exact Hr|].
    exact Hd.
Defined.

Lemma index_entries_locate_blocks_witness :
  ∃ w' src' dst' rounds,
    @MZGFileWriter.deflate toy.engine 8 (fopen_rb [7; 8; 9]) (fopen_wb [])
      (MZGFileWriter.MZGFileWriter 1000 statics_init toy.writer_junk)
    = Some (0, w', src', dst')
    ∧ @deflate_rounds toy.engine 8 (@deflateInit2 toy.engine).2 [7; 8; 9]
      = Some rounds
    ∧ length (MZGFileWriter.m_bindex w') = length rounds
    ∧ ∀ (k : nat) e,
        MZGFileWriter.m_bindex w' !! k = Some e →
        uoffset e = MZGF_BLOCK_SIZE * Z.of_nat k
        ∧ uoffset e ≤ len [7; 8; 9]
        ∧ 17 ≤ zoffset e
        ∧ ∃ out,
            rounds !! k
            = Some (prefix MZGF_BLOCK_SIZE (from (uoffset e) [7; 8; 9]), out)
            ∧ prefix (len out) (from (zoffset e) (f_data dst')) = out.
Proof.
  destruct toy_sample as (w' & src' & dst' & r & Hrun & _).
  destruct (@index_entries_locate_blocks toy.engine [7; 8; 9] 1000
              statics_init toy.writer_junk 8 w' src' dst')
    as (rounds & Hr & Hd).
  - exact statics_init_intact.
  - exact Hrun.
  - exists w', src', dst', rounds. split; [exact Hrun|]. split; [exact Hr|].
    exact Hd.
Defined.
(** ** The reader stays inside its arrays *)

Section reader_bounds.
Context `{Zl : zlib}.
Import MZGFileReader.

Implicit Types (r : MZGFileReader.t) (size copied : Z).

Lemma len_store (bs buf : list Z) :
  len bs ≤ len buf → len (store bs buf) = len buf.
Proof.
  unfold store, len. rewrite length_app, length_drop. lia.
Qed.

Lemma len_prefix_le n (A : list Z) : 0 ≤ n → len (prefix n A) ≤ n.
Proof. intros. rewrite len_prefix. lia. Qed.

(** [_read_block] fills [m_zblock] with at most 65280 bytes and has the
    engine write at most 65280 bytes to [m_ublock]. *)
Lemma _read_block_in_bounds r ret r' :
  in_bounds r → _read_block r = Returns (ret, r') →
  in_bounds r' ∧ m_boffset r' = m_boffset r.
Proof.
  intros (Hzb & Hub & Hn & Ha & Hna & Hbl & Hbo).
  unfold _read_block. cbn zeta.
  set (r0 := set_zs _ r).
  destruct (avail_in (m_zs r0) =? 0) eqn:Hin; cbn.
  - destruct (stream r0) as [fp| | |] eqn:Hfp; cbn; try discriminate.
    unfold fread. cbn.
    set (got := prefix MZGF_BLOCK_SIZE (from (f_pos fp) (f_data fp))).
    assert (0 ≤ len got ≤ MZGF_BLOCK_SIZE) as Hgot.
    { split; [apply len_nonneg|]. apply len_prefix_le. done. }
    assert (len (store got (m_zblock r)) = MZGF_BLOCK_SIZE) as Hzb'.
    { rewrite len_store; lia. }
    destruct (negb (len got =? MZGF_BLOCK_SIZE) && _) eqn:Hc1; cbn.
    { intros ?; simplify_eq. cbn. unfold in_bounds. cbn.
      split; [|done]. split_and!; try done; lia. }
    destruct (len got =? 0) eqn:Hc2; cbn.
    { intros ?; simplify_eq. cbn. unfold in_bounds. cbn.
      split; [|done]. split_and!; try done; lia. }
    destruct (zcall _ _ _ _) as [[zret zs] out] eqn:Hz. cbn.
    apply zcall_counts in Hz as (Ho & Ho0 & Hle & Hsum & Hnx & Hav).
    cbn in Ho, Hle, Hsum, Hnx, Hav.
    assert (len (store out (m_ublock r)) = MZGF_BLOCK_SIZE) as Hub'.
    { rewrite len_store; unfold MZGF_BLOCK_SIZE in *; lia. }
    repeat case_match; intros ?; simplify_eq; cbn.
    all: unfold in_bounds; cbn; split; [|done].
    all: split_and!; try done; unfold MZGF_BLOCK_SIZE in *; lia.
  - destruct (zcall _ _ _ _) as [[zret zs] out] eqn:Hz. cbn.
    apply zcall_counts in Hz as (Ho & Ho0 & Hle & Hsum & Hnx & Hav).
    cbn in Ho, Hle, Hsum, Hnx, Hav.
    assert (len (store out (m_ublock r)) = MZGF_BLOCK_SIZE) as Hub'.
    { rewrite len_store; unfold MZGF_BLOCK_SIZE in *; lia. }
    unfold stream. cbn.
    destruct (m_fp r) as [fp|]; cbn;
      repeat case_match; intros ?; simplify_eq; cbn.
    all: unfold in_bounds; cbn; split; [|done].
    all: split_and!; try done; unfold MZGF_BLOCK_SIZE in *; lia.
Qed.

(** The copy out of [m_ublock] takes what it copies from inside the block
    held there. *)
Lemma read_copy_in_bounds size copied data r :
  in_bounds r → m_boffset r ≤ m_blen r → copied < size → len data = copied →
  let res := read_copy size copied data (m_blen r - m_boffset r) r in
  in_bounds res.2 ∧ len res.1.2 = res.1.1 ∧ copied ≤ res.1.1 ≤ size.
Proof.
  intros (Hzb & Hub & Hn & Ha & Hna & Hbl & Hbo) Hle Hlt Hdata.
  unfold read_copy. cbn zeta.
  set (have := if size - copied <? m_blen r - m_boffset r then size - copied
               else m_blen r - m_boffset r).
  assert (0 ≤ have ≤ m_blen r - m_boffset r ∧ have ≤ size - copied) as Hhave.
  { unfold have. destruct (Z.ltb_spec (size - copied) (m_blen r - m_boffset r));
      lia. }
  assert (len (prefix have (from (m_boffset r) (m_ublock r))) = have) as Hlen.
  { rewrite len_prefix, len_from. lia. }
  cbn. rewrite len_app, Hlen.
  split_and!; try lia.
  destruct (m_blen r <=? m_boffset r + have); unfold in_bounds; cbn;
    split_and!; try done; lia.
Qed.

Lemma read_loop_in_bounds fuel :
  ∀ size copied data r ret data' r',
    in_bounds r → 0 ≤ copied ≤ size → len data = copied →
    read_loop fuel size copied data r = Returns (ret, data', r') →
    in_bounds r' ∧ len data' ≤ size ∧ (ret = -1 ∨ ret = len data').
Proof.
  induction fuel as [|fuel IH]; intros size copied data r ret data' r' Hb Hc
    Hdata; cbn -[read_copy].
  { destruct (Z.ltb_spec copied size); [done|]. intros ?; simplify_eq.
    split_and!; [done|lia|by right]. }
  destruct (Z.ltb_spec copied size) as [Hlt|Hge].
  2: { intros ?; simplify_eq. split_and!; [done|lia|by right]. }
  destruct (Z.leb_spec (m_blen r - m_boffset r) 0) as [Hempty|Hfull].
  - destruct (_read_block r) as [[avail r1]| | |] eqn:Hrb; cbn -[read_copy];
      try discriminate.
    destruct (_read_block_in_bounds _ _ _ Hb Hrb) as [Hb1 Hbo1].
    destruct (Z.eqb_spec avail (-1)).
    { intros ?; simplify_eq. split_and!; [done|lia|by left]. }
    destruct (Z.eqb_spec (m_blen r1) 0).
    { intros ?; simplify_eq. split_and!; [done|lia|by right]. }
    destruct (Z.ltb_spec (m_blen r1) (m_boffset r1)) as [Hskip|Hin].
    + apply IH; try done.
      destruct Hb1 as (? & ? & ? & ? & ? & ? & ?).
      unfold in_bounds. cbn. split_and!; try done; lia.
    + pose proof (read_copy_in_bounds size copied data r1 Hb1 Hin Hlt Hdata)
        as Hcp. cbn zeta in Hcp.
      destruct (read_copy _ _ _ _ r1) as [[copied' data1] r2].
      cbn in Hcp. destruct Hcp as (Hb2 & Hd2 & Hc2).
      apply IH; try done. lia.
  - pose proof (read_copy_in_bounds size copied data r Hb ltac:(lia) Hlt Hdata)
      as Hcp. cbn zeta in Hcp.
    destruct (read_copy _ _ _ _ r) as [[copied' data1] r2].
    cbn in Hcp. destruct Hcp as (Hb2 & Hd2 & Hc2).
    apply IH; try done. lia.
Qed.

(** Whatever the engine does and whatever the file holds, a call of
    [read] that returns leaves every index inside its array: the block
    arrays keep their size, the input of [m_zs] stays inside [m_zblock],
    and the block and the offset into it stay inside [m_ublock].  It
    stores at most [size] bytes, and returns -1 or the number of bytes
    stored. *)
Theorem read_stays_in_bounds size r ret data r' :
  in_bounds r → 0 ≤ size →
  read size r = Returns (ret, data, r') →
  in_bounds r' ∧ len data ≤ size ∧ (ret = -1 ∨ ret = len data).
Proof.
  intros Hb Hsize. unfold read. destruct (eof r).
  - intros ?; simplify_eq. split_and!; [done|done|by left].
  - apply read_loop_in_bounds; try done; lia.
Qed.

(** What the functions that read the headers leave alone. *)
Lemma _read_header_sizes extra extralen r ret extra' r' :
  len (m_zblock r) = MZGF_BLOCK_SIZE → len extra = extralen →
  _read_header extra extralen r = Returns (ret, extra', r') →
  len extra' = len extra
  ∧ len (m_zblock r') = MZGF_BLOCK_SIZE
  ∧ m_zs r' = m_zs r ∧ m_ublock r' = m_ublock r
  ∧ m_blen r' = m_blen r ∧ m_boffset r' = m_boffset r
  ∧ globals r' = globals r.
Proof.
  intros Hzb Hex. unfold _read_header, stream.
  destruct (m_fp r) as [fp|]; cbn; [|done].
  unfold fread. cbn.
  set (got := prefix sizeof_gzheader (from (f_pos fp) (f_data fp))).
  assert (len (store got (m_zblock r)) = MZGF_BLOCK_SIZE) as Hzb'.
  { rewrite len_store; [done|]. unfold got. rewrite Hzb.
    pose proof (len_prefix_le sizeof_gzheader (from (f_pos fp) (f_data fp))).
    unfold sizeof_gzheader, MZGF_BLOCK_SIZE in *. lia. }
  destruct (f_err fp); cbn; [intros ?; by simplify_eq|].
  destruct (negb (len got =? sizeof_gzheader)); cbn;
    [intros ?; by simplify_eq|].
  destruct (store got (m_zblock r) !! 0%nat) as [id1|]; cbn; [|done].
  destruct (store got (m_zblock r) !! 1%nat) as [id2|]; cbn; [|done].
  destruct (store got (m_zblock r) !! 2%nat) as [cm|]; cbn; [|done].
  destruct (_ || _); cbn; [intros ?; by simplify_eq|].
  destruct (unpackInt32 _ 4) as [mt|]; cbn; [|done].
  destruct (store got (m_zblock r) !! 3%nat) as [flag|]; cbn; [|done].
  destruct (unpackInt16 _ 10) as [x|]; cbn; [|done].
  destruct (_ && _); cbn; [intros ?; by simplify_eq|].
  destruct (Z.ltb_spec extralen (uint16_t x)) as [?|Hxl]; cbn;
    [intros ?; by simplify_eq|].
  set (got2 := prefix (uint16_t x) _).
  assert (len (store got2 extra) = len extra) as Hex'.
  { apply len_store. unfold got2.
    assert (0 ≤ uint16_t x) by (unfold uint16_t; apply Z.mod_pos_bound; lia).
    pose proof (len_prefix_le (uint16_t x)
                  (from (f_pos fp + len got) (f_data fp))). lia. }
  destruct (negb (len got2 =? uint16_t x)); cbn; intros ?; by simplify_eq.
Qed.

Ltac hsimpl :=
  cbn -[_read_header _read_eof _read_bindex _read_bindex_loop
        _read_bindex_entries].

Lemma _read_eof_sizes r ret r' :
  len (m_zblock r) = MZGF_BLOCK_SIZE → statics_sized (globals r) →
  _read_eof r = Returns (ret, r') →
  statics_sized (globals r')
  ∧ len (m_zblock r') = MZGF_BLOCK_SIZE
  ∧ m_zs r' = m_zs r ∧ m_ublock r' = m_ublock r
  ∧ m_blen r' = m_blen r ∧ m_boffset r' = m_boffset r.
Proof.
  intros Hzb (Hmz & Heo & Hbi). unfold _read_eof, stream.
  destruct (m_fp r) as [fp|]; hsimpl; [|done].
  destruct (fseek_end _ fp) as [rc fp1]. hsimpl.
  destruct (negb (rc =? 0)); hsimpl; [intros ?; by simplify_eq|].
  match goal with |- context [_read_header ?e ?n ?rr] =>
    destruct (_read_header e n rr) as [[[ret1 ee] r1]| | |] eqn:Hrh
  end; hsimpl; try done.
  apply _read_header_sizes in Hrh as (Hee & Hzb1 & Hzs1 & Hub1 & Hbl1 & Hbo1
                                      & Hg1); [|done|done].
  cbn in Hzs1, Hub1, Hbl1, Hbo1, Hg1.
  assert (statics_sized
            (mkStatics (extra_mzgf (globals r1)) ee (extra_bindex (globals r1))))
    as Hst.
  { rewrite Hg1. unfold statics_sized. hsimpl. split_and!; try done.
    by rewrite Hee. }
  destruct (negb (ret1 =? 0)); hsimpl; [intros ?; simplify_eq; by hsimpl|].
  destruct (ee !! 0%nat) as [b0|]; hsimpl; [|done].
  destruct (ee !! 1%nat) as [b1|]; hsimpl; [|done].
  destruct (_ || _); hsimpl; [|intros ?; simplify_eq; by hsimpl].
  destruct (unpackInt64 ee 4) as [usize|]; hsimpl; [|done].
  destruct (unpackInt64 ee 12) as [bo|]; hsimpl; [|done].
  unfold stream. hsimpl.
  destruct (m_fp r1) as [fp2|]; hsimpl; [|done].
  destruct (fseek_set _ fp2) as [rc2 fp3]. hsimpl.
  destruct (negb (rc2 =? 0)); hsimpl; intros ?; simplify_eq; by hsimpl.
Qed.

Lemma _read_bindex_entries_returns fuel :
  ∀ i count eb ix ix',
    _read_bindex_entries fuel i count eb ix = Returns ix' →
    ∃ more, ix' = ix ++ more.
Proof.
  induction fuel as [|fuel IH]; intros i count eb ix ix'; cbn.
  { destruct (i <? count); [done|]. intros ?; simplify_eq. exists [].
    by rewrite app_nil_r. }
  destruct (i <? count).
  2: { intros ?; simplify_eq. exists []. by rewrite app_nil_r. }
  destruct (unpackInt64 eb _) as [z|]; hsimpl; [|done].
  destruct (unpackInt64 eb _) as [u|]; hsimpl; [|done].
  intros H. apply IH in H as [more ->]. exists (mkBindex z u :: more).
  by rewrite <- app_assoc.
Qed.

Lemma _read_bindex_loop_sizes fuel :
  ∀ offset r ret r',
    len (m_zblock r) = MZGF_BLOCK_SIZE → statics_sized (globals r) →
    _read_bindex_loop fuel offset r = Returns (ret, r') →
    statics_sized (globals r')
    ∧ len (m_zblock r') = MZGF_BLOCK_SIZE
    ∧ m_zs r' = m_zs r ∧ m_ublock r' = m_ublock r
    ∧ m_blen r' = m_blen r ∧ m_boffset r' = m_boffset r.
Proof.
  induction fuel as [|fuel IH]; intros offset r ret r' Hzb Hst;
    cbn [_read_bindex_loop].
  { destruct (offset =? 0); [|done]. intros ?; by simplify_eq. }
  destruct (offset =? 0); [intros ?; by simplify_eq|].
  unfold stream.
  destruct (m_fp r) as [fp|]; hsimpl; [|done].
  destruct (fseek_set offset fp) as [rc fp1]. hsimpl.
  destruct (negb (rc =? 0)); hsimpl; [intros ?; by simplify_eq|].
  match goal with |- context [_read_header ?e ?n ?rr] =>
    destruct (_read_header e n rr) as [[[ret1 eb] r1]| | |] eqn:Hrh
  end; hsimpl; try done.
  pose proof Hst as (Hmz & Heo & Hbi).
  apply _read_header_sizes in Hrh as (Hee & Hzb1 & Hzs1 & Hub1 & Hbl1 & Hbo1
                                      & Hg1); [|done|done].
  cbn in Hzs1, Hub1, Hbl1, Hbo1, Hg1.
  assert (statics_sized
            (mkStatics (extra_mzgf (globals r1)) (extra_eof (globals r1)) eb))
    as Hst1.
  { rewrite Hg1. unfold statics_sized. hsimpl. split_and!; try done.
    by rewrite Hee. }
  destruct (negb (ret1 =? 0)); hsimpl; [intros ?; simplify_eq; by hsimpl|].
  destruct (eb !! 0%nat) as [b0|]; hsimpl; [|done].
  destruct (eb !! 1%nat) as [b1|]; hsimpl; [|done].
  destruct (_ || _); hsimpl; [|intros ?; simplify_eq; by hsimpl].
  destruct (unpackInt16 eb 2) as [count|]; hsimpl; [|done].
  destruct (unpackInt64 eb 4) as [next|]; hsimpl; [|done].
  destruct (_read_bindex_entries _ _ _ _ _) as [ix| | |]; hsimpl; try done.
  intros H. apply IH in H; [|done|done]. cbn in H.
  destruct H as (? & ? & -> & -> & -> & ->). done.
Qed.

Lemma _read_bindex_sizes fuel r ret r' :
  len (m_zblock r) = MZGF_BLOCK_SIZE → statics_sized (globals r) →
  _read_bindex fuel r = Returns (ret, r') →
  statics_sized (globals r')
  ∧ len (m_zblock r') = MZGF_BLOCK_SIZE
  ∧ m_zs r' = m_zs r ∧ m_ublock r' = m_ublock r
  ∧ m_blen r' = m_blen r ∧ m_boffset r' = m_boffset r.
Proof.
  intros Hzb Hst. unfold _read_bindex, stream.
  destruct (m_fp r) as [fp|]; hsimpl; [|done].
  destruct (_read_bindex_loop fuel _ r) as [[ret1 r1]| | |] eqn:Hl; hsimpl;
    try done.
  apply _read_bindex_loop_sizes in Hl; [|done|done].
  destruct (negb (ret1 =? 0)); hsimpl; [intros ?; by simplify_eq|].
  unfold stream. destruct (m_fp r1) as [fp1|]; hsimpl; [|done].
  destruct (fseek_set _ fp1) as [rc fp2]. hsimpl.
  destruct (negb (rc =? 0)); hsimpl; intros ?; simplify_eq; by hsimpl.
Qed.

(** Whatever the file holds, [open] stores nothing outside the arrays: a
    header is read into the first 12 bytes of [m_zblock], and an extra
    field is read into its file-scope array only when it fits.  When
    [open] returns, the file-scope arrays have their sizes; when it
    returns 0, the reader is inside its arrays as [read] needs it. *)
Theorem open_stays_in_bounds fuel fs path r ret r' :
  len (m_zblock r) = MZGF_BLOCK_SIZE → len (m_ublock r) = MZGF_BLOCK_SIZE →
  0 ≤ m_blen r ≤ MZGF_BLOCK_SIZE → 0 ≤ m_boffset r →
  statics_sized (globals r) →
  open fuel fs path r = Returns (ret, r') →
  statics_sized (globals r') ∧ (ret = 0 → in_bounds r').
Proof.
  intros Hzb Hub Hbl Hbo Hst. unfold open.
  destruct (fs path) as [data|]; [|intros ?; by simplify_eq].
  unfold reset_inflate. destruct inflateInit2 as [iret ist]. hsimpl.
  destruct (negb (iret =? Z_OK)) eqn:Hok; hsimpl.
  { intros ?; simplify_eq. split; [done|]. intros Hx; first [discriminate Hx|by subst]. }
  match goal with |- context [_read_header ?e ?n ?rr] =>
    destruct (_read_header e n rr) as [[[ret1 em] r1]| | |] eqn:Hrh
  end; hsimpl; try done.
  pose proof Hst as (Hmz & Heo & Hbi).
  apply _read_header_sizes in Hrh as (Hee & Hzb1 & Hzs1 & Hub1 & Hbl1 & Hbo1
                                      & Hg1); [|done|done].
  cbn in Hzs1, Hub1, Hbl1, Hbo1, Hg1.
  assert (statics_sized
            (mkStatics em (extra_eof (globals r1)) (extra_bindex (globals r1))))
    as Hst1.
  { rewrite Hg1. unfold statics_sized. hsimpl. split_and!; try done.
    by rewrite Hee. }
  destruct (negb (ret1 =? 0)) eqn:Hr1; hsimpl.
  { intros ?; simplify_eq. hsimpl. split; [done|]. intros Hx; first [discriminate Hx|by subst]. }
  destruct (em !! 0%nat) as [b0|]; hsimpl; [|done].
  destruct (em !! 1%nat) as [b1|]; hsimpl; [|done].
  destruct (_ || _); hsimpl.
  { intros ?; simplify_eq. hsimpl. split.
    - done.
    - intros Hx; discriminate Hx. }
  destruct (em !! 4%nat) as [v|]; hsimpl; [|done].
  match goal with |- context [if ?c then Returns (MZGF_BAD_VERSION, _) else _] =>
    destruct c end; hsimpl.
  { intros ?; simplify_eq. hsimpl. split.
    - done.
    - intros Hx; discriminate Hx. }
  match goal with |- context [_read_eof ?rr] =>
    destruct (_read_eof rr) as [[ret2 r2]| | |] eqn:Hre
  end; hsimpl; try done.
  apply _read_eof_sizes in Hre as (Hst2 & Hzb2 & Hzs2 & Hub2 & Hbl2 & Hbo2);
    [|done|done].
  cbn in Hzs2, Hub2, Hbl2, Hbo2.
  destruct (negb (ret2 =? 0)) eqn:Hr2; hsimpl.
  { intros ?; simplify_eq. split; [done|]. intros Hx; first [discriminate Hx|by subst]. }
  destruct (_read_bindex fuel r2) as [[ret3 r3]| | |] eqn:Hrb; hsimpl; try done.
  apply _read_bindex_sizes in Hrb as (Hst3 & Hzb3 & Hzs3 & Hub3 & Hbl3 & Hbo3);
    [|done|done].
  destruct (negb (ret3 =? 0)) eqn:Hr3; hsimpl.
  { intros ?; simplify_eq. split; [done|]. intros Hx; first [discriminate Hx|by subst]. }
  intros ?; simplify_eq. hsimpl. split; [done|]. intros _.
  unfold in_bounds. hsimpl.
  rewrite Hzs3, Hzs2, Hzs1, Hub3, Hub2, Hub1, Hbl3, Hbl2, Hbl1, Hbo3, Hbo2,
    Hbo1. hsimpl.
  split_and!; try done; unfold MZGF_BLOCK_SIZE in *; lia.
Qed.

End reader_bounds.

Lemma len_replicate_block :
  len (replicate (Z.to_nat MZGF_BLOCK_SIZE) 0) = MZGF_BLOCK_SIZE.
Proof. unfold len. rewrite length_replicate. apply Z2Nat.id. done. Qed.

(** A reader whose arrays have their size, in front of a stream of the
    small engine that holds the bytes 7 and 8: a call asking for two
    bytes. *)
Lemma read_stays_in_bounds_witness :
  let block := replicate (Z.to_nat MZGF_BLOCK_SIZE) 0 in
  let r :=
    MZGFileReader.set_fp (Some (fopen_rb [1; 7; 1; 8; 0]))
      (MZGFileReader.set_ublock block
         (MZGFileReader.set_zblock block toy.reader_junk)) in
  ∃ ret data r',
    MZGFileReader.read 2 r = Returns (ret, data, r')
    ∧ in_bounds r' ∧ len data ≤ 2 ∧ (ret = -1 ∨ ret = len data).
Proof.
  intros block r.
  assert (toy.count (MZGFileReader.read 2 r) = Some 2) as Hcount
    by (vm_compute; reflexivity).
  destruct (MZGFileReader.read 2 r) as [[[ret data] r']| | |] eqn:Hread;
    try discriminate Hcount.
  exists ret, data, r'. split; [reflexivity|].
  apply (@read_stays_in_bounds toy.engine 2 r ret data r').
  - unfold in_bounds, r, block. cbn.
    rewrite len_replicate_block. unfold MZGF_BLOCK_SIZE.
    split_and!; try reflexivity; discriminate.
  - discriminate.
  - exact Hread.
Defined.

(** A constructed reader whose arrays have their size opens the file for
    the input 7, 8, 9. *)
Lemma open_stays_in_bounds_witness :
  let block := replicate (Z.to_nat MZGF_BLOCK_SIZE) 0 in
  let junk :=
    MZGFileReader.set_ublock block
      (MZGFileReader.set_zblock block toy.reader_junk) in
  ∃ r',
    MZGFileReader.open 4 (toy.single "in.mgz" (toy.mgz [7; 8; 9])) "in.mgz"
      (MZGFileReader.MZGFileReader statics_init junk)
    = Returns (0, r')
    ∧ statics_sized (MZGFileReader.globals r') ∧ (0 = 0 → in_bounds r').
Proof.
  intros block junk.
  assert (toy.code (MZGFileReader.open 4
                      (toy.single "in.mgz" (toy.mgz [7; 8; 9])) "in.mgz"
                      (MZGFileReader.MZGFileReader statics_init junk))
          = Some 0) as Hcode by (vm_compute; reflexivity).
  destruct (MZGFileReader.open 4 _ _ _) as [[ret r']| | |] eqn:Hopen;
    try discriminate Hcode.
  injection Hcode as ->.
  exists r'. split; [reflexivity|].
  apply (@open_stays_in_bounds toy.engine 4
           (toy.single "in.mgz" (toy.mgz [7; 8; 9])) "in.mgz"
           (MZGFileReader.MZGFileReader statics_init junk) 0 r').
  - exact len_replicate_block.
  - exact len_replicate_block.
  - split; discriminate.
  - discriminate.
  - exact statics_init_sized.
  - exact Hopen.
Defined.
(** ** What [open] accepts and what it recovers *)

Section open_accepts.
Context `{Zl : zlib}.
Import MZGFileReader.

Implicit Types (r : MZGFileReader.t).

Ltac osimpl :=
  cbn -[_read_header _read_eof _read_bindex _read_bindex_loop
        _read_bindex_entries Z.add Z.sub Z.opp len prefix from uint16_t
        elem_of].

Ltac code_in := rewrite !elem_of_cons; repeat first [by left | right].

(** The header check looks at the first three of the twelve bytes read. *)
Lemma store_prefix_magic X zb a b c :
  len (prefix sizeof_gzheader X) = sizeof_gzheader →
  store (prefix sizeof_gzheader X) zb !! 0%nat = Some a →
  store (prefix sizeof_gzheader X) zb !! 1%nat = Some b →
  store (prefix sizeof_gzheader X) zb !! 2%nat = Some c →
  prefix 3 X = [a; b; c].
Proof.
  unfold store, prefix, len, sizeof_gzheader.
  change (Z.to_nat 12) with 12%nat. change (Z.to_nat 3) with 3%nat.
  destruct X as [|x0 [|x1 [|x2 X]]]; cbn; try (intros; lia).
  by intros _ [= ->] [= ->] [= ->].
Qed.

Lemma magic_checked id1 id2 cm :
  negb (id1 =? GZIP_MAGIC_ID1) || negb (id2 =? GZIP_MAGIC_ID2)
  || negb (cm =? GZIP_CM_DEFLATED) = false →
  id1 = GZIP_MAGIC_ID1 ∧ id2 = GZIP_MAGIC_ID2 ∧ cm = GZIP_CM_DEFLATED.
Proof.
  intros H. apply orb_false_iff in H as [H H3].
  apply orb_false_iff in H as [H1 H2].
  apply negb_false_iff, Z.eqb_eq in H1, H2, H3. done.
Qed.

Lemma _read_header_accepts extra extralen r ret e r' :
  _read_header extra extralen r = Returns (ret, e, r') →
  ret ∈ [0; 1; MZGF_NOT_GZIP; MZGF_ERR_HEADER; MZGF_BAD_FORMAT]
  ∧ m_version r' = m_version r
  ∧ m_zoffset r ≤ m_zoffset r'
  ∧ m_isEOF r' = m_isEOF r
  ∧ f_data <$> m_fp r' = f_data <$> m_fp r
  ∧ (ret = 0 →
       ∃ fp, m_fp r = Some fp
         ∧ prefix 3 (from (f_pos fp) (f_data fp))
           = [GZIP_MAGIC_ID1; GZIP_MAGIC_ID2; GZIP_CM_DEFLATED]).
Proof.
  unfold _read_header, stream, fread.
  destruct (m_fp r) as [fp|] eqn:Hfp; osimpl; [|done].
  set (X := from (f_pos fp) (f_data fp)).
  destruct (f_err fp); osimpl.
  { intros ?; simplify_eq. osimpl. split_and!; [code_in|done|lia|done|done|done]. }
  destruct (negb (len (prefix sizeof_gzheader X) =? sizeof_gzheader)) eqn:Hlen;
    osimpl.
  { intros ?; simplify_eq. osimpl. split_and!; [code_in|done|lia|done|done|done]. }
  apply negb_false_iff, Z.eqb_eq in Hlen.
  destruct (store _ (m_zblock r) !! 0%nat) as [id1|] eqn:H0; osimpl; [|done].
  destruct (store _ (m_zblock r) !! 1%nat) as [id2|] eqn:H1; osimpl; [|done].
  destruct (store _ (m_zblock r) !! 2%nat) as [cm|] eqn:H2; osimpl; [|done].
  destruct (_ || _) eqn:Hm; osimpl.
  { intros ?; simplify_eq. osimpl.
    split_and!; [code_in|done|unfold sizeof_gzheader; lia|done|done|done]. }
  apply magic_checked in Hm as (-> & -> & ->).
  pose proof (store_prefix_magic X _ _ _ _ Hlen H0 H1 H2) as Hmagic.
  destruct (unpackInt32 _ 4) as [mt|]; osimpl; [|done].
  destruct (store _ (m_zblock r) !! 3%nat) as [flag|]; osimpl; [|done].
  destruct (unpackInt16 _ 10) as [x|]; osimpl; [|done].
  assert (0 ≤ uint16_t x) by (unfold uint16_t; apply Z.mod_pos_bound; lia).
  destruct (_ && _); osimpl.
  { intros ?; simplify_eq. osimpl.
    split_and!; [code_in|done|unfold sizeof_gzheader; lia|done|done|done]. }
  destruct (extralen <? uint16_t x); osimpl.
  { intros ?; simplify_eq. osimpl.
    split_and!; [code_in|done|unfold sizeof_gzheader; lia|done|done|done]. }
  destruct (negb (_ =? uint16_t x)); osimpl; intros ?; simplify_eq; osimpl.
  - split_and!; [code_in|done|unfold sizeof_gzheader; lia|done|done|done].
  - split_and!; [code_in|done|unfold sizeof_gzheader; lia|done|done|].
    intros _. by exists fp.
Qed.

Lemma _read_eof_accepts r ret r' :
  _read_eof r = Returns (ret, r') →
  ret ∈ [0; 1; MZGF_NOT_GZIP; MZGF_ERR_HEADER; MZGF_BAD_FORMAT]
  ∧ m_version r' = m_version r
  ∧ m_zoffset r ≤ m_zoffset r'
  ∧ m_isEOF r' = m_isEOF r
  ∧ (ret = 0 →
       ∃ fp, m_fp r = Some fp ∧ 42 ≤ len (f_data fp)
         ∧ prefix 3 (from (len (f_data fp) - 42) (f_data fp))
           = [GZIP_MAGIC_ID1; GZIP_MAGIC_ID2; GZIP_CM_DEFLATED]).
Proof.
  unfold _read_eof, stream.
  destruct (m_fp r) as [fp|]; osimpl; [|done].
  unfold fseek_end, fseek_set.
  replace (len (f_data fp)
           + - (sizeof_gzheader + sizeof_extra_eof + 2 + 4 + 4))
    with (len (f_data fp) - 42)
    by (unfold sizeof_gzheader, sizeof_extra_eof; lia).
  destruct (Z.ltb_spec (len (f_data fp) - 42) 0) as [?|Hlen]; osimpl.
  { intros ?; simplify_eq. osimpl. split_and!; [code_in|done|lia|done|done]. }
  match goal with |- context [_read_header ?e ?n ?rr] =>
    destruct (_read_header e n rr) as [[[ret1 ee] r1]| | |] eqn:Hrh
  end; osimpl; try done.
  apply _read_header_accepts in Hrh as (Hc & Hv & Hz & Hie & _ & Hm).
  cbn in Hv, Hz, Hie, Hm.
  destruct (Z.eqb_spec ret1 0) as [->|Hne]; osimpl.
  2: { intros ?; simplify_eq. osimpl. by split_and!. }
  destruct (Hm eq_refl) as (fp1 & [= <-] & Hmagic). cbn in Hmagic.
  destruct (ee !! 0%nat) as [b0|]; osimpl; [|done].
  destruct (ee !! 1%nat) as [b1|]; osimpl; [|done].
  destruct (_ || _); osimpl.
  2: { intros ?; simplify_eq. osimpl. split_and!; [code_in|done|lia|done|done]. }
  destruct (unpackInt64 ee 4) as [usize|]; osimpl; [|done].
  destruct (unpackInt64 ee 12) as [bo|]; osimpl; [|done].
  unfold stream. osimpl.
  destruct (m_fp r1) as [fp2|]; osimpl; [|done].
  destruct (ftell fp <? 0); osimpl; intros ?; simplify_eq; osimpl.
  - split_and!; [code_in|done|lia|done|done].
  - split_and!; [code_in|done|lia|done|].
    intros _. exists fp. split_and!; [done|lia|done].
Qed.

Lemma _read_bindex_loop_accepts fuel :
  ∀ offset r ret r',
    _read_bindex_loop fuel offset r = Returns (ret, r') →
    ret ∈ [0; 1; MZGF_NOT_GZIP; MZGF_ERR_HEADER; MZGF_BAD_FORMAT]
    ∧ m_version r' = m_version r
    ∧ m_zoffset r ≤ m_zoffset r'
    ∧ m_isEOF r' = m_isEOF r.
Proof.
  induction fuel as [|fuel IH]; intros offset r ret r'; cbn [_read_bindex_loop].
  { destruct (offset =? 0); [|done]. intros ?; simplify_eq.
    split_and!; [code_in|done|lia|done]. }
  destruct (offset =? 0).
  { intros ?; simplify_eq. split_and!; [code_in|done|lia|done]. }
  unfold stream, fseek_set.
  destruct (m_fp r) as [fp|]; osimpl; [|done].
  destruct (offset <? 0); osimpl.
  { intros ?; simplify_eq. osimpl. split_and!; [code_in|done|lia|done]. }
  match goal with |- context [_read_header ?e ?n ?rr] =>
    destruct (_read_header e n rr) as [[[ret1 eb] r1]| | |] eqn:Hrh
  end; osimpl; try done.
  apply _read_header_accepts in Hrh as (Hc & Hv & Hz & Hie & _ & _).
  cbn in Hv, Hz, Hie.
  destruct (negb (ret1 =? 0)); osimpl.
  { intros ?; simplify_eq. osimpl. by split_and!. }
  destruct (eb !! 0%nat) as [b0|]; osimpl; [|done].
  destruct (eb !! 1%nat) as [b1|]; osimpl; [|done].
  destruct (_ || _); osimpl.
  2: { intros ?; simplify_eq. osimpl. split_and!; [code_in|done|lia|done]. }
  destruct (unpackInt16 eb 2) as [count|]; osimpl; [|done].
  destruct (unpackInt64 eb 4) as [next|]; osimpl; [|done].
  destruct (_read_bindex_entries _ _ _ _ _) as [ix| | |]; osimpl; try done.
  intros H. apply IH in H as (? & Hv' & Hz' & Hie'). cbn in Hv', Hz', Hie'.
  split_and!; [done|congruence|lia|congruence].
Qed.

Lemma _read_bindex_accepts fuel r ret r' :
  _read_bindex fuel r = Returns (ret, r') →
  ret ∈ [0; 1; MZGF_NOT_GZIP; MZGF_ERR_HEADER; MZGF_BAD_FORMAT]
  ∧ m_version r' = m_version r
  ∧ m_zoffset r ≤ m_zoffset r'
  ∧ m_isEOF r' = m_isEOF r.
Proof.
  unfold _read_bindex, stream, fseek_set.
  destruct (m_fp r) as [fp|]; osimpl; [|done].
  destruct (_read_bindex_loop fuel _ r) as [[ret1 r1]| | |] eqn:Hl; osimpl;
    try done.
  apply _read_bindex_loop_accepts in Hl as (Hc & Hv & Hz & Hie).
  destruct (negb (ret1 =? 0)); osimpl.
  { intros ?; simplify_eq. by split_and!. }
  destruct (m_fp r1) as [fp1|]; osimpl; [|done].
  destruct (ftell fp <? 0); osimpl; intros ?; simplify_eq; osimpl;
    split_and!; first [done|code_in].
Qed.

Lemma open_checked fuel fs path r ret r' :
  open fuel fs path r = Returns (ret, r') →
  ret ∈ [0; 1; MZGF_NOT_GZIP; MZGF_NOT_MZGZIP; MZGF_ERR_HEADER;
         MZGF_BAD_FORMAT; MZGF_BAD_VERSION]
  ∧ (fs path = None → ret = 1)
  ∧ (ret = 0 →
       ∃ F, fs path = Some F ∧ 42 ≤ len F
         ∧ prefix 3 F = [GZIP_MAGIC_ID1; GZIP_MAGIC_ID2; GZIP_CM_DEFLATED]
         ∧ prefix 3 (from (len F - 42) F)
           = [GZIP_MAGIC_ID1; GZIP_MAGIC_ID2; GZIP_CM_DEFLATED]
         ∧ version r' = MZGF_VERSION ∧ zfilesize r' = len F
         ∧ eof r' = false ∧ 0 ≤ vtell r').
Proof.
  unfold open.
  destruct (fs path) as [data|].
  2: { intros ?; simplify_eq. osimpl.
       split_and!; [code_in|done|intros Hx; discriminate Hx]. }
  unfold reset_inflate. destruct inflateInit2 as [iret ist]. osimpl.
  destruct (negb (iret =? Z_OK)); osimpl.
  { intros ?; simplify_eq. osimpl.
    split_and!; [code_in|done|intros Hx; discriminate Hx]. }
  match goal with |- context [_read_header ?e ?n ?rr] =>
    destruct (_read_header e n rr) as [[[ret1 em] r1]| | |] eqn:Hrh
  end; osimpl; try done.
  apply _read_header_accepts in Hrh as (Hc1 & Hv1 & Hz1 & Hie1 & Hfd1 & Hm1).
  cbn in Hv1, Hz1, Hie1, Hfd1, Hm1.
  destruct (Z.eqb_spec ret1 0) as [->|Hne]; osimpl.
  2: { intros ?; simplify_eq. osimpl. split_and!; [|done|done].
       revert Hc1. rewrite !elem_of_cons. tauto. }
  destruct (Hm1 eq_refl) as (fp1 & [= <-] & Hmagic). cbn in Hmagic.
  rewrite from_0 in Hmagic.
  destruct (em !! 0%nat) as [b0|]; osimpl; [|done].
  destruct (em !! 1%nat) as [b1|]; osimpl; [|done].
  destruct (_ || _); osimpl.
  { intros ?; simplify_eq. osimpl.
    split_and!; [code_in|done|intros Hx; discriminate Hx]. }
  destruct (em !! 4%nat) as [v|]; osimpl; [|done].
  match goal with
  | |- context [if ?c then Returns (MZGF_BAD_VERSION, _) else _] =>
      destruct c eqn:Hver
  end; osimpl.
  { intros ?; simplify_eq. osimpl.
    split_and!; [code_in|done|intros Hx; discriminate Hx]. }
  apply negb_false_iff in Hver.
  assert (v = 1) as ->
    by (destruct v; try discriminate Hver; by apply Pos.eqb_eq in Hver as <-).
  match goal with |- context [_read_eof ?rr] =>
    destruct (_read_eof rr) as [[ret2 r2]| | |] eqn:Hre
  end; osimpl; try done.
  apply _read_eof_accepts in Hre as (Hc2 & Hv2 & Hz2 & Hie2 & Hm2).
  cbn in Hv2, Hz2, Hie2, Hm2.
  destruct (Z.eqb_spec ret2 0) as [->|Hne2]; osimpl.
  2: { intros ?; simplify_eq. osimpl. split_and!; [|done|done].
       revert Hc2. rewrite !elem_of_cons. tauto. }
  destruct (_read_bindex fuel r2) as [[ret3 r3]| | |] eqn:Hrb; osimpl; try done.
  apply _read_bindex_accepts in Hrb as (Hc3 & Hv3 & Hz3 & Hie3).
  destruct (Z.eqb_spec ret3 0) as [->|Hne3]; osimpl.
  2: { intros ?; simplify_eq. osimpl. split_and!; [|done|done].
       revert Hc3. rewrite !elem_of_cons. tauto. }
  intros ?; simplify_eq. osimpl. split_and!; [code_in|done|].
  intros _. exists data.
  destruct (Hm2 eq_refl) as (fp2 & Hfp2 & Hlen2 & Hmagic2).
  rewrite Hfp2 in Hfd1. injection Hfd1 as Hfd1. rewrite Hfd1 in Hlen2, Hmagic2.
  unfold version, zfilesize, eof, vtell. osimpl.
  change MZGF_VERSION with 1 in *.
  split_and!; try done; try congruence; try lia.
Qed.

(** What [open] has checked when it returns.  Its value is 0 or one of six
    error codes; every failure of the C library or of [inflateInit2] is
    reported as 1.  It is 0 only for a file of at least 42 bytes that
    starts with the three bytes [1f 8b 08] of a gzip member and has them
    again 42 bytes before its end, where the EOF member is looked for; the
    reader is then at the start of the stream, [version()] is 1 and
    [zfilesize()] is the length of the file. *)
Theorem open_accepts_only_gzip fuel fs path r ret r' :
  open fuel fs path r = Returns (ret, r') →
  ret ∈ [0; 1; MZGF_NOT_GZIP; MZGF_NOT_MZGZIP; MZGF_ERR_HEADER;
         MZGF_BAD_FORMAT; MZGF_BAD_VERSION]
  ∧ (fs path = None → ret = 1)
  ∧ (ret = 0 →
       ∃ F, fs path = Some F ∧ 42 ≤ len F
         ∧ prefix 3 F = [GZIP_MAGIC_ID1; GZIP_MAGIC_ID2; GZIP_CM_DEFLATED]
         ∧ prefix 3 (from (len F - 42) F)
           = [GZIP_MAGIC_ID1; GZIP_MAGIC_ID2; GZIP_CM_DEFLATED]
         ∧ version r' = MZGF_VERSION ∧ zfilesize r' = len F
         ∧ eof r' = false ∧ 0 ≤ vtell r').
Proof. apply open_checked. Qed.

End open_accepts.

(** ** A written file, opened *)

Section written_file_opened.
Context `{Zl : zlib}.

Lemma deflate_open_meta fuel input w w' src' dst' fuelr fs path r r' :
  statics_intact (MZGFileWriter.globals w) → MZGFileWriter.m_bindex w = [] →
  MZGFileWriter.deflate fuel (fopen_rb input) (fopen_wb []) w
  = Some (0, w', src', dst') →
  inflateInit2.1 = Z_OK →
  len input < 2 ^ 63 → len (f_data dst') < 2 ^ 63 →
  fs path = Some (f_data dst') →
  (length (MZGFileWriter.m_bindex w') ≤ fuelr)%nat →
  MZGFileReader.open fuelr fs path r = Returns (0, r') →
  MZGFileReader.m_mtime r' = uint32_t (MZGFileWriter.m_mtime w)
  ∧ MZGFileReader.m_version r' = MZGF_VERSION.
Proof.
  intros Hg Hnil Hrun Hinit Hin HlenF Hfs Hfuel Hopen.
  destruct (deflate_then_open fuel input w w' src' dst' fuelr fs path r)
    as (rounds & r1 & Hr & Hd & Hb & Hopen1 & _); try done.
  destruct (deflate_rounds_cons _ _ _ _ Hr) as (out & rs & Hcons).
  destruct (deflate_rounds_blocks _ _ _ _ Hr) as (Hn & Hcat & Hux).
  pose proof (len_mzgf_file (MZGFileWriter.m_mtime w) (MZGFileWriter.globals w)
                crc32_init (payload_of rounds) (crc_of rounds) (len input)
                (index_of 17 0 rounds) Hg) as [HF1 _].
  cbn zeta in HF1. rewrite <- Hd in HF1.
  pose proof (len_nonneg input) as Hin0.
  destruct (open_spec_meta fuelr fs path r (MZGFileWriter.m_mtime w)
              (MZGFileWriter.globals w) crc32_init (payload_of rounds)
              (crc_of rounds) (len input) (index_of 17 0 rounds))
    as (r2 & Hopen2 & _ & _ & _ & _ & _ & _ & _ & _ & Hmt & Hv).
  - by rewrite <- Hd.
  - done.
  - done.
  - rewrite Hcons. by destruct out.
  - eapply Forall_impl; [apply index_of_range|]. cbn beta.
    rewrite Hcat. intros e. unfold in_range. lia.
  - by rewrite <- Hb.
  - lia.
  - by rewrite <- Hd.
  - rewrite Hopen in Hopen2. by simplify_eq.
Qed.

(** What [open] recovers from a file that [deflate] wrote for the input
    [B]: [version()] is 1, [mtime()] is the time stamp of the writer cut to
    32 bits, [ufilesize()] is the length of [B], [zfilesize()] the length
    of the file, and [bindex()] the index the writer built.  These are the
    values that the listing of the front end prints. *)
Theorem open_recovers_metadata B now g junkw fuel w' src' dst' fs path fuelr
    gr junkr r :
  statics_intact g → inflateInit2.1 = Z_OK → len B < 2 ^ 63 →
  MZGFileWriter.deflate fuel (fopen_rb B) (fopen_wb [])
    (MZGFileWriter.MZGFileWriter now g junkw)
  = Some (0, w', src', dst') →
  len (f_data dst') < 2 ^ 63 → fs path = Some (f_data dst') →
  (length (MZGFileWriter.m_bindex w') ≤ fuelr)%nat →
  MZGFileReader.open fuelr fs path (MZGFileReader.MZGFileReader gr junkr)
  = Returns (0, r) →
  MZGFileReader.version r = MZGF_VERSION
  ∧ MZGFileReader.mtime r = uint32_t now
  ∧ MZGFileReader.ufilesize r = len B
  ∧ MZGFileReader.zfilesize r = len (f_data dst')
  ∧ MZGFileReader.bindex r = MZGFileWriter.m_bindex w'.
Proof.
  intros Hg Hinit HB Hrun HlenF Hfs Hfuel Hopen.
  set (w := MZGFileWriter.MZGFileWriter now g junkw) in *.
  set (r0 := MZGFileReader.MZGFileReader gr junkr) in *.
  destruct (deflate_open_meta fuel B w w' src' dst' fuelr fs path r0 r)
    as [Hmt Hv]; try done.
  destruct (deflate_then_open fuel B w w' src' dst' fuelr fs path r0)
    as (rounds & r1 & _ & _ & _ & Hopen1 & _ & Hix & Hus & Hzf & _);
    try done.
  rewrite Hopen in Hopen1. injection Hopen1 as <-.
  unfold MZGFileReader.version, MZGFileReader.mtime, MZGFileReader.ufilesize,
    MZGFileReader.zfilesize, MZGFileReader.bindex.
  by split_and!.
Qed.

(** [open] does not empty the index first.  A reader that has opened the
    file written for [A], is closed, and then opens the file written for
    [B] holds the entries of [A] followed by those of [B]; [ufilesize()]
    is the length of [B]. *)
Theorem reopen_appends_index A B nowA nowB gA gB junkA junkB fuelA fuelB
    wA srcA dstA wB srcB dstB fs pathA pathB fuelr gr junkr r1 :
  statics_intact gA → statics_intact gB → inflateInit2.1 = Z_OK →
  len A < 2 ^ 63 → len B < 2 ^ 63 →
  MZGFileWriter.deflate fuelA (fopen_rb A) (fopen_wb [])
    (MZGFileWriter.MZGFileWriter nowA gA junkA)
  = Some (0, wA, srcA, dstA) →
  MZGFileWriter.deflate fuelB (fopen_rb B) (fopen_wb [])
    (MZGFileWriter.MZGFileWriter nowB gB junkB)
  = Some (0, wB, srcB, dstB) →
  len (f_data dstA) < 2 ^ 63 → len (f_data dstB) < 2 ^ 63 →
  fs pathA = Some (f_data dstA) → fs pathB = Some (f_data dstB) →
  (length (MZGFileWriter.m_bindex wA) ≤ fuelr)%nat →
  (length (MZGFileWriter.m_bindex wB) ≤ fuelr)%nat →
  MZGFileReader.open fuelr fs pathA (MZGFileReader.MZGFileReader gr junkr)
  = Returns (0, r1) →
  ∃ r2,
    MZGFileReader.open fuelr fs pathB (MZGFileReader.close r1)
    = Returns (0, r2)
    ∧ MZGFileReader.bindex r2
      = MZGFileWriter.m_bindex wA ++ MZGFileWriter.m_bindex wB
    ∧ MZGFileReader.ufilesize r2 = len B.
Proof.
  intros HgA HgB Hinit HA HB HrunA HrunB HlenA HlenB HfsA HfsB HfuelA HfuelB
    Hopen.
  destruct (deflate_then_open fuelA A
              (MZGFileWriter.MZGFileWriter nowA gA junkA) wA srcA dstA fuelr
              fs pathA (MZGFileReader.MZGFileReader gr junkr))
    as (roundsA & r1' & _ & _ & _ & Hopen1 & _ & Hix1 & _); try done.
  rewrite Hopen in Hopen1. injection Hopen1 as <-.
  destruct (deflate_then_open fuelB B
              (MZGFileWriter.MZGFileWriter nowB gB junkB) wB srcB dstB fuelr
              fs pathB (MZGFileReader.close r1))
    as (roundsB & r2 & _ & _ & _ & Hopen2 & _ & Hix2 & Hus2 & _); try done.
  exists r2. split_and!; [done| |done].
  unfold MZGFileReader.bindex. rewrite Hix2. cbn. by rewrite Hix1.
Qed.

End written_file_opened.

(** ** Seeks that fail or overshoot *)

Section stray_seeks.
Context `{Zl : zlib}.
Import MZGFileReader.

Ltac rsimpl :=
  cbn [m_fp m_zs m_version m_mtime m_isEOF m_zfilesize m_ufilesize m_zblock
       m_zoffset m_ublock m_uoffset m_blen m_boffset m_bindex m_bindex_offset
       m_error globals set_fp set_zs set_version set_mtime set_isEOF
       set_zfilesize set_ufilesize set_zblock set_zoffset set_ublock
       set_uoffset set_blen set_boffset set_bindex set_bindex_offset set_error
       set_globals zs_state next_in avail_in avail_out obind defined negb
       f_data f_pos f_eof f_err f_script feof ferror ftell z_ret z_state
       z_used z_out].

(** [voffset & 0xFFFF] fits the [int] it is stored in. *)
Lemma block_offset_range voffset :
  0 ≤ Z.land voffset 0xFFFF < 2 ^ 16
  ∧ int32_t (Z.land voffset 0xFFFF) = Z.land voffset 0xFFFF.
Proof.
  change 0xFFFF with (Z.ones 16). rewrite Z.land_ones by lia.
  pose proof (Z.mod_pos_bound voffset (2 ^ 16) eq_refl) as H.
  split; [lia|]. unfold int32_t. rewrite Z.mod_small; lia.
Qed.

(** A virtual offset whose block offset lies at or behind the end of the
    file, given to a reader with an open file: [vseek] succeeds, as
    [fseek] does there, and the first [read] finds no byte to inflate.
    The loop of the front end writes nothing and ends with -1; the reader
    is not at [eof()]. *)
Theorem decompress_past_end_fails fuel voffset opt_uoffset size r fp :
  inflateInit2.1 = Z_OK → m_fp r = Some fp →
  len (f_data fp) ≤ voffset ≫ 16 → voffset ≫ 16 ≠ vtell r → 0 < size →
  ∃ r',
    mzgzip.decompress (S fuel) voffset opt_uoffset size r
    = Returns (-1, [], r')
    ∧ eof r' = false.
Proof.
  intros Hinit Hfp Hlen Hne Hsize.
  pose proof (len_nonneg (f_data fp)) as Hl0.
  assert (0 ≤ voffset) as Hv0.
  { destruct (Z.shiftr_neg voffset 16) as [_ Hn].
    destruct (Z.lt_ge_cases voffset 0) as [Hlt|?]; [|done].
    specialize (Hn Hlt). lia. }
  destruct (block_offset_range voffset) as [Hb Hi32].
  unfold mzgzip.decompress.
  destruct (Z.eqb_spec voffset (-1)) as [?|_]; [lia|]. cbn [negb].
  unfold vseek. cbn zeta. rewrite Hi32. rsimpl.
  destruct (Z.eqb_spec (voffset ≫ 16) (m_zoffset r)) as [?|_]; [done|].
  unfold stream. rsimpl. rewrite Hfp. rsimpl.
  unfold fseek_set. destruct (Z.ltb_spec (voffset ≫ 16) 0) as [?|_]; [lia|].
  cbn [Z.eqb negb]. unfold reset_inflate.
  destruct inflateInit2 as [iret ist]. cbn [fst] in Hinit. subst iret.
  rsimpl. cbn [Z.eqb Z_OK negb]. rsimpl. cbn [Z.eqb negb].
  set (b := Z.land voffset 65535) in *.
  set (fp1 := mkFILE _ _ _ _ _).
  set (r1 := set_zs _ _).
  assert (m_isEOF r1 = false ∧ m_blen r1 = 0 ∧ m_boffset r1 = b
          ∧ m_fp r1 = Some fp1 ∧ avail_in (m_zs r1) = 0) as (He & Hbl & Hbo
                                                            & Hfp1 & Hav)
    by done.
  clearbody r1.
  assert (_read_block r1
          = Returns (-1, set_error
                           (if ferror fp1 then strerror_errno
                            else message "read past end of file")
                           (set_zs (mkZstream (zs_state (m_zs r1)) 0 0
                                      MZGF_BLOCK_SIZE)
                              (set_fp (Some (mkFILE (f_data fp) (voffset ≫ 16)
                                               true (f_err fp) (f_script fp)))
                                 (set_zblock (m_zblock r1)
                                    (set_zs (mkZstream (zs_state (m_zs r1))
                                               (next_in (m_zs r1)) 0
                                               MZGF_BLOCK_SIZE) r1))))))
    as Hblock.
  { unfold _read_block, stream. cbn zeta. rsimpl. rewrite Hav. cbn [Z.eqb].
    rewrite Hfp1. rsimpl. unfold fread, fp1. rsimpl.
    assert (from (voffset ≫ 16) (f_data fp) = []) as ->.
    { unfold from. apply drop_ge. unfold len in Hlen. lia. }
    unfold prefix. rewrite take_nil. change (len []) with 0.
    rewrite Z.add_0_r. unfold store. cbn [length drop app].
    rsimpl. cbn [Z.eqb Z.ltb Z.compare negb andb orb MZGF_BLOCK_SIZE].
    by destruct (f_err fp). }
  set (have := if size <? MZGF_BLOCK_SIZE then size else MZGF_BLOCK_SIZE).
  assert (0 < have) as Hhave.
  { unfold have, MZGF_BLOCK_SIZE. destruct (size <? 65280); lia. }
  cbn [mzgzip.decompress_loop].
  destruct (Z.ltb_spec 0 size) as [_|?]; [|lia].
  unfold eof at 1. rewrite He. cbn [negb andb]. fold have.
  unfold read. unfold eof at 1. rewrite He.
  destruct (read_fuel have r1) as [|n] eqn:Hrf.
  { unfold read_fuel in Hrf. lia. }
  cbn [read_loop]. destruct (Z.ltb_spec 0 have) as [_|?]; [|lia].
  rewrite Hbl, Hbo. destruct (Z.leb_spec (0 - b) 0) as [_|?]; [|lia].
  rewrite Hblock. cbn [obind Z.eqb Pos.eqb negb].
  eexists. split; [reflexivity|]. unfold eof. rsimpl. done.
Qed.

End stray_seeks.

Section failed_seek.
Context `{Zl : zlib} {codec : zlib_codec}.
Import MZGFileReader.

(** [vseek] with a negative virtual offset, on a file that [deflate] wrote
    for [B] and that [open] has just opened: [fseek] refuses the negative
    position and [vseek] returns 1, having already stored
    [voffset & 0xFFFF] in [m_boffset].  The front end takes only -1 for a
    failure, so its loop runs: it writes the bytes of [B] from offset
    [voffset & 0xFFFF] on, at most [size] of them. *)
Theorem decompress_overlooks_failed_vseek B now g junkw fuel w' src' dst' fs
    path fuelr gr junkr r voffset opt_uoffset size :
  statics_intact g → len B < 2 ^ 63 →
  MZGFileWriter.deflate fuel (fopen_rb B) (fopen_wb [])
    (MZGFileWriter.MZGFileWriter now g junkw)
  = Some (0, w', src', dst') →
  len (f_data dst') < 2 ^ 63 → fs path = Some (f_data dst') →
  (length (MZGFileWriter.m_bindex w') ≤ fuelr)%nat →
  MZGFileReader.open fuelr fs path (MZGFileReader.MZGFileReader gr junkr)
  = Returns (0, r) →
  voffset < -1 → Z.land voffset 0xFFFF < len B →
  (∃ r1, vseek voffset r = Returns (1, r1))
  ∧ ∃ fuel' ret r',
      mzgzip.decompress fuel' voffset opt_uoffset size r
      = Returns (ret, prefix size (from (Z.land voffset 0xFFFF) B), r').
Proof.
  intros Hg HB Hrun HlenF Hfs Hfuel Hopen Hv Hin.
  destruct (deflate_open_reading B now g junkw fuel w' src' dst' fs path
              fuelr gr junkr r)
    as (rounds & hd & tail & Hr & HF & Hhd & Htail & Hfp & Hix & Hrd & _ & _);
    try done.
  destruct (deflate_then_open fuel B (MZGFileWriter.MZGFileWriter now g junkw)
              w' src' dst' fuelr fs path
              (MZGFileReader.MZGFileReader gr junkr))
    as (rounds' & r0 & _ & _ & _ & Hopen0 & _ & _ & _ & _ & _ & Hie & Hbl & _);
    try done; [exact inflateInit2_ok|].
  rewrite Hopen in Hopen0. injection Hopen0 as <-.
  change (m_blen (MZGFileReader.MZGFileReader gr junkr)) with 0 in Hbl.
  destruct (open_checked _ _ _ _ _ _ Hopen) as (_ & _ & Hok).
  destruct (Hok eq_refl) as (F & _ & _ & _ & _ & _ & _ & _ & Hz).
  unfold vtell in Hz.
  destruct (block_offset_range voffset) as [Hb Hi32].
  set (b := Z.land voffset 65535) in *.
  assert (voffset ≫ 16 < 0) as Hneg by (apply Z.shiftr_neg; lia).
  set (r1 := set_error strerror_errno
               (set_fp (Some (rd (f_data dst') 17)) (set_boffset b r))).
  assert (vseek voffset r = Returns (1, r1)) as Hseek.
  { unfold vseek. cbn zeta. fold b. rewrite Hi32. cbn [set_boffset m_zoffset].
    destruct (Z.eqb_spec (voffset ≫ 16) (m_zoffset r)) as [?|_]; [lia|].
    unfold stream. cbn [set_boffset m_fp]. rewrite Hfp. cbn [defined obind].
    unfold fseek_set. destruct (Z.ltb_spec (voffset ≫ 16) 0) as [_|?]; [|lia].
    done. }
  assert (seeking (f_data dst') tail r1 (payload_of rounds) B) as Hs.
  { apply (seeking_intro (f_data dst') tail r r1); try done.
    unfold r1. cbn [set_error set_fp set_boffset m_boffset]. lia. }
  set (fuel' := Z.to_nat (remaining r1 (payload_of rounds) B)).
  destruct (decompress_loop_positioned (f_data dst') tail Htail fuel' size 1
              [] r1 _ _ (or_intror Hs))
    as (ret & r' & Hdl & _).
  { unfold fuel', remaining.
    pose proof (len_nonneg (payload_of rounds)).
    pose proof (len_nonneg B). pose proof (len_nonneg (buffered r1)).
    destruct (m_isEOF r1); lia. }
  split; [by exists r1|].
  exists fuel', ret, r'. unfold mzgzip.decompress.
  destruct (Z.eqb_spec voffset (-1)) as [?|_]; [lia|]. cbn [negb].
  rewrite Hseek. cbn [obind Z.eqb negb].
  rewrite Hdl. rewrite (pending_seeking _ _ _ _ _ Hs). done.
Qed.

End failed_seek.

(** The file of the small engine for the input 7, 8, 9 is accepted. *)
Lemma open_accepts_only_gzip_witness :
  ∃ r,
    MZGFileReader.open 4 (toy.single "in.mgz" (toy.mgz [7; 8; 9])) "in.mgz"
      (MZGFileReader.MZGFileReader statics_init toy.reader_junk)
    = Returns (0, r)
    ∧ 0 ∈ [0; 1; MZGF_NOT_GZIP; MZGF_NOT_MZGZIP; MZGF_ERR_HEADER;
           MZGF_BAD_FORMAT; MZGF_BAD_VERSION]
    ∧ (toy.single "in.mgz" (toy.mgz [7; 8; 9]) "in.mgz" = None → 0 = 1)
    ∧ (0 = 0 →
         ∃ F, toy.single "in.mgz" (toy.mgz [7; 8; 9]) "in.mgz" = Some F
           ∧ 42 ≤ len F
           ∧ prefix 3 F = [GZIP_MAGIC_ID1; GZIP_MAGIC_ID2; GZIP_CM_DEFLATED]
           ∧ prefix 3 (from (len F - 42) F)
             = [GZIP_MAGIC_ID1; GZIP_MAGIC_ID2; GZIP_CM_DEFLATED]
           ∧ MZGFileReader.version r = MZGF_VERSION
           ∧ MZGFileReader.zfilesize r = len F
           ∧ MZGFileReader.eof r = false ∧ 0 ≤ MZGFileReader.vtell r).
Proof.
  destruct toy_sample as (w' & src' & dst' & r & Hrun & Hlen & Hfuel & Hm
                          & Hopen & Hix & Hvt).
  exists r. rewrite Hm. split; [exact Hopen|].
  apply (@open_accepts_only_gzip toy.engine 4
           (toy.single "in.mgz" (f_data dst')) "in.mgz"
           (MZGFileReader.MZGFileReader statics_init toy.reader_junk) 0 r).
  exact Hopen.
Defined.

(** The same file, written at time 1000. *)
Lemma open_recovers_metadata_witness :
  ∃ w' src' dst' r,
    @MZGFileWriter.deflate toy.engine 8 (fopen_rb [7; 8; 9]) (fopen_wb [])
      (MZGFileWriter.MZGFileWriter 1000 statics_init toy.writer_junk)
    = Some (0, w', src', dst')
    ∧ MZGFileReader.open 4 (toy.single "in.mgz" (f_data dst')) "in.mgz"
        (MZGFileReader.MZGFileReader statics_init toy.reader_junk)
      = Returns (0, r)
    ∧ MZGFileReader.version r = MZGF_VERSION
    ∧ MZGFileReader.mtime r = uint32_t 1000
    ∧ MZGFileReader.ufilesize r = len [7; 8; 9]
    ∧ MZGFileReader.zfilesize r = len (f_data dst')
    ∧ MZGFileReader.bindex r = MZGFileWriter.m_bindex w'.
Proof.
  destruct toy_sample as (w' & src' & dst' & r & Hrun & Hlen & Hfuel & Hm
                          & Hopen & Hix & Hvt).
  exists w', src', dst', r. split; [exact Hrun|]. split; [exact Hopen|].
  apply (@open_recovers_metadata toy.engine [7; 8; 9] 1000 statics_init
           toy.writer_junk 8 w' src' dst'
           (toy.single "in.mgz" (f_data dst')) "in.mgz" 4 statics_init
           toy.reader_junk r).
  - exact statics_init_intact.
  - reflexivity.
  - reflexivity.
  - exact Hrun.
  - exact Hlen.
  - reflexivity.
  - exact Hfuel.
  - exact Hopen.
Defined.

(** The same file, opened twice by one reader. *)
Lemma reopen_appends_index_witness :
  ∃ w' src' dst' r1 r2,
    @MZGFileWriter.deflate toy.engine 8 (fopen_rb [7; 8; 9]) (fopen_wb [])
      (MZGFileWriter.MZGFileWriter 1000 statics_init toy.writer_junk)
    = Some (0, w', src', dst')
    ∧ MZGFileReader.open 4 (toy.single "in.mgz" (f_data dst')) "in.mgz"
        (MZGFileReader.MZGFileReader statics_init toy.reader_junk)
      = Returns (0, r1)
    ∧ MZGFileReader.open 4 (toy.single "in.mgz" (f_data dst')) "in.mgz"
        (MZGFileReader.close r1)
      = Returns (0, r2)
    ∧ MZGFileReader.bindex r2
      = MZGFileWriter.m_bindex w' ++ MZGFileWriter.m_bindex w'
    ∧ MZGFileReader.ufilesize r2 = len [7; 8; 9].
Proof.
  destruct toy_sample as (w' & src' & dst' & r & Hrun & Hlen & Hfuel & Hm
                          & Hopen & Hix & Hvt).
  destruct (@reopen_appends_index toy.engine [7; 8; 9] [7; 8; 9] 1000 1000
              statics_init statics_init toy.writer_junk toy.writer_junk 8 8
              w' src' dst' w' src' dst'
              (toy.single "in.mgz" (f_data dst')) "in.mgz" "in.mgz" 4
              statics_init toy.reader_junk r)
    as (r2 & H2).
  - exact statics_init_intact.
  - exact statics_init_intact.
  - reflexivity.
  - reflexivity.
  - reflexivity.
  - exact Hrun.
  - exact Hrun.
  - exact Hlen.
  - exact Hlen.
  - reflexivity.
  - reflexivity.
  - exact Hfuel.
  - exact Hfuel.
  - exact Hopen.
  - exists w', src', dst', r, r2. split; [exact Hrun|].
    split; [exact Hopen|]. exact H2.
Defined.

(** A reader over a file of three bytes, sent to the block offset 5. *)
Lemma decompress_past_end_fails_witness :
  ∃ r',
    @mzgzip.decompress toy.engine 1 (5 ≪ 16) (-1) 1
      (MZGFileReader.set_fp (Some (fopen_rb [1; 2; 3])) toy.reader_junk)
    = Returns (-1, [], r')
    ∧ MZGFileReader.eof r' = false.
Proof.
  apply (@decompress_past_end_fails toy.engine 0 (5 ≪ 16) (-1) 1
           (MZGFileReader.set_fp (Some (fopen_rb [1; 2; 3])) toy.reader_junk)
           (fopen_rb [1; 2; 3])).
  - reflexivity.
  - reflexivity.
  - discriminate.
  - discriminate.
  - reflexivity.
Defined.

(** The file for the input 7, 8, 9 and the virtual offset -65535, whose
    low 16 bits are 1. *)
Lemma decompress_overlooks_failed_vseek_witness :
  ∃ r,
    MZGFileReader.open 4 (toy.single "in.mgz" (toy.mgz [7; 8; 9])) "in.mgz"
      (MZGFileReader.MZGFileReader statics_init toy.reader_junk)
    = Returns (0, r)
    ∧ (∃ r1, MZGFileReader.vseek (-65535) r = Returns (1, r1))
    ∧ ∃ fuel' ret r',
        mzgzip.decompress fuel' (-65535) (-1) 5 r
        = Returns (ret, prefix 5 (from (Z.land (-65535) 0xFFFF) [7; 8; 9]),
                   r').
Proof.
  destruct toy_sample as (w' & src' & dst' & r & Hrun & Hlen & Hfuel & Hm
                          & Hopen & Hix & Hvt).
  exists r. split; [rewrite Hm; exact Hopen|].
  apply (@decompress_overlooks_failed_vseek toy.engine toy_codec [7; 8; 9]
           1000 statics_init toy.writer_junk 8 w' src' dst'
           (toy.single "in.mgz" (f_data dst')) "in.mgz" 4 statics_init
           toy.reader_junk r (-65535) (-1) 5).
  - exact statics_init_intact.
  - reflexivity.
  - exact Hrun.
  - exact Hlen.
  - reflexivity.
  - exact Hfuel.
  - exact Hopen.
  - reflexivity.
  - reflexivity.
Defined.
